(* ===== verification/_CoqProject ===== *)
-Q . S2P
Prelude.v
GoFloat.v
GoBase.v
GoHash.v
GoTime.v
Model.v
Json.v
Rules.v
Fixtures.v
RulesValid.v
RulesSpec.v
RulesHistory.v
Store.v
StoreEvaluate.v
Memory.v
Tables.v
Postgres.v
Migrate.v
PostgresProps.v
PostgresInvariant.v
PostgresCommit.v
PostgresOps.v
MemoryProps.v
Engine.v
EngineIndex.v
EngineBatch.v
EngineTrack.v
EngineTrace.v
EngineRecovery.v
EngineEquiv.v
Divergences.v
Service.v
ServiceProps.v
Signals.v
SignalsProps.v
Broker.v
BrokerProps.v
Consume.v
Config.v
Api.v
ApiProps.v
Alertsd.v
Leases.v
Cluster.v
Flags.v
DefinitionFile.v
ImportExport.v
Alertdefs.v
TestClient.v
