(* ===== verification/Prelude.v ===== *)
(** * alertsd: a verified model of the alert service

    This library models the Go program under src/ (module
    github.com/rohanjq/alerts) and proves what makes it correct. It is the root
    of the development; its second half is the prelude the other files share.

    ** The program

    alertsd receives observations: facts about one candle of one market series
    (symbol, time frame, data set), confirmed when the bar closed or
    provisional while it forms. Users define alerts as rules over these facts.
    The engine evaluates every observation against the definitions of its
    series and emits alerts, which a repository stores together with the
    checkpoint of the evaluation, and a publisher delivers from there.

    - [model] (internal/model): the data that all parts exchange.
    - [rules] (internal/rules): validation, compilation and evaluation of a
      rule on an observation and the remembered features of its series.
    - [store] (internal/store): the repository interface, the in-memory and
      PostgreSQL implementations, and a first-generation evaluator.
    - [runtime] (internal/runtime): the engine. It holds the compiled
      definitions by route and, per partition, the state of its series and of
      each definition on each series; [EvaluateBatch] is its one step.
    - [service] (internal/service): checks what comes in, keeps repository and
      engine in step, publishes the outbox.
    - [signals] (internal/signals): the adapter that makes an observation of
      an upstream event.
    - [broker] (internal/broker): the NATS JetStream consumer and publisher.
    - [api] (internal/api), [config] (internal/config): the HTTP control API
      with its two tokens, and the configuration from the environment.
    - [definitionfile] (internal/definitionfile): manifests of definitions and
      the client that exports and imports them.
    - Commands (cmd): alertsd, the server, which puts these together for one
      worker, the owner of some of the 256 partitions of the series;
      alertdefs, which exports and imports manifests; testclient, which
      registers definitions and prints the alerts they give.

    An observation flows: the broker's consumer of its partition
    (consumeBatch) or the HTTP API, the adapter, IngestBatch,
    validateObservation, EvaluateBatch, which reads definitionsFor and the partition's states,
    evaluates, commits a RuntimeBatch (CommitRuntimeBatch) and only then
    advances the memory; only then the broker is told that the message is
    done; and the publisher claims the pending alerts, publishes and marks
    them. A definition flows: Create, repository,
    UpsertDefinition; other replicas see it at the next RefreshDefinitions. A
    restart is Initialize. Workers share one database and keep apart by leases
    on the partitions, which each renews as long as it runs.

    ** The files

    Go's language and standard library, as far as the program uses them:
    - Prelude.v (this file): results of calls, loops, list lemmas, tactics.
    - GoFloat.v: float64 as IEEE binary64 (the Standard Library's SpecFloat),
      comparisons with NaN, [%.nf].
    - GoBase.v: 64-bit wrap-around, strings.Cut/SplitN/TrimSpace,
      strconv.Atoi, FNV-1a.
    - GoHash.v: crypto/sha256 and encoding/hex, computing in the kernel.
    - GoTime.v: time.Time, time.Duration with saturating Sub and wrapping
      multiplication, time.ParseDuration.
    - Json.v: the text json.Marshal writes for series and rules, byte for byte.

    The program:
    - Model.v: internal/model/model.go, every struct as a record.
    - Rules.v: internal/rules/evaluator.go. RulesValid.v (what Validate
      accepts, and that evaluation then never panics), RulesSpec.v (evaluation
      as boolean reading of the leaves, soundness of the dependency mask),
      RulesHistory.v (the temporal rules against a specification over the
      whole past of a series; the parsing of time frames).
    - Store.v: internal/store/store.go. The Go interface is the class
      [Repository] (with [ControlRepository] for what only the service
      calls); [RepositoryLaws] is the contract the engine relies on.
    - StoreEvaluate.v: internal/store/evaluate.go. Memory.v:
      internal/store/memory.go. MemoryProps.v: its theorems, and that it
      obeys the laws ([memory_laws]).
    - Tables.v: the part of PostgreSQL that is used: the tables as records,
      statements, sessions, transactions, and a server whose answers can be
      lost or refused at any exchange. Postgres.v: internal/store/postgres.go,
      every method as a session. Migrate.v: its migrations.
      PostgresInvariant.v (the tables stay in order whatever fails),
      PostgresProps.v (each method's effect; a [Deployment], a database behind
      a server that loses no answer, obeys the laws of the interface, so the
      theorems on the engine and the service hold of it),
      PostgresCommit.v (the transaction of a batch, and what a commit whose
      answer was lost does when it is retried), PostgresOps.v (leases, the
      outbox, retention).
    - Engine.v: internal/runtime/engine.go. EngineIndex.v (the definition
      index implements a list of definitions), EngineBatch.v (atomicity,
      redelivery, resets), EngineTrack.v (one definition on one series,
      followed through a batch), EngineTrace.v (the refinement that results,
      and the trigger policies), EngineRecovery.v (ownership of partitions,
      crash recovery), EngineEquiv.v (the engine does not tell apart states
      that JSON does not).
    - Service.v: internal/service/service.go. ServiceProps.v: its theorems.
    - Signals.v: internal/signals/adapter.go, with the decoding of the
      outputs' JSON on syntax trees. SignalsProps.v: what each event says, by
      its parts.
    - Broker.v: internal/broker/jetstream.go over a NATS client that is the
      class [Client]. BrokerProps.v: the plan by which a batch is settled, what
      an acknowledgement means (a client that records its calls, [recorded]),
      redelivery, streams. Consume.v: all shards of a worker in
      any interleaving of their turns, over the service.
    - Config.v: internal/config/config.go. Api.v: internal/api/server.go, the
      handlers on decoded requests; ApiProps.v: its theorems.
    - Alertsd.v: cmd/alertsd/main.go, starting, renewing leases and ending.
      Leases.v: leases that are renewed in time, or given up. Cluster.v:
      several workers on one database as a step relation.
    - DefinitionFile.v: internal/definitionfile/definitionfile.go over an HTTP
      client that is the class [Transport]. ImportExport.v: that client
      connected to the handlers of Api.v. Flags.v: the package flag.
      Alertdefs.v: cmd/alertdefs/main.go with its files. TestClient.v:
      cmd/testclient/main.go.
    - Divergences.v: theorems that exhibit where the code does not do what it
      means to. Fixtures.v: concrete series, bars and rules for examples.

    Definitions have the names of the Go functions and types they translate;
    the parts of a long function (evaluate, EvaluateBatch) are definitions of
    their own, composed as the function composes them. Two Go functions of
    the same name in different packages have the same name here, in their own
    files; a method whose name is taken has its receiver's name in front
    ([ServiceListAlerts]).

    ** How Go is rendered

    - A struct is a record in a module of its name (for the field names); a
      pointer to a struct that may be nil is an option; a map a [gmap]; a set
      of strings a [gset]; a slice a list; int, int64 and uint64 are [Z] with
      the wrap-around written where the code computes; a string is its bytes.
    - A call that can fail returns [Res] or an option of its error; a run-time
      panic is [Panic] or [None]. [time.Time] is nanoseconds since year 1 in
      UTC: the location and the monotonic clock are dropped, so [UTC] is the
      identity. [time.Now], the iteration order of a map where it can be
      observed, and the time an evaluation takes are arguments.
    - Methods that hold a mutex for their whole body are single steps from a
      state to a state. The engine holds one mutex per partition, so
      EvaluateBatch is one step on its partition; interleavings of partitions
      are the sequences of calls the theorems quantify over.
    - Aliasing: Advance writes into the indicator map it is given. The engine
      only passes maps it made for the batch, and stores the result over the
      state the map came from, so the write is not observable; the model
      returns a new map.
    - An alert's Observation is the JSON of the observation: the model keeps
      the observation itself, or [None] where json.Marshal fails. The hash of
      a definition is computed from the exact bytes (Json.v, GoHash.v).
    - sort.Slice is not stable; the lists it sorts have distinct keys, or the
      order of equal ones is part of the environment.

    ** What is proved

    - Engine: a batch refines, for each definition on each series, a machine
      that reads only that series' observations ([EvaluateBatch_refines]); it
      is total and atomic, ignores redeliveries, survives a crash without
      losing or repeating anything, if no data set or symbol has a slash, and
      every alert can be accounted for;
      cool-downs, once per bar and rising edges are kept over any run; resets
      start a series over; the index holds exactly the definitions it was
      given; partitions are owned by one worker.
    - Rules: Validate accepts exactly the grammar; evaluation terminates
      without panic, is classical where decided, depends only on what the
      mask names; streak, flip and cross mean what they should over the whole
      past although only a window of it is kept.
    - Repository: commits are atomic and idempotent, also when the answer to
      the commit is lost; the tables stay in order under every call and
      fault; the log has dense cursors and pages completely; an alert that was
      claimed rests for thirty seconds, or the backoff after a failure, under
      any other calls; retention deletes nothing that is due; a lease is its
      owner's until it expires; each migration runs once.
    - Service: exactly the admissible observations are accepted; ingestion is
      all or nothing. On the in-memory repository, Create can be repeated, and
      the publisher delivers each pending alert once, in order, and then rests.
    - Signals: the observation, or the error, is the one that a declarative
      reading of the event gives ([observationOf_says]).
    - Broker: every message of a batch is settled by a plan; an
      acknowledgement is issued only for what is in the repository, any number
      of redeliveries changes nothing, and a consumer can stop between any two
      turns of its shards.
    - The server: every configuration that is loaded is well formed, and what
      is put together from it is consistent; a worker does not start on
      leases of another, keeps its own if it renews in time, and is replaced
      when it ends, at once or when its leases expire; workers that evaluate only what they own are in step
      with the database, and without that they are not.
    - Around it: the API answers ingestion errors as documented and guards
      its routes; a manifest accepted by the client is accepted by the
      server; import and export are inverse through the handlers, on the
      in-memory repository; an export to
      a file is atomic whatever file operation fails; the test client prints
      exactly what it acknowledged, and registers the same definitions when it
      is started again.
    - Where the code errs: the clone that copies no indicators, symbols with a
      slash, wrapped cool-downs and time frames, the cool-down a reset
      forgets, on_occurrence in the first-generation evaluator, the reason of
      a negated cross, a disable that enables, the publisher that spins, an
      alert without reasons that blocks its batch on PostgreSQL, intervals
      whose checks wrap, a commit that does not look at the lease, an import
      that switches a disabled definition on when it is repeated on PostgreSQL.

    ** Fuel

    [ParseDuration] runs on the length of its input: each term consumes a byte
    ([durationTerm_length], [durationTerms_fuel]). [sha_blocks] has the number
    of words, each block takes sixteen. [shortestFrom] tries one to seventeen
    digits, which always suffice for a binary64. [pages] and [drain] have fuel
    for the number of pages; [ListAlerts_pages] and [drain_empties] state a
    bound and prove the result, and [drain_spins] is about every fuel.
    Loops that end only when they are told to have as fuel the number of
    turns the process lives: [shardLoop] and [Consume] (a schedule of
    turns), [waitLoop], [renewLeases]; their theorems hold for every fuel.
    Nothing else needs fuel.

    ** Hypotheses

    - [RepositoryLaws]: a commit that succeeded took effect as a whole, one
      that failed left the checkpoint alone; alerts returned are alerts of the
      batch; what was written is loaded again. MemoryProps.v discharges them
      for the memory, PostgresProps.v for a [Deployment]. The checkpoint is
      compared up to what JSON does not tell apart, a nil map and an empty one.
    - [reliable]: the server may refuse any statement, but loses no answer;
      the theorems of PostgresCommit.v do without it.
    - [StreamLaws]: a stream that was added or updated is found as configured;
      [lab_streams] is an instance.
    - [seriesKeyOk]: data set and symbol without a slash; with one, two series
      can share a key and a restart loses state ([slashed_symbol_loses_state]); [noBar]: identifiers without the separator of
      the state keys (the service makes them hexadecimal); [seriesNoNul]:
      no NUL byte, the separator of the routes.
    - [indexOk]: the index is one that the index operations built.

    ** Not modelled

    - Third-party code is a parameter: the NATS client ([Client],
      [AlertClient]), HTTP ([Transport]), what a migration script does.
    - encoding/json beyond what decides behaviour: requests, responses,
      messages and files are the values they decode to or the error of
      decoding; the bytes are modelled where they are hashed or sorted. The
      sign of a zero that omitempty drops is not told apart. The text of the
      metrics and of log lines and error messages is left out.
    - Goroutines: a method under a mutex is one step, and steps are
      interleaved where it matters (Consume.v, Leases.v, Cluster.v); a
      definition update in the middle of another partition's batch, the
      tickers, signals and the HTTP listener are not modelled. What a worker's
      goroutines still do after [run] has released its leases is not, either.
    - Process exit codes and what the package flag prints. *)

From stdpp Require Import base gmap strings list fin_maps sorting numbers.
From Stdlib Require Import SpecFloat.
From Stdlib Require Export ZifyBool.

(** Go strings are byte strings: [String.string] over 8-bit [ascii]. Go's
    [==] on strings and ints, as the boolean tests the code writes. *)
Declare Scope go_scope.
Delimit Scope go_scope with go.
Notation "s == t" := (String.eqb s t) (at level 70, no associativity) : go_scope.
Notation "s != t" := (negb (String.eqb s t)) (at level 70, no associativity) : go_scope.
Open Scope go_scope.

(** The hint and rewrite databases of the development. *)
Create HintDb alerts.
Create Rewrite HintDb alerts.

(** ** Results of a Go call

    [Ok v]: returned with a nil error. [Err e]: returned a non-nil error.
    [Panic]: a run-time panic (nil dereference, slice bounds). *)
Inductive Res (E A : Type) : Type :=
| Ok (v : A)
| Err (e : E)
| Panic.
Arguments Ok {E A} v.
Arguments Err {E A} e.
Arguments Panic {E A}.

(** ** Loops that may panic *)
Section OptionLoops.
Context {A S : Type}.

(** [for _, x := range l { s = f(s, x) }] where the body may panic. *)
Fixpoint loopM (f : S -> A -> option S) (s : S) (l : list A) : option S :=
  match l with
  | [] => Some s
  | x :: rest => s' ← f s x; loopM f s' rest
  end.

Lemma loopM_app f s l1 l2 :
  loopM f s (l1 ++ l2) = s' ← loopM f s l1; loopM f s' l2.
Proof. revert s. induction l1 as [|x l1 IH]; intros s; simpl; [done|].
  destruct (f s x); simpl; auto. Qed.

(** A loop invariant, when the body cannot panic on the elements of the list. *)
Lemma loopM_total (P : S -> Prop) f s l :
  P s ->
  (forall s x, P s -> x ∈ l -> exists s', f s x = Some s' /\ P s') ->
  exists s', loopM f s l = Some s' /\ P s'.
Proof.
  revert s. induction l as [|x l IH]; intros s Hs Hf; simpl; [eauto|].
  destruct (Hf s x Hs) as (s' & -> & Hs'); [set_solver|]. simpl.
  apply IH; [done|]. intros s0 y Hs0 Hy. apply Hf; set_solver.
Qed.

Lemma loopM_is_Some f s l :
  (forall s x, x ∈ l -> exists s', f s x = Some s') -> exists s', loopM f s l = Some s'.
Proof.
  intros H. destruct (loopM_total (fun _ => True) f s l) as (s' & Hs' & _); [done| |eauto].
  intros s0 x _ Hx. destruct (H s0 x Hx). eauto.
Qed.

(** A loop invariant, for a loop known to have finished. *)
Lemma loopM_inv (P : S -> Prop) f s l s' :
  loopM f s l = Some s' ->
  P s ->
  (forall s x s', P s -> x ∈ l -> f s x = Some s' -> P s') ->
  P s'.
Proof.
  revert s. induction l as [|x l IH]; intros s Hl Hs Hf; simpl in Hl; [by simplify_eq|].
  destruct (f s x) as [s1|] eqn:E; simpl in Hl; [|done].
  eapply IH; [done| |].
  - eapply Hf; [done| |done]. set_solver.
  - intros ??? ? ? ?. eapply Hf; [done| |done]. set_solver.
Qed.

Lemma loopM_ext f g s l :
  (forall s x, x ∈ l -> f s x = g s x) -> loopM f s l = loopM g s l.
Proof.
  revert s. induction l as [|x l IH]; intros s H; simpl; [done|].
  rewrite (H s x) by set_solver. destruct (g s x); simpl; [|done].
  apply IH. intros ???. apply H. set_solver.
Qed.
End OptionLoops.

(** Two loops whose bodies keep a relation between their states. *)
Lemma loopM_rel {A S T} (R : S -> T -> Prop) (f : S -> A -> option S) (g : T -> A -> option T) (l : list A) :
  (forall s t x, R s t -> x ∈ l -> option_Forall2 R (f s x) (g t x)) ->
  forall s t, R s t -> option_Forall2 R (loopM f s l) (loopM g t l).
Proof.
  induction l as [|x l IH]; intros Hfg s t Hst; simpl; [by constructor|].
  destruct (Hfg s t x Hst ltac:(set_solver)) as [s' t' Hst'|]; simpl; [|constructor].
  apply IH; [|done]. intros. apply Hfg; set_solver.
Qed.

(** ** The last [n] elements: Go's [l[len(l)-n:]] *)
Definition lastn {A} (n : nat) (l : list A) : list A := drop (length l - n) l.

Section Lastn.
Context {A : Type}.
Implicit Types l : list A.

Lemma length_lastn n l : length (lastn n l) = Nat.min n (length l).
Proof. unfold lastn. rewrite length_drop. lia. Qed.

Lemma lastn_all n l : length l <= n -> lastn n l = l.
Proof. intros. unfold lastn. by replace (length l - n) with 0 by lia. Qed.

Lemma lastn_lastn n m l : n <= m -> lastn n (lastn m l) = lastn n l.
Proof.
  intros. unfold lastn. rewrite drop_drop, length_drop.
  f_equal. lia.
Qed.

Lemma lastn_app_le n l1 l2 : length l2 <= n -> lastn n (l1 ++ l2) = lastn (n - length l2) l1 ++ l2.
Proof.
  intros. unfold lastn. rewrite length_app, drop_app.
  f_equal; [f_equal; lia|].
  by replace (_ - _ - _) with 0 by lia.
Qed.

Lemma lastn_app_ge n l1 l2 : n <= length l2 -> lastn n (l1 ++ l2) = lastn n l2.
Proof.
  intros. unfold lastn. rewrite length_app, drop_app, drop_ge by lia.
  simpl. f_equal. lia.
Qed.

Lemma lastn_snoc n l x : lastn (S n) (l ++ [x]) = lastn n l ++ [x].
Proof. rewrite lastn_app_le by (simpl; lia). simpl. by rewrite Nat.sub_0_r. Qed.

Lemma lastn_elem_of n l x : x ∈ lastn n l -> x ∈ l.
Proof.
  unfold lastn. intros Hx. rewrite <- (take_drop (length l - n) l).
  apply elem_of_app. by right.
Qed.
End Lastn.

Lemma fmap_lastn {A B} (f : A -> B) n (l : list A) : f <$> lastn n l = lastn n (f <$> l).
Proof. unfold lastn. by rewrite fmap_drop, length_fmap. Qed.

Lemma take_length_take {A} n (l : list A) : take (length (take n l)) l = take n l.
Proof.
  rewrite length_take. destruct (Nat.le_ge_cases n (length l)).
  - by rewrite Nat.min_l.
  - rewrite Nat.min_r by done. by rewrite !take_ge by lia.
Qed.

Lemma sublist_Forall {A} (Q : A -> Prop) (l l' : list A) : l `sublist_of` l' -> Forall Q l' -> Forall Q l.
Proof. induction 1 as [|x l l' _ IH|x l l' _ IH]; intros Hl; inversion Hl; subst; auto. Qed.

(** ** Filters *)
Section Filters.
Context {A : Type} (P : A -> Prop) `{!forall x, Decision (P x)}.
Implicit Types l : list A.

Lemma filter_keeps l : Forall P l -> filter P l = l.
Proof.
  induction 1 as [|x l Hx _ IH]; [done|]. rewrite filter_cons, decide_True by done. by rewrite IH.
Qed.

Lemma filter_sublist_mono l1 l2 : l1 `sublist_of` l2 -> filter P l1 `sublist_of` filter P l2.
Proof.
  induction 1 as [|x l1 l2 _ IH|x l1 l2 _ IH]; [done|..]; rewrite !filter_cons;
    case_decide; by constructor || done.
Qed.

Lemma Forall_filter (Q : A -> Prop) l : Forall Q l -> Forall Q (filter P l).
Proof.
  induction 1 as [|x l Hx _ IH]; [done|]. rewrite filter_cons. case_decide; auto.
Qed.

Lemma filter_drops l : Forall (fun x => ~ P x) l -> filter P l = [].
Proof. induction 1 as [|x l Hx _ IH]; [done|]. by rewrite filter_cons, decide_False. Qed.
End Filters.

(** ** Tactics *)

(** Case analysis on the test of an [if] or the subject of a [match] in the
    goal (or in a hypothesis), keeping the equation. *)
Ltac case_goal :=
  match goal with
  | |- context [match ?x with _ => _ end] =>
      lazymatch x with context [match _ with _ => _ end] => fail | _ => destruct x eqn:? end
  end.
Ltac case_hyp H :=
  match type of H with
  | context [match ?x with _ => _ end] =>
      lazymatch x with context [match _ with _ => _ end] => fail | _ => destruct x eqn:? end
  end.

(** Turns boolean facts of the context into propositions. *)
Ltac bool_norm :=
  repeat match goal with
  | H : andb _ _ = true |- _ => apply andb_true_iff in H; destruct H
  | H : orb _ _ = false |- _ => apply orb_false_iff in H; destruct H
  | H : negb _ = true |- _ => apply negb_true_iff in H
  | H : negb _ = false |- _ => apply negb_false_iff in H
  | H : String.eqb _ _ = true |- _ => apply String.eqb_eq in H
  | H : String.eqb _ _ = false |- _ => apply String.eqb_neq in H
  | H : Z.eqb _ _ = true |- _ => apply Z.eqb_eq in H
  | H : Z.eqb _ _ = false |- _ => apply Z.eqb_neq in H
  | H : Z.ltb _ _ = true |- _ => apply Z.ltb_lt in H
  | H : Z.ltb _ _ = false |- _ => apply Z.ltb_ge in H
  | H : Z.leb _ _ = true |- _ => apply Z.leb_le in H
  | H : Z.leb _ _ = false |- _ => apply Z.leb_gt in H
  | H : bool_decide _ = true |- _ => apply bool_decide_eq_true in H
  | H : bool_decide _ = false |- _ => apply bool_decide_eq_false in H
  end.

(** Simplifies the context with the equations and boolean facts in it. *)
Ltac crush_bool := bool_norm; simplify_eq/=; try done; try lia; try congruence.

Lemma eqb_refl_true (s : string) : (s == s) = true.
Proof. apply String.eqb_refl. Qed.

Lemma eqb_neq_false (s t : string) : s <> t -> (s == t) = false.
Proof. apply String.eqb_neq. Qed.

#[export] Hint Rewrite @eqb_refl_true @length_lastn @length_app @length_fmap : alerts.
#[export] Hint Resolve lastn_elem_of : alerts.
