(* ===== verification/GoFloat.v ===== *)
(** * Go's [float64]

    IEEE 754 binary64 as the Standard Library specifies it in [SpecFloat]
    (precision 53, [emax] 1024): zeros, infinities, NaN and signed
    mantissa/exponent pairs, with round-to-nearest-even arithmetic that
    computes in the kernel. Comparisons are Go's: every comparison with a NaN
    is false. The conversions and the [%f] verb the program uses are at the
    end. *)

From stdpp Require Import base strings numbers pretty.
From Stdlib Require Import SpecFloat.
From S2P Require Import Prelude.

Abbreviation float64 := spec_float.

Definition fadd : float64 -> float64 -> float64 := SFadd 53 1024.
Definition fsub : float64 -> float64 -> float64 := SFsub 53 1024.
Definition fmul : float64 -> float64 -> float64 := SFmul 53 1024.
Definition fdiv : float64 -> float64 -> float64 := SFdiv 53 1024.

(** [float64(n)] for an integer [n], rounding to nearest even. *)
Definition float_of_Z (n : Z) : float64 := binary_normalize 53 1024 n 0 false.

(** A decimal constant [n / 10^k] of the source: the nearest binary64. *)
Definition float_const (n : Z) (k : Z) : float64 := fdiv (float_of_Z n) (float_of_Z (10 ^ k)).

Definition fltb (x y : float64) : bool := SFltb x y.
Definition fleb (x y : float64) : bool := SFleb x y.
Definition fgtb (x y : float64) : bool := SFltb y x.
Definition fgeb (x y : float64) : bool := SFleb y x.
Definition feqb (x y : float64) : bool := SFeqb x y.

Notation "x <f y" := (fltb x y) (at level 70, no associativity) : go_scope.
Notation "x <=f y" := (fleb x y) (at level 70, no associativity) : go_scope.
Notation "x >f y" := (fgtb x y) (at level 70, no associativity) : go_scope.
Notation "x >=f y" := (fgeb x y) (at level 70, no associativity) : go_scope.

(** [math.IsNaN] and [math.IsInf(_, 0)]. *)
Definition isNaN (x : float64) : bool := match x with S754_nan => true | _ => false end.
Definition isInf (x : float64) : bool := match x with S754_infinity _ => true | _ => false end.
Definition isFinite (x : float64) : bool := negb (isNaN x || isInf x).

(** ** Comparison lemmas *)

Lemma compare_cont_antisym (c : comparison) (p q : positive) :
  Pos.compare_cont (CompOpp c) q p = CompOpp (Pos.compare_cont c p q).
Proof. symmetry. apply Pos.compare_cont_antisym. Qed.

Lemma SFcompare_antisym (x y : float64) :
  SFcompare y x = CompOpp <$> SFcompare x y.
Proof.
  destruct x as [sx|sx| |sx mx ex], y as [sy|sy| |sy my ey]; simpl; try done;
    try (by destruct sx); try (by destruct sy); try (by destruct sx, sy).
  pose proof (compare_cont_antisym Eq mx my) as Hm. simpl in Hm.
  rewrite (Z.compare_antisym ex ey), Hm.
  destruct sx, sy; simpl; try done; destruct (Z.compare ex ey); simpl; try done;
    by destruct (Pos.compare_cont Eq mx my).
Qed.

Lemma fltb_asym (x y : float64) : (x <f y) = true -> (y <f x) = false.
Proof.
  unfold fltb, SFltb. rewrite (SFcompare_antisym x y).
  destruct (SFcompare x y) as [[]|]; simpl; congruence.
Qed.

Lemma fltb_irrefl (x : float64) : (x <f x) = false.
Proof. destruct (x <f x) eqn:E; [|done]. by rewrite (fltb_asym x x E) in E. Qed.

Lemma fltb_fleb (x y : float64) : (x <f y) = true -> (x <=f y) = true.
Proof. unfold fltb, fleb, SFltb, SFleb. by destruct (SFcompare x y) as [[]|]. Qed.

Lemma fleb_not_fltb (x y : float64) : (x <=f y) = true -> (y <f x) = false.
Proof.
  unfold fltb, fleb, SFltb, SFleb. rewrite (SFcompare_antisym x y).
  by destruct (SFcompare x y) as [[]|].
Qed.

(** Two numbers compare unless one is a NaN. *)
Lemma fltb_trichotomy (x y : float64) :
  isNaN x = false -> isNaN y = false ->
  (x <f y) = true \/ (y <f x) = true \/ feqb x y = true.
Proof.
  intros Hx Hy.
  assert (exists c, SFcompare x y = Some c) as [c Hc].
  { destruct x, y; simpl in *; try done; eauto. }
  unfold fltb, feqb, SFltb, SFeqb. rewrite (SFcompare_antisym x y), Hc.
  destruct c; simpl; auto.
Qed.

(** ** The [%.<prec>f] verb of [fmt.Sprintf]

    [strconv.AppendFloat(_, x, 'f', prec, 64)] rounds the exact decimal
    expansion half to even; [fmt] prints a [+] before an infinity only. *)
Definition roundHalfEven (num den : Z) : Z :=
  let q := (num / den)%Z in
  let r := (num mod den)%Z in
  match (2 * r ?= den)%Z with
  | Lt => q
  | Gt => q + 1
  | Eq => if Z.even q then q else q + 1
  end%Z.

Definition padZeros (width : nat) (s : string) : string :=
  String.concat "" (replicate (width - String.length s) "0") +:+ s.

Definition fmtF (prec : nat) (x : float64) : string :=
  let sign (s : bool) : string := if s then "-" else "" in
  match x with
  | S754_nan => "NaN"
  | S754_infinity s => if s then "-Inf" else "+Inf"
  | S754_zero s => sign s +:+ "0." +:+ padZeros prec ""
  | S754_finite s m e =>
      let scale := (10 ^ Z.of_nat prec)%Z in
      let n := (if 0 <=? e then Z.pos m * 2 ^ e * scale
                else roundHalfEven (Z.pos m * scale) (2 ^ (- e)))%Z in
      sign s +:+ pretty (n / scale)%Z +:+ "." +:+ padZeros prec (pretty (n mod scale)%Z)
  end.

Example fmtF_half_even : fmtF 2 (float_const 125 3) = "0.12".
Proof. vm_compute. reflexivity. Qed.

Example fmtF_third : fmtF 1 (fdiv (float_of_Z 155) (float_of_Z 3)) = "51.7".
Proof. vm_compute. reflexivity. Qed.
