(* ===== verification/GoBase.v ===== *)
(** * Go's integers, strings, [strconv], and the two hashes the program uses

    Machine integers are [Z] with the wrap-around written out. Strings are
    byte strings. [hash/fnv] (32-bit FNV-1a) and [crypto/sha256] are computed,
    so partitions and deterministic identifiers evaluate. *)

From stdpp Require Import base list strings numbers pretty.
From Stdlib Require Import Ascii.
From S2P Require Import Prelude.

(** ** Machine integers *)

Definition wrapS (w n : Z) : Z := ((n + 2 ^ (w - 1)) mod 2 ^ w - 2 ^ (w - 1))%Z.
Definition wrapU (w n : Z) : Z := (n mod 2 ^ w)%Z.
Definition int64 (n : Z) : Z := wrapS 64 n.
Definition uint64 (n : Z) : Z := wrapU 64 n.
Definition minInt64 : Z := (- 2 ^ 63)%Z.
Definition maxInt64 : Z := (2 ^ 63 - 1)%Z.

Lemma int64_id (n : Z) : (minInt64 <= n <= maxInt64)%Z -> int64 n = n.
Proof.
  unfold int64, wrapS, minInt64, maxInt64. intros H.
  rewrite Z.mod_small; lia.
Qed.

Lemma int64_range (n : Z) : (minInt64 <= int64 n <= maxInt64)%Z.
Proof.
  unfold int64, wrapS, minInt64, maxInt64.
  pose proof (Z.mod_pos_bound (n + 2 ^ (64 - 1)) (2 ^ 64) ltac:(lia)). lia.
Qed.

(** ** Strings *)

Definition nul : string := String Ascii.zero EmptyString.

Definition byteZ (c : ascii) : Z := Z.of_N (N_of_ascii c).

Fixpoint bytesOf (s : string) : list Z :=
  match s with
  | EmptyString => []
  | String c rest => byteZ c :: bytesOf rest
  end.

(** [strings.Cut(s, sep)] for a one-byte separator: before, after, found. *)
Fixpoint cut (sep : ascii) (s : string) : string * string * bool :=
  match s with
  | EmptyString => (EmptyString, EmptyString, false)
  | String c rest =>
      if Ascii.eqb c sep then (EmptyString, rest, true)
      else let '(b, a, found) := cut sep rest in (String c b, a, found)
  end.

(** [strings.SplitN(s, sep, n)] for a one-byte separator and [n >= 1]. *)
Fixpoint splitN (sep : ascii) (n : nat) (s : string) : list string :=
  match n with
  | 0 => []
  | 1 => [s]
  | S n' => let '(b, a, found) := cut sep s in
            if found then b :: splitN sep n' a else [s]
  end.

(** A byte that occurs nowhere in a string. *)
Fixpoint absent (c : ascii) (s : string) : bool :=
  match s with
  | EmptyString => true
  | String d rest => negb (Ascii.eqb d c) && absent c rest
  end.

Lemma cut_absent (sep : ascii) (b a : string) :
  absent sep b = true ->
  cut sep (b +:+ String sep EmptyString +:+ a) = (b, a, true).
Proof.
  induction b as [|c b IH]; simpl; intros H.
  - by rewrite Ascii.eqb_refl.
  - apply andb_true_iff in H as [Hc Hb]. apply negb_true_iff in Hc.
    rewrite Hc, IH by done. done.
Qed.

(** [strings.HasPrefix] and [strings.TrimPrefix]. *)
Definition hasPrefix (s pre : string) : bool := String.prefix pre s.
Definition trimPrefix (s pre : string) : string :=
  if hasPrefix s pre then String.substring (String.length pre) (String.length s) s else s.

(** The last byte of a string and what precedes it. *)
Definition lastByte (s : string) : option ascii := String.get (String.length s - 1) s.
Definition dropLast (s : string) : string := String.substring 0 (String.length s - 1) s.

Definition hasSuffixByte (s : string) (c : ascii) : bool :=
  match lastByte s with Some d => Ascii.eqb d c | None => false end.

(** [strings.TrimSpace(s) == ""]: every rune of [s] is Unicode white space
    (UTF-8 encodings of U+0009-000D, 0020, 0085, 00A0, 1680, 2000-200A, 2028,
    2029, 202F, 205F, 3000). *)
Fixpoint blankBytes (l : list Z) : bool :=
  match l with
  | [] => true
  | c :: rest =>
      if ((9 <=? c) && (c <=? 13) || (c =? 32))%Z then blankBytes rest
      else match rest with
      | d :: rest1 =>
          if ((c =? 194) && ((d =? 133) || (d =? 160)))%Z then blankBytes rest1
          else match rest1 with
          | e :: rest2 =>
              if ((c =? 225) && (d =? 154) && (e =? 128)
                  || (c =? 226) && (d =? 128) && ((128 <=? e) && (e <=? 138) || (e =? 168) || (e =? 169) || (e =? 175))
                  || (c =? 226) && (d =? 129) && (e =? 159)
                  || (c =? 227) && (d =? 128) && (e =? 128))%Z
              then blankBytes rest2 else false
          | [] => false
          end
      | [] => false
      end
  end.
Definition isBlank (s : string) : bool := blankBytes (bytesOf s).

(** [a < b] on strings: bytewise lexicographic. *)
Definition string_lt (a b : string) : bool := String.ltb a b.

(** ** [strconv] *)

Definition isDigit (c : Z) : bool := ((48 <=? c) && (c <=? 57))%Z.

(** The value of a non-empty run of decimal digits. *)
Fixpoint digitsValue (acc : Z) (l : list Z) : option Z :=
  match l with
  | [] => Some acc
  | c :: rest => if isDigit c then digitsValue (acc * 10 + (c - 48)) rest else None
  end%Z.

(** [strconv.ParseInt(s, 10, 64)] and [strconv.Atoi]: an optional sign, at
    least one digit, and a value that fits in 64 bits; [None] is an error. *)
Definition splitSign (l : list Z) : bool * list Z :=
  match l with
  | c :: rest => if (c =? 45)%Z then (true, rest)
                 else if (c =? 43)%Z then (false, rest) else (false, l)
  | [] => (false, [])
  end.

Definition atoi (s : string) : option Z :=
  let '(neg, l) := splitSign (bytesOf s) in
  match l with
  | [] => None
  | _ => v ← digitsValue 0 l;
         let v := (if neg : bool then - v else v)%Z in
         if ((minInt64 <=? v) && (v <=? maxInt64))%Z then Some v else None
  end.

Lemma atoi_range (s : string) (v : Z) : atoi s = Some v -> (minInt64 <= v <= maxInt64)%Z.
Proof.
  unfold atoi. destruct (splitSign _) as [neg [|c l]]; [done|].
  destruct (digitsValue 0 (c :: l)) as [n|]; simpl; [|done].
  destruct (_ && _) eqn:E; [|done]. intros [= <-]. crush_bool.
Qed.

(** Parsing what [%d] prints. *)
Lemma byteZ_digit (d : N) : (d < 10)%N -> byteZ (pretty_N_char d) = (48 + Z.of_N d)%Z.
Proof.
  intros Hd. assert (d = 0 \/ d = 1 \/ d = 2 \/ d = 3 \/ d = 4 \/ d = 5 \/ d = 6 \/ d = 7 \/ d = 8 \/ d = 9)%N
    as Hcases by lia.
  repeat (destruct Hcases as [->|Hcases]; [reflexivity|]). by subst d.
Qed.

Lemma digitsValue_pretty_go (n : N) (s : string) :
  digitsValue 0 (bytesOf (pretty_N_go n s)) = digitsValue (Z.of_N n) (bytesOf s).
Proof.
  revert s. induction (N.lt_wf_0 n) as [n _ IH]. intros s.
  destruct (decide (n = 0)%N) as [->|Hn]; [by rewrite pretty_N_go_0|].
  rewrite pretty_N_go_step by lia. rewrite IH by (apply N.div_lt; lia).
  simpl. rewrite byteZ_digit by (apply N.mod_lt; lia).
  assert (0 <= Z.of_N (n mod 10) < 10)%Z as Hd .
  { pose proof (N.mod_lt n 10 ltac:(done)). change 10%Z with (Z.of_N 10).
    split; [apply N2Z.is_nonneg|by apply N2Z.inj_lt]. }
  unfold isDigit. rewrite (proj2 (andb_true_iff _ _)) by lia.
  f_equal. rewrite N2Z.inj_div, N2Z.inj_mod. pose proof (Z.div_mod (Z.of_N n) 10 ltac:(lia)). lia.
Qed.

Lemma digitsValue_pretty (n : N) : digitsValue 0 (bytesOf (pretty n)) = Some (Z.of_N n).
Proof.
  unfold pretty, pretty_N. case_decide; [by subst n|]. by rewrite digitsValue_pretty_go.
Qed.

(** A number that was read starts with a digit, not with a sign. *)
Lemma splitSign_digits (l : list Z) (v : Z) :
  l <> [] -> digitsValue 0 l = Some v -> splitSign l = (false, l).
Proof.
  destruct l as [|c l]; [done|]. intros _. simpl. unfold isDigit. destruct (_ && _) eqn:E; [|done].
  intros _. replace (c =? 45)%Z with false by lia. by replace (c =? 43)%Z with false by lia.
Qed.

Lemma atoi_pretty (n : Z) : (minInt64 <= n <= maxInt64)%Z -> atoi (pretty n) = Some n.
Proof.
  intros Hn. assert (forall p, digitsValue 0 (bytesOf (pretty (N.pos p))) = Some (Z.pos p)) as Hp.
  { intros p. by rewrite digitsValue_pretty. }
  assert (forall p, bytesOf (pretty (N.pos p)) <> []) as Hne.
  { intros p Heq. specialize (Hp p). by rewrite Heq in Hp. }
  unfold atoi. destruct n as [|p|p]; [reflexivity| |]; specialize (Hp p); specialize (Hne p).
  - change (pretty (Z.pos p)) with (pretty (N.pos p)). rewrite (splitSign_digits _ _ Hne Hp).
    destruct (bytesOf (pretty (N.pos p))) as [|c l]; [done|]. rewrite Hp. simpl option_bind.
    change (mbind ?f (Some ?x)) with (f x). cbv beta. by rewrite (proj2 (andb_true_iff _ _)) by lia.
  - change (pretty (Z.neg p)) with (String "-"%char (pretty (N.pos p))).
    change (bytesOf (String "-"%char ?x)) with (45%Z :: bytesOf x).
    change (splitSign (45%Z :: ?l)) with (true, l). cbv beta iota.
    destruct (bytesOf (pretty (N.pos p))) as [|c l]; [done|]. rewrite Hp.
    change (mbind ?f (Some ?x)) with (f x). cbv beta. change (- Z.pos p)%Z with (Z.neg p).
    by rewrite (proj2 (andb_true_iff _ _)) by lia.
Qed.

Example atoi_200 : atoi "200" = Some 200%Z.
Proof. reflexivity. Qed.

Example atoi_bad : atoi "2x" = None.
Proof. reflexivity. Qed.

(** ** 32-bit FNV-1a ([hash/fnv.New32a]) *)
Definition fnv32a (s : string) : Z :=
  foldl (fun h c => wrapU 32 (Z.lxor h c * 16777619)) 2166136261%Z (bytesOf s).

Lemma fnv32a_nonneg (s : string) : (0 <= fnv32a s)%Z.
Proof.
  unfold fnv32a.
  cut (forall l h, (0 <= h)%Z ->
    (0 <= foldl (fun h c => wrapU 32 (Z.lxor h c * 16777619)) h l)%Z).
  { intros H. apply H. lia. }
  induction l as [|c l IH]; intros h Hh; simpl; [done|].
  apply IH. unfold wrapU. apply Z.mod_pos_bound. lia.
Qed.

Example fnv32a_a : fnv32a "a" = 3826002220%Z.
Proof. vm_compute. reflexivity. Qed.
