(* ===== verification/GoHash.v ===== *)
(** * [crypto/sha256] and [encoding/hex]

    SHA-256 (FIPS 180-4) over a list of bytes, on 32-bit words kept as [Z],
    and the lower-case hexadecimal encoding. Both compute in the kernel, so
    the identifiers the program derives from them evaluate. *)

From stdpp Require Import base list strings numbers.
From Stdlib Require Import Ascii.
From S2P Require Import Prelude GoBase.

Definition add32 (a b : Z) : Z := wrapU 32 (a + b).
Definition rotr32 (n x : Z) : Z := Z.lor (Z.shiftr x n) (wrapU 32 (Z.shiftl x (32 - n))).
Definition not32 (x : Z) : Z := (2 ^ 32 - 1 - x)%Z.

Definition sha_k : list Z :=
 [1116352408; 1899447441; 3049323471; 3921009573; 961987163; 1508970993; 2453635748; 2870763221;
  3624381080; 310598401; 607225278; 1426881987; 1925078388; 2162078206; 2614888103; 3248222580;
  3835390401; 4022224774; 264347078; 604807628; 770255983; 1249150122; 1555081692; 1996064986;
  2554220882; 2821834349; 2952996808; 3210313671; 3336571891; 3584528711; 113926993; 338241895;
  666307205; 773529912; 1294757372; 1396182291; 1695183700; 1986661051; 2177026350; 2456956037;
  2730485921; 2820302411; 3259730800; 3345764771; 3516065817; 3600352804; 4094571909; 275423344;
  430227734; 506948616; 659060556; 883997877; 958139571; 1322822218; 1537002063; 1747873779;
  1955562222; 2024104815; 2227730452; 2361852424; 2428436474; 2756734187; 3204031479; 3329325298]%Z.

Definition sha_h0 : list Z :=
 [1779033703; 3144134277; 1013904242; 2773480762; 1359893119; 2600822924; 528734635; 1541459225]%Z.

(** Padding: a 1 bit, zeros, and the 64-bit big-endian bit length. *)
Definition be_bytes (n : nat) (x : Z) : list Z :=
  (fun i => wrapU 8 (Z.shiftr x (8 * Z.of_nat (n - 1 - i)))) <$> seq 0 n.

Definition sha_pad (msg : list Z) : list Z :=
  let len := length msg in
  let zeros := (119 - len mod 64) mod 64 in
  msg ++ [128%Z] ++ replicate zeros 0%Z ++ be_bytes 8 (8 * Z.of_nat len).

Fixpoint words (l : list Z) : list Z :=
  match l with
  | a :: b :: c :: d :: rest => (a * 2 ^ 24 + b * 2 ^ 16 + c * 2 ^ 8 + d)%Z :: words rest
  | _ => []
  end.

(** The message schedule, kept reversed: the newest word first. *)
Definition sha_extend (w : list Z) : list Z :=
  let at_ n := nth n w 0%Z in
  let x15 := at_ 14 in let x2 := at_ 1 in
  let s0 := Z.lxor (Z.lxor (rotr32 7 x15) (rotr32 18 x15)) (Z.shiftr x15 3) in
  let s1 := Z.lxor (Z.lxor (rotr32 17 x2) (rotr32 19 x2)) (Z.shiftr x2 10) in
  add32 (add32 (at_ 15) s0) (add32 (at_ 6) s1) :: w.

Definition sha_schedule (block : list Z) : list Z :=
  rev (Nat.iter 48 sha_extend (rev block)).

Definition sha_round (st : list Z) (kw : Z * Z) : list Z :=
  match st with
  | [a; b; c; d; e; f; g; h] =>
      let s1 := Z.lxor (Z.lxor (rotr32 6 e) (rotr32 11 e)) (rotr32 25 e) in
      let ch := Z.lxor (Z.land e f) (Z.land (not32 e) g) in
      let t1 := add32 (add32 h s1) (add32 ch (add32 kw.1 kw.2)) in
      let s0 := Z.lxor (Z.lxor (rotr32 2 a) (rotr32 13 a)) (rotr32 22 a) in
      let maj := Z.lxor (Z.lxor (Z.land a b) (Z.land a c)) (Z.land b c) in
      [add32 t1 (add32 s0 maj); a; b; c; add32 d t1; e; f; g]
  | _ => st
  end.

Definition sha_block (h : list Z) (block : list Z) : list Z :=
  zip_with add32 h (foldl sha_round h (zip sha_k (sha_schedule block))).

(** Blocks of sixteen words; the fuel is the number of words, one more than
    the number of blocks can be. *)
Fixpoint sha_blocks (fuel : nat) (h : list Z) (ws : list Z) : list Z :=
  match fuel, ws with
  | 0, _ | _, [] => h
  | S fuel', _ => sha_blocks fuel' (sha_block h (take 16 ws)) (drop 16 ws)
  end.

(** [sha256.Sum256]: 32 bytes. *)
Definition sha256 (msg : list Z) : list Z :=
  let ws := words (sha_pad msg) in
  mjoin (be_bytes 4 <$> sha_blocks (length ws) sha_h0 ws).

(** [hex.EncodeToString]. *)
Definition hexDigit (n : Z) : ascii :=
  ascii_of_N (Z.to_N (if n <? 10 then 48 + n else 87 + n)%Z).

Fixpoint hexEncode (l : list Z) : string :=
  match l with
  | [] => EmptyString
  | b :: rest => String (hexDigit (b / 16)) (String (hexDigit (b mod 16)) (hexEncode rest))
  end.

Example sha256_abc :
  hexEncode (sha256 (bytesOf "abc"))
  = "ba7816bf8f01cfea414140de5dae2223b00361a396177a9cb410ff61f20015ad".
Proof. vm_compute. reflexivity. Qed.

Example sha256_two_blocks :
  hexEncode (sha256 (bytesOf "abcdbcdecdefdefgefghfghighijhijkijkljklmklmnlmnomnopnopq"))
  = "248d6a61d20638b8e5c026930c3e6039a33ce45964ff2167f6ecedd419db06c1".
Proof. vm_compute. reflexivity. Qed.

(** The UUID-shaped rendering of sixteen bytes that the program uses. *)
Definition uuidShape (raw : string) : string :=
  String.substring 0 8 raw +:+ "-" +:+ String.substring 8 4 raw +:+ "-" +:+
  String.substring 12 4 raw +:+ "-" +:+ String.substring 16 4 raw +:+ "-" +:+
  String.substring 20 12 raw.
