(* ===== verification/GoTime.v ===== *)
(** * Go's [time.Time] and [time.Duration]

    An instant is the number of nanoseconds since the zero [Time] (January 1,
    year 1, 00:00 UTC), so [IsZero] is the test for 0. The location and the
    monotonic reading are left out: the program compares instants only, and
    [UTC] is then the identity. A [Duration] is a 64-bit integer: sums and
    products wrap, and [Sub] saturates, as the [time] package documents. *)

From stdpp Require Import base list strings numbers.
From Stdlib Require Import Ascii SpecFloat.
From S2P Require Import Prelude GoFloat GoBase.

Definition Time := Z.
Definition Duration := Z.
Bind Scope Z_scope with Time.
Bind Scope Z_scope with Duration.

Definition zeroTime : Time := 0%Z.
Definition IsZero (t : Time) : bool := (t =? 0)%Z.
Definition Before (t u : Time) : bool := (t <? u)%Z.
Definition After (t u : Time) : bool := (u <? t)%Z.
Definition Equal (t u : Time) : bool := (t =? u)%Z.
Definition UTC (t : Time) : Time := t.
Definition Add (t : Time) (d : Duration) : Time := (t + d)%Z.

(** [t.Sub(u)]: the difference, or the nearest extreme duration. *)
Definition Sub (t u : Time) : Duration := Z.max minInt64 (Z.min maxInt64 (t - u)).

Definition Nanosecond : Duration := 1%Z.
Definition Millisecond : Duration := 1000000%Z.
Definition Second : Duration := 1000000000%Z.
Definition Minute : Duration := (60 * Second)%Z.
Definition Hour : Duration := (60 * Minute)%Z.

(** The product of two durations in Go: 64-bit, wrapping. *)
Definition mulDur (a b : Duration) : Duration := int64 (a * b).

(** [d.Seconds()]. *)
Definition Seconds (d : Duration) : float64 :=
  fadd (float_of_Z (Z.quot d Second)) (fdiv (float_of_Z (Z.rem d Second)) (float_of_Z 1000000000)).

Lemma Sub_exact (t u : Time) : (minInt64 <= t - u <= maxInt64)%Z -> Sub t u = (t - u)%Z.
Proof. unfold Sub. lia. Qed.

Lemma Sub_range (t u : Time) : (minInt64 <= Sub t u <= maxInt64)%Z.
Proof. unfold Sub, minInt64, maxInt64. lia. Qed.

Lemma Sub_ge (t u : Time) (d : Duration) :
  (0 <= d <= maxInt64)%Z -> (d <= Sub t u)%Z -> (d <= t - u)%Z.
Proof. unfold Sub, minInt64, maxInt64. lia. Qed.

(** ** [time.ParseDuration] *)

Definition two63 : Z := (2 ^ 63)%Z.

(** [leadingInt]: the value of the leading digits and what follows them;
    [None] on overflow. *)
Fixpoint leadingInt (x : Z) (s : list Z) : option (Z * list Z) :=
  match s with
  | c :: rest =>
      if isDigit c then
        if (x >? two63 / 10)%Z then None
        else let y := (x * 10 + (c - 48))%Z in
             if (y >? two63)%Z then None else leadingInt y rest
      else Some (x, s)
  | [] => Some (x, s)
  end.

(** [leadingFraction]: value and scale of the leading digits; digits past the
    point where the value would overflow are skipped. *)
Fixpoint leadingFraction (x : Z) (scale : float64) (overflow : bool) (s : list Z)
  : Z * float64 * list Z :=
  match s with
  | c :: rest =>
      if isDigit c then
        if overflow then leadingFraction x scale true rest
        else if (x >? maxInt64 / 10)%Z then leadingFraction x scale true rest
        else let y := (x * 10 + (c - 48))%Z in
             if (y >? two63)%Z then leadingFraction x scale true rest
             else leadingFraction y (fmul scale (float_of_Z 10)) false rest
      else (x, scale, s)
  | [] => (x, scale, s)
  end.

(** The unit: the bytes up to the next digit or dot. *)
Fixpoint spanUnit (s : list Z) : list Z * list Z :=
  match s with
  | c :: rest =>
      if (c =? 46)%Z || isDigit c then ([], s)
      else let '(u, r) := spanUnit rest in (c :: u, r)
  | [] => ([], [])
  end.

Definition unitMap (u : list Z) : option Duration :=
  if decide (u = bytesOf "ns") then Some Nanosecond
  else if decide (u = bytesOf "us") then Some 1000%Z
  else if decide (u = [194; 181; 115]%Z) then Some 1000%Z
  else if decide (u = [206; 188; 115]%Z) then Some 1000%Z
  else if decide (u = bytesOf "ms") then Some Millisecond
  else if decide (u = bytesOf "s") then Some Second
  else if decide (u = bytesOf "m") then Some Minute
  else if decide (u = bytesOf "h") then Some Hour
  else None.

(** [uint64(f)] for a non-negative float below 2^64. *)
Definition truncate (f : float64) : Z :=
  match f with
  | S754_finite false m e => if (0 <=? e)%Z then (Z.pos m * 2 ^ e)%Z else (Z.pos m / 2 ^ (- e))%Z
  | _ => 0%Z
  end.

(** One number-and-unit term: its nanoseconds and the rest of the input. *)
Definition durationTerm (s : list Z) : option (Z * list Z) :=
  match s with
  | [] => None
  | c :: _ =>
    if negb ((c =? 46)%Z || isDigit c) then None else
    '(v, s1) ← leadingInt 0 s;
    let pre := negb (length s1 =? length s)%nat in
    let '(f, scale, s2, post) :=
      match s1 with
      | 46%Z :: s' => let '(f, scale, s2) := leadingFraction 0 (float_of_Z 1) false s' in
                      (f, scale, s2, negb (length s2 =? length s')%nat)
      | _ => (0%Z, float_of_Z 1, s1, false)
      end in
    if negb pre && negb post then None else
    let '(u, s3) := spanUnit s2 in
    match u with
    | [] => None
    | _ =>
      unit ← unitMap u;
      if (v >? two63 / unit)%Z then None else
      let v1 := (v * unit)%Z in
      let v2 := if (f >? 0)%Z
                then (v1 + truncate (fmul (float_of_Z f) (fdiv (float_of_Z unit) scale)))%Z
                else v1 in
      if (v2 >? two63)%Z then None else Some (v2, s3)
    end
  end.

(** The loop over the terms. Every term consumes at least one byte, so the
    length of the input is enough fuel. *)
Fixpoint durationTerms (fuel : nat) (d : Z) (s : list Z) : option Z :=
  match s with
  | [] => Some d
  | _ =>
    match fuel with
    | 0 => None
    | S fuel' =>
      '(v, rest) ← durationTerm s;
      if (d + v >? two63)%Z then None else durationTerms fuel' (d + v) rest
    end
  end.

(** [time.ParseDuration]; [None] is an error. *)
Definition ParseDuration (str : string) : option Duration :=
  let '(neg, s) := splitSign (bytesOf str) in
  if decide (s = [48%Z]) then Some 0%Z else
  match s with
  | [] => None
  | _ =>
    d ← durationTerms (length s) 0 s;
    if neg then Some (int64 (- d))
    else if (d >? maxInt64)%Z then None else Some d
  end.

Example parse_1m : ParseDuration "1m" = Some Minute.
Proof. vm_compute. reflexivity. Qed.

Example parse_mixed : ParseDuration "-1h15m30.918s" = Some (-4530918000000)%Z.
Proof. vm_compute. reflexivity. Qed.

Example parse_no_unit : ParseDuration "15" = None.
Proof. vm_compute. reflexivity. Qed.

(** ** The fuel of [ParseDuration] suffices *)

Lemma leadingInt_length s : forall x v rest,
  leadingInt x s = Some (v, rest) -> length rest <= length s.
Proof.
  induction s as [|c s IH]; intros x v rest; simpl; [by intros [= _ <-]|].
  repeat case_goal; try done; [intros H%IH; lia|intros [= _ <-]; simpl; lia].
Qed.

Lemma leadingFraction_length s : forall x scale ov f sc rest,
  leadingFraction x scale ov s = (f, sc, rest) -> length rest <= length s.
Proof.
  induction s as [|c s IH]; intros x scale ov f sc rest; simpl; [by intros [= _ _ <-]|].
  repeat case_goal; try (intros H%IH; lia); intros [= _ _ <-]; simpl; lia.
Qed.

Lemma spanUnit_length s : forall u rest,
  spanUnit s = (u, rest) -> length u + length rest = length s.
Proof.
  induction s as [|c s IH]; intros u rest; simpl; [by intros [= <- <-]|].
  case_goal; [by intros [= <- <-]|].
  destruct (spanUnit s) as [u' r'] eqn:E. intros [= <- <-]. simpl. by rewrite (IH _ _ eq_refl).
Qed.

(** Every term consumes at least its unit. *)
Lemma durationTerm_length s v rest : durationTerm s = Some (v, rest) -> length rest < length s.
Proof.
  unfold durationTerm. destruct s as [|c s0]; [done|]. set (s := c :: s0).
  case_goal; [done|].
  destruct (leadingInt 0 s) as [[v0 s1]|] eqn:E1; [|done].
  apply leadingInt_length in E1. cbn [mbind option_bind].
  match goal with |- context [match s1 with _ => _ end] =>
    destruct (match s1 with
      | 46%Z :: s' => let '(f, scale, s2) := leadingFraction 0 (float_of_Z 1) false s' in
                      (f, scale, s2, negb (length s2 =? length s')%nat)
      | _ => (0%Z, float_of_Z 1, s1, false)
      end) as [[[f scale] s2] post] eqn:E2 end.
  assert (length s2 <= length s1) as Hs2.
  { destruct s1 as [|[|p|p] s1]; try by simplify_eq.
    repeat (destruct p as [p|p|]; try by simplify_eq).
    destruct (leadingFraction _ _ _ _) as [[f' sc'] s2'] eqn:E3. apply leadingFraction_length in E3.
    simplify_eq/=. lia. }
  clear E2. case_goal; [done|].
  destruct (spanUnit s2) as [u s3] eqn:E3. apply spanUnit_length in E3.
  destruct u as [|b u]; [done|]. simpl in E3.
  destruct (unitMap _); cbn [mbind option_bind]; [|done].
  repeat case_goal; try done; intros [= _ <-]; lia.
Qed.

(** The bound on the recursion is never what stops the loop. *)
Lemma durationTerms_fuel : forall n m d s,
  length s <= n -> length s <= m -> durationTerms n d s = durationTerms m d s.
Proof.
  induction n as [|n IH]; intros m d s Hn Hm.
  - destruct s; simpl in *; [|lia]. by destruct m.
  - destruct s as [|c s]; [by destruct m|]. destruct m as [|m]; [simpl in *; lia|].
    cbn [durationTerms].
    destruct (durationTerm (c :: s)) as [[v rest]|] eqn:E; cbn [mbind option_bind]; [|done].
    apply durationTerm_length in E. case_goal; [done|].
    apply IH; simpl in *; lia.
Qed.
