(* ===== verification/Model.v ===== *)
(** * internal/model/model.go: the data of the program

    One Module per Go struct, with the struct's fields under their Go names.
    Integers are [Z] (the 64-bit [uint64] fields [Revision] and [Trades] are
    only compared and copied, so no wrap-around arises), [float64] is binary64,
    a nil-able map is an [option] of a [gmap], and a slice is a list. *)

From stdpp Require Import base gmap strings list.
From Stdlib Require Import Ascii.
From S2P Require Import Prelude GoFloat GoBase GoTime.

Module Series.
Record Series := mk { Dataset : string; Symbol : string; Timeframe : string }.
#[global] Instance Series_eq_dec : EqDecision Series.
Proof. solve_decision. Defined.

(** [func (s Series) Key() string]. *)
Definition Key (s : Series) : string := s.(Dataset) +:+ "/" +:+ s.(Symbol) +:+ "/" +:+ s.(Timeframe).
End Series.
Abbreviation Series := Series.Series.

Module Candle.
Record Candle := mk {
  OpenTime : Time; Open : float64; High : float64; Low : float64; Close : float64;
  Volume : float64; Trades : Z }.
End Candle.
Abbreviation Candle := Candle.Candle.

Module AlgorithmRef.
Record AlgorithmRef := mk { Name : string; Version : string; ConfigHash : string }.
End AlgorithmRef.
Abbreviation AlgorithmRef := AlgorithmRef.AlgorithmRef.

Module FactReference.
Record FactReference := mk { Kind : string; ID : string; Side : string; Name : string; Value : float64 }.
End FactReference.
Abbreviation FactReference := FactReference.FactReference.

Module Indicator.
Record Indicator := mk { Name : string; Period : Z; Value : float64; Ready : bool }.
End Indicator.
Abbreviation Indicator := Indicator.Indicator.

Module ZoneTransition.
Record ZoneTransition := mk {
  ID : string; Kind : string; Side : string; Transition : string; Upper : float64; Lower : float64 }.
End ZoneTransition.
Abbreviation ZoneTransition := ZoneTransition.ZoneTransition.

Module Zone.
Record Zone := mk {
  ID : string; Kind : string; Side : string; State : string; Upper : float64; Lower : float64 }.
End Zone.
Abbreviation Zone := Zone.Zone.

Module Pattern.
Record Pattern := mk { Kind : string; Side : string }.
End Pattern.
Abbreviation Pattern := Pattern.Pattern.

Module Observation.
Record Observation := mk {
  Schema : string; SourceEventID : string; CorrelationID : string; OccurredAt : Time;
  Status : string; Revision : Z; IsReset : bool; History : list Candle; Series : Series;
  Candle : Candle; Indicators : list Indicator; ActiveZones : list Zone;
  ZoneTransitions : list ZoneTransition; Patterns : list Pattern;
  FeatureAlgorithm : AlgorithmRef }.

(** [observation.ActiveZones = zones] on a copy. *)
Definition with_ActiveZones (o : Observation) (zones : list Zone) : Observation :=
  mk o.(Schema) o.(SourceEventID) o.(CorrelationID) o.(OccurredAt) o.(Status) o.(Revision)
     o.(IsReset) o.(History) o.(Series) o.(Candle) o.(Indicators) zones o.(ZoneTransitions)
     o.(Patterns) o.(FeatureAlgorithm).
End Observation.
Abbreviation Observation := Observation.Observation.

(** The rule tree. A [Rule] value in Go is a finite tree: the children are held
    by value in a slice and the negated rule behind a pointer that may be nil. *)
Module Rule.
Inductive Rule := mk {
  Type_ : string; Rules : list Rule; Negated : option Rule; Kind : string; Side : string;
  Transition : string; Name : string; Period : Z; Direction : string; Count : Z;
  DistanceBps : float64; MinElapsedPercent : float64 }.

Definition zero : Rule := mk "" [] None "" "" "" "" 0 "" 0 (float_of_Z 0) (float_of_Z 0).
End Rule.
Abbreviation Rule := Rule.Rule.

Module AlertDefinition.
Record AlertDefinition := mk {
  ID : string; Version : Z; DefinitionHash : string; Name : string; Enabled : bool;
  Series : Series; Rule : Rule; EvaluationMode : string; TriggerMode : string;
  CooldownSeconds : Z; CreatedAt : Time; UpdatedAt : Time; EffectiveAt : Time }.

Definition zero : AlertDefinition :=
  mk "" 0 "" "" false (Series.mk "" "" "") Rule.zero "" "" 0 zeroTime zeroTime zeroTime.
End AlertDefinition.
Abbreviation AlertDefinition := AlertDefinition.AlertDefinition.

(** A [json.RawMessage] that holds the encoding of an observation is
    represented by the observation it encodes; [None] is the nil message. *)
Definition RawMessage := option Observation.

Module Alert.
Record Alert := mk {
  Schema : string; ID : string; DefinitionID : string; DefinitionVersion : Z;
  DefinitionHash : string; DefinitionName : string; SourceEventID : string;
  SourceCandleID : string; Series : Series; TriggeredAt : Time; EvaluatedAt : Time;
  Reasons : list string; FactsUsed : list FactReference; FeatureAlgorithm : AlgorithmRef;
  SourceRevision : Z; SourceStatus : string; Payload : RawMessage; PublishStatus : string;
  Cursor : Z }.

Definition with_Cursor (a : Alert) (c : Z) : Alert :=
  mk a.(Schema) a.(ID) a.(DefinitionID) a.(DefinitionVersion) a.(DefinitionHash)
     a.(DefinitionName) a.(SourceEventID) a.(SourceCandleID) a.(Series) a.(TriggeredAt)
     a.(EvaluatedAt) a.(Reasons) a.(FactsUsed) a.(FeatureAlgorithm) a.(SourceRevision)
     a.(SourceStatus) a.(Payload) a.(PublishStatus) c.
Definition with_PublishStatus (a : Alert) (p : string) : Alert :=
  mk a.(Schema) a.(ID) a.(DefinitionID) a.(DefinitionVersion) a.(DefinitionHash)
     a.(DefinitionName) a.(SourceEventID) a.(SourceCandleID) a.(Series) a.(TriggeredAt)
     a.(EvaluatedAt) a.(Reasons) a.(FactsUsed) a.(FeatureAlgorithm) a.(SourceRevision)
     a.(SourceStatus) a.(Payload) p a.(Cursor).
Definition with_Payload (a : Alert) (p : RawMessage) : Alert :=
  mk a.(Schema) a.(ID) a.(DefinitionID) a.(DefinitionVersion) a.(DefinitionHash)
     a.(DefinitionName) a.(SourceEventID) a.(SourceCandleID) a.(Series) a.(TriggeredAt)
     a.(EvaluatedAt) a.(Reasons) a.(FactsUsed) a.(FeatureAlgorithm) a.(SourceRevision)
     a.(SourceStatus) p a.(PublishStatus) a.(Cursor).
End Alert.
Abbreviation Alert := Alert.Alert.

Module FeatureState.
Record FeatureState := mk {
  LastClose : option float64; Indicators : option (gmap string float64);
  Candles : list Candle; CandleColors : list string; FormingBar : Time; FormingColor : string }.

(** The zero value [model.FeatureState{}]. *)
Definition zero : FeatureState := mk None None [] [] zeroTime "".
End FeatureState.
Abbreviation FeatureState := FeatureState.FeatureState.

Module SeriesEvaluationState.
Record SeriesEvaluationState := mk {
  LastOpenTime : Time; LastRevision : Z; LastStatus : string; LastResetID : string;
  LastResetAt : Time; Confirmed : FeatureState; Intrabar : FeatureState;
  ActiveZones : list Zone }.

Definition zero : SeriesEvaluationState :=
  mk zeroTime 0 "" "" zeroTime FeatureState.zero FeatureState.zero [].
End SeriesEvaluationState.
Abbreviation SeriesEvaluationState := SeriesEvaluationState.SeriesEvaluationState.

Module DefinitionEvaluationState.
Record DefinitionEvaluationState := mk {
  LastTruthConfirmed : bool; LastTruthIntrabar : bool; LastTriggerAt : Time; LastAlertBar : Time }.

Definition zero : DefinitionEvaluationState := mk false false zeroTime zeroTime.
End DefinitionEvaluationState.
Abbreviation DefinitionEvaluationState := DefinitionEvaluationState.DefinitionEvaluationState.

(** The state of the first-generation evaluator (store/evaluate.go). *)
Module EvaluationState.
Record EvaluationState := mk {
  LastTruth : bool; LastTriggerAt : Time; LastClose : option float64;
  Indicators : option (gmap string float64); CandleColors : list string;
  LastOpenTime : Time; LastRevision : Z; LastStatus : string; LastAlertBar : Time;
  FormingBar : Time; FormingColor : string }.

Definition zero : EvaluationState := mk false zeroTime None None [] zeroTime 0 "" zeroTime zeroTime "".
End EvaluationState.
Abbreviation EvaluationState := EvaluationState.EvaluationState.

(** ** Induction on rules

    The scheme with a hypothesis for every child and for the negated rule. *)
Section RuleInd.
Variable P : Rule -> Prop.
Hypothesis HP : forall r,
  Forall P r.(Rule.Rules) ->
  (forall n, r.(Rule.Negated) = Some n -> P n) -> P r.

Fixpoint Rule_rect' (r : Rule) : P r.
Proof.
  apply HP.
  - destruct r as [t rs ? ? ? ? ? ? ? ? ? ?]. simpl.
    induction rs as [|c rs IH]; [constructor|].
    constructor; [exact (Rule_rect' c)|exact IH].
  - destruct r as [t rs [n|] ? ? ? ? ? ? ? ? ?]; simpl; [|intros n H; discriminate H].
    intros n' [= <-]. exact (Rule_rect' n).
Defined.

Lemma Rule_ind' (r : Rule) : P r.
Proof. exact (Rule_rect' r). Qed.
End RuleInd.

(** ** Encoding an observation

    [json.Marshal] of an [Observation] fails exactly when a float is a NaN or
    an infinity, or a time's year is outside 0..9999; the callers drop the
    error and keep the nil message. *)
Definition nsPerDay : Z := 86400000000000%Z.
Definition yearRange (t : Time) : bool := ((- 366 * nsPerDay <=? t) && (t <? 3652059 * nsPerDay))%Z.

Definition marshalCandle (c : Candle) : bool :=
  yearRange c.(Candle.OpenTime) && isFinite c.(Candle.Open) && isFinite c.(Candle.High)
  && isFinite c.(Candle.Low) && isFinite c.(Candle.Close) && isFinite c.(Candle.Volume).

Definition marshalObservation (o : Observation) : RawMessage :=
  if yearRange o.(Observation.OccurredAt)
     && forallb marshalCandle o.(Observation.History)
     && marshalCandle o.(Observation.Candle)
     && forallb (fun i => isFinite i.(Indicator.Value)) o.(Observation.Indicators)
     && forallb (fun z => isFinite z.(Zone.Upper) && isFinite z.(Zone.Lower)) o.(Observation.ActiveZones)
     && forallb (fun z => isFinite z.(ZoneTransition.Upper) && isFinite z.(ZoneTransition.Lower))
          o.(Observation.ZoneTransitions)
  then Some o else None.

(** ** Series keys *)

(** A name without the separator of [Key]. *)
Definition noSlash (s : string) : bool := absent "/"%char s.

Lemma Key_split (s : Series) :
  noSlash s.(Series.Dataset) = true -> noSlash s.(Series.Symbol) = true ->
  splitN "/"%char 3 (Series.Key s) = [s.(Series.Dataset); s.(Series.Symbol); s.(Series.Timeframe)].
Proof.
  destruct s as [d y t]; simpl. intros Hd Hy. unfold Series.Key; simpl.
  cbn [splitN]. pose proof (cut_absent "/"%char d (y +:+ "/" +:+ t) Hd) as H1.
  simpl in H1. rewrite H1.
  pose proof (cut_absent "/"%char y t Hy) as H2. simpl in H2. by rewrite H2.
Qed.

Lemma Key_inj (s1 s2 : Series) :
  noSlash s1.(Series.Dataset) = true -> noSlash s1.(Series.Symbol) = true ->
  noSlash s2.(Series.Dataset) = true -> noSlash s2.(Series.Symbol) = true ->
  Series.Key s1 = Series.Key s2 -> s1 = s2.
Proof.
  intros H1 H2 H3 H4 HK.
  pose proof (Key_split s1 H1 H2) as E1. rewrite HK, (Key_split s2 H3 H4) in E1.
  destruct s1, s2; simpl in *. by simplify_eq.
Qed.
