(* ===== verification/Json.v ===== *)
(** * [encoding/json], as far as the program's identifiers depend on it

    The hash of a definition is the SHA-256 of the JSON text of its content,
    so the text is computed here byte for byte as [json.Marshal] writes it:
    strings with HTML-safe escapes and replaced invalid UTF-8, numbers with
    the shortest digits that read back as the same binary64, empty fields
    marked [omitempty] left out. [None] is the error of [json.Marshal] on a
    NaN or an infinity. *)

From stdpp Require Import base list strings numbers pretty.
From Stdlib Require Import Ascii SpecFloat.
From S2P Require Import Prelude GoFloat GoBase GoHash Model.

(** ** Strings *)

Definition between (a b c : Z) : bool := ((a <=? c) && (c <=? b))%Z.

(** The length of the rune [utf8.DecodeRune] finds at the head of bytes that
    start at or above 128; [None] for an invalid encoding. *)
Definition runeLength (l : list Z) : option nat :=
  match l with
  | a :: b :: rest =>
      if between 194 223 a then (if between 128 191 b then Some 2 else None) else
      let ok2 := (if a =? 224 then between 160 191 b
                  else if a =? 237 then between 128 159 b
                  else if a =? 240 then between 144 191 b
                  else if a =? 244 then between 128 143 b
                  else between 225 243 a && between 128 191 b)%Z in
      match rest with
      | c :: rest' =>
          if negb (ok2 && between 128 191 c) then None
          else if between 224 239 a then Some 3
          else match rest' with
               | d :: _ => if between 240 244 a && between 128 191 d then Some 4 else None
               | [] => None
               end
      | [] => None
      end
  | _ => None
  end.

Definition hex2 (c : Z) : list Z := bytesOf (hexEncode [c]).

(** One byte below 128, escaped unless [htmlSafeSet] holds of it. *)
Definition escapeASCII (c : Z) : list Z :=
  (if (c =? 34) || (c =? 92) then [92; c]
   else if c =? 8 then bytesOf "\b" else if c =? 12 then bytesOf "\f"
   else if c =? 10 then bytesOf "\n" else if c =? 13 then bytesOf "\r"
   else if c =? 9 then bytesOf "\t"
   else if (c <? 32) || (c =? 60) || (c =? 62) || (c =? 38) then bytesOf "\u00" ++ hex2 c
   else [c])%Z.

(** [appendString]: [pending] bytes of the rune at hand remain, to be copied
    or, after an escape that stands for all of it, dropped. *)
Fixpoint quoteFrom (pending : nat) (copy : bool) (l : list Z) : list Z :=
  match l with
  | [] => []
  | c :: rest =>
      match pending with
      | S k => (if copy then [c] else []) ++ quoteFrom k copy rest
      | 0 =>
          if (c <? 128)%Z then escapeASCII c ++ quoteFrom 0 true rest
          else match runeLength l with
               | None => bytesOf "\ufffd" ++ quoteFrom 0 true rest
               | Some n =>
                   if bool_decide (take n l = [226; 128; 168]%Z) then bytesOf "\u2028" ++ quoteFrom (n - 1) false rest
                   else if bool_decide (take n l = [226; 128; 169]%Z) then bytesOf "\u2029" ++ quoteFrom (n - 1) false rest
                   else c :: quoteFrom (n - 1) true rest
               end
      end
  end.

Definition quote (s : string) : list Z := [34%Z] ++ quoteFrom 0 true (bytesOf s) ++ [34%Z].

(** ** Numbers *)

Definition encodeInt (n : Z) : list Z := bytesOf (pretty n).

(** [m * 2^e * 10^(-q)] as a fraction: numerator per unit of [m], denominator. *)
Definition scale (e q : Z) : Z * Z :=
  (2 ^ Z.max e 0 * 10 ^ Z.max (- q) 0, 2 ^ Z.max (- e) 0 * 10 ^ Z.max q 0)%Z.

(** The [k] with [10^(k-1) <= m * 2^e < 10^k], from an estimate of the
    logarithm that is at most two too small. *)
Definition decimalPoint (m e : Z) : Z :=
  let k0 := ((Z.log2 m + e) * 30103 / 100000)%Z in
  let below (k : Z) : bool := let '(a, b) := scale e k in (m * a <? b)%Z in
  if below k0 then k0 else if below (k0 + 1)%Z then (k0 + 1)%Z else (k0 + 2)%Z.

(** The [n]-digit decimal nearest to [m * 2^e] among those that read back as
    it: within half the distance to each neighbour, the ends included when
    the significand is even. Quarters of a unit in the last place, because
    below a power of two the neighbours are half as far. *)
Definition digitsAt (m e k : Z) (n : nat) : option Z :=
  let q := (k - Z.of_nat n)%Z in
  let '(c, b) := scale (e - 2) q in
  let lo := if (m =? 2 ^ 52)%Z && (-1074 <? e)%Z then (4 * m - 1)%Z else (4 * m - 2)%Z in
  let hi := (4 * m + 2)%Z in
  let inside (d : Z) : bool :=
    (if Z.even m then (lo * c <=? d * b) && (d * b <=? hi * c)
     else (lo * c <? d * b) && (d * b <? hi * c))%Z in
  let down := (4 * m * c / b)%Z in
  let up := (down + 1)%Z in
  match inside down, inside up with
  | true, true => Some (roundHalfEven (4 * m * c) b)
  | true, false => Some down
  | false, true => Some up
  | false, false => None
  end.

(** [strconv.FormatFloat(x, _, -1, 64)]: the digits and the decimal point, for
    the least number of digits. Seventeen always suffice. *)
Fixpoint shortestFrom (m e k : Z) (n fuel : nat) : Z * Z :=
  match fuel with
  | 0 => (0, 0)%Z
  | S fuel' =>
      match digitsAt m e k n with
      | Some d => (d, (k - Z.of_nat n)%Z)
      | None => shortestFrom m e k (S n) fuel'
      end
  end.

(** Trailing zeros of the digits go: [10^k] itself is found as [1] and [0]s. *)
Fixpoint stripZeros (fuel : nat) (d q : Z) : Z * Z :=
  match fuel with
  | 0 => (d, q)
  | S fuel' => if (d mod 10 =? 0)%Z then stripZeros fuel' (d / 10) (q + 1) else (d, q)
  end.

Definition zeros (n : Z) : list Z := replicate (Z.to_nat n) 48%Z.

(** The [%f] and [%e] layouts of digits [ds] with the point after [dp]. *)
Definition layoutF (ds : list Z) (dp : Z) : list Z :=
  let nd := Z.of_nat (length ds) in
  let int := if (0 <? dp)%Z then take (Z.to_nat dp) ds ++ zeros (dp - nd) else [48%Z] in
  let frac := (if 0 <=? dp then drop (Z.to_nat dp) ds else zeros (- dp) ++ ds)%Z in
  int ++ (if (0 <? length frac)%nat then [46%Z] ++ frac else []).

Definition layoutE (ds : list Z) (dp : Z) : list Z :=
  let e := (dp - 1)%Z in
  take 1 ds ++ (if (1 <? length ds)%nat then [46%Z] ++ drop 1 ds else []) ++ [101%Z]
  ++ [if (e <? 0)%Z then 45%Z else 43%Z] ++ bytesOf (pretty (Z.abs e)).

(** [floatEncoder]: exponents below -6 and from 21 on in [%e]; its exponent
    has no leading zero, as [json] cleans "e-09" up to "e-9". *)
Definition encodeFloat (x : float64) : option (list Z) :=
  let sign (s : bool) : list Z := if s then [45%Z] else [] in
  match x with
  | S754_nan | S754_infinity _ => None
  | S754_zero s => Some (sign s ++ [48%Z])
  | S754_finite s m e =>
      let k := decimalPoint (Z.pos m) e in
      let '(d, q) := shortestFrom (Z.pos m) e k 1 17 in
      let '(d, q) := stripZeros 17 d q in
      let ds := bytesOf (pretty d) in
      let dp := (q + Z.of_nat (length ds))%Z in
      Some (sign s ++ if ((dp - 1 <? -6) || (21 <=? dp - 1))%Z then layoutE ds dp else layoutF ds dp)
  end.

(** ** Values *)

Definition commaSep (l : list (list Z)) : list Z :=
  match l with
  | [] => []
  | x :: rest => x ++ mjoin ((fun y => 44%Z :: y) <$> rest)
  end.

Definition encodeArray (l : list (list Z)) : list Z := [91%Z] ++ commaSep l ++ [93%Z].

(** A struct: its fields in order, those that [omitempty] leaves out absent. *)
Definition encodeObject (fields : list (option (string * list Z))) : list Z :=
  [123%Z] ++ commaSep ((fun f => quote f.1 ++ [58%Z] ++ f.2) <$> omap id fields) ++ [125%Z].

Definition field (name : string) (v : list Z) : option (string * list Z) := Some (name, v).
Definition stringField (name v : string) : option (string * list Z) :=
  if v == "" then None else Some (name, quote v).
Definition intField (name : string) (v : Z) : option (string * list Z) :=
  if (v =? 0)%Z then None else Some (name, encodeInt v).
(** The outer [None] is the error. *)
Definition floatField (name : string) (v : float64) : option (option (string * list Z)) :=
  if feqb v (float_of_Z 0) then Some None else (fun t => Some (name, t)) <$> encodeFloat v.

(** ** The types of the program *)

Definition encodeSeries (s : Series) : list Z :=
  encodeObject [field "dataset" (quote s.(Series.Dataset)); field "symbol" (quote s.(Series.Symbol));
                field "timeframe" (quote s.(Series.Timeframe))].

Fixpoint encodeRule (rule : Rule) : option (list Z) :=
  rules ← mapM encodeRule rule.(Rule.Rules);
  negated ← match rule.(Rule.Negated) with
            | None => Some None
            | Some r => (fun t => Some ("rule", t)) <$> encodeRule r
            end;
  distance ← floatField "distance_bps" rule.(Rule.DistanceBps);
  elapsed ← floatField "min_elapsed_percent" rule.(Rule.MinElapsedPercent);
  Some (encodeObject
    [field "type" (quote rule.(Rule.Type_));
     match rules with [] => None | _ => field "rules" (encodeArray rules) end;
     negated;
     stringField "kind" rule.(Rule.Kind); stringField "side" rule.(Rule.Side);
     stringField "transition" rule.(Rule.Transition); stringField "name" rule.(Rule.Name);
     intField "period" rule.(Rule.Period); stringField "direction" rule.(Rule.Direction);
     intField "count" rule.(Rule.Count); distance; elapsed]).

(** ** Checks against the documented behaviour *)

Definition textOf (l : list Z) : string :=
  fold_right (fun c s => String (ascii_of_N (Z.to_N c)) s) EmptyString l.

Example float_tenth : textOf <$> encodeFloat (float_const 1 1) = Some "0.1".
Proof. vm_compute. reflexivity. Qed.

Example float_price : textOf <$> encodeFloat (float_const 123456 3) = Some "123.456".
Proof. vm_compute. reflexivity. Qed.

Example float_large : textOf <$> encodeFloat (float_of_Z (10 ^ 21)) = Some "1e+21".
Proof. vm_compute. reflexivity. Qed.

Example float_million : textOf <$> encodeFloat (float_of_Z 1000000) = Some "1000000".
Proof. vm_compute. reflexivity. Qed.

Example float_small : textOf <$> encodeFloat (float_const 15 8) = Some "1.5e-7".
Proof. vm_compute. reflexivity. Qed.

Example float_least : textOf <$> encodeFloat (S754_finite false 1 (-1074)) = Some "5e-324".
Proof. vm_compute. reflexivity. Qed.

Example float_third_digits : textOf <$> encodeFloat (fdiv (float_of_Z 1) (float_of_Z 3)) = Some "0.3333333333333333".
Proof. vm_compute. reflexivity. Qed.

Example quote_escapes : textOf (quoteFrom 0 true (bytesOf "a<b\")) = "a\u003cb\\".
Proof. vm_compute. reflexivity. Qed.
