(* ===== verification/Rules.v ===== *)
(** * internal/rules/evaluator.go: the rule language

    Validation, the compiled dependency mask, evaluation against an
    observation and the shared feature state, and the advance of that state.
    [evaluate] returns [None] where the Go code would panic (a nil negated
    rule, a streak window with a negative bound). *)

From stdpp Require Import base gmap strings list numbers pretty.
From Stdlib Require Import Ascii.
From S2P Require Import Prelude GoFloat GoBase GoTime Model.

Definition maxDepth : Z := 8%Z.

(** The case labels of the [switch rule.Type] statements. *)
Inductive RuleType :=
| TAll | TAny | TNot | TPriceHitsZone | TZoneTransition | TPriceNearZone
| TPriceCrossesIndicator | TCandleColor | TCandleStreak | TCandleColorFlip | TPattern
| TOther.
#[export] Instance RuleType_eq_dec : EqDecision RuleType.
Proof. solve_decision. Defined.

Definition ruleType (s : string) : RuleType :=
  if s == "all" then TAll
  else if s == "any" then TAny
  else if s == "not" then TNot
  else if s == "price_hits_zone" then TPriceHitsZone
  else if s == "zone_transition" then TZoneTransition
  else if s == "price_near_zone" then TPriceNearZone
  else if s == "price_crosses_indicator" then TPriceCrossesIndicator
  else if s == "candle_color" then TCandleColor
  else if s == "candle_streak" then TCandleStreak
  else if s == "candle_color_flip" then TCandleColorFlip
  else if s == "pattern" then TPattern
  else TOther.

Definition typeOf (r : Rule) : RuleType := ruleType r.(Rule.Type_).

Fixpoint RequiresIntrabar (rule : Rule) : bool :=
  if decide (typeOf rule = TCandleColorFlip) then true
  else match typeOf rule, rule.(Rule.Negated) with
  | TNot, Some r => RequiresIntrabar r
  | _, _ => existsb RequiresIntrabar rule.(Rule.Rules)
  end.

(** ** Validation *)

Inductive RuleError :=
| ErrNesting
| ErrChildCount (t : string)
| ErrNotRequiresRule
| ErrZoneKind (t : string)
| ErrTransitionRequired
| ErrTransition
| ErrDistance
| ErrIndicator
| ErrCrossDirection
| ErrColorDirection
| ErrStreakDirection
| ErrStreakCount
| ErrFlipDirection
| ErrMinElapsed
| ErrPatternKind
| ErrUnsupportedType (t : string).

(** [for _, child := range rules { if err := f(child); err != nil { return err } }]. *)
Fixpoint firstError (f : Rule -> option RuleError) (l : list Rule) : option RuleError :=
  match l with
  | [] => None
  | c :: rest => match f c with Some e => Some e | None => firstError f rest end
  end.

(** [None] is the nil error. *)
Fixpoint validate (rule : Rule) (depth : Z) {struct rule} : option RuleError :=
  if (depth >? maxDepth)%Z then Some ErrNesting else
  let kindOK := negb ((rule.(Rule.Kind) != "fvg") && (rule.(Rule.Kind) != "order_block")) in
  let tr := rule.(Rule.Transition) in
  let dir := rule.(Rule.Direction) in
  match typeOf rule with
  | TAll | TAny =>
      if ((length rule.(Rule.Rules) <? 2) || (20 <? length rule.(Rule.Rules)))%nat
      then Some (ErrChildCount rule.(Rule.Type_))
      else firstError (fun child => validate child (depth + 1)%Z) rule.(Rule.Rules)
  | TNot =>
      match rule.(Rule.Negated) with
      | None => Some ErrNotRequiresRule
      | Some r => validate r (depth + 1)%Z
      end
  | TPriceHitsZone | TZoneTransition =>
      if negb kindOK then Some (ErrZoneKind rule.(Rule.Type_))
      else if bool_decide (typeOf rule = TZoneTransition) && (tr == "") then Some ErrTransitionRequired
      else if (tr != "") && (tr != "created") && (tr != "touched") && (tr != "mitigated")
              && (tr != "invalidated") && (tr != "expired") then Some ErrTransition
      else None
  | TPriceNearZone =>
      if negb kindOK then Some (ErrZoneKind rule.(Rule.Type_))
      else if (rule.(Rule.DistanceBps) <=f float_of_Z 0) || (rule.(Rule.DistanceBps) >f float_of_Z 10000)
      then Some ErrDistance else None
  | TPriceCrossesIndicator =>
      if (rule.(Rule.Name) == "") || (rule.(Rule.Period) <? 1)%Z then Some ErrIndicator
      else if (dir != "above") && (dir != "below") && (dir != "either") then Some ErrCrossDirection
      else None
  | TCandleColor =>
      if (dir != "red") && (dir != "green") then Some ErrColorDirection else None
  | TCandleStreak =>
      if (dir != "red") && (dir != "green") then Some ErrStreakDirection
      else if ((rule.(Rule.Count) <? 2) || (rule.(Rule.Count) >? 100))%Z then Some ErrStreakCount
      else None
  | TCandleColorFlip =>
      if (dir != "either") && (dir != "red_to_green") && (dir != "green_to_red") then Some ErrFlipDirection
      else if (rule.(Rule.MinElapsedPercent) <=f float_of_Z 0)
              || (rule.(Rule.MinElapsedPercent) >f float_of_Z 100) then Some ErrMinElapsed
      else None
  | TPattern => if isBlank rule.(Rule.Kind) then Some ErrPatternKind else None
  | TOther => Some (ErrUnsupportedType rule.(Rule.Type_))
  end.

Definition Validate (rule : Rule) : option RuleError := validate rule 0.

(** ** Compilation *)

Definition DependencyCandle : Z := Z.shiftl 1 0.
Definition DependencyIndicator : Z := Z.shiftl 1 1.
Definition DependencyZone : Z := Z.shiftl 1 2.
Definition DependencyPattern : Z := Z.shiftl 1 3.
Definition DependencyHistory : Z := Z.shiftl 1 4.

Fixpoint dependencies (rule : Rule) : Z :=
  match typeOf rule with
  | TCandleColor | TCandleColorFlip => DependencyCandle
  | TCandleStreak => Z.lor DependencyCandle DependencyHistory
  | TPriceCrossesIndicator => Z.lor (Z.lor DependencyCandle DependencyIndicator) DependencyHistory
  | TPriceHitsZone | TZoneTransition => DependencyZone
  | TPriceNearZone => Z.lor DependencyCandle DependencyZone
  | TPattern => DependencyPattern
  | TNot => match rule.(Rule.Negated) with Some r => dependencies r | None => 0%Z end
  | TAll | TAny | TOther => fold_right (fun child acc => Z.lor (dependencies child) acc) 0%Z rule.(Rule.Rules)
  end.

Module Compiled.
Record Compiled := mk { Rule : Model.Rule; Dependencies : Z }.
End Compiled.
Abbreviation Compiled := Compiled.Compiled.

Definition Compile (rule : Rule) : Res RuleError Compiled :=
  match Validate rule with
  | Some e => Err e
  | None => Ok (Compiled.mk rule (dependencies rule))
  end.

(** ** Evaluation *)

Record result := mkResult {
  matched : bool; known : bool; reasons : list string; facts : list FactReference }.

Definition candleColor (c : Candle) : string :=
  if c.(Candle.Close) <f c.(Candle.Open) then "red"
  else if c.(Candle.Close) >f c.(Candle.Open) then "green"
  else "doji".

Definition indicatorKey (name : string) (period : Z) : string := name +:+ ":" +:+ pretty period.

(** [value[:len(value)-1]] and [time.ParseDuration], with the wrap-around of
    the 64-bit product; [None] is an error. *)
Definition timeframeDuration (value : string) : option Duration :=
  if (1 <? String.length value)%nat && (hasSuffixByte value "d"%char || hasSuffixByte value "w"%char) then
    quantity ← atoi (dropLast value);
    if (quantity <=? 0)%Z then None
    else
      let unit := if hasSuffixByte value "w"%char then mulDur (24 * Hour)%Z 7%Z else (24 * Hour)%Z in
      Some (mulDur quantity unit)
  else
    duration ← ParseDuration value;
    if (duration <=? 0)%Z then None else Some duration.

Definition unmatched : result := mkResult false true [] [].
Definition unknown : result := mkResult false false [] [].

Definition midpoint (upper lower : float64) : float64 := fdiv (fadd upper lower) (float_of_Z 2).

(** The [price_hits_zone] and [zone_transition] cases. *)
Definition evaluateTransition (rule : Rule) (o : Observation) : result :=
  let transition := if (rule.(Rule.Transition) == "") && bool_decide (typeOf rule = TPriceHitsZone)
                    then "touched" else rule.(Rule.Transition) in
  match find (fun z => (z.(ZoneTransition.Kind) == rule.(Rule.Kind))
                       && (z.(ZoneTransition.Transition) == transition)
                       && ((rule.(Rule.Side) == "") || (z.(ZoneTransition.Side) == rule.(Rule.Side))))
             o.(Observation.ZoneTransitions) with
  | Some z => mkResult true true
      ["zone " +:+ transition +:+ " " +:+ z.(ZoneTransition.Side) +:+ " " +:+ z.(ZoneTransition.Kind)]
      [FactReference.mk z.(ZoneTransition.Kind) z.(ZoneTransition.ID) z.(ZoneTransition.Side) ""
         (midpoint z.(ZoneTransition.Upper) z.(ZoneTransition.Lower))]
  | None => unmatched
  end.

(** The distance in basis points from a price to a zone. *)
Definition zoneDistance (price : float64) (z : Zone) : float64 :=
  if price <f z.(Zone.Lower) then fmul (fdiv (fsub z.(Zone.Lower) price) price) (float_of_Z 10000)
  else if price >f z.(Zone.Upper) then fmul (fdiv (fsub price z.(Zone.Upper)) price) (float_of_Z 10000)
  else float_of_Z 0.

(** The body of the [price_near_zone] loop: does zone [z] match? *)
Definition nearZone (rule : Rule) (price : float64) (z : Zone) : bool :=
  if (z.(Zone.Kind) != rule.(Rule.Kind))
     || ((rule.(Rule.Side) != "") && (z.(Zone.Side) != rule.(Rule.Side)))
     || (z.(Zone.State) != "active") then false
  else let distance := zoneDistance price z in
       (distance >f float_of_Z 0) && (distance <=f rule.(Rule.DistanceBps)).

Definition evaluateNear (rule : Rule) (o : Observation) : result :=
  let price := o.(Observation.Candle).(Candle.Close) in
  match find (nearZone rule price) o.(Observation.ActiveZones) with
  | Some z => mkResult true true
      ["price is " +:+ fmtF 2 (zoneDistance price z) +:+ " bps from " +:+ z.(Zone.Kind)]
      [FactReference.mk z.(Zone.Kind) z.(Zone.ID) z.(Zone.Side) ""
         (midpoint z.(Zone.Upper) z.(Zone.Lower))]
  | None => unmatched
  end.

Definition evaluatePattern (rule : Rule) (o : Observation) : result :=
  match find (fun p => (p.(Pattern.Kind) == rule.(Rule.Kind))
                       && ((rule.(Rule.Side) == "") || (p.(Pattern.Side) == rule.(Rule.Side))))
             o.(Observation.Patterns) with
  | Some p => mkResult true true ["pattern " +:+ p.(Pattern.Kind)]
      [FactReference.mk "pattern" "" p.(Pattern.Side) p.(Pattern.Kind) (float_of_Z 0)]
  | None => unmatched
  end.

Definition evaluateColor (rule : Rule) (o : Observation) : result :=
  let color := candleColor o.(Observation.Candle) in
  mkResult (color == rule.(Rule.Direction)) true [color +:+ " candle closed"] [].

(** [colors[len(colors)-rule.Count:]] panics when [Count] is negative. *)
Definition evaluateStreak (rule : Rule) (o : Observation) (state : FeatureState) : option result :=
  let colors := state.(FeatureState.CandleColors) ++ [candleColor o.(Observation.Candle)] in
  if (Z.of_nat (length colors) <? rule.(Rule.Count))%Z then Some unmatched
  else if (rule.(Rule.Count) <? 0)%Z then None
  else if forallb (fun got => got == rule.(Rule.Direction)) (lastn (Z.to_nat rule.(Rule.Count)) colors)
  then Some (mkResult true true
         [pretty rule.(Rule.Count) +:+ " consecutive " +:+ rule.(Rule.Direction) +:+ " candles"] [])
  else Some unmatched.

(** The share of the candle's lifetime that has elapsed, in percent. *)
Definition elapsedPercent (o : Observation) (duration : Duration) : float64 :=
  let elapsed := Sub o.(Observation.OccurredAt) o.(Observation.Candle).(Candle.OpenTime) in
  fmul (fdiv (Seconds elapsed) (Seconds duration)) (float_of_Z 100).

Definition evaluateFlip (rule : Rule) (o : Observation) (state : FeatureState) : result :=
  if (o.(Observation.Status) != "provisional")
     || negb (Equal state.(FeatureState.FormingBar) o.(Observation.Candle).(Candle.OpenTime))
  then unmatched else
  let from := state.(FeatureState.FormingColor) in
  let to := candleColor o.(Observation.Candle) in
  if (from == "") || (from == "doji") || (to == "doji") || (from == to) then unmatched else
  let transition := from +:+ "_to_" +:+ to in
  if (rule.(Rule.Direction) != "either") && (rule.(Rule.Direction) != transition) then unmatched else
  match timeframeDuration o.(Observation.Series).(Series.Timeframe) with
  | None => unknown
  | Some duration =>
      let percent := elapsedPercent o duration in
      if percent <f rule.(Rule.MinElapsedPercent) then unmatched
      else mkResult true true
             ["candle flipped " +:+ from +:+ " to " +:+ to +:+ " at " +:+ fmtF 1 percent +:+ "% elapsed"] []
  end.

(** The first ready indicator of an observation with a given key. *)
Definition currentIndicator (key : string) (o : Observation) : option float64 :=
  Indicator.Value <$>
    find (fun i => i.(Indicator.Ready)
                   && (indicatorKey i.(Indicator.Name) i.(Indicator.Period) == key))
         o.(Observation.Indicators).

(** Lookup in a map that may be nil. *)
Definition indicatorAt (state : FeatureState) (key : string) : option float64 :=
  m ← state.(FeatureState.Indicators); m !! key.

Definition evaluateCross (rule : Rule) (o : Observation) (state : FeatureState) : result :=
  match state.(FeatureState.LastClose) with
  | None => unknown
  | Some lastClose =>
    let key := indicatorKey rule.(Rule.Name) rule.(Rule.Period) in
    match indicatorAt state key with
    | None => unknown
    | Some previousIndicator =>
      match currentIndicator key o with
      | None => unknown
      | Some current =>
        let close := o.(Observation.Candle).(Candle.Close) in
        let above := (lastClose <=f previousIndicator) && (close >f current) in
        let below := (lastClose >=f previousIndicator) && (close <f current) in
        let dir := rule.(Rule.Direction) in
        mkResult ((dir == "above") && above || (dir == "below") && below
                  || (dir == "either") && (above || below)) true
          ["price crossed " +:+ dir +:+ " " +:+ rule.(Rule.Name) +:+ "(" +:+ pretty rule.(Rule.Period) +:+ ")"]
          [FactReference.mk "indicator" key "" rule.(Rule.Name) current]
      end
    end
  end.

(** The accumulators of the [all] and [any] loops. *)
Definition joinAll (out r : result) : result :=
  mkResult (out.(matched) && r.(matched)) (out.(known) && r.(known))
    (if r.(matched) then out.(reasons) ++ r.(reasons) else out.(reasons))
    (if r.(matched) then out.(facts) ++ r.(facts) else out.(facts)).

Definition joinAny (out r : result) : result :=
  mkResult (out.(matched) || (r.(known) && r.(matched))) (out.(known) || r.(known))
    (if r.(matched) then out.(reasons) ++ r.(reasons) else out.(reasons))
    (if r.(matched) then out.(facts) ++ r.(facts) else out.(facts)).

Definition negate (r : result) : result :=
  mkResult (negb r.(matched)) r.(known) r.(reasons) (if r.(matched) then r.(facts) else []).

Fixpoint evaluate (rule : Rule) (o : Observation) (state : FeatureState) {struct rule} : option result :=
  match typeOf rule with
  | TAll => loopM (fun out child => joinAll out <$> evaluate child o state)
              (mkResult true true [] []) rule.(Rule.Rules)
  | TAny => loopM (fun out child => joinAny out <$> evaluate child o state)
              (mkResult false false [] []) rule.(Rule.Rules)
  | TNot => match rule.(Rule.Negated) with
            | None => None
            | Some r => negate <$> evaluate r o state
            end
  | TPriceHitsZone | TZoneTransition => Some (evaluateTransition rule o)
  | TPriceNearZone => Some (evaluateNear rule o)
  | TPattern => Some (evaluatePattern rule o)
  | TCandleColor => Some (evaluateColor rule o)
  | TCandleStreak => evaluateStreak rule o state
  | TCandleColorFlip => Some (evaluateFlip rule o state)
  | TPriceCrossesIndicator => Some (evaluateCross rule o state)
  | TOther => Some (mkResult false false [] [])
  end.

(** [Compiled.EvaluateDetailed]: truth, reasons, facts. *)
Definition EvaluateDetailed (compiled : Compiled) (o : Observation) (state : FeatureState)
  : option (bool * list string * list FactReference) :=
  r ← evaluate compiled.(Compiled.Rule) o state;
  Some (r.(known) && r.(matched), r.(reasons), r.(facts)).

Definition Evaluate (rule : Rule) (o : Observation) (state : FeatureState)
  : option (bool * list string) :=
  r ← evaluate rule o state; Some (r.(known) && r.(matched), r.(reasons)).

(** Whether truth is an occurrence on this observation rather than a state
    that triggers on its false-to-true edge. *)
Fixpoint Pulse (rule : Rule) : bool :=
  match typeOf rule with
  | TPriceHitsZone | TZoneTransition | TPriceCrossesIndicator | TPattern | TCandleColorFlip => true
  | TAll | TAny => existsb Pulse rule.(Rule.Rules)
  | _ => false
  end.

(** ** The advance of the feature state *)

(** The indicator loop of [Advance] on a non-nil map. *)
Definition advanceIndicators (m : gmap string float64) (l : list Indicator) : gmap string float64 :=
  foldl (fun m i => if i.(Indicator.Ready)
                    then <[indicatorKey i.(Indicator.Name) i.(Indicator.Period) := i.(Indicator.Value)]> m
                    else m) m l.

(** [append] and, past [limit] elements, the copy of the last [limit]. *)
Definition appendBounded {A} (limit : nat) (l : list A) (x : A) : list A :=
  let l' := l ++ [x] in
  if (limit <? length l')%nat then lastn limit l' else l'.

Definition Advance (state : FeatureState) (o : Observation) : FeatureState :=
  let candle := o.(Observation.Candle) in
  let indicators := advanceIndicators (default ∅ state.(FeatureState.Indicators)) o.(Observation.Indicators) in
  if o.(Observation.Status) == "confirmed" then
    FeatureState.mk (Some candle.(Candle.Close)) (Some indicators)
      (appendBounded 500 state.(FeatureState.Candles) candle)
      (appendBounded 100 state.(FeatureState.CandleColors) (candleColor candle))
      zeroTime ""
  else
    let same := Equal state.(FeatureState.FormingBar) candle.(Candle.OpenTime) in
    let formingBar := if same then state.(FeatureState.FormingBar) else UTC candle.(Candle.OpenTime) in
    let formingColor := if same then state.(FeatureState.FormingColor) else "" in
    let color := candleColor candle in
    FeatureState.mk (Some candle.(Candle.Close)) (Some indicators)
      state.(FeatureState.Candles) state.(FeatureState.CandleColors) formingBar
      (if color != "doji" then color else formingColor).
