(* ===== verification/Fixtures.v ===== *)
(** * Concrete inputs

    The series, candles, observations and rules on which the witnesses and
    examples of the development evaluate the model: the README's and the Go
    tests' own inputs. *)

From stdpp Require Import base gmap strings list numbers.
From S2P Require Import Prelude GoFloat GoBase GoTime Model Rules.

Definition fl (n : Z) : float64 := float_of_Z n.

Definition btc : Series := Series.mk "live" "BTCUSDT" "1m".
Definition noAlgorithm : AlgorithmRef := AlgorithmRef.mk "smc.market_state" "v1" "sha256:x".

(** 2026-09-10 08:00 UTC. *)
Definition start : Time := (63924624000 * Second)%Z.
Definition minutes (n : Z) : Time := (start + n * Minute)%Z.

Definition bar (openTime : Time) (open close : Z) : Candle :=
  Candle.mk openTime (fl open) (fl (Z.max open close)) (fl (Z.min open close)) (fl close) (fl 0) 0.

(** The [confirmed] helper of internal/runtime/engine_test.go. *)
Definition confirmedBar (id : string) (s : Series) (openTime : Time) (open close : Z) : Observation :=
  Observation.mk "alerts.observation.v1" id id (openTime + Minute) "confirmed" 1 false [] s
    (bar openTime open close) [] [] [] [] noAlgorithm.

(** A forming bar seen [at] nanoseconds after its open. *)
Definition formingBar (id : string) (s : Series) (openTime : Time) (at_ : Duration) (rev open close : Z)
  : Observation :=
  Observation.mk "alerts.observation.v1" id id (openTime + at_) "provisional" rev false [] s
    (bar openTime open close) [] [] [] [] noAlgorithm.

Definition redBar : Observation := confirmedBar "one" btc start 101 99.

Definition leafRule (type kind transition name : string) (period : Z) (direction : string)
  (count : Z) (bps elapsed : float64) : Rule :=
  Rule.mk type [] None kind "" transition name period direction count bps elapsed.

Definition redStreak (n : Z) : Rule := leafRule "candle_streak" "" "" "" 0 "red" n (fl 0) (fl 0).
Definition threeRed : Rule := redStreak 3.
Definition redColor : Rule := leafRule "candle_color" "" "" "" 0 "red" 0 (fl 0) (fl 0).
Definition flipEither : Rule := leafRule "candle_color_flip" "" "" "" 0 "either" 0 (fl 0) (fl 50).
Definition crossAbove : Rule := leafRule "price_crosses_indicator" "" "" "ema" 200 "above" 0 (fl 0) (fl 0).
Definition notRule (r : Rule) : Rule :=
  Rule.mk "not" [] (Some r) "" "" "" "" 0 "" 0 (fl 0) (fl 0).
Definition joinRule (type : string) (rs : list Rule) : Rule :=
  Rule.mk type rs None "" "" "" "" 0 "" 0 (fl 0) (fl 0).
