(* ===== verification/RulesValid.v ===== *)
(** * Validation: what [Validate] accepts, and that accepted rules evaluate

    [wf d r] is the specification of a well-formed rule at nesting depth [d].
    The lemmas show that [Validate] decides it, that it bounds the height of
    the tree, and that evaluation of a well-formed rule never panics. *)

From stdpp Require Import base gmap strings list numbers pretty.
From S2P Require Import Prelude GoFloat GoBase GoTime Model Rules Fixtures.

(** Equations of the fixpoints, on a rule whose case label is known. *)
Lemma evaluate_unfold r o s :
  evaluate r o s =
  match typeOf r with
  | TAll => loopM (fun out child => joinAll out <$> evaluate child o s)
              (mkResult true true [] []) r.(Rule.Rules)
  | TAny => loopM (fun out child => joinAny out <$> evaluate child o s)
              (mkResult false false [] []) r.(Rule.Rules)
  | TNot => match r.(Rule.Negated) with
            | None => None
            | Some n => negate <$> evaluate n o s
            end
  | TPriceHitsZone | TZoneTransition => Some (evaluateTransition r o)
  | TPriceNearZone => Some (evaluateNear r o)
  | TPattern => Some (evaluatePattern r o)
  | TCandleColor => Some (evaluateColor r o)
  | TCandleStreak => evaluateStreak r o s
  | TCandleColorFlip => Some (evaluateFlip r o s)
  | TPriceCrossesIndicator => Some (evaluateCross r o s)
  | TOther => Some (mkResult false false [] [])
  end.
Proof. by destruct r. Qed.

Lemma dependencies_unfold r :
  dependencies r =
  match typeOf r with
  | TCandleColor | TCandleColorFlip => DependencyCandle
  | TCandleStreak => Z.lor DependencyCandle DependencyHistory
  | TPriceCrossesIndicator => Z.lor (Z.lor DependencyCandle DependencyIndicator) DependencyHistory
  | TPriceHitsZone | TZoneTransition => DependencyZone
  | TPriceNearZone => Z.lor DependencyCandle DependencyZone
  | TPattern => DependencyPattern
  | TNot => match r.(Rule.Negated) with Some n => dependencies n | None => 0%Z end
  | TAll | TAny | TOther => fold_right (fun c acc => Z.lor (dependencies c) acc) 0%Z r.(Rule.Rules)
  end.
Proof. by destruct r. Qed.

(** ** The specification *)

Definition zoneKinds : list string := ["fvg"; "order_block"].
Definition transitions : list string := ["created"; "touched"; "mitigated"; "invalidated"; "expired"].

(** What a leaf must satisfy. Comparisons with a NaN are false in Go, so the
    bounds on floats are stated as the absence of a violation. *)
Definition leaf_wf (r : Rule) : Prop :=
  match typeOf r with
  | TPriceHitsZone =>
      r.(Rule.Kind) ∈ zoneKinds /\ (r.(Rule.Transition) = "" \/ r.(Rule.Transition) ∈ transitions)
  | TZoneTransition => r.(Rule.Kind) ∈ zoneKinds /\ r.(Rule.Transition) ∈ transitions
  | TPriceNearZone =>
      r.(Rule.Kind) ∈ zoneKinds
      /\ (r.(Rule.DistanceBps) <=f float_of_Z 0) = false
      /\ (r.(Rule.DistanceBps) >f float_of_Z 10000) = false
  | TPriceCrossesIndicator =>
      r.(Rule.Name) <> "" /\ (1 <= r.(Rule.Period))%Z /\ r.(Rule.Direction) ∈ ["above"; "below"; "either"]
  | TCandleColor => r.(Rule.Direction) ∈ ["red"; "green"]
  | TCandleStreak => r.(Rule.Direction) ∈ ["red"; "green"] /\ (2 <= r.(Rule.Count) <= 100)%Z
  | TCandleColorFlip =>
      r.(Rule.Direction) ∈ ["either"; "red_to_green"; "green_to_red"]
      /\ (r.(Rule.MinElapsedPercent) <=f float_of_Z 0) = false
      /\ (r.(Rule.MinElapsedPercent) >f float_of_Z 100) = false
  | TPattern => isBlank r.(Rule.Kind) = false
  | _ => False
  end.

Definition is_join (r : Rule) : Prop := typeOf r = TAll \/ typeOf r = TAny.

Inductive wf : Z -> Rule -> Prop :=
| wf_join d r : (d <= maxDepth)%Z -> is_join r ->
    2 <= length r.(Rule.Rules) <= 20 -> Forall (wf (d + 1)%Z) r.(Rule.Rules) -> wf d r
| wf_not d r n : (d <= maxDepth)%Z -> typeOf r = TNot ->
    r.(Rule.Negated) = Some n -> wf (d + 1)%Z n -> wf d r
| wf_leaf d r : (d <= maxDepth)%Z -> leaf_wf r -> wf d r.

(** The height of the tree that [evaluate] walks. *)
Fixpoint height (r : Rule) : Z :=
  match typeOf r, r.(Rule.Negated) with
  | TAll, _ | TAny, _ => fold_right (fun c h => Z.max (1 + height c) h) 0%Z r.(Rule.Rules)
  | TNot, Some n => (1 + height n)%Z
  | _, _ => 0%Z
  end.

(** ** Correctness of [validate] *)

Lemma validate_join r d :
  (d <= maxDepth)%Z -> is_join r ->
  validate r d =
    if ((length r.(Rule.Rules) <? 2) || (20 <? length r.(Rule.Rules)))%nat
    then Some (ErrChildCount r.(Rule.Type_))
    else firstError (fun child => validate child (d + 1)%Z) r.(Rule.Rules).
Proof.
  intros Hd Hj. destruct r; unfold is_join, typeOf in *; simpl in *.
  replace (d >? maxDepth)%Z with false by lia.
  unfold typeOf; simpl. by destruct Hj as [-> | ->].
Qed.

Lemma validate_not r d :
  (d <= maxDepth)%Z -> typeOf r = TNot ->
  validate r d = match r.(Rule.Negated) with
                 | None => Some ErrNotRequiresRule
                 | Some n => validate n (d + 1)%Z
                 end.
Proof.
  intros Hd Hn. destruct r; unfold typeOf in *; simpl in *.
  replace (d >? maxDepth)%Z with false by lia.
  unfold typeOf; simpl. by rewrite Hn.
Qed.

Lemma validate_deep r d : (maxDepth < d)%Z -> validate r d = Some ErrNesting.
Proof. intros. destruct r; simpl. by replace (d >? maxDepth)%Z with true by lia. Qed.

Lemma firstError_None f l : firstError f l = None <-> Forall (fun c => f c = None) l.
Proof.
  induction l as [|c l IH]; simpl; [split; [constructor|done]|].
  rewrite Forall_cons, <- IH. destruct (f c); split; intros; destruct_and?; done.
Qed.

(** Membership in a short list of names, as the chain of tests decides it. *)
Lemma elem_of_names (s : string) (l : list string) :
  s ∈ l <-> existsb (fun t => s == t) l = true.
Proof.
  rewrite existsb_exists, list_elem_of_In. setoid_rewrite String.eqb_eq.
  split; [eauto|]. by intros (t & Ht & ->).
Qed.

Lemma validate_leaf r d :
  (d <= maxDepth)%Z -> ~ is_join r -> typeOf r <> TNot ->
  validate r d = None <-> leaf_wf r.
Proof.
  intros Hd Hj Hn. unfold leaf_wf, is_join, zoneKinds, transitions in *.
  destruct r. unfold typeOf in *. simpl in *.
  replace (d >? maxDepth)%Z with false by lia. unfold typeOf. simpl.
  destruct (ruleType _); try tauto; rewrite ?elem_of_names; simpl;
    repeat match goal with
    | |- context [String.eqb ?a ?b] => destruct (String.eqb_spec a b); subst; simpl
    | |- context [Z.ltb ?a ?b] => destruct (Z.ltb_spec a b); simpl
    | |- context [Z.gtb ?a ?b] => rewrite (Z.gtb_ltb a b)
    | |- context [fleb ?a ?b] => destruct (fleb a b); simpl
    | |- context [fgtb ?a ?b] => destruct (fgtb a b); simpl
    | |- context [isBlank ?a] => destruct (isBlank a); simpl
    end; split; intros; try done; try (destruct_and?; intuition (try congruence; try lia)).
Qed.

Lemma leaf_not_join r : leaf_wf r -> ~ is_join r /\ typeOf r <> TNot.
Proof. unfold leaf_wf, is_join. destruct (typeOf r); intuition discriminate. Qed.

Lemma validate_wf r : forall d, validate r d = None <-> wf d r.
Proof.
  induction r as [r IHc IHn] using Rule_ind'. intros d.
  destruct (decide (d <= maxDepth)%Z) as [Hd|Hd].
  2:{ rewrite validate_deep by lia. split; [done|]. inversion 1; lia. }
  destruct (decide (typeOf r = TAll \/ typeOf r = TAny)) as [Hj|Hj].
  { rewrite validate_join by done.
    assert (Forall (fun c => validate c (d + 1)%Z = None) r.(Rule.Rules)
            <-> Forall (wf (d + 1)%Z) r.(Rule.Rules)) as Hall.
    { rewrite Forall_forall in IHc. rewrite !Forall_forall.
      split; intros H x Hx; apply IHc; auto. }
    rewrite <- firstError_None in Hall.
    destruct (_ || _) eqn:E.
    - split; [done|]. inversion 1; subst; [lia| |].
      + destruct Hj; congruence.
      + by destruct (leaf_not_join r).
    - rewrite Hall. split; [intros; constructor; [done|done|lia|done]|].
      inversion 1; subst; [done| |].
      + destruct Hj; congruence.
      + by destruct (leaf_not_join r). }
  destruct (decide (typeOf r = TNot)) as [Hn|Hn].
  { rewrite validate_not by done. destruct (Rule.Negated r) as [n|] eqn:En.
    - rewrite (IHn n eq_refl). split; [intros; by eapply wf_not|].
      inversion 1; subst; [by destruct Hj|congruence|]. by destruct (leaf_not_join r).
    - split; [done|]. inversion 1; subst; [by destruct Hj|congruence|].
      by destruct (leaf_not_join r). }
  rewrite validate_leaf by done. split; [by constructor|].
  inversion 1; subst; [by destruct Hj|congruence|done].
Qed.

Lemma height_bound d r : wf d r -> (d + height r <= maxDepth)%Z.
Proof.
  revert d. induction r as [r IHc IHn] using Rule_ind'. intros d Hwf.
  assert (height r = match typeOf r, r.(Rule.Negated) with
    | TAll, _ | TAny, _ => fold_right (fun c h => Z.max (1 + height c) h) 0%Z r.(Rule.Rules)
    | TNot, Some n => (1 + height n)%Z
    | _, _ => 0%Z end) as -> by (by destruct r).
  inversion Hwf as [d' r' Hd Hj _ Hall|d' r' n Hd Ht Hn Hw|d' r' Hd Hl]; subst.
  - enough (d + fold_right (fun c h => Z.max (1 + height c) h) 0 (Rule.Rules r) <= maxDepth)%Z
      by (destruct Hj as [-> | ->]; lia).
    clear Hwf Hj IHn. induction Hall as [|c l Hc Hall IHall]; simpl; [lia|].
    inversion IHc as [|? ? IHc1 IHc2]; subst.
    specialize (IHc1 _ Hc). specialize (IHall IHc2). lia.
  - rewrite Ht, Hn. specialize (IHn n Hn _ Hw). lia.
  - unfold leaf_wf in Hl. destruct (typeOf r); destruct (Rule.Negated r); try done; lia.
Qed.

(** ** Evaluation of a well-formed rule returns *)

Lemma evaluate_wf d r o s : wf d r -> exists res, evaluate r o s = Some res.
Proof.
  revert d. induction r as [r IHc IHn] using Rule_ind'. intros d Hwf.
  rewrite evaluate_unfold.
  inversion Hwf as [d' r' Hd Hj _ Hall|d' r' n Hd Ht Hn Hw|d' r' Hd Hl]; subst.
  - rewrite Forall_forall in IHc, Hall.
    assert (forall (join : result -> result -> result) init, exists res, loopM (fun out child => join out <$> evaluate child o s) init r.(Rule.Rules) = Some res) as Hloop.
    { intros join init. apply loopM_is_Some. intros out c Hc.
      destruct (IHc c Hc _ (Hall c Hc)) as [res ->]. simpl. eauto. }
    destruct Hj as [-> | ->]; apply Hloop.
  - rewrite Ht, Hn. destruct (IHn n Hn _ Hw) as [res ->]. simpl. eauto.
  - unfold leaf_wf in Hl. destruct (typeOf r); try done; eauto.
    unfold evaluateStreak. repeat case_goal; eauto. crush_bool.
Qed.

(** A compiled rule evaluates, whatever the input. *)
Lemma Compile_evaluates r c o s :
  Compile r = Ok c ->
  c.(Compiled.Rule) = r /\ exists truth rs fs, EvaluateDetailed c o s = Some (truth, rs, fs).
Proof.
  unfold Compile, Validate. destruct (validate r 0) eqn:E; [done|]. intros [= <-]. simpl.
  split; [done|]. unfold EvaluateDetailed. simpl.
  apply validate_wf, (evaluate_wf 0 r o s) in E as [res ->]. simpl. eauto.
Qed.

(** ** Properties *)

(** C30: [Validate] accepts exactly the well-formed rules of the
    specification [wf]: known kinds, transitions and directions, bounds on
    every numeric field, two to twenty children of a composition, a present
    operand of [not]; and an accepted rule is at most [maxDepth] levels deep. *)
Theorem Validate_correct (r : Rule) :
  (Validate r = None <-> wf 0 r) /\ (Validate r = None -> (height r <= maxDepth)%Z).
Proof.
  unfold Validate. rewrite validate_wf. split; [done|].
  intros H%height_bound. lia.
Qed.

(** C26: evaluating a rule that [Validate] accepts never panics, on any
    observation and any feature state: it returns a truth value. *)
Theorem EvaluateDetailed_total (r : Rule) (c : Compiled) (o : Observation) (s : FeatureState) :
  Compile r = Ok c ->
  c.(Compiled.Rule) = r /\ exists truth rs fs, EvaluateDetailed c o s = Some (truth, rs, fs).
Proof. apply Compile_evaluates. Qed.

Lemma EvaluateDetailed_total_witness :
  exists truth rs fs,
    EvaluateDetailed (Compiled.mk threeRed (dependencies threeRed)) redBar FeatureState.zero
    = Some (truth, rs, fs).
Proof.
  exact (proj2 (EvaluateDetailed_total threeRed (Compiled.mk threeRed (dependencies threeRed))
                  redBar FeatureState.zero eq_refl)).
Defined.
