(* ===== verification/RulesSpec.v ===== *)
(** * What the rules mean

    Specifications of evaluation and of the shared feature state, against
    which the optimised definitions of [Rules] are shown equivalent: classical
    boolean semantics of the composition rules, the dependency mask as an
    over-approximation of what a rule reads, the bounded colour window against
    the unbounded history, and the leaf rules branch by branch. *)

From stdpp Require Import base gmap strings list numbers pretty.
From S2P Require Import Prelude GoFloat GoBase GoTime Model Rules Fixtures RulesValid.

(** ** The dependency mask *)

(** [Dependencies & dep != 0]. *)
Definition dependsOn (mask dep : Z) : bool := negb (Z.land mask dep =? 0)%Z.

(** Two inputs that agree on everything the bits of a mask name. *)
Definition agree (mask : Z) (o o' : Observation) (s s' : FeatureState) : Prop :=
  (dependsOn mask DependencyCandle = true ->
     o.(Observation.Candle) = o'.(Observation.Candle)
     /\ o.(Observation.Status) = o'.(Observation.Status)
     /\ o.(Observation.OccurredAt) = o'.(Observation.OccurredAt)
     /\ o.(Observation.Series).(Series.Timeframe) = o'.(Observation.Series).(Series.Timeframe)
     /\ s.(FeatureState.FormingBar) = s'.(FeatureState.FormingBar)
     /\ s.(FeatureState.FormingColor) = s'.(FeatureState.FormingColor)) /\
  (dependsOn mask DependencyIndicator = true ->
     o.(Observation.Indicators) = o'.(Observation.Indicators)) /\
  (dependsOn mask DependencyZone = true ->
     o.(Observation.ActiveZones) = o'.(Observation.ActiveZones)
     /\ o.(Observation.ZoneTransitions) = o'.(Observation.ZoneTransitions)) /\
  (dependsOn mask DependencyPattern = true ->
     o.(Observation.Patterns) = o'.(Observation.Patterns)) /\
  (dependsOn mask DependencyHistory = true ->
     s.(FeatureState.LastClose) = s'.(FeatureState.LastClose)
     /\ s.(FeatureState.Indicators) = s'.(FeatureState.Indicators)
     /\ s.(FeatureState.CandleColors) = s'.(FeatureState.CandleColors)).

Lemma dependsOn_lor a b dep : dependsOn (Z.lor a b) dep = dependsOn a dep || dependsOn b dep.
Proof.
  unfold dependsOn. rewrite Z.land_lor_distr_l.
  apply eq_true_iff_eq. rewrite orb_true_iff, !negb_true_iff, !Z.eqb_neq, Z.lor_eq_0_iff. lia.
Qed.

Lemma agree_lor a b o o' s s' :
  agree (Z.lor a b) o o' s s' -> agree a o o' s s' /\ agree b o o' s s'.
Proof.
  unfold agree. rewrite !dependsOn_lor.
  intros (H1 & H2 & H3 & H4 & H5).
  repeat split_and; intros H; (apply H1 || apply H2 || apply H3 || apply H4 || apply H5);
    rewrite H; by rewrite ?orb_true_r.
Qed.

Lemma agree_children rs o o' s s' :
  agree (fold_right (fun c acc => Z.lor (dependencies c) acc) 0%Z rs) o o' s s' ->
  Forall (fun c => agree (dependencies c) o o' s s') rs.
Proof.
  induction rs as [|c rs IH]; simpl; [constructor|].
  intros [? ?]%agree_lor. auto.
Qed.

Lemma evaluate_agree r o o' s s' :
  agree (dependencies r) o o' s s' -> evaluate r o s = evaluate r o' s'.
Proof.
  induction r as [r IHc IHn] using Rule_ind'. intros Hag.
  rewrite dependencies_unfold in Hag. rewrite !evaluate_unfold.
  rewrite Forall_forall in IHc.
  assert (forall (join : result -> result -> result) init,
    agree (fold_right (fun c acc => Z.lor (dependencies c) acc) 0%Z r.(Rule.Rules)) o o' s s' ->
    loopM (fun out c => join out <$> evaluate c o s) init r.(Rule.Rules)
    = loopM (fun out c => join out <$> evaluate c o' s') init r.(Rule.Rules)) as Hloop.
  { intros join init Ha%agree_children. rewrite Forall_forall in Ha.
    apply loopM_ext. intros out c Hc. by rewrite (IHc c Hc (Ha c Hc)). }
  destruct (decide (typeOf r = TNot)) as [Hn|Hn].
  { rewrite Hn in *. destruct (Rule.Negated r) as [n|]; [|done]. by rewrite (IHn n eq_refl Hag). }
  destruct (typeOf r) eqn:Et; try done; try (by apply Hloop);
    destruct Hag as (H1 & H2 & H3 & H4 & H5);
    try specialize (H1 eq_refl); try specialize (H2 eq_refl); try specialize (H3 eq_refl);
    try specialize (H4 eq_refl); try specialize (H5 eq_refl); destruct_and?;
    unfold evaluateTransition, evaluateNear, evaluateCross, evaluateColor, evaluateStreak,
      evaluateFlip, evaluatePattern, elapsedPercent, indicatorAt, currentIndicator;
    by repeat match goal with H : ?x = _ |- context [?x] => rewrite H end.
Qed.

(** ** Classical semantics of the composition rules *)

Definition leafResult (r : Rule) (o : Observation) (s : FeatureState) : result :=
  default unmatched (evaluate r o s).

(** Truth in the classical sense, an unknown leaf counting as false. *)
Fixpoint holds (r : Rule) (o : Observation) (s : FeatureState) : bool :=
  match typeOf r with
  | TAll => forallb (fun c => holds c o s) r.(Rule.Rules)
  | TAny => existsb (fun c => holds c o s) r.(Rule.Rules)
  | TNot => match r.(Rule.Negated) with Some n => negb (holds n o s) | None => false end
  | _ => (leafResult r o s).(known) && (leafResult r o s).(matched)
  end.

(** Every leaf is known. *)
Fixpoint decided (r : Rule) (o : Observation) (s : FeatureState) : bool :=
  match typeOf r with
  | TAll | TAny => forallb (fun c => decided c o s) r.(Rule.Rules)
  | TNot => match r.(Rule.Negated) with Some n => decided n o s | None => false end
  | _ => (leafResult r o s).(known)
  end.

(** Every leaf under a [not] is known. *)
Fixpoint negationsDecided (r : Rule) (o : Observation) (s : FeatureState) : bool :=
  match typeOf r with
  | TAll | TAny => forallb (fun c => negationsDecided c o s) r.(Rule.Rules)
  | TNot => match r.(Rule.Negated) with Some n => decided n o s | None => false end
  | _ => true
  end.

Lemma holds_unfold r o s :
  holds r o s =
  match typeOf r with
  | TAll => forallb (fun c => holds c o s) r.(Rule.Rules)
  | TAny => existsb (fun c => holds c o s) r.(Rule.Rules)
  | TNot => match r.(Rule.Negated) with Some n => negb (holds n o s) | None => false end
  | _ => (leafResult r o s).(known) && (leafResult r o s).(matched)
  end.
Proof. by destruct r. Qed.

Lemma decided_unfold r o s :
  decided r o s =
  match typeOf r with
  | TAll | TAny => forallb (fun c => decided c o s) r.(Rule.Rules)
  | TNot => match r.(Rule.Negated) with Some n => decided n o s | None => false end
  | _ => (leafResult r o s).(known)
  end.
Proof. by destruct r. Qed.

Lemma negationsDecided_unfold r o s :
  negationsDecided r o s =
  match typeOf r with
  | TAll | TAny => forallb (fun c => negationsDecided c o s) r.(Rule.Rules)
  | TNot => match r.(Rule.Negated) with Some n => decided n o s | None => false end
  | _ => true
  end.
Proof. by destruct r. Qed.

(** The truth the callers read off a result. *)
Definition truth (res : result) : bool := res.(known) && res.(matched).

(** The two loops, as folds of booleans over the children's results. *)
Lemma loop_results (join : result -> result -> result) o s l init out :
  loopM (fun acc c => join acc <$> evaluate c o s) init l = Some out ->
  exists rs, mapM (fun c => evaluate c o s) l = Some rs /\ out = foldl join init rs.
Proof.
  revert init. induction l as [|c l IH]; intros init; simpl; [naive_solver|].
  destruct (evaluate c o s) as [r|]; simpl; [|done].
  intros (rs & -> & ->)%IH. simpl. eauto.
Qed.

Lemma joinAll_spec rs : forall out,
  let res := foldl joinAll out rs in
  res.(known) = out.(known) && forallb known rs /\
  res.(matched) = out.(matched) && forallb matched rs.
Proof.
  induction rs as [|r rs IH]; intros out; simpl; [by rewrite !andb_true_r|].
  destruct (IH (joinAll out r)) as [-> ->]. simpl. by rewrite !andb_assoc.
Qed.

Lemma joinAny_spec rs : forall out,
  let res := foldl joinAny out rs in
  res.(known) = out.(known) || existsb known rs /\
  res.(matched) = out.(matched) || existsb truth rs.
Proof.
  induction rs as [|r rs IH]; intros out; simpl; [by rewrite !orb_false_r|].
  destruct (IH (joinAny out r)) as [-> ->]. simpl. by rewrite !orb_assoc.
Qed.

(** A boolean of the results of the children, from the same boolean of the
    children. *)
Lemma forallb_results (f : Rule -> option result) (g : result -> bool) (h : Rule -> bool) l rs :
  mapM f l = Some rs ->
  (forall c r, c ∈ l -> f c = Some r -> g r = h c) -> forallb g rs = forallb h l.
Proof.
  revert rs. induction l as [|c l IH]; intros rs; simpl; [by intros [= <-]|].
  destruct (f c) as [r|] eqn:Ec; simpl; [|done].
  destruct (mapM f l) as [rs'|]; simpl; [|done]. intros [= <-] Hgh. simpl.
  rewrite (Hgh c r), (IH rs'); [done..| |set_solver|done].
  intros. apply Hgh; set_solver.
Qed.

Lemma existsb_results (f : Rule -> option result) (g : result -> bool) (h : Rule -> bool) l rs :
  mapM f l = Some rs ->
  (forall c r, c ∈ l -> f c = Some r -> g r = h c) -> existsb g rs = existsb h l.
Proof.
  intros Hrs Hgh.
  pose proof (forallb_results f (fun r => negb (g r)) (fun c => negb (h c)) l rs Hrs) as H.
  assert (forall (A : Type) (p : A -> bool) k, existsb p k = negb (forallb (fun x => negb (p x)) k)) as Hn.
  { intros A p k. induction k as [|x k IHk]; simpl; [done|].
    rewrite IHk. by destruct (p x). }
  rewrite !Hn, H; [done|]. intros c r Hc Hf. by rewrite (Hgh c r Hc Hf).
Qed.

Lemma forallb_elem {A} (p : A -> bool) l x : forallb p l = true -> x ∈ l -> p x = true.
Proof. rewrite forallb_forall. setoid_rewrite list_elem_of_In. auto. Qed.

(** Evaluation of a rule whose leaves are all known is classical. *)
Lemma decided_classical r : forall d o s res,
  wf d r -> evaluate r o s = Some res -> decided r o s = true ->
  res.(known) = true /\ res.(matched) = holds r o s.
Proof.
  induction r as [r IHc IHn] using Rule_ind'. intros d o s res Hwf Hev Hd.
  rewrite Forall_forall in IHc. rewrite decided_unfold in Hd.
  rewrite holds_unfold.
  assert (leafResult r o s = res) as Hleaf by (unfold leafResult; by rewrite Hev).
  rewrite evaluate_unfold in Hev.
  inversion Hwf as [d' r' _ Hj Hlen Hall|d' r' n _ Ht Hn Hw|d' r' _ Hl]; subst d' r'.
  - rewrite Forall_forall in Hall.
    assert (forallb (fun c => decided c o s) r.(Rule.Rules) = true) as Hdc
      by (destruct Hj as [-> | ->] in Hd; done).
    assert (forall c rc, c ∈ r.(Rule.Rules) -> evaluate c o s = Some rc ->
              rc.(known) = true /\ rc.(matched) = holds c o s) as Hch.
    { intros c rc Hc Hrc. eapply IHc; eauto. by eapply (forallb_elem (fun c => decided c o s)). }
    destruct Hj as [Et|Et]; rewrite Et in *; apply loop_results in Hev as (rs & Hrs & ->).
    + destruct (joinAll_spec rs (mkResult true true [] [])) as [-> ->]. simpl.
      rewrite (forallb_results _ known (fun _ => true) _ _ Hrs) by (intros; by eapply Hch).
      rewrite (forallb_results _ matched (fun c => holds c o s) _ _ Hrs) by (intros; by eapply Hch).
      split; [|done]. by apply forallb_forall.
    + destruct (joinAny_spec rs (mkResult false false [] [])) as [-> ->]. simpl.
      rewrite (existsb_results _ truth (fun c => holds c o s) _ _ Hrs).
      2:{ intros c rc Hc Hrc. unfold truth. by destruct (Hch c rc Hc Hrc) as [-> ->]. }
      split; [|done].
      rewrite (existsb_results _ known (fun _ => true) _ _ Hrs) by (intros; by eapply Hch).
      destruct (Rule.Rules r); simpl in *; [lia|done].
  - rewrite Ht, Hn in *. destruct (evaluate n o s) as [rn|] eqn:En; simpl in Hev; [|done].
    clear Hleaf. injection Hev as <-. destruct (IHn n eq_refl _ o s rn Hw En Hd) as [Hk Hm].
    split; [exact Hk|]. by rewrite <- Hm.
  - unfold leaf_wf in Hl. rewrite Hleaf in *.
    destruct (typeOf r); try done; by rewrite Hd.
Qed.

Lemma truth_classical r : forall d o s res,
  wf d r -> evaluate r o s = Some res -> negationsDecided r o s = true ->
  truth res = holds r o s.
Proof.
  induction r as [r IHc IHn] using Rule_ind'. intros d o s res Hwf Hev Hd.
  rewrite Forall_forall in IHc. rewrite negationsDecided_unfold in Hd.
  rewrite holds_unfold.
  assert (leafResult r o s = res) as Hleaf by (unfold leafResult; by rewrite Hev).
  pose proof Hev as Hev0. rewrite evaluate_unfold in Hev.
  inversion Hwf as [d' r' _ Hj Hlen Hall|d' r' n _ Ht Hn Hw|d' r' _ Hl]; subst d' r'.
  - rewrite Forall_forall in Hall.
    assert (forallb (fun c => negationsDecided c o s) r.(Rule.Rules) = true) as Hdc
      by (destruct Hj as [-> | ->] in Hd; done).
    assert (forall c rc, c ∈ r.(Rule.Rules) -> evaluate c o s = Some rc ->
              truth rc = holds c o s) as Hch.
    { intros c rc Hc Hrc. eapply IHc; eauto. by eapply (forallb_elem (fun c => negationsDecided c o s)). }
    unfold truth.
    destruct Hj as [Et|Et]; rewrite Et in *; apply loop_results in Hev as (rs & Hrs & ->).
    + destruct (joinAll_spec rs (mkResult true true [] [])) as [-> ->]. simpl.
      rewrite <- (forallb_results _ truth (fun c => holds c o s) _ _ Hrs Hch).
      clear. induction rs as [|rc rs IH]; simpl; [done|]. rewrite <- IH. unfold truth.
      destruct (known rc), (matched rc); simpl; rewrite ?andb_false_r; done.
    + destruct (joinAny_spec rs (mkResult false false [] [])) as [-> ->]. simpl.
      rewrite <- (existsb_results _ truth (fun c => holds c o s) _ _ Hrs Hch).
      clear. induction rs as [|rc rs IH]; simpl; [done|]. rewrite <- IH at 2. unfold truth.
      destruct (known rc), (matched rc); simpl; rewrite ?IH; try done.
  - rewrite Ht, Hn in *. destruct (evaluate n o s) as [rn|] eqn:En; simpl in Hev; [|done].
    clear Hleaf. injection Hev as <-. destruct (decided_classical n _ o s rn Hw En Hd) as [Hk Hm].
    unfold truth. simpl. by rewrite Hk, Hm.
  - unfold leaf_wf in Hl. rewrite Hleaf. by destruct (typeOf r).
Qed.

(** ** Properties *)

(** The dependency mask of a compiled rule is sound. Two inputs that agree
    on everything the bits of the mask name evaluate alike: truth, reasons and
    facts; so nothing outside the mask can make a rule fire. *)
Theorem EvaluateDetailed_dependencies (r : Rule) (c : Compiled) (o o' : Observation) (s s' : FeatureState) :
  Compile r = Ok c -> agree c.(Compiled.Dependencies) o o' s s' ->
  EvaluateDetailed c o s = EvaluateDetailed c o' s'.
Proof.
  unfold Compile. destruct (Validate r); [done|]. intros [= <-] Hag. simpl in Hag.
  unfold EvaluateDetailed. simpl. by rewrite (evaluate_agree r o o' s s' Hag).
Qed.

(** The colour rule does not look at the history of closed candles. *)
Lemma EvaluateDetailed_dependencies_witness :
  EvaluateDetailed (Compiled.mk redColor (dependencies redColor)) redBar FeatureState.zero
  = EvaluateDetailed (Compiled.mk redColor (dependencies redColor)) redBar
      (FeatureState.mk (Some (fl 1)) None [] ["green"; "green"] zeroTime "").
Proof.
  apply (EvaluateDetailed_dependencies redColor); [reflexivity|].
  unfold agree. repeat split; try reflexivity;
    match goal with H : dependsOn _ _ = true |- _ => vm_compute in H; discriminate H end.
Defined.

(** C27: on a rule that [Validate] accepts and whose negated leaves are all
    known, evaluation is the classical reading of [all], [any] and [not] over
    the truth of the leaves, an unknown leaf counting as false. *)
Theorem EvaluateDetailed_boolean (r : Rule) (c : Compiled) (o : Observation) (s : FeatureState)
  (b : bool) (rs : list string) (fs : list FactReference) :
  Compile r = Ok c -> negationsDecided r o s = true ->
  EvaluateDetailed c o s = Some (b, rs, fs) -> b = holds r o s.
Proof.
  unfold Compile, Validate, EvaluateDetailed. destruct (validate r 0) eqn:E; [done|].
  intros [= <-] Hd. simpl. destruct (evaluate r o s) as [res|] eqn:Er; simpl; [|done].
  intros [= <- _ _]. apply validate_wf in E. by eapply (truth_classical r).
Qed.

Definition notRedOrStreak : Rule := joinRule "any" [notRule redColor; redStreak 2].

Lemma EvaluateDetailed_boolean_witness :
  false = holds notRedOrStreak redBar FeatureState.zero.
Proof.
  apply (EvaluateDetailed_boolean notRedOrStreak
           (Compiled.mk notRedOrStreak (dependencies notRedOrStreak)) redBar FeatureState.zero false [] []); vm_compute; reflexivity.
Defined.
