(* ===== verification/RulesHistory.v ===== *)
(** * Rules over the history of a series

    The feature state is a bounded summary of the observations a series has
    seen. Here it is compared with the unbounded history it stands for: the
    candle windows with the full list of closed candles, the forming colour
    with the observations of the bar that is open, the indicator map with the
    values last reported ready. *)

From stdpp Require Import base gmap strings list numbers pretty.
From Stdlib Require Import Ascii.
From S2P Require Import Prelude GoFloat GoBase GoTime Model Rules Fixtures RulesValid RulesSpec.

(** The state after a list of observations, from the zero state. *)
Definition history (os : list Observation) : FeatureState := foldl Advance FeatureState.zero os.

Definition isConfirmed (o : Observation) : Prop := o.(Observation.Status) = "confirmed".
#[export] Instance isConfirmed_dec o : Decision (isConfirmed o) := decide_rel eq _ _.

(** The candles a list of observations closed, oldest first. *)
Definition closedCandles (os : list Observation) : list Candle :=
  Observation.Candle <$> filter isConfirmed os.

Lemma history_snoc os o : history (os ++ [o]) = Advance (history os) o.
Proof. unfold history. by rewrite foldl_app. Qed.

Lemma history_app os os' : history (os ++ os') = foldl Advance (history os) os'.
Proof. unfold history. by rewrite foldl_app. Qed.

Lemma closedCandles_snoc os o :
  closedCandles (os ++ [o]) =
  closedCandles os ++ (if decide (isConfirmed o) then [o.(Observation.Candle)] else []).
Proof.
  unfold closedCandles. rewrite filter_app, fmap_app. f_equal.
  rewrite filter_cons, filter_nil. by destruct (decide _).
Qed.

Lemma status_decide o :
  (o.(Observation.Status) == "confirmed") = bool_decide (isConfirmed o).
Proof.
  unfold isConfirmed. destruct (String.eqb_spec o.(Observation.Status) "confirmed");
    symmetry; [by apply bool_decide_eq_true|by apply bool_decide_eq_false].
Qed.

(** ** The bounded windows *)

Lemma appendBounded_lastn {A} n (l : list A) x :
  appendBounded n (lastn n l) x = lastn n (l ++ [x]).
Proof.
  unfold appendBounded. case_goal.
  - apply Nat.ltb_lt in Heqb. rewrite length_app, length_lastn in Heqb. simpl in Heqb.
    destruct n as [|n].
    + unfold lastn. rewrite !drop_ge; rewrite ?length_app; simpl; [done|lia..].
    + rewrite !lastn_snoc. by rewrite lastn_lastn by lia.
  - apply Nat.ltb_ge in Heqb. rewrite length_app, length_lastn in Heqb. simpl in Heqb.
    rewrite (lastn_all n l) by lia. by rewrite lastn_all by (rewrite length_app; simpl; lia).
Qed.

Lemma length_appendBounded {A} n (l : list A) x :
  length l <= n -> length (appendBounded n l x) <= n.
Proof.
  intros Hl. unfold appendBounded. case_goal.
  - rewrite length_lastn. lia.
  - apply Nat.ltb_ge in Heqb. done.
Qed.

(** Whatever the state, the windows are bounded after an advance if they were before. *)
Lemma Advance_windows (f : FeatureState) o :
  length f.(FeatureState.Candles) <= 500 -> length f.(FeatureState.CandleColors) <= 100 ->
  length (Advance f o).(FeatureState.Candles) <= 500 /\
  length (Advance f o).(FeatureState.CandleColors) <= 100.
Proof.
  intros. unfold Advance. case_goal; simpl; split; try done; by apply length_appendBounded.
Qed.

(** The windows of the summary are the ends of the unbounded history. *)
Lemma history_windows os :
  (history os).(FeatureState.Candles) = lastn 500 (closedCandles os) /\
  (history os).(FeatureState.CandleColors) = lastn 100 (candleColor <$> closedCandles os).
Proof.
  induction os as [|o os [IH1 IH2]] using rev_ind; [done|].
  rewrite history_snoc, closedCandles_snoc, fmap_app. unfold Advance.
  rewrite status_decide, IH1, IH2.
  destruct (decide (isConfirmed o)).
  - rewrite bool_decide_eq_true_2 by done. cbn -[lastn appendBounded].
    by rewrite !appendBounded_lastn.
  - rewrite bool_decide_eq_false_2 by done. cbn -[lastn appendBounded].
    by rewrite !app_nil_r.
Qed.

(** ** Streaks *)

(** The last [n] colours of [colors] exist and are all [color]. *)
Definition streak (n : Z) (color : string) (colors : list string) : Prop :=
  exists before run, colors = before ++ run /\ Z.of_nat (length run) = n
    /\ Forall (fun c => c = color) run.

Lemma streak_lastn n color colors :
  (0 <= n)%Z ->
  streak n color colors <->
  (n <= Z.of_nat (length colors))%Z /\ Forall (fun c => c = color) (lastn (Z.to_nat n) colors).
Proof.
  intros Hn. split.
  - intros (before & run & -> & Hl & Hr). rewrite length_app. split; [lia|].
    rewrite lastn_app_ge by lia. by rewrite lastn_all by lia.
  - intros [Hl Hf]. exists (take (length colors - Z.to_nat n) colors), (lastn (Z.to_nat n) colors).
    unfold lastn at 1. rewrite take_drop, length_lastn. repeat split; [lia|done].
Qed.

Lemma forallb_eqb color l :
  forallb (fun got => got == color) l = true <-> Forall (fun c => c = color) l.
Proof.
  rewrite forallb_forall, Forall_forall. setoid_rewrite list_elem_of_In.
  by setoid_rewrite String.eqb_eq.
Qed.

(** The streak rule on a window that holds the end of a longer list of
    colours, when the window is long enough. *)
Lemma evaluateStreak_window r o s colors res :
  (0 <= r.(Rule.Count) <= 100)%Z ->
  s.(FeatureState.CandleColors) = lastn 100 colors ->
  evaluateStreak r o s = Some res ->
  truth res = true <->
  streak r.(Rule.Count) r.(Rule.Direction) (colors ++ [candleColor o.(Observation.Candle)]).
Proof.
  intros Hc Hw. unfold evaluateStreak. rewrite Hw.
  rewrite streak_lastn by lia. rewrite <- forallb_eqb.
  replace (Z.of_nat (length (lastn 100 colors ++ [candleColor o.(Observation.Candle)])) <? Rule.Count r)%Z
    with (Z.of_nat (length (colors ++ [candleColor o.(Observation.Candle)])) <? Rule.Count r)%Z.
  2:{ rewrite !length_app, length_lastn. change (length [_]) with 1. lia. }
  replace (lastn (Z.to_nat (Rule.Count r)) (lastn 100 colors ++ [candleColor o.(Observation.Candle)]))
    with (lastn (Z.to_nat (Rule.Count r)) (colors ++ [candleColor o.(Observation.Candle)])).
  2:{ rewrite <- lastn_snoc. by rewrite lastn_lastn by lia. }
  unfold truth. destruct (_ <? _)%Z eqn:E1; [intros [= <-]; simpl; split; [done|lia]|].
  destruct (_ <? 0)%Z eqn:E2; [done|].
  destruct (forallb _ _); intros [= <-]; simpl; intuition (try done; try lia).
Qed.

(** ** The colour of the bar that is forming *)

(** The last colour that is not a doji; "" when there is none. *)
Definition lastReal (colors : list string) : string :=
  default "" (last (filter (fun c => c <> "doji") colors)).

Definition barColors (run : list Observation) : list string :=
  (fun o => candleColor o.(Observation.Candle)) <$> run.

(** [run] observes the forming bar that opened at [t]. *)
Definition forming (t : Time) (o : Observation) : Prop :=
  ~ isConfirmed o /\ o.(Observation.Candle).(Candle.OpenTime) = t.

(** [run] is everything the series has seen of the bar [t] while it forms:
    what precedes it closed a bar, or belongs to another one. *)
Definition formingRun (t : Time) (before run : list Observation) : Prop :=
  Forall (forming t) run /\
  match last before with None => True | Some o => ~ forming t o end.

Lemma lastReal_snoc cs c :
  lastReal (cs ++ [c]) = if c != "doji" then c else lastReal cs.
Proof.
  unfold lastReal. rewrite filter_app, filter_cons, filter_nil.
  destruct (String.eqb_spec c "doji"); simpl.
  - rewrite decide_False by tauto. by rewrite app_nil_r.
  - rewrite decide_True by done. by rewrite last_snoc.
Qed.

Lemma Advance_forming f o :
  ~ isConfirmed o ->
  (Advance f o).(FeatureState.FormingBar) = o.(Observation.Candle).(Candle.OpenTime) /\
  (Advance f o).(FeatureState.FormingColor) =
    (let color := candleColor o.(Observation.Candle) in
     if color != "doji" then color
     else if Equal f.(FeatureState.FormingBar) o.(Observation.Candle).(Candle.OpenTime)
          then f.(FeatureState.FormingColor) else "").
Proof.
  intros Hc. unfold Advance. rewrite status_decide, bool_decide_eq_false_2 by done. simpl.
  split; [|done]. unfold Equal, UTC. case_goal; crush_bool.
Qed.

Lemma Advance_confirmed f o :
  isConfirmed o ->
  (Advance f o).(FeatureState.FormingBar) = zeroTime /\ (Advance f o).(FeatureState.FormingColor) = "".
Proof. intros Hc. unfold Advance. by rewrite status_decide, bool_decide_eq_true_2. Qed.

(** The colour remembered for the bar [t], when [t] is the bar in question. *)
Definition rememberedColor (f : FeatureState) (t : Time) : string :=
  if Equal f.(FeatureState.FormingBar) t then f.(FeatureState.FormingColor) else "".

Lemma rememberedColor_forming f o t :
  forming t o ->
  rememberedColor (Advance f o) t =
  if candleColor o.(Observation.Candle) != "doji" then candleColor o.(Observation.Candle)
  else rememberedColor f t.
Proof.
  intros [Hc <-]. unfold rememberedColor. destruct (Advance_forming f o Hc) as [-> ->].
  unfold Equal. rewrite Z.eqb_refl. by simpl.
Qed.

Lemma rememberedColor_other f o t :
  ~ forming t o -> rememberedColor (Advance f o) t = "".
Proof.
  intros Hf. unfold rememberedColor. destruct (decide (isConfirmed o)) as [Hc|Hc].
  - destruct (Advance_confirmed f o Hc) as [-> ->]. by case_goal.
  - destruct (Advance_forming f o Hc) as [-> _]. case_goal; [|done].
    exfalso. apply Hf. split; [done|]. unfold Equal in *. crush_bool.
Qed.

(** The summary remembers the last real colour of the forming bar. *)
Lemma history_forming t before run :
  formingRun t before run ->
  rememberedColor (history (before ++ run)) t = lastReal (barColors run).
Proof.
  intros [Hrun Hb]. rewrite history_app.
  assert (rememberedColor (history before) t = "") as H0.
  { destruct before as [|o before _] using rev_ind; [by unfold rememberedColor; case_goal|].
    rewrite last_snoc in Hb. rewrite history_snoc. by apply rememberedColor_other. }
  clear Hb. induction run as [|o run IH] using rev_ind; [done|].
  apply Forall_app in Hrun as [Hrun [Ho _]%Forall_cons].
  rewrite foldl_app. simpl. rewrite rememberedColor_forming by done. rewrite IH by done.
  unfold barColors. rewrite fmap_app. simpl. by rewrite lastReal_snoc.
Qed.

(** What a colour flip is: the bar was [from] and is [to]. *)
Definition flips (direction from to : string) : Prop :=
  from <> "" /\ from <> to /\ to <> "doji" /\
  (direction = "either" \/ direction = from +:+ "_to_" +:+ to).

Lemma lastReal_not_doji cs : lastReal cs <> "doji".
Proof.
  unfold lastReal. destruct (last _) as [c|] eqn:E; [|done]. simpl.
  apply last_Some_elem_of in E. by apply list_elem_of_filter in E as [? _].
Qed.

(** Closes the goal of a guard that made the rule unmatched. *)
Ltac no_flip := split; [done|intros (? & (? & ? & ? & [?|?]) & ? & ? & ?); congruence].

Lemma evaluateFlip_spec r o s from :
  rememberedColor s o.(Observation.Candle).(Candle.OpenTime) = from -> from <> "doji" ->
  truth (evaluateFlip r o s) = true <->
  o.(Observation.Status) = "provisional" /\
  flips r.(Rule.Direction) from (candleColor o.(Observation.Candle)) /\
  exists d, timeframeDuration o.(Observation.Series).(Series.Timeframe) = Some d /\
            (elapsedPercent o d <f r.(Rule.MinElapsedPercent)) = false.
Proof.
  unfold evaluateFlip, rememberedColor, flips. intros <- Hdoji.
  destruct (String.eqb_spec o.(Observation.Status) "provisional") as [Hs|Hs]; simpl; [|no_flip].
  destruct (Equal _ _); simpl; [|no_flip].
  set (to := candleColor _). set (from := FeatureState.FormingColor s) in *.
  destruct (String.eqb_spec from ""); simpl; [no_flip|].
  destruct (String.eqb_spec from "doji"); simpl; [done|].
  destruct (String.eqb_spec to "doji"); simpl; [no_flip|].
  destruct (String.eqb_spec from to); simpl; [no_flip|].
  assert (((r.(Rule.Direction) != "either") && (r.(Rule.Direction) != from +:+ "_to_" +:+ to)) = false
          <-> r.(Rule.Direction) = "either" \/ r.(Rule.Direction) = from +:+ "_to_" +:+ to) as Hdir.
  { rewrite andb_false_iff, !negb_false_iff. by rewrite !String.eqb_eq. }
  simpl in Hdir. destruct (_ && _) eqn:Edir.
  { split; [done|]. intros (_ & (_ & _ & _ & H) & _). by apply Hdir in H. }
  assert (r.(Rule.Direction) = "either" \/ r.(Rule.Direction) = from +:+ "_to_" +:+ to) as Hd by (by apply Hdir).
  destruct (timeframeDuration _) as [d|]; [|no_flip].
  destruct (elapsedPercent o d <f _) eqn:Ep; unfold truth; simpl.
  - split; [done|]. intros (_ & _ & d' & [= <-] & ?). congruence.
  - split; [|done]. intros _. repeat split; eauto.
Qed.

(** ** Crossings *)

(** The value of an indicator last reported ready, [before] if none is. *)
Definition lastReady (key : string) (before : option float64) (l : list Indicator) : option float64 :=
  foldl (fun v i => if i.(Indicator.Ready) && (indicatorKey i.(Indicator.Name) i.(Indicator.Period) == key)
                    then Some i.(Indicator.Value) else v) before l.

Lemma advanceIndicators_lookup key l : forall m,
  advanceIndicators m l !! key = lastReady key (m !! key) l.
Proof.
  unfold advanceIndicators, lastReady.
  induction l as [|i l IH]; intros m; simpl; [done|]. rewrite IH. f_equal.
  destruct (Indicator.Ready i); simpl; [|done].
  destruct (String.eqb_spec (indicatorKey (Indicator.Name i) (Indicator.Period i)) key) as [->|Hk].
  - by rewrite lookup_insert_eq.
  - by rewrite lookup_insert_ne.
Qed.

Lemma indicatorAt_Advance s o key :
  indicatorAt (Advance s o) key = lastReady key (indicatorAt s key) o.(Observation.Indicators).
Proof.
  unfold indicatorAt, Advance. case_goal; simpl; rewrite advanceIndicators_lookup;
    by destruct (FeatureState.Indicators s); simpl; rewrite ?lookup_empty.
Qed.

(** The price moves from one side of the indicator, or from the indicator
    itself, to the other side, strictly. *)
Definition crossesUp (close indicator close' indicator' : float64) : bool :=
  (close <=f indicator) && (close' >f indicator').
Definition crossesDown (close indicator close' indicator' : float64) : bool :=
  (close >=f indicator) && (close' <f indicator').

Lemma crosses_exclusive c i c' i' : crossesUp c i c' i' = true -> crossesDown c i c' i' = false.
Proof.
  unfold crossesUp, crossesDown, fgtb. intros [_ H]%andb_true_iff.
  rewrite (fltb_asym _ _ H). apply andb_false_r.
Qed.

Definition crosses (direction : string) (c i c' i' : float64) : bool :=
  if direction == "above" then crossesUp c i c' i'
  else if direction == "below" then crossesDown c i c' i'
  else if direction == "either" then xorb (crossesUp c i c' i') (crossesDown c i c' i')
  else false.

Lemma crosses_flags dir c i c' i' :
  (dir == "above") && crossesUp c i c' i' || (dir == "below") && crossesDown c i c' i'
  || (dir == "either") && (crossesUp c i c' i' || crossesDown c i c' i') = crosses dir c i c' i'.
Proof.
  unfold crosses.
  destruct (String.eqb_spec dir "above") as [->|?]; simpl; [by rewrite !orb_false_r|].
  destruct (String.eqb_spec dir "below") as [->|?]; simpl; [by rewrite !orb_false_r|].
  destruct (String.eqb_spec dir "either"); simpl; [|done].
  destruct (crossesUp c i c' i') eqn:E; [by rewrite (crosses_exclusive _ _ _ _ E)|].
  by destruct (crossesDown c i c' i').
Qed.

Lemma evaluateCross_spec r o s :
  truth (evaluateCross r o s) = true <->
  exists c i i', s.(FeatureState.LastClose) = Some c
    /\ indicatorAt s (indicatorKey r.(Rule.Name) r.(Rule.Period)) = Some i
    /\ currentIndicator (indicatorKey r.(Rule.Name) r.(Rule.Period)) o = Some i'
    /\ crosses r.(Rule.Direction) c i o.(Observation.Candle).(Candle.Close) i' = true.
Proof.
  unfold evaluateCross.
  destruct (FeatureState.LastClose s) as [c|];
    [|split; [done|by intros (? & ? & ? & ? & _)]].
  destruct (indicatorAt s _) as [i|]; [|split; [done|by intros (? & ? & ? & _ & ? & _)]].
  destruct (currentIndicator _ o) as [i'|]; [|split; [done|by intros (? & ? & ? & _ & _ & ? & _)]].
  set (close := Candle.Close _). unfold truth. cbn [known matched andb].
  fold (crossesUp c i close i') (crossesDown c i close i').
  rewrite (crosses_flags r.(Rule.Direction)). split.
  - intros H. by exists c, i, i'.
  - by intros (? & ? & ? & [= <-] & [= <-] & [= <-] & ?).
Qed.

(** ** Time frames *)

(** The duration of a "d" or "w" time frame. *)
Definition calendarUnit (value : string) : option Duration :=
  if hasSuffixByte value "w"%char then Some (7 * (24 * Hour))%Z
  else if hasSuffixByte value "d"%char then Some (24 * Hour)%Z else None.

Lemma timeframeDuration_calendar value unit q :
  1 < String.length value -> calendarUnit value = Some unit -> atoi (dropLast value) = Some q ->
  timeframeDuration value = if (q <=? 0)%Z then None else Some (mulDur q unit).
Proof.
  intros Hl Hu Hq. unfold timeframeDuration, calendarUnit in *.
  rewrite (proj2 (Nat.ltb_lt _ _) Hl).
  destruct (hasSuffixByte value "w"); [|destruct (hasSuffixByte value "d"); [|done]];
    rewrite ?orb_true_r, Hq; simpl; by simplify_eq.
Qed.

(** ** Properties *)

(** The streak rule counts closed candles exactly. On the state any
    sequence of observations leads to, a validated streak rule is true on [o]
    iff the last [Count] candles, those closed by the whole sequence and
    [o]'s own, all have its colour: keeping only 100 colours loses nothing. *)
Theorem streak_exact (r : Rule) (c : Compiled) (os : list Observation) (o : Observation)
  (b : bool) (rs : list string) (fs : list FactReference) :
  typeOf r = TCandleStreak -> Compile r = Ok c ->
  EvaluateDetailed c o (history os) = Some (b, rs, fs) ->
  b = true <->
  streak r.(Rule.Count) r.(Rule.Direction)
    ((candleColor <$> closedCandles os) ++ [candleColor o.(Observation.Candle)]).
Proof.
  unfold Compile, Validate, EvaluateDetailed. intros Ht. destruct (validate r 0) eqn:E; [done|].
  intros [= <-]. simpl. apply validate_leaf in E;
    [|done|unfold is_join; rewrite Ht; intuition discriminate|congruence].
  unfold leaf_wf in E. rewrite Ht in E. rewrite evaluate_unfold, Ht.
  destruct (evaluateStreak r o (history os)) as [res|] eqn:Er; simpl; [|done].
  intros [= <- _ _]. eapply evaluateStreak_window; [lia|apply history_windows|done].
Qed.

Lemma streak_exact_witness :
  streak 3 "red" ((candleColor <$> closedCandles [redBar; redBar]) ++ [candleColor redBar.(Observation.Candle)]).
Proof.
  apply (streak_exact threeRed (Compiled.mk threeRed (dependencies threeRed)) [redBar; redBar] redBar true
           ["3 consecutive red candles"] []); vm_compute; reflexivity.
Defined.

(** C29: the flip rule fires exactly on a change of colour of the bar that is
    forming. When [run] is what the series has seen of the open bar, the rule
    is true iff the observation is provisional, the last real colour seen in
    [run] differs from the candle's colour in the asked direction (a doji in
    between is ignored, a doji never fires), and enough of the bar has elapsed. *)
Theorem flip_exact (r : Rule) (before run : list Observation) (o : Observation) :
  typeOf r = TCandleColorFlip ->
  formingRun o.(Observation.Candle).(Candle.OpenTime) before run ->
  exists res, evaluate r o (history (before ++ run)) = Some res /\
  (truth res = true <->
   o.(Observation.Status) = "provisional" /\
   flips r.(Rule.Direction) (lastReal (barColors run)) (candleColor o.(Observation.Candle)) /\
   exists d, timeframeDuration o.(Observation.Series).(Series.Timeframe) = Some d /\
             (elapsedPercent o d <f r.(Rule.MinElapsedPercent)) = false).
Proof.
  intros Ht Hrun. rewrite evaluate_unfold, Ht. eexists; split; [done|].
  apply evaluateFlip_spec; [by apply history_forming|apply lastReal_not_doji].
Qed.

Definition flipRun : list Observation :=
  [formingBar "a" btc start (10 * Second) 1 100 99; formingBar "b" btc start (20 * Second) 2 100 100].
Definition flipBar : Observation := formingBar "c" btc start (40 * Second) 3 100 101.

Lemma flip_exact_witness :
  exists res, evaluate flipEither flipBar (history ([redBar] ++ flipRun)) = Some res /\ truth res = true.
Proof.
  assert (formingRun start [redBar] flipRun) as Hrun.
  { split; [|intros [H _]; apply H; reflexivity].
    repeat constructor; intros H; discriminate H. }
  destruct (flip_exact flipEither [redBar] flipRun flipBar eq_refl Hrun) as (res & Hres & Hiff).
  exists res. split; [exact Hres|]. apply Hiff. repeat split.
  - intros H; discriminate H.
  - intros H; discriminate H.
  - intros H; discriminate H.
  - left; reflexivity.
  - exists Minute. split; vm_compute; reflexivity.
Defined.

(** C28: the crossing rule compares two consecutive observations of a series.
    After an observation [prev], it is true on [o] iff [prev]'s close was on
    or beyond one side of the indicator as last reported ready and [o]'s close
    is strictly beyond the other side of [o]'s own indicator; "either" is one
    of the two directions and never both. *)
Theorem cross_exact (r : Rule) (s : FeatureState) (prev o : Observation) :
  typeOf r = TPriceCrossesIndicator ->
  let key := indicatorKey r.(Rule.Name) r.(Rule.Period) in
  exists res, evaluate r o (Advance s prev) = Some res /\
  (truth res = true <->
   exists i i',
     lastReady key (indicatorAt s key) prev.(Observation.Indicators) = Some i /\
     currentIndicator key o = Some i' /\
     crosses r.(Rule.Direction) prev.(Observation.Candle).(Candle.Close) i
       o.(Observation.Candle).(Candle.Close) i' = true).
Proof.
  intros Ht key. rewrite evaluate_unfold, Ht. eexists; split; [done|].
  rewrite evaluateCross_spec. fold key. setoid_rewrite indicatorAt_Advance.
  assert ((Advance s prev).(FeatureState.LastClose) = Some prev.(Observation.Candle).(Candle.Close)) as ->
    by (unfold Advance; by case_goal).
  split.
  - intros (c & i & i' & [= <-] & ? & ? & ?). eauto.
  - intros (i & i' & ? & ? & ?). eauto 10.
Qed.

Definition withEma (v : Z) (o : Observation) : Observation :=
  Observation.mk o.(Observation.Schema) o.(Observation.SourceEventID) o.(Observation.CorrelationID)
    o.(Observation.OccurredAt) o.(Observation.Status) o.(Observation.Revision) o.(Observation.IsReset)
    o.(Observation.History) o.(Observation.Series) o.(Observation.Candle)
    [Indicator.mk "ema" 200 (fl v) true] o.(Observation.ActiveZones) o.(Observation.ZoneTransitions)
    o.(Observation.Patterns) o.(Observation.FeatureAlgorithm).

Lemma cross_exact_witness :
  exists res, evaluate crossAbove (withEma 100 (confirmedBar "two" btc (minutes 1) 99 102))
                (Advance FeatureState.zero (withEma 100 redBar)) = Some res /\ truth res = true.
Proof.
  destruct (cross_exact crossAbove FeatureState.zero (withEma 100 redBar)
              (withEma 100 (confirmedBar "two" btc (minutes 1) 99 102)) eq_refl) as (res & Hres & Hiff).
  exists res. split; [exact Hres|]. apply Hiff. exists (fl 100), (fl 100).
  repeat split; vm_compute; reflexivity.
Defined.

(** Past 64 bits the product wraps: 106752 days is accepted with a negative
    length, and 281474976710656 days with length zero. *)
Lemma timeframeDuration_wraps :
  timeframeDuration "106752d" = Some (-9223371273709551616)%Z /\
  timeframeDuration "281474976710656d" = Some 0%Z.
Proof. split; vm_compute; reflexivity. Qed.

(** The calendar time frames. A quantity of days or weeks that is not
    positive is refused, and any other is accepted with the 64-bit product of
    quantity and unit: exactly that many units as long as they fit in 64 bits,
    and a wrapped length, reported as no error, beyond. *)
Theorem timeframeDuration_exact (value : string) (unit q : Z) :
  1 < String.length value -> calendarUnit value = Some unit -> atoi (dropLast value) = Some q ->
  timeframeDuration value = (if (q <=? 0)%Z then None else Some (int64 (q * unit))) /\
  ((0 < q)%Z -> (q * unit <= maxInt64)%Z -> timeframeDuration value = Some (q * unit)%Z) /\
  ((maxInt64 < q * unit)%Z -> exists d, timeframeDuration value = Some d /\ d <> (q * unit)%Z).
Proof.
  intros Hl Hu Hq. rewrite (timeframeDuration_calendar value unit q) by done. unfold mulDur.
  assert (0 < unit)%Z as Hunit
    by (unfold calendarUnit in Hu; repeat case_hyp Hu; simplify_eq/=; vm_compute; done).
  split; [done|]. split.
  - intros Hpos Hb. replace (q <=? 0)%Z with false by lia. rewrite int64_id; [done|].
    unfold minInt64 in *. nia.
  - intros Hb. assert (0 < q)%Z by (unfold maxInt64 in Hb; nia).
    replace (q <=? 0)%Z with false by lia. eexists. split; [done|].
    pose proof (int64_range (q * unit)). lia.
Qed.

Lemma timeframeDuration_exact_witness :
  timeframeDuration "2w" = Some (2 * (7 * (24 * Hour)))%Z.
Proof.
  apply (timeframeDuration_exact "2w" (7 * (24 * Hour)) 2); vm_compute;
    solve [reflexivity | lia | intros H; discriminate H].
Defined.
