(* ===== verification/Store.v ===== *)
(** * internal/store/store.go: what a repository is

    The data a repository exchanges with the engine, the keys of its tables,
    and the contract the engine relies on, as a class of operations with the
    laws an implementation discharges (Memory.v does). A call that failed
    returns [Err] with the error, and the state it left behind. *)

From stdpp Require Import base gmap strings list numbers.
From Stdlib Require Import Ascii.
From S2P Require Import Prelude GoBase GoTime Model.

Inductive StoreError :=
| ErrNotFound
| ErrMarshal
| ErrBackend (message : string).

Module OperationalStats.
Record OperationalStats := mk { PendingOutbox : Z; OldestOutboxAge : Duration }.
End OperationalStats.

Module RetentionPolicy.
Record RetentionPolicy := mk {
  ProvisionalInbox : Duration; ConfirmedInbox : Duration; AlertEvents : Duration; BatchSize : Z }.
End RetentionPolicy.

Module MaintenanceResult.
Record MaintenanceResult := mk { InboxDeleted : Z; AlertsDeleted : Z }.
End MaintenanceResult.

Module RuntimeSnapshot.
Record RuntimeSnapshot := mk {
  Series : gmap string SeriesEvaluationState;
  Definitions : gmap string DefinitionEvaluationState }.
End RuntimeSnapshot.
Abbreviation RuntimeSnapshot := RuntimeSnapshot.RuntimeSnapshot.

Module RuntimeBatch.
Record RuntimeBatch := mk {
  PartitionID : Z;
  Observations : list Observation;
  SeriesStates : gmap string SeriesEvaluationState;
  DefinitionStates : gmap string DefinitionEvaluationState;
  ResetSeriesKeys : list string;
  Alerts : list Alert }.
End RuntimeBatch.
Abbreviation RuntimeBatch := RuntimeBatch.RuntimeBatch.

Definition DefinitionStateKey (definitionID seriesKey : string) : string :=
  definitionID +:+ "|" +:+ seriesKey.

(** [definitionSeriesKey] of memory.go: what follows the first bar. *)
Definition definitionSeriesKey (key : string) : string :=
  let '(_, seriesKey, found) := cut "|"%char key in
  if found then seriesKey else key.

(** An identifier without the separator of [DefinitionStateKey]. *)
Definition noBar (s : string) : bool := absent "|"%char s.

Lemma definitionSeriesKey_of id sk :
  noBar id = true -> definitionSeriesKey (DefinitionStateKey id sk) = sk.
Proof.
  intros H. unfold definitionSeriesKey, DefinitionStateKey.
  pose proof (cut_absent "|"%char id sk H) as E. simpl in E. by rewrite E.
Qed.

Lemma DefinitionStateKey_inj id id' sk sk' :
  noBar id = true -> noBar id' = true ->
  DefinitionStateKey id sk = DefinitionStateKey id' sk' -> id = id' /\ sk = sk'.
Proof.
  intros H H' HE. pose proof (cut_absent "|"%char id sk H) as E.
  pose proof (cut_absent "|"%char id' sk' H') as E'.
  unfold DefinitionStateKey in HE. simpl in *. rewrite HE, E' in E. by simplify_eq.
Qed.

(** The definition states of the series in [keys] dropped, as the engine and
    the repositories do on a reset: [for key := range states { if
    definitionSeriesKey(key) == seriesKey { delete(states, key) } }]. Each has
    its own [definitionSeriesKey], here [keyOf]. *)
Section Drop.
Context (keyOf : string -> string).
Implicit Types m : gmap string DefinitionEvaluationState.

Definition dropSeries (key : string) (states : gmap string DefinitionEvaluationState)
  : gmap string DefinitionEvaluationState :=
  filter (fun kv => keyOf kv.1 <> key) states.

Definition dropAllSeries (keys : list string) (states : gmap string DefinitionEvaluationState)
  : gmap string DefinitionEvaluationState :=
  foldl (fun m key => dropSeries key m) states keys.

Lemma dropSeries_lookup key m k :
  dropSeries key m !! k = if decide (keyOf k = key) then None else m !! k.
Proof.
  unfold dropSeries. case_decide as E.
  - apply map_lookup_filter_None. right. intros x _ Hne. by apply Hne.
  - destruct (m !! k) as [x|] eqn:Ek.
    + by apply map_lookup_filter_Some.
    + apply map_lookup_filter_None. by left.
Qed.

Lemma dropAllSeries_lookup keys m k :
  dropAllSeries keys m !! k = if decide (keyOf k ∈ keys) then None else m !! k.
Proof.
  unfold dropAllSeries. revert m. induction keys as [|key keys IH]; intros m; cbn [foldl].
  { destruct (decide _); [set_solver|done]. }
  rewrite IH, dropSeries_lookup. repeat case_decide; set_solver.
Qed.
End Drop.

(** ** States that JSON does not tell apart

    A state that goes through [json.Marshal] and back may lose the difference
    between an empty map and a nil one: [Indicators] is marked [omitempty].
    [readSeries] is what is read back; two states are equivalent when it is
    the same. Nothing in the program looks at the difference (see
    EngineEquiv.v). *)
Definition readFeature (f : FeatureState) : FeatureState :=
  FeatureState.mk f.(FeatureState.LastClose)
    (m ← f.(FeatureState.Indicators); if decide (m = ∅) then None else Some m)
    f.(FeatureState.Candles) f.(FeatureState.CandleColors) f.(FeatureState.FormingBar)
    f.(FeatureState.FormingColor).

Definition readSeries (st : SeriesEvaluationState) : SeriesEvaluationState :=
  SeriesEvaluationState.mk st.(SeriesEvaluationState.LastOpenTime)
    st.(SeriesEvaluationState.LastRevision) st.(SeriesEvaluationState.LastStatus)
    st.(SeriesEvaluationState.LastResetID) st.(SeriesEvaluationState.LastResetAt)
    (readFeature st.(SeriesEvaluationState.Confirmed)) (readFeature st.(SeriesEvaluationState.Intrabar))
    st.(SeriesEvaluationState.ActiveZones).

#[export] Instance feature_equiv : Equiv FeatureState := fun f g => readFeature f = readFeature g.
#[export] Instance series_equiv : Equiv SeriesEvaluationState := fun st st' => readSeries st = readSeries st'.
#[export] Instance feature_equivalence : Equivalence (≡@{FeatureState}).
Proof. unfold equiv, feature_equiv. split; congruence. Qed.
#[export] Instance series_equivalence : Equivalence (≡@{SeriesEvaluationState}).
Proof. unfold equiv, series_equiv. split; congruence. Qed.

Lemma series_equiv_iff st st' :
  st ≡ st' <->
  st.(SeriesEvaluationState.LastOpenTime) = st'.(SeriesEvaluationState.LastOpenTime) /\
  st.(SeriesEvaluationState.LastRevision) = st'.(SeriesEvaluationState.LastRevision) /\
  st.(SeriesEvaluationState.LastStatus) = st'.(SeriesEvaluationState.LastStatus) /\
  st.(SeriesEvaluationState.LastResetID) = st'.(SeriesEvaluationState.LastResetID) /\
  st.(SeriesEvaluationState.LastResetAt) = st'.(SeriesEvaluationState.LastResetAt) /\
  st.(SeriesEvaluationState.Confirmed) ≡ st'.(SeriesEvaluationState.Confirmed) /\
  st.(SeriesEvaluationState.Intrabar) ≡ st'.(SeriesEvaluationState.Intrabar) /\
  st.(SeriesEvaluationState.ActiveZones) = st'.(SeriesEvaluationState.ActiveZones).
Proof.
  split.
  - intros H. repeat split.
    + exact (f_equal SeriesEvaluationState.LastOpenTime H).
    + exact (f_equal SeriesEvaluationState.LastRevision H).
    + exact (f_equal SeriesEvaluationState.LastStatus H).
    + exact (f_equal SeriesEvaluationState.LastResetID H).
    + exact (f_equal SeriesEvaluationState.LastResetAt H).
    + exact (f_equal SeriesEvaluationState.Confirmed H).
    + exact (f_equal SeriesEvaluationState.Intrabar H).
    + exact (f_equal SeriesEvaluationState.ActiveZones H).
  - intros (? & ? & ? & ? & ? & Hc & Hi & ?). unfold equiv, series_equiv, readSeries. rewrite Hc, Hi. congruence.
Qed.

Lemma readFeature_idemp f : readFeature (readFeature f) = readFeature f.
Proof.
  destruct f as [c [m|] cs cols b col]; unfold readFeature; simpl; [|done].
  destruct (decide (m = ∅)); simpl; [done|]. by rewrite decide_False.
Qed.

Lemma readSeries_idemp st : readSeries (readSeries st) = readSeries st.
Proof. destruct st. unfold readSeries. simpl. by rewrite !readFeature_idemp. Qed.

(** Reading back gives an equivalent state. *)
Lemma readSeries_equiv st : readSeries st ≡ st.
Proof. apply readSeries_idemp. Qed.

#[export] Instance snapshot_equiv : Equiv RuntimeSnapshot := fun s s' =>
  s.(RuntimeSnapshot.Series) ≡ s'.(RuntimeSnapshot.Series) /\
  s.(RuntimeSnapshot.Definitions) = s'.(RuntimeSnapshot.Definitions).
#[export] Instance snapshot_equivalence : Equivalence (≡@{RuntimeSnapshot}).
Proof.
  split.
  - intros s. by split.
  - intros s s' [H H']. by split.
  - intros s s' s'' [H H'] [K K']. split; [by etrans|congruence].
Qed.

(** ** The effect a committed batch has on the checkpointed runtime *)
Definition commitRuntime (b : RuntimeBatch) (s : RuntimeSnapshot) : RuntimeSnapshot :=
  RuntimeSnapshot.mk
    (b.(RuntimeBatch.SeriesStates) ∪ s.(RuntimeSnapshot.Series))
    (b.(RuntimeBatch.DefinitionStates)
       ∪ dropAllSeries definitionSeriesKey b.(RuntimeBatch.ResetSeriesKeys) s.(RuntimeSnapshot.Definitions)).

(** ** The interface

    The operations of [Repository] the engine calls. [ListDefinitions] is
    given what the call observes of its environment. *)
Module Env.
Record Env := mk {
  now : Time;                (* time.Now() *)
  order : list string        (* the iteration order of the map it ranges over *) }.
End Env.
Abbreviation Env := Env.Env.

Class Repository (R : Type) := {
  ListDefinitions : Env -> R -> Res StoreError (list AlertDefinition);
  LoadRuntimeStates : list Z -> R -> Res StoreError RuntimeSnapshot;
  CommitRuntimeBatch : RuntimeBatch -> R -> Res StoreError (list Alert) * R }.

(** The rest of the Go interface, which the service calls. *)
Class ControlRepository (R : Type) `{Repository R} := {
  StoreCreateDefinition : AlertDefinition -> R -> Res StoreError (AlertDefinition * bool) * R;
  StoreSetEnabled : Env -> string -> bool -> Time -> R -> Res StoreError AlertDefinition * R;
  StoreArchiveDefinition : Env -> string -> Time -> R -> option StoreError * R;
  StoreListAlerts : Z -> Z -> R -> Res StoreError (list Alert);
  StoreClaimPending : Env -> Z -> R -> Res StoreError (list Alert) * R;
  StoreMarkPublished : Env -> string -> R -> option StoreError * R;
  StoreMarkPublishFailed : Env -> string -> string -> R -> option StoreError * R;
  StoreMaintain : Env -> RetentionPolicy.RetentionPolicy -> R ->
    Res StoreError MaintenanceResult.MaintenanceResult * R;
  StoreOperationalStats : Env -> R -> Res StoreError OperationalStats.OperationalStats;
  StorePing : R -> option StoreError }.

(** [alerts] are some of [emitted], in order, with their cursors set. *)
Definition committedFrom (emitted alerts : list Alert) : Prop :=
  exists chosen, chosen `sublist_of` emitted /\
    Forall2 (fun a a0 => a = Alert.with_Cursor a0 a.(Alert.Cursor)) alerts chosen.

(** What an implementation promises. [runtimeOf] is the checkpointed runtime;
    [home r p key] says that the checkpoint of the series [key] is loaded for
    partition [p], [homeDefinition] the same for definition states. *)
Class RepositoryLaws (R : Type) `{Repository R} := {
  runtimeOf : R -> RuntimeSnapshot;
  home : R -> Z -> string -> Prop;
  homeDefinition : R -> Z -> string -> Prop;

  (** A commit that returned no error took effect as a whole, up to what JSON
      does not tell apart; one that failed
      had no effect on the checkpoint: batches are atomic. *)
  commit_ok b r alerts r' :
    CommitRuntimeBatch b r = (Ok alerts, r') ->
    runtimeOf r' ≡ commitRuntime b (runtimeOf r);
  commit_err b r e r' :
    CommitRuntimeBatch b r = (Err e, r') ->
    runtimeOf r' = runtimeOf r /\ (forall p k, home r p k -> home r' p k)
    /\ (forall p k, homeDefinition r p k -> homeDefinition r' p k);
  commit_no_panic b r : (CommitRuntimeBatch b r).1 <> Panic;

  (** The alerts it returns are alerts of the batch, in its order, with a
      cursor assigned. *)
  commit_alerts b r alerts r' :
    CommitRuntimeBatch b r = (Ok alerts, r') ->
    committedFrom b.(RuntimeBatch.Alerts) alerts;

  (** What a batch writes is found again by whoever loads its partition. *)
  commit_home b r alerts r' :
    CommitRuntimeBatch b r = (Ok alerts, r') ->
    (forall k, is_Some (b.(RuntimeBatch.SeriesStates) !! k) -> home r' b.(RuntimeBatch.PartitionID) k) /\
    (forall p k, home r p k -> b.(RuntimeBatch.SeriesStates) !! k = None -> home r' p k) /\
    (forall k, is_Some (b.(RuntimeBatch.DefinitionStates) !! k) ->
       homeDefinition r' b.(RuntimeBatch.PartitionID) k) /\
    (forall p k, homeDefinition r p k -> b.(RuntimeBatch.DefinitionStates) !! k = None ->
       homeDefinition r' p k);
  load_ok ps r s :
    LoadRuntimeStates ps r = Ok s ->
    s.(RuntimeSnapshot.Series) ⊆ (runtimeOf r).(RuntimeSnapshot.Series) /\
    s.(RuntimeSnapshot.Definitions) ⊆ (runtimeOf r).(RuntimeSnapshot.Definitions) /\
    (forall p k, p ∈ ps -> home r p k ->
       s.(RuntimeSnapshot.Series) !! k = (runtimeOf r).(RuntimeSnapshot.Series) !! k) /\
    (forall p k, p ∈ ps -> homeDefinition r p k ->
       s.(RuntimeSnapshot.Definitions) !! k = (runtimeOf r).(RuntimeSnapshot.Definitions) !! k) }.
