(* ===== verification/StoreEvaluate.v ===== *)
(** * internal/store/evaluate.go: the first-generation evaluator

    [apply] evaluates one definition on one observation with its own state;
    the in-memory and Postgres [ApplyObservation] call it. The engine of
    Engine.v replaced it, and keeps its own copies of the helpers. *)

From stdpp Require Import base gmap strings list numbers.
From S2P Require Import Prelude GoFloat GoBase GoHash GoTime Model Rules Store.

(** The SHA-256 of the parts, each ended by a zero byte, as a UUID. *)
Definition deterministicID (parts : list string) : string :=
  uuidShape (hexEncode (take 16 (sha256 (mjoin ((fun part => bytesOf part ++ [0%Z]) <$> parts))))).

Definition statusRank (status : string) : Z := if status == "confirmed" then 2 else 1.

Definition stale (o : Observation) (state : EvaluationState) : bool :=
  let openTime := o.(Observation.Candle).(Candle.OpenTime) in
  if IsZero state.(EvaluationState.LastOpenTime) then false
  else if Before openTime state.(EvaluationState.LastOpenTime) then true
  else if After openTime state.(EvaluationState.LastOpenTime) then false
  else if (o.(Observation.Revision) <? state.(EvaluationState.LastRevision))%Z then true
  else if (o.(Observation.Revision) >? state.(EvaluationState.LastRevision))%Z then false
  else (statusRank o.(Observation.Status) <=? statusRank state.(EvaluationState.LastStatus))%Z.

Definition shouldTrigger (mode : string) (truth pulse : bool) (o : Observation) (state : EvaluationState) : bool :=
  if negb truth then false
  else if mode == "every_match" then true
  else if mode == "once_per_bar" then
    IsZero state.(EvaluationState.LastAlertBar)
    || negb (Equal state.(EvaluationState.LastAlertBar) o.(Observation.Candle).(Candle.OpenTime))
  else pulse || negb state.(EvaluationState.LastTruth).

(** The feature state inside an [EvaluationState]. *)
Definition featureOf (state : EvaluationState) : FeatureState :=
  FeatureState.mk state.(EvaluationState.LastClose) state.(EvaluationState.Indicators) []
    state.(EvaluationState.CandleColors) state.(EvaluationState.FormingBar)
    state.(EvaluationState.FormingColor).

(** [evaluatedAt] is [time.Now().UTC()]. The result is the new state, the
    alert if one is triggered, and whether the observation was accepted. *)
Definition apply (definition : AlertDefinition) (observation : Observation) (state : EvaluationState)
  (evaluatedAt : Time) : option (EvaluationState * option Alert * bool) :=
  let now := UTC observation.(Observation.OccurredAt) in
  if stale observation state then Some (state, None, false) else
  let feature := featureOf state in
  match Compile definition.(AlertDefinition.Rule) with
  | Panic => None
  | Err _ => Some (state, None, false)
  | Ok compiled =>
    '(truth, reasons, facts) ← EvaluateDetailed compiled observation feature;
    let trigger0 := shouldTrigger definition.(AlertDefinition.TriggerMode) truth
                      (Pulse definition.(AlertDefinition.Rule)) observation state in
    let trigger :=
      if trigger0 && (definition.(AlertDefinition.CooldownSeconds) >? 0)%Z
         && negb (IsZero state.(EvaluationState.LastTriggerAt))
         && (Sub now state.(EvaluationState.LastTriggerAt)
             <? mulDur definition.(AlertDefinition.CooldownSeconds) Second)%Z
      then false else trigger0 in
    let feature' := Advance feature observation in
    let openTime := UTC observation.(Observation.Candle).(Candle.OpenTime) in
    let state' := EvaluationState.mk state.(EvaluationState.LastTruth)
      (if trigger then UTC now else state.(EvaluationState.LastTriggerAt))
      feature'.(FeatureState.LastClose) feature'.(FeatureState.Indicators)
      feature'.(FeatureState.CandleColors) openTime observation.(Observation.Revision)
      observation.(Observation.Status)
      (if trigger then openTime else state.(EvaluationState.LastAlertBar))
      feature'.(FeatureState.FormingBar) feature'.(FeatureState.FormingColor) in
    if negb trigger then Some (state', None, true) else
    Some (state',
      Some (Alert.mk "io.ytstack.alert.triggered.v1"
        (deterministicID [definition.(AlertDefinition.ID); observation.(Observation.SourceEventID)])
        definition.(AlertDefinition.ID) definition.(AlertDefinition.Version)
        definition.(AlertDefinition.DefinitionHash) definition.(AlertDefinition.Name)
        observation.(Observation.SourceEventID) observation.(Observation.CorrelationID)
        observation.(Observation.Series) (UTC now) (UTC evaluatedAt) reasons facts
        observation.(Observation.FeatureAlgorithm) observation.(Observation.Revision)
        observation.(Observation.Status) None "pending" 0),
      true)
  end.
