(* ===== verification/Memory.v ===== *)
(** * internal/store/memory.go: the in-memory repository

    [Memory] is the record behind the mutex: every method takes the lock for
    its whole body, so each is one atomic step from a record to a record. The
    order in which Go ranges over a map, and the instants [time.Now] returns,
    are in the [Env] argument of the methods that observe them. *)

From stdpp Require Import base gmap strings list numbers sorting.
From S2P Require Import Prelude GoFloat GoBase GoTime Model Rules Store StoreEvaluate.

Module Memory.
Record Memory := mk {
  definitions : gmap string AlertDefinition;
  byHash : gmap string string;
  archived : gmap string bool;
  states : gmap string EvaluationState;
  seriesRuntime : gmap string SeriesEvaluationState;
  definitionRuntime : gmap string DefinitionEvaluationState;
  inbox : gset string;
  alerts : list Alert;
  leases : gmap Z string }.

Definition with_definitions (m : Memory) d :=
  mk d m.(byHash) m.(archived) m.(states) m.(seriesRuntime) m.(definitionRuntime) m.(inbox) m.(alerts) m.(leases).
Definition with_byHash (m : Memory) h :=
  mk m.(definitions) h m.(archived) m.(states) m.(seriesRuntime) m.(definitionRuntime) m.(inbox) m.(alerts) m.(leases).
Definition with_archived (m : Memory) a :=
  mk m.(definitions) m.(byHash) a m.(states) m.(seriesRuntime) m.(definitionRuntime) m.(inbox) m.(alerts) m.(leases).
Definition with_states (m : Memory) s :=
  mk m.(definitions) m.(byHash) m.(archived) s m.(seriesRuntime) m.(definitionRuntime) m.(inbox) m.(alerts) m.(leases).
Definition with_runtime (m : Memory) s d :=
  mk m.(definitions) m.(byHash) m.(archived) m.(states) s d m.(inbox) m.(alerts) m.(leases).
Definition with_inbox (m : Memory) i :=
  mk m.(definitions) m.(byHash) m.(archived) m.(states) m.(seriesRuntime) m.(definitionRuntime) i m.(alerts) m.(leases).
Definition with_alerts (m : Memory) a :=
  mk m.(definitions) m.(byHash) m.(archived) m.(states) m.(seriesRuntime) m.(definitionRuntime) m.(inbox) a m.(leases).
Definition with_leases (m : Memory) l :=
  mk m.(definitions) m.(byHash) m.(archived) m.(states) m.(seriesRuntime) m.(definitionRuntime) m.(inbox) m.(alerts) l.
End Memory.
Abbreviation Memory := Memory.Memory.
Import Memory.

Definition NewMemory : Memory := Memory.mk ∅ ∅ ∅ ∅ ∅ ∅ ∅ [] ∅.

(** [m.archived[id]]. *)
Definition isArchived (m : Memory) (id : string) : bool := default false (m.(archived) !! id).

(** ** Definitions *)

(** The definition, and whether it was created. *)
Definition CreateDefinition (d : AlertDefinition) (m : Memory) : AlertDefinition * bool * Memory :=
  match m.(byHash) !! d.(AlertDefinition.DefinitionHash) with
  | Some id =>
      if isArchived m id then
        (d, false, with_archived (with_definitions m (<[id := d]> m.(definitions))) (delete id m.(archived)))
      else
        (default AlertDefinition.zero (m.(definitions) !! id), false, m)
  | None =>
      (d, true,
       with_byHash (with_definitions m (<[d.(AlertDefinition.ID) := d]> m.(definitions)))
         (<[d.(AlertDefinition.DefinitionHash) := d.(AlertDefinition.ID)]> m.(byHash)))
  end.

(** [a.CreatedAt.Before(b.CreatedAt)] or not after, the order sort.Slice sorts by. *)
Definition createdLe (a b : AlertDefinition) : Prop :=
  (a.(AlertDefinition.CreatedAt) <= b.(AlertDefinition.CreatedAt))%Z.
#[export] Instance createdLe_dec a b : Decision (createdLe a b) := Z.le_dec _ _.
#[export] Instance createdLe_total : Total createdLe.
Proof. intros a b. unfold createdLe. lia. Qed.
#[export] Instance createdLe_trans : Transitive createdLe.
Proof. intros a b c. unfold createdLe. lia. Qed.

(** A definition [ListDefinitions] returns. *)
Definition listed (now : Time) (m : Memory) (d : AlertDefinition) : bool :=
  negb (isArchived m d.(AlertDefinition.ID) && negb (Before now d.(AlertDefinition.EffectiveAt))).

(** [sort.Slice] is not stable: which of the sorted orders it returns is as
    free as the order of the range over the map, so sorting the latter stably
    gives them all. *)
Definition listDefinitions (env : Env) (m : Memory) : list AlertDefinition :=
  let out := filter (fun d => listed env.(Env.now) m d = true)
               (omap (fun id => m.(definitions) !! id) env.(Env.order)) in
  merge_sort createdLe out.

Definition SetEnabled (env : Env) (id : string) (enabled : bool) (effectiveAt : Time) (m : Memory)
  : Res StoreError AlertDefinition * Memory :=
  match m.(definitions) !! id with
  | Some d =>
      if isArchived m id then (Err ErrNotFound, m) else
      let d' := AlertDefinition.mk d.(AlertDefinition.ID) d.(AlertDefinition.Version)
        d.(AlertDefinition.DefinitionHash) d.(AlertDefinition.Name) enabled d.(AlertDefinition.Series)
        d.(AlertDefinition.Rule) d.(AlertDefinition.EvaluationMode) d.(AlertDefinition.TriggerMode)
        d.(AlertDefinition.CooldownSeconds) d.(AlertDefinition.CreatedAt) (UTC env.(Env.now))
        (UTC effectiveAt) in
      (Ok d', with_definitions m (<[id := d']> m.(definitions)))
  | None => (Err ErrNotFound, m)
  end.

Definition ArchiveDefinition (id : string) (effectiveAt : Time) (m : Memory) : option StoreError * Memory :=
  match m.(definitions) !! id with
  | None => (Some ErrNotFound, m)
  | Some d =>
      let d' := AlertDefinition.mk d.(AlertDefinition.ID) d.(AlertDefinition.Version)
        d.(AlertDefinition.DefinitionHash) d.(AlertDefinition.Name) false d.(AlertDefinition.Series)
        d.(AlertDefinition.Rule) d.(AlertDefinition.EvaluationMode) d.(AlertDefinition.TriggerMode)
        d.(AlertDefinition.CooldownSeconds) d.(AlertDefinition.CreatedAt) d.(AlertDefinition.UpdatedAt)
        (UTC effectiveAt) in
      (None, with_archived (with_definitions m (<[id := d']> m.(definitions))) (<[id := true]> m.(archived)))
  end.

(** ** The first-generation path *)

Definition matchSeries (selector actual : Series) : bool :=
  (selector.(Series.Symbol) == actual.(Series.Symbol))
  && (selector.(Series.Timeframe) == actual.(Series.Timeframe))
  && ((selector.(Series.Dataset) == "") || (selector.(Series.Dataset) == actual.(Series.Dataset))).

(** [acceptsMode] of postgres.go, shared by the package. *)
Definition acceptsMode (mode status : string) : bool :=
  if mode == "confirmed_close" then status == "confirmed"
  else if mode == "intrabar" then status == "provisional"
  else (status == "confirmed") || (status == "provisional").

(** The body of the loop over the definitions. The slice [created] and the
    store's alerts grow together. *)
Definition applyDefinition (now : Time) (o : Observation) (payload : RawMessage)
  (acc : Memory * list Alert) (d : AlertDefinition) : option (Memory * list Alert) :=
  let '(m, created) := acc in
  if negb d.(AlertDefinition.Enabled)
     || Before o.(Observation.OccurredAt) d.(AlertDefinition.CreatedAt)
     || negb (matchSeries d.(AlertDefinition.Series) o.(Observation.Series))
     || negb (acceptsMode d.(AlertDefinition.EvaluationMode) o.(Observation.Status))
  then Some acc else
  let key := d.(AlertDefinition.ID) +:+ "|" +:+ Series.Key o.(Observation.Series) in
  '(state, alert, accepted) ← apply d o (default EvaluationState.zero (m.(states) !! key)) now;
  if negb accepted then Some acc else
  let m' := with_states m (<[key := state]> m.(states)) in
  match alert with
  | None => Some (m', created)
  | Some a =>
      let a' := Alert.with_Cursor (Alert.with_Payload a payload) (Z.of_nat (length m'.(alerts) + 1)) in
      Some (with_alerts m' (m'.(alerts) ++ [a']), created ++ [a'])
  end.

Definition ApplyObservation (env : Env) (o : Observation) (m : Memory)
  : option (Res StoreError (list Alert) * Memory) :=
  if bool_decide (o.(Observation.SourceEventID) ∈ m.(inbox)) then Some (Ok [], m) else
  let m1 := with_inbox m ({[o.(Observation.SourceEventID)]} ∪ m.(inbox)) in
  match marshalObservation o with
  | None => Some (Err ErrMarshal, m1)
  | payload =>
    '(m2, created) ← loopM (applyDefinition env.(Env.now) o payload) (m1, [])
                       (omap (fun id => m1.(definitions) !! id) env.(Env.order));
    Some (Ok created, m2)
  end.

(** ** The runtime checkpoint *)

Definition loadRuntimeStates (m : Memory) : RuntimeSnapshot :=
  RuntimeSnapshot.mk m.(seriesRuntime) m.(definitionRuntime).

(** The loop that stores the alerts whose ID is new. *)
Definition storeAlert (acc : list Alert * list Alert) (alert : Alert) : list Alert * list Alert :=
  let '(stored, created) := acc in
  if existsb (fun existing => existing.(Alert.ID) == alert.(Alert.ID)) stored then acc
  else let a := Alert.with_Cursor alert (Z.of_nat (length stored + 1)) in
       (stored ++ [a], created ++ [a]).

(** Writing a map's entries into another in any order is the left-biased union. *)
Definition commitRuntimeBatch (batch : RuntimeBatch) (m : Memory) : list Alert * Memory :=
  let m1 := with_inbox m
    (list_to_set (Observation.SourceEventID <$> batch.(RuntimeBatch.Observations)) ∪ m.(inbox)) in
  let m2 := with_runtime m1
    (batch.(RuntimeBatch.SeriesStates) ∪ m1.(seriesRuntime))
    (batch.(RuntimeBatch.DefinitionStates)
       ∪ dropAllSeries definitionSeriesKey batch.(RuntimeBatch.ResetSeriesKeys) m1.(definitionRuntime)) in
  let '(stored, created) := foldl storeAlert (m2.(alerts), []) batch.(RuntimeBatch.Alerts) in
  (created, with_alerts m2 stored).

(** ** The outbox *)

(** The loop of [ListAlerts] and [ClaimPending]: append what passes the test
    until [limit] are found; the count is tested after an append, so a limit
    below 1 is no limit. *)
Fixpoint takeMatching (f : Alert -> bool) (limit : Z) (out l : list Alert) : list Alert :=
  match l with
  | [] => out
  | a :: rest =>
      if f a then
        let out' := out ++ [a] in
        if (Z.of_nat (length out') =? limit)%Z then out' else takeMatching f limit out' rest
      else takeMatching f limit out rest
  end.

Definition ListAlerts (after limit : Z) (m : Memory) : list Alert :=
  takeMatching (fun a => a.(Alert.Cursor) >? after)%Z limit [] m.(alerts).

Definition ClaimPending (limit : Z) (m : Memory) : list Alert :=
  takeMatching (fun a => a.(Alert.PublishStatus) == "pending") limit [] m.(alerts).

(** The first alert with the ID is marked; [None] when there is none. *)
Fixpoint markFirst (id : string) (l : list Alert) : option (list Alert) :=
  match l with
  | [] => None
  | a :: rest =>
      if a.(Alert.ID) == id then Some (Alert.with_PublishStatus a "published" :: rest)
      else (fun l => a :: l) <$> markFirst id rest
  end.

Definition MarkPublished (id : string) (m : Memory) : option StoreError * Memory :=
  match markFirst id m.(alerts) with
  | Some l => (None, with_alerts m l)
  | None => (Some ErrNotFound, m)
  end.

(** A failed publication stays pending, and nothing is ever deleted. *)
Definition MarkPublishFailed (id message : string) (m : Memory) : option StoreError * Memory := (None, m).

Definition Maintain (policy : RetentionPolicy.RetentionPolicy) (m : Memory)
  : Res StoreError MaintenanceResult.MaintenanceResult * Memory :=
  (Ok (MaintenanceResult.mk 0 0), m).

Definition statsOf (m : Memory) : OperationalStats.OperationalStats :=
  OperationalStats.mk
    (Z.of_nat (length (filter (fun a => a.(Alert.PublishStatus) = "pending") m.(alerts)))) 0.

(** ** Partition leases *)

(** [m.leases[partition]]. *)
Definition leaseOf (m : Memory) (partition : Z) : string := default "" (m.(leases) !! partition).

Definition AcquirePartitions (owner : string) (partitions : list Z) (ttl : Duration) (m : Memory)
  : bool * Memory :=
  if existsb (fun p => (leaseOf m p != "") && (leaseOf m p != owner)) partitions then (false, m)
  else (true, with_leases m (foldl (fun l p => <[p := owner]> l) m.(leases) partitions)).

Definition RenewPartitions (owner : string) (partitions : list Z) (ttl : Duration) (m : Memory)
  : bool * Memory := AcquirePartitions owner partitions ttl m.

Definition ReleasePartitions (owner : string) (m : Memory) : Memory :=
  with_leases m (filter (fun kv => kv.2 <> owner) m.(leases)).
