(* ===== verification/Tables.v ===== *)
(** * The tables of PostgreSQL, and sessions on them

    The rows are those of internal/store/migrations/*.sql, with one record per
    table. A [jsonb] column that holds the encoding of a value is represented
    by the value as it is read back; [toJson...] say which values json.Marshal
    refuses. A [timestamptz] holds microseconds. A [uuid] is its canonical
    text, the one the program's identifiers have; PostgreSQL reads other
    spellings of it too, and prints back this one: the model takes a text that
    is not canonical for one the server refuses.

    A Go call is a session: a sequence of exchanges with the server, some in a
    transaction. Each may fail, the [n]-th of a call with [fault n]; a failure
    may come before the statement took effect or after it, when only the
    answer is lost. Everything PostgreSQL itself does (isolation of concurrent
    transactions included: a call is one step) is its documented behaviour. *)

From stdpp Require Import base gmap strings list numbers sorting.
From Stdlib Require Import Ascii.
From S2P Require Import Prelude GoFloat GoBase GoTime Model Json Store.

(** ** Column types *)

(** A [timestamptz]: what pgx keeps of a [time.Time]. *)
Definition Microsecond : Duration := 1000%Z.
Definition timestamptz (t : Time) : Time := (t / Microsecond * Microsecond)%Z.

Definition isHex (c : Z) : bool := isDigit c || ((97 <=? c) && (c <=? 102))%Z.

(** The canonical text of a uuid: 8-4-4-4-12 lower-case hexadecimal digits. *)
Definition isUUID (s : string) : bool :=
  let l := bytesOf s in
  (length l =? 36)%nat
  && forallb id (imap (fun i c => if bool_decide (i ∈ [8; 13; 18; 23]) then (c =? 45)%Z else isHex c) l).

(** [integer] and [smallint]: out of range, pgx refuses to encode. *)
Definition isInt4 (n : Z) : bool := ((- 2 ^ 31 <=? n) && (n <? 2 ^ 31))%Z.
Definition isInt2 (n : Z) : bool := ((- 2 ^ 15 <=? n) && (n <? 2 ^ 15))%Z.

(** [int16(n)]. *)
Definition int16 (n : Z) : Z := wrapS 16 n.

(** An [interval] written as a [time.Duration] prints it. Below a millisecond
    Go prints "µs" or "ns", which PostgreSQL does not know; from there on it
    reads the text to the microsecond. *)
Definition interval (d : Duration) : option Duration :=
  if negb (d =? 0)%Z && (Z.abs d <? Millisecond)%Z then None
  else Some (roundHalfEven d Microsecond * Microsecond)%Z.

(** ** JSON columns: what json.Marshal accepts, as it is read back *)

Definition finiteFeature (f : FeatureState) : bool :=
  match f.(FeatureState.LastClose) with Some c => isFinite c | None => true end
  && forallb (fun kv => isFinite kv.2) (map_to_list (default ∅ f.(FeatureState.Indicators)))
  && forallb marshalCandle f.(FeatureState.Candles)
  && yearRange f.(FeatureState.FormingBar).

Definition toJsonSeries (st : SeriesEvaluationState) : option SeriesEvaluationState :=
  if yearRange st.(SeriesEvaluationState.LastOpenTime) && yearRange st.(SeriesEvaluationState.LastResetAt)
     && finiteFeature st.(SeriesEvaluationState.Confirmed) && finiteFeature st.(SeriesEvaluationState.Intrabar)
     && forallb (fun z => isFinite z.(Zone.Upper) && isFinite z.(Zone.Lower)) st.(SeriesEvaluationState.ActiveZones)
  then Some (readSeries st) else None.

Definition toJsonDefinition (st : DefinitionEvaluationState) : option DefinitionEvaluationState :=
  if yearRange st.(DefinitionEvaluationState.LastTriggerAt) && yearRange st.(DefinitionEvaluationState.LastAlertBar)
  then Some st else None.

Definition readIndicators (m : option (gmap string float64)) : option (gmap string float64) :=
  m ← m; if decide (m = ∅) then None else Some m.

Definition toJsonLegacy (st : EvaluationState) : option EvaluationState :=
  if yearRange st.(EvaluationState.LastTriggerAt) && yearRange st.(EvaluationState.LastOpenTime)
     && yearRange st.(EvaluationState.LastAlertBar) && yearRange st.(EvaluationState.FormingBar)
     && match st.(EvaluationState.LastClose) with Some c => isFinite c | None => true end
     && forallb (fun kv => isFinite kv.2) (map_to_list (default ∅ st.(EvaluationState.Indicators)))
  then Some (EvaluationState.mk st.(EvaluationState.LastTruth) st.(EvaluationState.LastTriggerAt)
    st.(EvaluationState.LastClose) (readIndicators st.(EvaluationState.Indicators))
    st.(EvaluationState.CandleColors) st.(EvaluationState.LastOpenTime) st.(EvaluationState.LastRevision)
    st.(EvaluationState.LastStatus) st.(EvaluationState.LastAlertBar) st.(EvaluationState.FormingBar)
    st.(EvaluationState.FormingColor)) else None.

Definition toJsonAlert (a : Alert) : option Alert :=
  if yearRange a.(Alert.TriggeredAt) && yearRange a.(Alert.EvaluatedAt)
     && forallb (fun f => isFinite f.(FactReference.Value)) a.(Alert.FactsUsed)
  then Some a else None.

Definition toJsonRule (r : Rule) : option Rule := _ ← encodeRule r; Some r.

(** ** Rows *)

Module DefinitionRow.
Record DefinitionRow := mk {
  id : string; version : Z; definition_hash : string; name : string; enabled : bool;
  dataset : string; symbol : string; timeframe : string; rule : Rule; evaluation_mode : string;
  trigger_mode : string; cooldown_seconds : Z; created_at : Time; updated_at : Time;
  archived_at : option Time; effective_at : Time }.
End DefinitionRow.
Abbreviation DefinitionRow := DefinitionRow.DefinitionRow.

Module InboxRow.
Record InboxRow := mk { payload : Observation; received_at : Time }.
End InboxRow.
Abbreviation InboxRow := InboxRow.InboxRow.

(** The columns the statements of the program read; [fact] stands for the
    columns that are only written, copied from the alert. *)
Module EventRow.
Record EventRow := mk {
  id : string; cursor : Z; definition_id : string; source_event_id : string; series_key : string;
  triggered_at : Time; fact : Alert }.
End EventRow.
Abbreviation EventRow := EventRow.EventRow.

Module OutboxRow.
Record OutboxRow := mk {
  cursor : Z; alert_id : string; payload : Alert; attempts : Z; next_attempt_at : Time;
  locked_at : option Time; published_at : option Time; last_error : option string; created_at : Time }.
End OutboxRow.
Abbreviation OutboxRow := OutboxRow.OutboxRow.

(** A checkpoint: the partition, NULL for rows from before partitions. *)
Module StateRow.
Record StateRow {A : Type} := mk { partition_id : option Z; state : A }.
Arguments StateRow : clear implicits.
Arguments mk {A} _ _.
End StateRow.
Abbreviation StateRow := StateRow.StateRow.

Module LeaseRow.
Record LeaseRow := mk { owner_id : string; expires_at : Time }.
End LeaseRow.
Abbreviation LeaseRow := LeaseRow.LeaseRow.

(** The tables, by primary key; events and the outbox in the order of
    insertion. The two sequences give the cursors: what a transaction took
    from them is not given back. *)
Module Database.
Record Database := mk {
  alert_definitions : gmap string DefinitionRow;
  alert_inbox : gmap string InboxRow;
  alert_rule_state : gmap (string * string) EvaluationState;
  alert_events : list EventRow;
  alert_event_outbox : list OutboxRow;
  alert_series_runtime_state : gmap string (StateRow SeriesEvaluationState);
  alert_definition_runtime_state : gmap (string * string) (StateRow DefinitionEvaluationState);
  alert_partition_leases : gmap Z LeaseRow;
  alert_events_cursor_seq : Z;
  alert_event_outbox_cursor_seq : Z }.

Definition empty : Database := mk ∅ ∅ ∅ [] [] ∅ ∅ ∅ 0 0.

Definition with_definitions d x := mk x d.(alert_inbox) d.(alert_rule_state) d.(alert_events)
  d.(alert_event_outbox) d.(alert_series_runtime_state) d.(alert_definition_runtime_state)
  d.(alert_partition_leases) d.(alert_events_cursor_seq) d.(alert_event_outbox_cursor_seq).
Definition with_inbox d x := mk d.(alert_definitions) x d.(alert_rule_state) d.(alert_events)
  d.(alert_event_outbox) d.(alert_series_runtime_state) d.(alert_definition_runtime_state)
  d.(alert_partition_leases) d.(alert_events_cursor_seq) d.(alert_event_outbox_cursor_seq).
Definition with_rule_state d x := mk d.(alert_definitions) d.(alert_inbox) x d.(alert_events)
  d.(alert_event_outbox) d.(alert_series_runtime_state) d.(alert_definition_runtime_state)
  d.(alert_partition_leases) d.(alert_events_cursor_seq) d.(alert_event_outbox_cursor_seq).
Definition with_events d x seq := mk d.(alert_definitions) d.(alert_inbox) d.(alert_rule_state) x
  d.(alert_event_outbox) d.(alert_series_runtime_state) d.(alert_definition_runtime_state)
  d.(alert_partition_leases) seq d.(alert_event_outbox_cursor_seq).
Definition with_outbox d x seq := mk d.(alert_definitions) d.(alert_inbox) d.(alert_rule_state)
  d.(alert_events) x d.(alert_series_runtime_state) d.(alert_definition_runtime_state)
  d.(alert_partition_leases) d.(alert_events_cursor_seq) seq.
Definition with_series d x := mk d.(alert_definitions) d.(alert_inbox) d.(alert_rule_state)
  d.(alert_events) d.(alert_event_outbox) x d.(alert_definition_runtime_state)
  d.(alert_partition_leases) d.(alert_events_cursor_seq) d.(alert_event_outbox_cursor_seq).
Definition with_definition_states d x := mk d.(alert_definitions) d.(alert_inbox) d.(alert_rule_state)
  d.(alert_events) d.(alert_event_outbox) d.(alert_series_runtime_state) x
  d.(alert_partition_leases) d.(alert_events_cursor_seq) d.(alert_event_outbox_cursor_seq).
Definition with_leases d x := mk d.(alert_definitions) d.(alert_inbox) d.(alert_rule_state)
  d.(alert_events) d.(alert_event_outbox) d.(alert_series_runtime_state)
  d.(alert_definition_runtime_state) x d.(alert_events_cursor_seq) d.(alert_event_outbox_cursor_seq).

(** The tables of [d], the sequences of [d']. *)
Definition rollback d d' := mk d.(alert_definitions) d.(alert_inbox) d.(alert_rule_state) d.(alert_events)
  d.(alert_event_outbox) d.(alert_series_runtime_state) d.(alert_definition_runtime_state)
  d.(alert_partition_leases) d'.(alert_events_cursor_seq) d'.(alert_event_outbox_cursor_seq).
End Database.
Abbreviation Database := Database.Database.

(** ** Sessions *)

Module Fault.
Inductive Fault :=
| Rejected (message : string)   (* the statement had no effect *)
| Lost (message : string).      (* it had, but the answer was lost *)
End Fault.
Abbreviation Fault := Fault.Fault.

(** What the next call finds: the server's clock, its faults, and the order in
    which it returns rows a statement does not order. *)
Module Server.
Record Server := mk {
  now : Time;
  fault : nat -> option Fault;
  ruleStates : list (string * string);
  claimed : list Z }.
End Server.
Abbreviation Server := Server.Server.

(** A statement: an error of SQL leaves the tables alone. *)
Definition StatementOn (D A : Type) : Type := Server -> D -> (string + A) * D.

(** A session counts its exchanges. *)
Definition SessionOn (D A : Type) : Type := Server -> nat * D -> Res StoreError A * (nat * D).

Section Sessions.
Context {D : Type}.
Implicit Types srv : Server.

Definition ret {A} (a : A) : SessionOn D A := fun _ s => (Ok a, s).
Definition throw {A} (e : StoreError) : SessionOn D A := fun _ s => (Err e, s).
Definition bind {A B} (c : SessionOn D A) (f : A -> SessionOn D B) : SessionOn D B := fun srv s =>
  match c srv s with
  | (Ok a, s') => f a srv s'
  | (Err e, s') => (Err e, s')
  | (Panic, s') => (Panic, s')
  end.

(** [pool.Exec], [tx.Query] and the like. *)
Definition exec {A} (statement : StatementOn D A) : SessionOn D A := fun srv '(n, d) =>
  match srv.(Server.fault) n with
  | Some (Fault.Rejected message) => (Err (ErrBackend message), (S n, d))
  | Some (Fault.Lost message) => (Err (ErrBackend message), (S n, (statement srv d).2))
  | None =>
      match statement srv d with
      | (inl message, d') => (Err (ErrBackend message), (S n, d'))
      | (inr a, d') => (Ok a, (S n, d'))
      end
  end.

(** [BeginTx], the body, and [Commit] if the body asks for it; the deferred
    [Rollback] otherwise. *)
Definition transactionOn {A} (rollback : D -> D -> D) (body : SessionOn D (A * bool)) : SessionOn D A := fun srv '(n, d) =>
  match srv.(Server.fault) n with
  | Some (Fault.Rejected message) | Some (Fault.Lost message) => (Err (ErrBackend message), (S n, d))
  | None =>
      match body srv (S n, d) with
      | (Ok (a, true), (n', d')) =>
          match srv.(Server.fault) n' with
          | None => (Ok a, (S n', d'))
          | Some (Fault.Rejected message) => (Err (ErrBackend message), (S n', rollback d d'))
          | Some (Fault.Lost message) => (Err (ErrBackend message), (S n', d'))
          end
      | (Ok (a, false), (n', d')) => (Ok a, (n', rollback d d'))
      | (Err e, (n', d')) => (Err e, (n', rollback d d'))
      | (Panic, (n', d')) => (Panic, (n', rollback d d'))
      end
  end.

(** [for _, x := range l { ... }] with early returns. *)
Fixpoint each {A S} (f : S -> A -> SessionOn D S) (s : S) (l : list A) : SessionOn D S :=
  match l with
  | [] => ret s
  | x :: rest => bind (f s x) (fun s' => each f s' rest)
  end.
End Sessions.

Declare Scope session_scope.
Delimit Scope session_scope with session.
Notation "'let*' x := c 'in' f" := (bind c (fun x => f))
  (at level 200, x pattern, right associativity) : session_scope.

(** On the tables of the program. *)
Abbreviation Statement := (StatementOn Database).
Abbreviation Session := (SessionOn Database).
Definition transaction {A} (body : Session (A * bool)) : Session A := transactionOn Database.rollback body.
