(* ===== verification/Postgres.v ===== *)
(** * internal/store/postgres.go: the PostgreSQL repository

    Every SQL statement of the file is a [Statement] on the tables of
    Tables.v, every method the session that executes them, in the order and
    with the early returns of the Go code. Migrations are in Migrate.v. *)

From stdpp Require Import base gmap strings list numbers sorting.
From Stdlib Require Import Ascii SpecFloat.
From S2P Require Import Prelude GoFloat GoBase GoHash GoTime Model Json Rules Store StoreEvaluate Memory Tables.
Import Database.
Open Scope session_scope.

Module Postgres.
Record Postgres := mk { db : Database; server : Server }.
End Postgres.
Abbreviation Postgres := Postgres.Postgres.
Import Postgres.

(** A method call: its session on the tables. *)
Definition run {A} (session : Session A) (p : Postgres) : Res StoreError A * Postgres :=
  let '(res, (_, d)) := session p.(server) (0, p.(db)) in (res, Postgres.mk d p.(server)).

(** [now()]. *)
Definition sqlNow (srv : Server) : Time := timestamptz srv.(Server.now).

Definition Ping : Session unit := exec (fun _ d => (inr (), d)).

(** ** Definitions *)

(** What [scanDefinition] makes of a row. *)
Definition scanDefinition (row : DefinitionRow) : AlertDefinition :=
  AlertDefinition.mk row.(DefinitionRow.id) row.(DefinitionRow.version) row.(DefinitionRow.definition_hash)
    row.(DefinitionRow.name) row.(DefinitionRow.enabled)
    (Series.mk row.(DefinitionRow.dataset) row.(DefinitionRow.symbol) row.(DefinitionRow.timeframe))
    row.(DefinitionRow.rule) row.(DefinitionRow.evaluation_mode) row.(DefinitionRow.trigger_mode)
    row.(DefinitionRow.cooldown_seconds) row.(DefinitionRow.created_at) row.(DefinitionRow.updated_at)
    row.(DefinitionRow.effective_at).

(** The types and the CHECK constraints of the columns. *)
Definition definitionRefused (d : AlertDefinition) : option string :=
  if negb (isUUID d.(AlertDefinition.ID)) then Some "invalid input syntax for type uuid"
  else if negb (isInt4 d.(AlertDefinition.Version) && isInt4 d.(AlertDefinition.CooldownSeconds))
  then Some "out of range for int4"
  else if negb (bool_decide (d.(AlertDefinition.EvaluationMode) ∈ ["confirmed_close"; "intrabar"; "both"]))
          || negb (bool_decide (d.(AlertDefinition.TriggerMode) ∈ ["on_occurrence"; "once_per_bar"; "every_match"]))
          || (d.(AlertDefinition.CooldownSeconds) <? 0)%Z
  then Some "violates check constraint" else None.

(** The row with a hash; the column is UNIQUE. *)
Definition rowWithHash (hash : string) (rows : gmap string DefinitionRow) : option DefinitionRow :=
  head (filter (fun row => row.(DefinitionRow.definition_hash) = hash) (snd <$> map_to_list rows)).

(** [enabled AND archived_at IS NULL]. *)
Definition active (row : DefinitionRow) : bool :=
  row.(DefinitionRow.enabled) && bool_decide (row.(DefinitionRow.archived_at) = None).

(** The columns the updates of a definition touch. *)
Definition updateRow (row : DefinitionRow) (enabled : bool) (updated_at : Time) (archived_at : option Time)
  (effective_at : Time) : DefinitionRow :=
  DefinitionRow.mk row.(DefinitionRow.id) row.(DefinitionRow.version) row.(DefinitionRow.definition_hash)
    row.(DefinitionRow.name) enabled row.(DefinitionRow.dataset) row.(DefinitionRow.symbol)
    row.(DefinitionRow.timeframe) row.(DefinitionRow.rule) row.(DefinitionRow.evaluation_mode)
    row.(DefinitionRow.trigger_mode) row.(DefinitionRow.cooldown_seconds) row.(DefinitionRow.created_at)
    updated_at archived_at effective_at.

(** The row an INSERT proposes. *)
Definition proposedRow (d : AlertDefinition) (rule : Rule) : DefinitionRow :=
  DefinitionRow.mk d.(AlertDefinition.ID) d.(AlertDefinition.Version) d.(AlertDefinition.DefinitionHash)
    d.(AlertDefinition.Name) d.(AlertDefinition.Enabled) d.(AlertDefinition.Series).(Series.Dataset)
    d.(AlertDefinition.Series).(Series.Symbol) d.(AlertDefinition.Series).(Series.Timeframe) rule
    d.(AlertDefinition.EvaluationMode) d.(AlertDefinition.TriggerMode) d.(AlertDefinition.CooldownSeconds)
    (timestamptz d.(AlertDefinition.CreatedAt)) (timestamptz d.(AlertDefinition.CreatedAt)) None
    (timestamptz d.(AlertDefinition.EffectiveAt)).

(** [ON CONFLICT(definition_hash) DO UPDATE]: the stored row, revived. *)
Definition revivedRow (row proposed : DefinitionRow) : DefinitionRow :=
  updateRow row true
    (if active row then row.(DefinitionRow.updated_at) else proposed.(DefinitionRow.updated_at)) None
    (if active row then row.(DefinitionRow.effective_at) else proposed.(DefinitionRow.effective_at)).

(** [RETURNING ..., (xmax=0)]: whether the row was inserted. *)
Definition upsertDefinition (d : AlertDefinition) (rule : Rule) : Statement (AlertDefinition * bool) :=
  fun _ tables =>
  match definitionRefused d with
  | Some message => (inl message, tables)
  | None =>
      let rows := tables.(alert_definitions) in
      let proposed := proposedRow d rule in
      match rowWithHash d.(AlertDefinition.DefinitionHash) rows with
      | Some row =>
          let row' := revivedRow row proposed in
          (inr (scanDefinition row', false),
           with_definitions tables (<[row.(DefinitionRow.id) := row']> rows))
      | None =>
          match rows !! d.(AlertDefinition.ID) with
          | Some _ => (inl "duplicate key value violates unique constraint", tables)
          | None => (inr (scanDefinition proposed, true),
                     with_definitions tables (<[d.(AlertDefinition.ID) := proposed]> rows))
          end
      end
  end.

Definition CreateDefinition (d : AlertDefinition) : Session (AlertDefinition * bool) :=
  match toJsonRule d.(AlertDefinition.Rule) with
  | None => throw ErrMarshal
  | Some rule => exec (upsertDefinition d rule)
  end.

(** [ORDER BY created_at,id]; uuids are ordered as their canonical texts. *)
Definition definitionLe (a b : AlertDefinition) : Prop :=
  (a.(AlertDefinition.CreatedAt) < b.(AlertDefinition.CreatedAt))%Z \/
  (a.(AlertDefinition.CreatedAt) = b.(AlertDefinition.CreatedAt) /\
   String.leb a.(AlertDefinition.ID) b.(AlertDefinition.ID) = true).
#[export] Instance definitionLe_dec a b : Decision (definitionLe a b).
Proof. unfold definitionLe. apply _. Defined.

(** [archived_at IS NULL OR archived_at>now()]. *)
Definition visible (now : Time) (row : DefinitionRow) : bool :=
  match row.(DefinitionRow.archived_at) with None => true | Some t => (t >? now)%Z end.

Definition ListDefinitions : Session (list AlertDefinition) :=
  exec (fun srv tables =>
    (inr (merge_sort definitionLe (scanDefinition <$>
       filter (fun row => visible (sqlNow srv) row = true) (snd <$> map_to_list tables.(alert_definitions)))),
     tables)).

(** The row of an [UPDATE ... WHERE id=$1 AND archived_at IS NULL], if any. *)
Definition unarchived (id : string) (tables : Database) : string + option DefinitionRow :=
  if negb (isUUID id) then inl "invalid input syntax for type uuid" else
  inr (row ← tables.(alert_definitions) !! id;
       if bool_decide (row.(DefinitionRow.archived_at) = None) then Some row else None).

Definition SetEnabled (id : string) (enabled : bool) (effectiveAt : Time) : Session AlertDefinition :=
  exec (fun srv tables =>
    match unarchived id tables with
    | inl message => (inl message, tables)
    | inr None => (inl "no rows in result set", tables)
    | inr (Some row) =>
        let row' := updateRow row enabled (sqlNow srv) None (timestamptz effectiveAt) in
        (inr (scanDefinition row'), with_definitions tables (<[id := row']> tables.(alert_definitions)))
    end).

Definition ArchiveDefinition (id : string) (effectiveAt : Time) : Session unit :=
  let* affected := exec (fun srv tables =>
    match unarchived id tables with
    | inl message => (inl message, tables)
    | inr None => (inr 0%Z, tables)
    | inr (Some row) =>
        let row' := updateRow row false (sqlNow srv) (Some (timestamptz effectiveAt)) (timestamptz effectiveAt) in
        (inr 1%Z, with_definitions tables (<[id := row']> tables.(alert_definitions)))
    end) in
  if (affected =? 0)%Z then throw ErrNotFound else ret ().

(** ** Inserting observations, events and outbox rows *)

(** [INSERT INTO alert_inbox ... ON CONFLICT DO NOTHING]: the number of rows
    inserted. *)
Definition insertInboxRow (now : Time) (acc : gmap string InboxRow * Z) (o : Observation)
  : gmap string InboxRow * Z :=
  let '(rows, affected) := acc in
  match rows !! o.(Observation.SourceEventID) with
  | Some _ => acc
  | None => (<[o.(Observation.SourceEventID) := InboxRow.mk o now]> rows, (affected + 1)%Z)
  end.
Definition insertInbox (observations : list Observation) : Statement Z := fun srv tables =>
  let '(rows, affected) := foldl (insertInboxRow (sqlNow srv)) (tables.(alert_inbox), 0%Z) observations in
  (inr affected, with_inbox tables rows).

(** A row proposed for [alert_events]; the columns that are NOT NULL without a
    default, and that a statement may leave NULL, are marked. *)
Module NewEvent.
Record NewEvent := mk {
  id : string; definition_id : string; source_event_id : string; series_key : string;
  reasonsNull : bool; observationNull : bool; triggered_at : Time; evaluated_at : option Time;
  fact : Alert }.
End NewEvent.
Abbreviation NewEvent := NewEvent.NewEvent.

Definition eventWith (definitionID sourceEventID : string) (rows : list EventRow) : option EventRow :=
  head (filter (fun row => row.(EventRow.definition_id) = definitionID /\
                           row.(EventRow.source_event_id) = sourceEventID) rows).

(** One row of [INSERT INTO alert_events ... ON CONFLICT(definition_id,
    source_event_id) DO UPDATE SET id=alert_events.id RETURNING id,cursor].
    The accumulator holds the rows, the sequence, the answers so far and the
    cursors the statement has touched: it may not update a row twice. *)
Definition insertEvent (acc : (list EventRow * Z * list (string * Z)) + (string * Z)) (e : NewEvent)
  : (list EventRow * Z * list (string * Z)) + (string * Z) :=
  match acc with
  | inr failed => inr failed
  | inl (rows, seq, out) =>
      let cursor := (seq + 1)%Z in
      if negb (isUUID e.(NewEvent.id) && isUUID e.(NewEvent.definition_id))
      then inr ("invalid input syntax for type uuid", seq)
      else if e.(NewEvent.reasonsNull) || e.(NewEvent.observationNull)
              || bool_decide (e.(NewEvent.evaluated_at) = None)
      then inr ("null value violates not-null constraint", cursor)
      else match eventWith e.(NewEvent.definition_id) e.(NewEvent.source_event_id) rows with
      | Some row =>
          if bool_decide ((row.(EventRow.id), row.(EventRow.cursor)) ∈ out)
          then inr ("ON CONFLICT DO UPDATE command cannot affect row a second time", cursor)
          else inl (rows, cursor, out ++ [(row.(EventRow.id), row.(EventRow.cursor))])
      | None =>
          if bool_decide (e.(NewEvent.id) ∈ EventRow.id <$> rows)
          then inr ("duplicate key value violates unique constraint", cursor)
          else inl (rows ++ [EventRow.mk e.(NewEvent.id) cursor e.(NewEvent.definition_id)
                               e.(NewEvent.source_event_id) e.(NewEvent.series_key)
                               e.(NewEvent.triggered_at) e.(NewEvent.fact)],
                    cursor, out ++ [(e.(NewEvent.id), cursor)])
      end
  end.

(** The foreign keys of an event. *)
Definition eventKeysOk (tables : Database) (row : EventRow) : bool :=
  bool_decide (is_Some (tables.(alert_definitions) !! row.(EventRow.definition_id)))
  && bool_decide (is_Some (tables.(alert_inbox) !! row.(EventRow.source_event_id))).

Definition insertEvents (events : list NewEvent) : Statement (list (string * Z)) := fun _ tables =>
  match foldl insertEvent (inl (tables.(alert_events), tables.(alert_events_cursor_seq), [])) events with
  | inr (message, seq) => (inl message, with_events tables tables.(alert_events) seq)
  | inl (rows, seq, out) =>
      if forallb (eventKeysOk tables) (drop (length tables.(alert_events)) rows)
      then (inr out, with_events tables rows seq)
      else (inl "violates foreign key constraint", with_events tables tables.(alert_events) seq)
  end.

(** [INSERT INTO alert_event_outbox ... ON CONFLICT(alert_id) DO NOTHING]. *)
Definition insertOutboxRow (now : Time) (acc : list OutboxRow * Z) (alert : Alert) : list OutboxRow * Z :=
  let '(rows, seq) := acc in
  let cursor := (seq + 1)%Z in
  if bool_decide (alert.(Alert.ID) ∈ OutboxRow.alert_id <$> rows) then (rows, cursor)
  else (rows ++ [OutboxRow.mk cursor alert.(Alert.ID) alert 0 now None None None now], cursor).

Definition insertOutbox (alerts : list Alert) : Statement unit := fun srv tables =>
  if negb (forallb (fun a => isUUID a.(Alert.ID)) alerts)
  then (inl "invalid input syntax for type uuid", tables) else
  let '(rows, seq) := foldl (insertOutboxRow (sqlNow srv))
                        (tables.(alert_event_outbox), tables.(alert_event_outbox_cursor_seq)) alerts in
  if forallb (fun row => bool_decide (row.(OutboxRow.alert_id) ∈ EventRow.id <$> tables.(alert_events)))
       (drop (length tables.(alert_event_outbox)) rows)
  then (inr (), with_outbox tables rows seq)
  else (inl "violates foreign key constraint", with_outbox tables tables.(alert_event_outbox) seq).

(** ** The first-generation path *)

(** [WHERE enabled AND archived_at IS NULL AND symbol=$1 AND timeframe=$2 AND
    (dataset='' OR dataset=$3) AND created_at<=$4]. *)
Definition candidate (o : Observation) (row : DefinitionRow) : bool :=
  active row
  && (row.(DefinitionRow.symbol) == o.(Observation.Series).(Series.Symbol))
  && (row.(DefinitionRow.timeframe) == o.(Observation.Series).(Series.Timeframe))
  && ((row.(DefinitionRow.dataset) == "") || (row.(DefinitionRow.dataset) == o.(Observation.Series).(Series.Dataset)))
  && (row.(DefinitionRow.created_at) <=? timestamptz o.(Observation.OccurredAt))%Z.

(** [ORDER BY id]. *)
Definition idOrder (a b : AlertDefinition) : Prop :=
  String.leb a.(AlertDefinition.ID) b.(AlertDefinition.ID) = true.
#[export] Instance idOrder_dec a b : Decision (idOrder a b).
Proof. unfold idOrder. apply _. Defined.

Definition selectCandidates (o : Observation) : Statement (list AlertDefinition) := fun _ tables =>
  (inr (merge_sort idOrder (scanDefinition <$>
     filter (fun row => candidate o row = true) (snd <$> map_to_list tables.(alert_definitions)))), tables).

(** The three statements on [alert_rule_state] before the evaluation: the
    lock, the row created when there is none, and the row read. *)
Definition lockState (id key : string) : Session EvaluationState :=
  let* _ := exec (fun _ tables => (inr (), tables)) in
  let* _ := exec (fun _ tables =>
    (inr (), with_rule_state tables (<[(id, key) := default EvaluationState.zero
                                         (tables.(alert_rule_state) !! (id, key))]> tables.(alert_rule_state)))) in
  exec (fun _ tables => (inr (default EvaluationState.zero (tables.(alert_rule_state) !! (id, key))), tables)).

(** [nextState, _ := json.Marshal(state)]: on an error the parameter is NULL,
    which the column refuses. *)
Definition updateState (id key : string) (state : EvaluationState) : Statement unit := fun _ tables =>
  match toJsonLegacy state with
  | None => (inl "null value violates not-null constraint", tables)
  | Some st => (inr (), with_rule_state tables (<[(id, key) := st]> tables.(alert_rule_state)))
  end.

(** The row the first generation proposes: it names neither [evaluated_at]
    nor the columns of migrations 004 and 008. *)
Definition legacyEvent (d : AlertDefinition) (key : string) (alert : Alert) : NewEvent :=
  NewEvent.mk alert.(Alert.ID) d.(AlertDefinition.ID) alert.(Alert.SourceEventID) key false
    (bool_decide (alert.(Alert.Payload) = None)) (timestamptz alert.(Alert.TriggeredAt)) None alert.

(** The body of the loop over the definitions; [now] is [time.Now()] in
    [apply], and a panic of [apply] ends the call. *)
Definition applyDefinition (now : Time) (o : Observation) (created : list Alert) (d : AlertDefinition)
  : Session (list Alert) :=
  if negb (acceptsMode d.(AlertDefinition.EvaluationMode) o.(Observation.Status)) then ret created else
  let key := Series.Key o.(Observation.Series) in
  let* state := lockState d.(AlertDefinition.ID) key in
  match apply d o state now with
  | None => fun _ s => (Panic, s)
  | Some (state, alert, accepted) =>
      if negb accepted then ret created else
      let* _ := exec (updateState d.(AlertDefinition.ID) key state) in
      match alert with
      | None => ret created
      | Some alert =>
          let alert := Alert.with_Payload alert (Some o) in
          let* out := exec (insertEvents [legacyEvent d key alert]) in
          let alert := Alert.with_Cursor alert (default 0%Z (snd <$> head out)) in
          let* _ := exec (insertOutbox [alert]) in
          ret (created ++ [alert])
      end
  end.

Definition ApplyObservation (now : Time) (o : Observation) : Session (list Alert) :=
  match marshalObservation o with
  | None => throw ErrMarshal
  | Some _ =>
      transaction (
        let* affected := exec (insertInbox [o]) in
        if (affected =? 0)%Z then ret ([], true) else
        let* definitions := exec (selectCandidates o) in
        let* created := each (applyDefinition now o) [] definitions in
        ret (created, true))
  end.

(** ** The runtime checkpoint *)

Definition smallintPartitions (partitions : list Z) : list Z := int16 <$> partitions.

(** [partition_id=ANY($1) OR partition_id IS NULL]. *)
Definition inPartitions {A} (ids : list Z) (row : StateRow A) : bool :=
  match row.(StateRow.partition_id) with None => true | Some p => bool_decide (p ∈ ids) end.

Definition selectSeries (ids : list Z) : Statement (gmap string SeriesEvaluationState) := fun _ tables =>
  (inr (StateRow.state <$> filter (fun kv => inPartitions ids kv.2 = true) tables.(alert_series_runtime_state)),
   tables).

(** The definition states under the keys of the snapshot. *)
Definition joinKeys {A} (rows : gmap (string * string) A) : gmap string A :=
  list_to_map ((fun '((id, seriesKey), st) => (DefinitionStateKey id seriesKey, st)) <$> map_to_list rows).

Definition selectDefinitions (ids : list Z) : Statement (gmap string DefinitionEvaluationState) := fun _ tables =>
  (inr (joinKeys (StateRow.state <$>
     filter (fun kv => inPartitions ids kv.2 = true) tables.(alert_definition_runtime_state))), tables).

(** The rows of [alert_rule_state] joined with their definitions' modes. *)
Definition selectLegacy : Statement (list (string * string * EvaluationState * string)) := fun srv tables =>
  (inr (omap (fun '(id, seriesKey) =>
     st ← tables.(alert_rule_state) !! (id, seriesKey);
     row ← tables.(alert_definitions) !! id;
     Some (id, seriesKey, st, row.(DefinitionRow.evaluation_mode))) srv.(Server.ruleStates)), tables).

(** The body of the bootstrap's loop: a state of the first generation becomes
    a definition state, and the newest of its series the series state. *)
Definition bootstrap (snapshot : RuntimeSnapshot) (row : string * string * EvaluationState * string)
  : RuntimeSnapshot :=
  let '(definitionID, seriesKey, legacy, mode) := row in
  let intrabar := mode == "intrabar" in
  let definitionState := DefinitionEvaluationState.mk
    (if intrabar then false else legacy.(EvaluationState.LastTruth))
    (if intrabar then legacy.(EvaluationState.LastTruth) else false)
    legacy.(EvaluationState.LastTriggerAt) legacy.(EvaluationState.LastAlertBar) in
  let definitions := <[DefinitionStateKey definitionID seriesKey := definitionState]>
                       snapshot.(RuntimeSnapshot.Definitions) in
  let current := default SeriesEvaluationState.zero (snapshot.(RuntimeSnapshot.Series) !! seriesKey) in
  let lastOpen := current.(SeriesEvaluationState.LastOpenTime) in
  if IsZero lastOpen || After legacy.(EvaluationState.LastOpenTime) lastOpen
     || (Equal legacy.(EvaluationState.LastOpenTime) lastOpen
         && (legacy.(EvaluationState.LastRevision) >=? current.(SeriesEvaluationState.LastRevision))%Z)
  then
    let feature := featureOf legacy in
    RuntimeSnapshot.mk
      (<[seriesKey := SeriesEvaluationState.mk legacy.(EvaluationState.LastOpenTime)
           legacy.(EvaluationState.LastRevision) legacy.(EvaluationState.LastStatus) "" zeroTime
           feature feature []]> snapshot.(RuntimeSnapshot.Series))
      definitions
  else RuntimeSnapshot.mk snapshot.(RuntimeSnapshot.Series) definitions.

Definition LoadRuntimeStates (ownedPartitions : list Z) : Session RuntimeSnapshot :=
  let partitionIDs := smallintPartitions ownedPartitions in
  let* series := exec (selectSeries partitionIDs) in
  let* definitions := exec (selectDefinitions partitionIDs) in
  let snapshot := RuntimeSnapshot.mk series definitions in
  if bool_decide (series = ∅) then
    let* rows := exec selectLegacy in
    ret (foldl bootstrap snapshot rows)
  else ret snapshot.

(** json.Marshal on the values of a map. *)
Definition toJsonMap {K A} `{Countable K} (f : A -> option A) (m : gmap K A) : option (gmap K A) :=
  if decide (map_Forall (fun _ x => is_Some (f x)) m) then Some (omap f m) else None.

(** [strings.Cut(stateKey, "|")] on the keys of the definition states. *)
Definition cutKey {A} (kv : string * A) : option (string * string * A) :=
  let '(definitionID, seriesKey, found) := cut "|"%char kv.1 in
  if found : bool then Some (definitionID, seriesKey, kv.2) else None.

(** The two upserts of states: [$2] is the partition, a smallint. *)
Definition upsertSeries (partitionID : Z) (states : gmap string SeriesEvaluationState) : Statement unit :=
  fun _ tables =>
  if negb (isInt2 partitionID) then (inl "out of range for int2", tables) else
  (inr (), with_series tables
             ((StateRow.mk (Some partitionID) <$> states) ∪ tables.(alert_series_runtime_state))).

Definition upsertDefinitionStates (partitionID : Z) (states : gmap (string * string) DefinitionEvaluationState)
  : Statement unit := fun _ tables =>
  if negb (isInt2 partitionID) then (inl "out of range for int2", tables)
  else if negb (forallb (fun kv => isUUID kv.1.1) (map_to_list states))
  then (inl "invalid input syntax for type uuid", tables)
  else if negb (forallb (fun kv => bool_decide (is_Some (tables.(alert_definitions) !! kv.1.1))) (map_to_list states))
  then (inl "violates foreign key constraint", tables)
  else (inr (), with_definition_states tables
          ((StateRow.mk (Some partitionID) <$> states) ∪ tables.(alert_definition_runtime_state))).

Definition deleteStates (keys : list string) : Statement unit := fun _ tables =>
  (inr (), with_definition_states tables
             (filter (fun kv => kv.1.2 ∉ keys) tables.(alert_definition_runtime_state))).

(** The rows of [INSERT INTO alert_events ... SELECT ... FROM input]: JSON
    null is SQL NULL, and what the evaluator calls no reasons is a nil slice. *)
Definition batchEvent (alert : Alert) : NewEvent :=
  NewEvent.mk alert.(Alert.ID) alert.(Alert.DefinitionID) alert.(Alert.SourceEventID)
    (Series.Key alert.(Alert.Series)) (bool_decide (alert.(Alert.Reasons) = []))
    (bool_decide (alert.(Alert.Payload) = None)) (timestamptz alert.(Alert.TriggeredAt))
    (Some (timestamptz alert.(Alert.EvaluatedAt))) alert.

(** [definition_version integer], [source_revision bigint]. *)
Definition numbersOk (alert : Alert) : bool :=
  isInt4 alert.(Alert.DefinitionVersion) && (alert.(Alert.SourceRevision) <=? maxInt64)%Z.

Definition insertAlerts (alerts : list Alert) : Statement (list (string * Z)) := fun srv tables =>
  if negb (forallb numbersOk alerts) then (inl "out of range", tables)
  else insertEvents (batchEvent <$> alerts) srv tables.

(** [cursors[id] = cursor] for each row returned. *)
Definition cursorsOf (out : list (string * Z)) : gmap string Z :=
  foldl (fun m '(id, cursor) => <[id := cursor]> m) ∅ out.

Definition unlessEmpty {A} (n : nat) (session : Session A) : Session unit :=
  if (n =? 0)%nat then ret () else bind session (fun _ => ret ()).

(** The four parts of the transaction, each [if len(...) > 0]. *)
Definition commitInbox (batch : RuntimeBatch) : Session unit :=
  unlessEmpty (length batch.(RuntimeBatch.Observations))
    (match mapM marshalObservation batch.(RuntimeBatch.Observations) with
     | None => throw ErrMarshal
     | Some rows => exec (insertInbox rows)
     end).

Definition commitSeries (batch : RuntimeBatch) : Session unit :=
  unlessEmpty (size batch.(RuntimeBatch.SeriesStates))
    (match toJsonMap toJsonSeries batch.(RuntimeBatch.SeriesStates) with
     | None => throw ErrMarshal
     | Some states => exec (upsertSeries batch.(RuntimeBatch.PartitionID) states)
     end).

Definition commitDefinitions (batch : RuntimeBatch) : Session unit :=
  let* _ := unlessEmpty (length batch.(RuntimeBatch.ResetSeriesKeys))
              (exec (deleteStates batch.(RuntimeBatch.ResetSeriesKeys))) in
  match mapM cutKey (map_to_list batch.(RuntimeBatch.DefinitionStates)) with
  | None => throw (ErrBackend "invalid definition runtime key")
  | Some rows =>
      unlessEmpty (length rows)
        (match toJsonMap toJsonDefinition (list_to_map rows) with
         | None => throw ErrMarshal
         | Some states => exec (upsertDefinitionStates batch.(RuntimeBatch.PartitionID) states)
         end)
  end.

Definition commitAlerts (batch : RuntimeBatch) : Session (list Alert) :=
  if (length batch.(RuntimeBatch.Alerts) =? 0)%nat then ret [] else
  match mapM toJsonAlert batch.(RuntimeBatch.Alerts) with
  | None => throw ErrMarshal
  | Some alerts =>
      let* out := exec (insertAlerts alerts) in
      let created := (fun alert => Alert.with_Cursor alert
                        (default 0%Z (cursorsOf out !! alert.(Alert.ID)))) <$> alerts in
      let* _ := exec (insertOutbox created) in
      ret created
  end.

Definition commitBody (batch : RuntimeBatch) : Session (list Alert * bool) :=
  let* _ := commitInbox batch in
  let* _ := commitSeries batch in
  let* _ := commitDefinitions batch in
  let* created := commitAlerts batch in
  ret (created, true).

Definition CommitRuntimeBatch (batch : RuntimeBatch) : Session (list Alert) :=
  transaction (commitBody batch).

(** ** The alert log and the outbox *)

(** [LIMIT $n]. *)
Definition limited {A} (limit : Z) (l : list A) : string + list A :=
  if (limit <? 0)%Z then inl "LIMIT must not be negative" else inr (take (Z.to_nat limit) l).

Definition eventLe (a b : EventRow) : Prop := (a.(EventRow.cursor) <= b.(EventRow.cursor))%Z.
#[export] Instance eventLe_dec a b : Decision (eventLe a b) := Z.le_dec _ _.
Definition outboxLe (a b : OutboxRow) : Prop := (a.(OutboxRow.cursor) <= b.(OutboxRow.cursor))%Z.
#[export] Instance outboxLe_dec a b : Decision (outboxLe a b) := Z.le_dec _ _.

Definition outboxOf (id : string) (rows : list OutboxRow) : option OutboxRow :=
  head (filter (fun row => row.(OutboxRow.alert_id) = id) rows).

(** A row of the join as an alert: the payload is decoded over the cursor of
    the event, and [cursor] is left out of it when it is 0. *)
Definition scanAlert (row : EventRow * OutboxRow) : Alert :=
  let '(event, outbox) := row in
  let a := outbox.(OutboxRow.payload) in
  let a := if (a.(Alert.Cursor) =? 0)%Z then Alert.with_Cursor a event.(EventRow.cursor) else a in
  match outbox.(OutboxRow.published_at) with
  | Some _ => Alert.with_PublishStatus a "published"
  | None => a
  end.

Definition ListAlerts (after limit : Z) : Session (list Alert) :=
  exec (fun _ tables =>
    let rows := omap (fun event => (fun outbox => (event, outbox)) <$>
                        outboxOf event.(EventRow.id) tables.(alert_event_outbox))
                  (merge_sort eventLe (filter (fun event => (event.(EventRow.cursor) > after)%Z)
                                         tables.(alert_events))) in
    (match limited limit rows with inl message => inl message | inr l => inr (scanAlert <$> l) end, tables)).

(** [published_at IS NULL AND next_attempt_at<=now()]. *)
Definition due (now : Time) (row : OutboxRow) : bool :=
  bool_decide (row.(OutboxRow.published_at) = None) && (row.(OutboxRow.next_attempt_at) <=? now)%Z.

(** [attempts=attempts+1,locked_at=now(),next_attempt_at=now()+interval '30 seconds']. *)
Definition claimRow (now : Time) (row : OutboxRow) : OutboxRow :=
  OutboxRow.mk row.(OutboxRow.cursor) row.(OutboxRow.alert_id) row.(OutboxRow.payload)
    (row.(OutboxRow.attempts) + 1) (now + 30 * Second) (Some now) row.(OutboxRow.published_at)
    row.(OutboxRow.last_error) row.(OutboxRow.created_at).

Definition claimOutbox (limit : Z) : Statement (list Alert) := fun srv tables =>
  let now := sqlNow srv in
  let rows := tables.(alert_event_outbox) in
  match limited limit (merge_sort outboxLe (filter (fun row => due now row = true) rows)) with
  | inl message => (inl message, tables)
  | inr chosen =>
      let cursors := OutboxRow.cursor <$> chosen in
      (inr (OutboxRow.payload <$> omap (fun cursor => head (filter (fun row => row.(OutboxRow.cursor) = cursor) chosen))
                                    srv.(Server.claimed)),
       with_outbox tables
         ((fun row => if bool_decide (row.(OutboxRow.cursor) ∈ cursors) then claimRow now row else row) <$> rows)
         tables.(alert_event_outbox_cursor_seq))
  end.

Definition ClaimPending (limit : Z) : Session (list Alert) := exec (claimOutbox limit).

(** An [UPDATE alert_event_outbox SET ... WHERE alert_id=$1]. *)
Definition updateOutbox (id : string) (f : Time -> OutboxRow -> OutboxRow) : Statement unit := fun srv tables =>
  if negb (isUUID id) then (inl "invalid input syntax for type uuid", tables) else
  (inr (), with_outbox tables
     ((fun row => if bool_decide (row.(OutboxRow.alert_id) = id) then f (sqlNow srv) row else row)
        <$> tables.(alert_event_outbox)) tables.(alert_event_outbox_cursor_seq)).

Definition publishRow (now : Time) (row : OutboxRow) : OutboxRow :=
  OutboxRow.mk row.(OutboxRow.cursor) row.(OutboxRow.alert_id) row.(OutboxRow.payload)
    row.(OutboxRow.attempts) row.(OutboxRow.next_attempt_at) None (Some now) None row.(OutboxRow.created_at).

Definition MarkPublished (id : string) : Session unit := exec (updateOutbox id publishRow).

(** [least(300,power(2,least(attempts,8)))] seconds. *)
Definition backoff (attempts : Z) : Duration := (Z.min 300 (2 ^ Z.min attempts 8) * Second)%Z.

Definition failRow (message : string) (now : Time) (row : OutboxRow) : OutboxRow :=
  OutboxRow.mk row.(OutboxRow.cursor) row.(OutboxRow.alert_id) row.(OutboxRow.payload)
    row.(OutboxRow.attempts) (now + backoff row.(OutboxRow.attempts)) None row.(OutboxRow.published_at)
    (Some message) row.(OutboxRow.created_at).

Definition MarkPublishFailed (id message : string) : Session unit := exec (updateOutbox id (failRow message)).

(** ** Retention *)

Definition triggeredLe (a b : EventRow) : Prop := (a.(EventRow.triggered_at) <= b.(EventRow.triggered_at))%Z.
#[export] Instance triggeredLe_dec a b : Decision (triggeredLe a b) := Z.le_dec _ _.

(** [e.triggered_at < now()-$1 AND o.published_at IS NOT NULL], joined on the
    alert. *)
Definition expiredEvent (now : Time) (retention : Duration) (outbox : list OutboxRow) (event : EventRow) : bool :=
  (event.(EventRow.triggered_at) <? now - retention)%Z
  && match outboxOf event.(EventRow.id) outbox with
     | Some row => negb (bool_decide (row.(OutboxRow.published_at) = None))
     | None => false
     end.

(** The deletion cascades to the outbox. *)
Definition deleteEvents (retention : Duration) (batchSize : Z) : Statement Z := fun srv tables =>
  match interval retention with
  | None => (inl "invalid input syntax for type interval", tables)
  | Some retention =>
      match limited batchSize (merge_sort triggeredLe
              (filter (fun e => expiredEvent (sqlNow srv) retention tables.(alert_event_outbox) e = true)
                 tables.(alert_events))) with
      | inl message => (inl message, tables)
      | inr doomed =>
          let ids := EventRow.id <$> doomed in
          (inr (Z.of_nat (length doomed)),
           with_outbox
             (with_events tables (filter (fun e => e.(EventRow.id) ∉ ids) tables.(alert_events))
                tables.(alert_events_cursor_seq))
             (filter (fun row => row.(OutboxRow.alert_id) ∉ ids) tables.(alert_event_outbox))
             tables.(alert_event_outbox_cursor_seq))
      end
  end.

Definition receivedLe (a b : string * InboxRow) : Prop :=
  (a.2.(InboxRow.received_at) <= b.2.(InboxRow.received_at))%Z.
#[export] Instance receivedLe_dec a b : Decision (receivedLe a b) := Z.le_dec _ _.

Definition expiredInbox (now : Time) (provisional confirmed : Duration) (events : list EventRow)
  (kv : string * InboxRow) : bool :=
  negb (bool_decide (kv.1 ∈ EventRow.source_event_id <$> events))
  && (if kv.2.(InboxRow.payload).(Observation.Status) == "provisional"
      then (kv.2.(InboxRow.received_at) <? now - provisional)%Z
      else (kv.2.(InboxRow.received_at) <? now - confirmed)%Z).

Definition deleteInbox (provisional confirmed : Duration) (batchSize : Z) : Statement Z := fun srv tables =>
  match interval provisional, interval confirmed with
  | Some provisional, Some confirmed =>
      match limited batchSize (merge_sort receivedLe
              (filter (fun kv => expiredInbox (sqlNow srv) provisional confirmed tables.(alert_events) kv = true)
                 (map_to_list tables.(alert_inbox)))) with
      | inl message => (inl message, tables)
      | inr doomed =>
          (inr (Z.of_nat (length doomed)),
           with_inbox tables (filter (fun kv => kv.1 ∉ doomed.*1) tables.(alert_inbox)))
      end
  | _, _ => (inl "invalid input syntax for type interval", tables)
  end.

Definition Maintain (policy : RetentionPolicy.RetentionPolicy) : Session MaintenanceResult.MaintenanceResult :=
  let batchSize := if (policy.(RetentionPolicy.BatchSize) <=? 0)%Z then 5000%Z
                   else policy.(RetentionPolicy.BatchSize) in
  let* alertsDeleted :=
    (if (policy.(RetentionPolicy.AlertEvents) >? 0)%Z
     then exec (deleteEvents policy.(RetentionPolicy.AlertEvents) batchSize) else ret 0%Z) in
  let* inboxDeleted :=
    (if (policy.(RetentionPolicy.ProvisionalInbox) >? 0)%Z && (policy.(RetentionPolicy.ConfirmedInbox) >? 0)%Z
     then exec (deleteInbox policy.(RetentionPolicy.ProvisionalInbox) policy.(RetentionPolicy.ConfirmedInbox)
                  batchSize)
     else ret 0%Z) in
  ret (MaintenanceResult.mk inboxDeleted alertsDeleted).

(** ** Partition leases *)

(** One row of [INSERT INTO alert_partition_leases ... ON CONFLICT DO UPDATE
    ... WHERE owner_id=EXCLUDED.owner_id OR expires_at<=now()]: the leases and
    the partitions returned so far, or an error. *)
Definition leaseRow (owner : string) (now : Time) (ttl : Duration)
  (acc : (gmap Z LeaseRow * list Z) + string) (p : Z) : (gmap Z LeaseRow * list Z) + string :=
  match acc with
  | inr message => inr message
  | inl (rows, out) =>
      let row := LeaseRow.mk owner (now + ttl) in
      if negb ((0 <=? p) && (p <? 256))%Z then inr "violates check constraint"
      else if bool_decide (p ∈ out)
      then inr "ON CONFLICT DO UPDATE command cannot affect row a second time"
      else match rows !! p with
      | Some held =>
          if (held.(LeaseRow.owner_id) == owner) || (held.(LeaseRow.expires_at) <=? now)%Z
          then inl (<[p := row]> rows, out ++ [p]) else inl (rows, out)
      | None => inl (<[p := row]> rows, out ++ [p])
      end
  end.

(** The number of partitions returned. *)
Definition acquireLeases (owner : string) (ids : list Z) (ttl : Duration) : Statement nat := fun srv tables =>
  match interval ttl with
  | None => (inl "invalid input syntax for type interval", tables)
  | Some ttl =>
      match foldl (leaseRow owner (sqlNow srv) ttl) (inl (tables.(alert_partition_leases), [])) ids with
      | inr message => (inl message, tables)
      | inl (rows, out) => (inr (length out), with_leases tables rows)
      end
  end.

Definition AcquirePartitions (owner : string) (partitions : list Z) (ttl : Duration) : Session bool :=
  if (length partitions =? 0)%nat then throw (ErrBackend "at least one partition lease is required") else
  transaction (
    let* count := exec (acquireLeases owner (smallintPartitions partitions) ttl) in
    if negb (count =? length partitions)%nat then ret (false, false) else ret (true, true)).

Definition renewLeases (owner : string) (ids : list Z) (ttl : Duration) : Statement nat := fun srv tables =>
  match interval ttl with
  | None => (inl "invalid input syntax for type interval", tables)
  | Some ttl =>
      let mine (kv : Z * LeaseRow) := bool_decide (kv.2.(LeaseRow.owner_id) = owner /\ kv.1 ∈ ids) in
      (inr (length (filter (fun kv => mine kv = true) (map_to_list tables.(alert_partition_leases)))),
       with_leases tables
         (map_imap (fun p row => Some (if mine (p, row) then LeaseRow.mk owner (sqlNow srv + ttl) else row))
            tables.(alert_partition_leases)))
  end.

Definition RenewPartitions (owner : string) (partitions : list Z) (ttl : Duration) : Session bool :=
  let* affected := exec (renewLeases owner (smallintPartitions partitions) ttl) in
  ret (affected =? length partitions)%nat.

Definition ReleasePartitions (owner : string) : Session unit :=
  exec (fun _ tables =>
    (inr (), with_leases tables
               (filter (fun kv => kv.2.(LeaseRow.owner_id) <> owner) tables.(alert_partition_leases)))).

(** ** Statistics *)

(** [extract(epoch FROM ...)] of microseconds as a float64, and back. *)
Definition secondsOf (d : Duration) : float64 :=
  fdiv (float_of_Z (d / Microsecond)) (float_of_Z 1000000).

(** [time.Duration(f)]: truncation towards zero. *)
Definition durationOf (f : float64) : Duration :=
  match f with
  | S754_finite true m e => (- truncate (S754_finite false m e))%Z
  | _ => truncate f
  end.

Definition OperationalStats : Session OperationalStats.OperationalStats :=
  exec (fun srv tables =>
    let pending := filter (fun row => row.(OutboxRow.published_at) = None) tables.(alert_event_outbox) in
    let oldest := match pending with
                  | [] => float_of_Z 0
                  | row :: rest => secondsOf (sqlNow srv - foldl Z.min row.(OutboxRow.created_at)
                                                             (OutboxRow.created_at <$> rest))
                  end in
    (inr (OperationalStats.mk (Z.of_nat (length pending)) (durationOf (fmul oldest (float_of_Z Second)))),
     tables)).
