(* ===== verification/Migrate.v ===== *)
(** * internal/store/postgres.go: opening the database and its migrations

    The schema the scripts of internal/store/migrations build is a parameter,
    with the server's execution of a script on it; what is modelled is which
    scripts run, in which order, and what is recorded of them. *)

From stdpp Require Import base gmap strings list numbers sorting.
From Stdlib Require Import Ascii.
From S2P Require Import Prelude GoBase GoTime Store Tables.
Open Scope session_scope.

(** A [fs.DirEntry] of the embedded directory, with what [ReadFile] gives. *)
Module DirEntry.
Record DirEntry := mk { Name : string; IsDir : bool; content : option string }.
End DirEntry.
Abbreviation DirEntry := DirEntry.DirEntry.

(** [strings.HasSuffix]. *)
Definition hasSuffix (s suffix : string) : bool :=
  (String.length suffix <=? String.length s)%nat
  && (String.substring (String.length s - String.length suffix) (String.length suffix) s == suffix).

(** [entries[i].Name() < entries[j].Name()]; names in a directory differ. *)
Definition nameLe (a b : DirEntry) : Prop := String.leb a.(DirEntry.Name) b.(DirEntry.Name) = true.
#[export] Instance nameLe_dec a b : Decision (nameLe a b).
Proof. unfold nameLe. apply _. Defined.

(** The embedded files the loop does not skip. *)
Definition isScript (entry : DirEntry) : bool :=
  negb entry.(DirEntry.IsDir) && hasSuffix entry.(DirEntry.Name) ".sql".

(** The schema, and the names in [alert_schema_migrations] once it exists. *)
Module Catalog.
Record Catalog {Schema : Type} := mk { schema : Schema; applied : option (gset string) }.
Arguments Catalog : clear implicits.
Arguments mk {Schema} _ _.
End Catalog.
Abbreviation Catalog := Catalog.Catalog.

Section Migrate.
Context {Schema : Type} (script : string -> Schema -> string + Schema).
Implicit Types c : Catalog Schema.

Definition createTable : StatementOn (Catalog Schema) unit := fun _ c =>
  (inr (), Catalog.mk c.(Catalog.schema) (Some (default ∅ c.(Catalog.applied)))).

Definition selectApplied (name : string) : StatementOn (Catalog Schema) bool := fun _ c =>
  (inr (bool_decide (name ∈ default ∅ c.(Catalog.applied))), c).

Definition runScript (body : string) : StatementOn (Catalog Schema) unit := fun _ c =>
  match script body c.(Catalog.schema) with
  | inl message => (inl message, c)
  | inr schema => (inr (), Catalog.mk schema c.(Catalog.applied))
  end.

Definition recordApplied (name : string) : StatementOn (Catalog Schema) unit := fun _ c =>
  let names := default ∅ c.(Catalog.applied) in
  if bool_decide (name ∈ names) then (inl "duplicate key value violates unique constraint", c)
  else (inr (), Catalog.mk c.(Catalog.schema) (Some ({[name]} ∪ names))).

(** The body of the loop. *)
Definition migrateEntry (u : unit) (entry : DirEntry) : SessionOn (Catalog Schema) unit :=
  if negb (isScript entry) then ret () else
  match entry.(DirEntry.content) with
  | None => throw (ErrBackend "read migration")
  | Some body =>
      let* applied := exec (selectApplied entry.(DirEntry.Name)) in
      if applied : bool then ret () else
      transactionOn (fun c _ => c) (
        let* _ := exec (runScript body) in
        let* _ := exec (recordApplied entry.(DirEntry.Name)) in
        ret ((), true))
  end.

(** The connection is acquired and the advisory lock taken; it is released
    when the function returns, whatever comes of that. *)
Definition migrate (entries : list DirEntry) : SessionOn (Catalog Schema) unit :=
  let* _ := exec (fun _ c => (inr (), c)) in
  let* _ := exec (fun _ c => (inr (), c)) in
  let* _ := exec createTable in
  each migrateEntry () (merge_sort nameLe entries).

(** [OpenPostgres]: the URL is parsed, the pool made and the schema migrated. *)
Definition OpenPostgres (parsed pool : bool) (entries : list DirEntry) (srv : Server) (c : Catalog Schema)
  : Res StoreError unit * Catalog Schema :=
  if negb parsed then (Err (ErrBackend "parse database URL"), c)
  else if negb pool then (Err (ErrBackend "open database"), c)
  else let '(res, (_, c')) := migrate entries srv (0, c) in (res, c').

(** ** Every script runs once *)

(** The schema after some scripts. *)
Fixpoint runScripts (entries : list DirEntry) (s : Schema) : option Schema :=
  match entries with
  | [] => Some s
  | entry :: rest =>
      match entry.(DirEntry.content) with
      | None => None
      | Some body => match script body s with inl _ => None | inr s' => runScripts rest s' end
      end
  end.

Lemma runScripts_snoc l e s :
  runScripts (l ++ [e]) s = s' ← runScripts l s; runScripts [e] s'.
Proof.
  revert s. induction l as [|x l IH]; intros s; [done|]. cbn [app runScripts].
  destruct (DirEntry.content x) as [body|]; [|done]. by destruct (script body s).
Qed.

(** The catalog after the scripts [ran], and no other. *)
Definition after (s0 : Schema) (ran : list DirEntry) (c : Catalog Schema) : Prop :=
  runScripts ran s0 = Some c.(Catalog.schema) /\
  c.(Catalog.applied) = Some (list_to_set (DirEntry.Name <$> ran)).

Lemma migrateEntry_after s0 srv n c ran entry res n' c' :
  after s0 ran c -> (isScript entry = true) -> entry.(DirEntry.Name) ∉ DirEntry.Name <$> ran ->
  migrateEntry () entry srv (n, c) = (res, (n', c')) ->
  (after s0 (ran ++ [entry]) c' /\ res <> Panic) \/ (c' = c /\ exists e, res = Err e).
Proof.
  intros [Hs Ha] Hscript Hnew. unfold migrateEntry. rewrite Hscript. cbn [negb].
  destruct (DirEntry.content entry) as [body|] eqn:Eb; [|intros [= <- _ <-]; eauto].
  assert (DirEntry.Name entry ∉ default ∅ (Catalog.applied c)) as Hnew'
    by (rewrite Ha; simpl; by rewrite elem_of_list_to_set).
  assert (forall schema, script body c.(Catalog.schema) = inr schema ->
    after s0 (ran ++ [entry]) (Catalog.mk schema (Some ({[DirEntry.Name entry]} ∪ default ∅ c.(Catalog.applied))))) as Hafter.
  { intros schema Esc. split; simpl.
    - rewrite runScripts_snoc, Hs. simpl. by rewrite Eb, Esc.
    - rewrite Ha. simpl. f_equal. rewrite fmap_app, list_to_set_app_L. simpl. set_solver. }
  unfold bind, exec, selectApplied, transactionOn, runScript, recordApplied, ret. simpl.
  rewrite bool_decide_eq_false_2 by done. simpl.
  repeat (case_goal; simpl; try (intros [= <- _ <-]; by eauto)); simplify_eq/=;
    try (rewrite bool_decide_eq_false_2 in * by done); simplify_eq/=;
    intros [= <- _ <-]; eauto.
Qed.

Lemma selectApplied_known s0 srv n c ran entry res n' c' :
  after s0 ran c -> isScript entry = true -> entry.(DirEntry.Name) ∈ DirEntry.Name <$> ran ->
  migrateEntry () entry srv (n, c) = (res, (n', c')) -> c' = c /\ (res = Ok () \/ exists e, res = Err e).
Proof.
  intros [_ Ha] Hscript Hin. unfold migrateEntry. rewrite Hscript. cbn [negb].
  destruct (DirEntry.content entry) as [body|]; [|intros [= <- _ <-]; eauto].
  unfold bind, exec, selectApplied, ret. simpl. rewrite Ha. simpl.
  rewrite bool_decide_eq_true_2 by (by apply elem_of_list_to_set).
  repeat (case_goal; simpl; try (intros [= <- _ <-]; by eauto)); intros [= <- _ <-]; eauto.
Qed.

(** The loop, from a point where the scripts [ran] have run, of which [pre]
    come before the entries still to be looked at. *)
Lemma loop_after s0 srv all l : forall pre ran n c res n' c',
  NoDup (DirEntry.Name <$> all) -> all = pre ++ filter (fun e => isScript e = true) l ->
  pre `prefix_of` ran -> ran `prefix_of` all -> after s0 ran c ->
  each migrateEntry () l srv (n, c) = (res, (n', c')) ->
  exists ran', ran `prefix_of` ran' /\ ran' `prefix_of` all /\ after s0 ran' c' /\
    (res = Ok () -> ran' = all) /\ res <> Panic.
Proof.
  induction l as [|entry l IH]; intros pre ran n c res n' c' Hnd Hall Hpre Hran Hc Heach; simpl in Heach.
  { rewrite filter_nil, app_nil_r in Hall. subst pre. injection Heach as <- _ <-. exists ran.
    split; [done|]. split; [done|]. split; [done|]. split; [|done]. intros _. by apply (anti_symm prefix). }
  unfold bind in Heach. destruct (migrateEntry () entry srv (n, c)) as [res1 [n1 c1]] eqn:E1.
  rewrite filter_cons in Hall. case_decide as Hs.
  - destruct Hpre as [more ->], Hran as [rest Hrest]. subst all.
    rewrite <- app_assoc in Hrest. apply app_inv_head in Hrest.
    destruct more as [|x more]; simpl in Hrest.
    + rewrite app_nil_r in *. assert (DirEntry.Name entry ∉ DirEntry.Name <$> pre) as Hnew.
      { rewrite fmap_app in Hnd. apply NoDup_app in Hnd as (_ & Hdisj & _). intros Hin.
        apply (Hdisj _ Hin). simpl. set_solver. }
      pose proof (migrateEntry_after _ _ _ _ _ _ _ _ _ Hc Hs Hnew E1) as [[Ha Hnp]|[-> [e ->]]].
      * assert (pre ++ [entry] `prefix_of` pre ++ entry :: filter (fun e => isScript e = true) l) as Hpx
          by (apply prefix_app, (prefix_app [entry] [] _), prefix_nil).
        destruct res1 as [[]|e|]; [| |done].
        -- destruct (IH (pre ++ [entry]) (pre ++ [entry]) n1 c1 res n' c') as (ran' & ? & ? & ? & ? & ?);
             [done|by rewrite <- app_assoc|done|done|done|done|].
           exists ran'. split; [|done]. etrans; [|done]. by apply prefix_app_r.
        -- injection Heach as <- _ <-. exists (pre ++ [entry]).
           split; [by apply prefix_app_r|]. done.
      * injection Heach as <- _ <-. exists pre.
        split; [done|]. split; [by apply prefix_app_r|]. done.
    + injection Hrest as <- Hrest.
      assert (DirEntry.Name entry ∈ DirEntry.Name <$> pre ++ entry :: more) as Hin by (rewrite fmap_app; set_solver).
      pose proof (selectApplied_known _ _ _ _ _ _ _ _ _ Hc Hs Hin E1) as [-> [->|[e ->]]].
      * destruct (IH (pre ++ [entry]) (pre ++ entry :: more) n1 c res n' c') as (ran' & ? & ? & ? & ? & ?);
          [done|by rewrite <- app_assoc|..|done|done|by exists ran'].
        -- apply prefix_app, (prefix_app [entry] [] _), prefix_nil.
        -- apply prefix_app. simpl. apply prefix_cons. by exists rest.
      * injection Heach as <- _ <-. exists (pre ++ entry :: more).
        split; [done|]. split; [|done]. apply prefix_app, prefix_cons. by exists rest.
  - unfold migrateEntry in E1. apply not_true_is_false in Hs. rewrite Hs in E1. injection E1 as <- <- <-.
    eapply IH; done.
Qed.

Lemma migrate_step s0 srv entries (ran : option (list DirEntry)) c res n' c' :
  let all := filter (fun e => isScript e = true) (merge_sort nameLe entries) in
  NoDup (DirEntry.Name <$> all) ->
  match ran with
  | None => c = Catalog.mk s0 None
  | Some ran => ran `prefix_of` all /\ after s0 ran c
  end ->
  migrate entries srv (0, c) = (res, (n', c')) ->
  (c' = c /\ exists e, res = Err e) \/
  exists ran', default [] ran `prefix_of` ran' /\ ran' `prefix_of` all /\ after s0 ran' c' /\
    (res = Ok () -> ran' = all) /\ res <> Panic.
Proof.
  intros all Hnd Hc.
  assert (default [] ran `prefix_of` all /\
          after s0 (default [] ran) (Catalog.mk c.(Catalog.schema) (Some (default ∅ c.(Catalog.applied)))))
    as [Hpre Hafter].
  { destruct ran as [ran|]; simpl; [|subst c; split; [apply prefix_nil|done]].
    destruct Hc as [? [Hs Ha]]. split; [done|]. split; [done|]. simpl. by rewrite Ha. }
  unfold migrate, bind, exec, createTable. cbn [fst snd].
  destruct (Server.fault srv 0) as [[]|]; [intros [= <- _ <-]; eauto..|].
  destruct (Server.fault srv 1) as [[]|]; [intros [= <- _ <-]; eauto..|].
  destruct (Server.fault srv 2) as [[]|].
  - intros [= <- _ <-]. eauto.
  - intros [= <- _ <-]. right. by exists (default [] ran).
  - intros Heach. right. eapply (loop_after _ _ all _ []); [done|done|apply prefix_nil|done|done|done].
Qed.
End Migrate.

(** Starting the program any number of times, whatever fails meanwhile. *)
Definition starts {Schema} (script : string -> Schema -> string + Schema) (entries : list DirEntry)
  (servers : list Server) (c : Catalog Schema) : Catalog Schema :=
  foldl (fun c srv => (OpenPostgres script true true entries srv c).2) c servers.

(** C38: every migration runs exactly once, in the order of the names, whatever
    interrupts the program and however often it is started: the schema is at
    any moment that of a run of the first few scripts, the recorded names are
    theirs, and a start that succeeds leaves it at that of all of them. An
    acknowledgement of the server that is lost makes no difference: a script
    and its record are committed together. *)
Theorem migrations_exactly_once {Schema} (script : string -> Schema -> string + Schema) (s0 : Schema)
  (entries : list DirEntry) (servers : list Server) (srv : Server) :
  let all := filter (fun e => isScript e = true) (merge_sort nameLe entries) in
  NoDup (DirEntry.Name <$> all) ->
  let c := starts script entries servers (Catalog.mk s0 None) in
  (c = Catalog.mk s0 None \/
   exists k, runScripts script (take k all) s0 = Some c.(Catalog.schema) /\
     c.(Catalog.applied) = Some (list_to_set (DirEntry.Name <$> take k all))) /\
  ((OpenPostgres script true true entries srv c).1 = Ok () ->
   runScripts script all s0 = Some (OpenPostgres script true true entries srv c).2.(Catalog.schema)).
Proof.
  intros all Hnd c.
  assert (exists ran, match ran with
    | None => c = Catalog.mk s0 None
    | Some ran => ran `prefix_of` all /\ after script s0 ran c end) as [ran Hran].
  { subst c. unfold starts. induction servers as [|srv' servers IH] using rev_ind; [by exists None|].
    rewrite foldl_app. cbn [foldl]. destruct IH as [ran Hran].
    set (c0 := foldl _ _ servers) in *. clearbody c0. unfold OpenPostgres. cbn [negb].
    destruct (migrate _ _ _ _) as [res [n' c']] eqn:E. simpl.
    destruct (migrate_step script s0 srv' entries ran _ _ _ _ Hnd Hran E) as [[-> _]|(ran' & _ & ? & ? & _)];
      [by exists ran|by exists (Some ran')]. }
  split.
  - destruct ran as [ran|]; [right|by left]. destruct Hran as [[rest Hall] [Hs Ha]].
    exists (length ran). by rewrite Hall, take_app_length.
  - unfold OpenPostgres. cbn [negb]. destruct (migrate _ _ _ _) as [res [n' c']] eqn:E. simpl. intros ->.
    destruct (migrate_step script s0 srv entries ran _ _ _ _ Hnd Hran E)
      as [[_ [e H]]|(ran' & _ & _ & [Hs _] & Hall & _)]; [done|].
    by rewrite (Hall eq_refl) in Hs.
Qed.

(** Scripts that append their text to a log, and servers that fail in one
    exchange: the third of a start asks whether the first script ran, the
    eleventh records the second one. *)
Definition logScript (body : string) (log : list string) : string + list string := inr (log ++ [body]).
Definition healthy : Server := Server.mk 0 (fun _ => None) [] [].
Definition failsAt (k : nat) : Server :=
  Server.mk 0 (fun n => if bool_decide (n = k) then Some (Fault.Lost "connection reset") else None) [] [].
Definition twoScripts : list DirEntry :=
  [DirEntry.mk "002_b.sql" false (Some "b"); DirEntry.mk "README" false (Some "");
   DirEntry.mk "001_a.sql" false (Some "a")].

Lemma migrations_exactly_once_witness :
  (OpenPostgres logScript true true twoScripts (failsAt 11) (Catalog.mk [] None)).2.(Catalog.schema) = ["a"] /\
  Some (OpenPostgres logScript true true twoScripts healthy
     (starts logScript twoScripts [failsAt 3; failsAt 11] (Catalog.mk [] None))).2.(Catalog.schema) = Some ["a"; "b"].
Proof.
  split; [vm_compute; reflexivity|].
  destruct (migrations_exactly_once logScript [] twoScripts [failsAt 3; failsAt 11] healthy) as [_ H].
  { apply (bool_decide_unpack _). vm_compute. exact I. }
  rewrite <- H; vm_compute; reflexivity.
Defined.
