(* ===== verification/PostgresProps.v ===== *)
(** * The PostgreSQL repository keeps the repository's promises

    A transaction that returns no error took effect as a whole, one that
    fails leaves the tables alone (unless the acknowledgement of its commit is
    lost: see PostgresCommit.v), and what a batch wrote is loaded again: the
    instance of [RepositoryLaws] makes every theorem about the engine and the
    service hold of a deployment on PostgreSQL. *)

From stdpp Require Import base gmap strings list numbers sorting.
From Stdlib Require Import Ascii.
From S2P Require Import Prelude GoFloat GoBase GoTime Model Json Rules Store StoreEvaluate Memory Fixtures.
From S2P Require Import Tables Postgres.
Import Database Postgres.
Open Scope session_scope.

(** ** Sessions *)

Section Sessions.
Context {D : Type}.
Implicit Types (srv : Server) (d : D) (n : nat).

Lemma bind_Ok {A B} (c : SessionOn D A) (f : A -> SessionOn D B) srv s b s' :
  bind c f srv s = (Ok b, s') -> exists a s1, c srv s = (Ok a, s1) /\ f a srv s1 = (Ok b, s').
Proof. unfold bind. destruct (c srv s) as [[a|e|] s1]; intros H; [eauto|done..]. Qed.

Lemma exec_Ok {A} (statement : StatementOn D A) srv n d a n' d' :
  exec statement srv (n, d) = (Ok a, (n', d')) -> statement srv d = (inr a, d').
Proof. unfold exec. repeat case_goal; by intros [= -> _ ->]. Qed.

(** Nothing but the loss of an answer separates a failed call from one that
    was not made. *)
Definition reliable srv : Prop := forall n message, srv.(Server.fault) n <> Some (Fault.Lost message).

(** No call panics. *)
Definition noPanic {A} (c : SessionOn D A) : Prop := forall srv s, (c srv s).1 <> Panic.

Lemma noPanic_ret {A} (a : A) : noPanic (ret a).
Proof. done. Qed.
Lemma noPanic_throw {A} e : noPanic (throw e : SessionOn D A).
Proof. done. Qed.
Lemma noPanic_exec {A} (statement : StatementOn D A) : noPanic (exec statement).
Proof. intros srv [n d]. unfold exec. by repeat case_goal. Qed.
Lemma noPanic_bind {A B} (c : SessionOn D A) (f : A -> SessionOn D B) :
  noPanic c -> (forall a, noPanic (f a)) -> noPanic (bind c f).
Proof.
  intros Hc Hf srv s. unfold bind. specialize (Hc srv s). destruct (c srv s) as [[a|e|] s1]; [apply Hf|done..].
Qed.
Lemma noPanic_transaction {A} rb (body : SessionOn D (A * bool)) : noPanic body -> noPanic (transactionOn rb body).
Proof.
  intros Hb srv [n d]. unfold transactionOn. case_goal; [by case_goal|]. specialize (Hb srv (S n, d)).
  destruct (body srv (S n, d)) as [[[a []]|e|] [n' d']]; simpl in *; by repeat case_goal.
Qed.

(** Every state a call can leave, given a property of states that the
    statements keep. *)
Section Keeps.
Context (P : D -> Prop).
Definition keeps {A} (c : SessionOn D A) : Prop :=
  forall srv n d, P d -> P (c srv (n, d)).2.2.
Definition keepsStatement {A} (statement : StatementOn D A) : Prop :=
  forall srv d, P d -> P (statement srv d).2.

Lemma keeps_ret {A} (a : A) : keeps (ret a).
Proof. by intros srv n d. Qed.
Lemma keeps_throw {A} e : keeps (throw e : SessionOn D A).
Proof. by intros srv n d. Qed.
Lemma keeps_exec {A} (statement : StatementOn D A) : keepsStatement statement -> keeps (exec statement).
Proof.
  intros Hs srv n d Hd. specialize (Hs srv d Hd). unfold exec.
  destruct (statement srv d) as [[message|a] d']; simpl in *; by repeat case_goal.
Qed.
Lemma keeps_bind {A B} (c : SessionOn D A) (f : A -> SessionOn D B) :
  keeps c -> (forall a, keeps (f a)) -> keeps (bind c f).
Proof.
  intros Hc Hf srv n d Hd. unfold bind. specialize (Hc srv n d Hd).
  destruct (c srv (n, d)) as [[a|e|] [n1 d1]]; simpl in *; [by apply Hf|done..].
Qed.
Lemma keeps_transaction {A} rb (body : SessionOn D (A * bool)) :
  (forall d d', P d -> P d' -> P (rb d d')) -> keeps body -> keeps (transactionOn rb body).
Proof.
  intros Hrb Hb srv n d Hd. specialize (Hb srv (S n) d Hd). unfold transactionOn. case_goal; [by case_goal|].
  destruct (body srv (S n, d)) as [[[a []]|e|] [n' d']]; simpl in *; repeat case_goal; simpl; eauto.
Qed.
End Keeps.

(** A transaction commits, or rolls back. *)
Lemma transaction_Ok {A} rb (body : SessionOn D (A * bool)) srv n d a n' d' :
  transactionOn rb body srv (n, d) = (Ok a, (n', d')) ->
  exists commits n1 d1, body srv (S n, d) = (Ok (a, commits), (n1, d1)) /\
    d' = if commits : bool then d1 else rb d d1.
Proof.
  unfold transactionOn. repeat case_goal; try done; intros [= <- _ <-]; simplify_eq; eauto 6.
Qed.

Lemma transaction_Err {A} rb (body : SessionOn D (A * bool)) srv n d e n' d' :
  reliable srv -> (forall d, rb d d = d) ->
  transactionOn rb body srv (n, d) = (Err e, (n', d')) -> exists d1, d' = rb d d1.
Proof.
  intros Hr Hrb. unfold transactionOn.
  repeat case_goal; try done; intros [= _ _ <-]; eauto; by edestruct Hr.
Qed.
End Sessions.

#[export] Hint Resolve noPanic_ret noPanic_throw noPanic_exec noPanic_bind noPanic_transaction : alerts.
#[export] Hint Resolve keeps_ret keeps_throw : alerts.

(** ** Keys *)

Lemma cut_found c s b a : cut c s = (b, a, true) -> absent c b = true /\ s = b +:+ String c EmptyString +:+ a.
Proof.
  revert b. induction s as [|d s IH]; intros b; simpl; [done|].
  destruct (Ascii.eqb d c) eqn:E; [intros [= <- <-]; apply Ascii.eqb_eq in E; by subst|].
  destruct (cut c s) as [[b' a'] f]. intros [= <- -> ->]. destruct (IH b' eq_refl) as [Hb ->].
  simpl. by rewrite E, Hb.
Qed.

(** A digit or a dash is not a bar, so a uuid has none. *)
Lemma hex_noBar (s : string) (dash : nat -> bool) : forall n,
  forallb id (imap (fun i c => if dash (n + i) then (c =? 45)%Z else isHex c) (bytesOf s)) = true ->
  noBar s = true.
Proof.
  induction s as [|c s IH]; intros n; [done|]. simpl. intros [Hc Hs]%andb_true_iff.
  apply andb_true_iff. split.
  - apply negb_true_iff, Ascii.eqb_neq. intros ->. destruct (dash _); done.
  - apply (IH (S n)). rewrite <- Hs. f_equal. apply imap_ext. intros i x _. simpl. by rewrite Nat.add_succ_r.
Qed.

Lemma isUUID_noBar s : isUUID s = true -> noBar s = true.
Proof. intros [_ H]%andb_true_iff. by apply (hex_noBar s (fun i => bool_decide (i ∈ [8; 13; 18; 23])) 0). Qed.

Section JoinKeys.
Context {A : Type}.
Implicit Types (m : gmap string A) (rows : gmap (string * string) A).

(** Rows whose identifiers hold no bar. *)
Definition barless rows : Prop := map_Forall (fun k _ => noBar k.1 = true) rows.

Lemma joinKeys_lookup rows id sk :
  barless rows -> noBar id = true -> joinKeys rows !! DefinitionStateKey id sk = rows !! (id, sk).
Proof.
  intros Hrows Hid. unfold joinKeys.
  apply option_eq. intros x. rewrite <- elem_of_list_to_map.
  - rewrite list_elem_of_fmap. split.
    + intros ([[id' sk'] y] & [= Hk ->] & Hin%elem_of_map_to_list).
      apply DefinitionStateKey_inj in Hk as [-> ->]; [done|done|]. by apply (Hrows _ _ Hin).
    + intros Hin. exists ((id, sk), x). split; [done|]. by apply elem_of_map_to_list.
  - rewrite <- list_fmap_compose. apply NoDup_fmap_2_strong; [|apply NoDup_map_to_list].
    intros [[i1 s1] x1] [[i2 s2] x2] H1 H2 Hk. rewrite elem_of_map_to_list in H1, H2. simpl in Hk.
    apply DefinitionStateKey_inj in Hk as [-> ->]; [congruence|by apply (Hrows _ _ H1)|by apply (Hrows _ _ H2)].
Qed.

(** Every key of the snapshot is the key of a row. *)
Lemma joinKeys_Some rows key x :
  joinKeys rows !! key = Some x -> exists id sk, key = DefinitionStateKey id sk /\ rows !! (id, sk) = Some x.
Proof.
  intros H%elem_of_list_to_map_2. apply list_elem_of_fmap in H as ([[id sk] y] & [= -> ->] & H).
  exists id, sk. by rewrite <- elem_of_map_to_list.
Qed.

(** A key without a bar is the key of no row. *)
Lemma joinKeys_nobar (rows : gmap (string * string) A) key b a :
  cut "|"%char key = (b, a, false) -> barless rows -> joinKeys rows !! key = None.
Proof.
  intros Ecut Hr. destruct (joinKeys rows !! key) eqn:E; [|done]. exfalso.
  apply joinKeys_Some in E as (id & sk & -> & E). pose proof (Hr _ _ E) as Hid.
  pose proof (cut_absent "|"%char id sk Hid) as Ecut'. unfold DefinitionStateKey in Ecut. congruence.
Qed.

Lemma mapM_cutKey_lookup m (l : list (string * string * A)) id sk :
  mapM cutKey (map_to_list m) = Some l -> noBar id = true ->
  (list_to_map l : gmap _ A) !! (id, sk) = m !! DefinitionStateKey id sk.
Proof.
  intros Hl Hid. apply mapM_Some in Hl.
  assert (forall id sk x, (id, sk, x) ∈ l <-> noBar id = true /\ m !! DefinitionStateKey id sk = Some x) as Hin.
  { clear id sk Hid. intros id sk x. split.
    - intros Hx. destruct (list_elem_of_lookup_1 _ _ Hx) as [i Hi].
      destruct (Forall2_lookup_r _ _ _ _ _ Hl Hi) as ([k y] & Hk & Hcut).
      unfold cutKey in Hcut. simpl in Hcut. destruct (cut _ k) as [[b a] []] eqn:E; [|done]. simplify_eq.
      apply cut_found in E as [? ->]. split; [done|].
      apply elem_of_map_to_list. by eapply list_elem_of_lookup_2.
    - intros [Hb Hx]. apply elem_of_map_to_list, list_elem_of_lookup_1 in Hx as [i Hi].
      destruct (Forall2_lookup_l _ _ _ _ _ Hl Hi) as ([[id' sk'] y] & Hk & Hcut).
      unfold cutKey, DefinitionStateKey in Hcut. cbn [fst snd] in Hcut.
      pose proof (cut_absent "|"%char id sk Hb) as E. rewrite E in Hcut. simplify_eq.
      by eapply list_elem_of_lookup_2. }
  apply option_eq. intros x. rewrite <- elem_of_list_to_map; [rewrite Hin; naive_solver|].
  apply NoDup_alt. intros i j k Hi Hj. rewrite list_lookup_fmap in Hi, Hj.
  destruct (l !! i) as [[k1 x1]|] eqn:E1, (l !! j) as [[k2 x2]|] eqn:E2; simplify_eq/=.
  destruct (Forall2_lookup_r _ _ _ _ _ Hl E1) as ([s1 y1] & L1 & C1).
  destruct (Forall2_lookup_r _ _ _ _ _ Hl E2) as ([s2 y2] & L2 & C2).
  unfold cutKey in C1, C2. simpl in *.
  destruct (cut _ s1) as [[b1 a1] []] eqn:Es1, (cut _ s2) as [[b2 a2] []] eqn:Es2; simplify_eq.
  apply cut_found in Es1 as [_ ->], Es2 as [_ Es2]. rewrite <- Es2 in L1.
  eapply (NoDup_lookup (map_to_list m).*1); [apply NoDup_fst_map_to_list|by rewrite list_lookup_fmap, L1|].
  by rewrite list_lookup_fmap, L2.
Qed.
End JoinKeys.

(** ** The parts of a commit *)

Lemma unlessEmpty_Ok {A} n (c : Session A) srv s u s' :
  unlessEmpty n c srv s = (Ok u, s') ->
  (n = 0 /\ s' = s) \/ (n <> 0 /\ exists a, c srv s = (Ok a, s')).
Proof.
  unfold unlessEmpty. destruct (Nat.eqb_spec n 0) as [->|Hn].
  - intros [= _ <-]. by left.
  - intros (a & s1 & Hc & [= _ <-])%bind_Ok. eauto.
Qed.

Lemma marshalObservation_id o o' : marshalObservation o = Some o' -> o' = o.
Proof. unfold marshalObservation. case_goal; congruence. Qed.

Lemma mapM_id {A} (f : A -> option A) l l' :
  (forall x y, f x = Some y -> y = x) -> mapM f l = Some l' -> l' = l /\ Forall (fun x => f x = Some x) l.
Proof.
  intros Hf H%mapM_Some. induction H as [|x y l l' Hxy _ [-> IH]]; [done|].
  pose proof (Hf _ _ Hxy) as ->. split; [done|]. by constructor.
Qed.

Lemma commitInbox_Ok b srv n d u n' d' :
  commitInbox b srv (n, d) = (Ok u, (n', d')) ->
  mapM marshalObservation b.(RuntimeBatch.Observations) = Some b.(RuntimeBatch.Observations) /\
  d' = with_inbox d (foldl (insertInboxRow (sqlNow srv)) (alert_inbox d, 0%Z) b.(RuntimeBatch.Observations)).1.
Proof.
  intros [[Hn [= _ ->]]|[_ [a Hc]]]%unlessEmpty_Ok.
  - apply nil_length_inv in Hn. rewrite Hn. split; [done|]. by destruct d.
  - destruct (mapM _ _) as [rows|] eqn:E; [|done]. pose proof E as E'.
    apply mapM_id in E' as [-> _]; [|exact marshalObservation_id]. split; [done|].
    apply exec_Ok in Hc. unfold insertInbox in Hc.
    destruct (foldl _ _ _) as [rows affected]. by injection Hc as _ <-.
Qed.

Lemma toJsonMap_Some {K A} `{Countable K} (f : A -> option A) (m m' : gmap K A) :
  toJsonMap f m = Some m' -> forall k, m' !! k = m !! k ≫= f.
Proof. unfold toJsonMap. case_decide; [|done]. intros [= <-] k. by rewrite lookup_omap. Qed.

Lemma toJsonMap_empty {K A} `{Countable K} (f : A -> option A) :
  toJsonMap f (∅ : gmap K A) = Some ∅.
Proof.
  unfold toJsonMap. rewrite decide_True by apply map_Forall_empty. by rewrite omap_empty.
Qed.

Lemma toJsonMap_keys {K A} `{Countable K} (f : A -> option A) (m m' : gmap K A) k :
  toJsonMap f m = Some m' -> is_Some (m' !! k) <-> is_Some (m !! k).
Proof.
  intros Hm. pose proof (toJsonMap_Some _ _ _ Hm k) as Hk. unfold toJsonMap in Hm.
  case_decide as Hall; [|done]. rewrite Hk. destruct (m !! k) as [x|] eqn:E; simpl; [|done].
  pose proof (Hall _ _ E). naive_solver.
Qed.

(** What the three upserts and the deletion leave; the partition is a
    smallint unless nothing is written under it. *)
Lemma commitSeries_Ok b srv n d u n' d' :
  commitSeries b srv (n, d) = (Ok u, (n', d')) ->
  exists states, toJsonMap toJsonSeries b.(RuntimeBatch.SeriesStates) = Some states /\
    d' = with_series d ((StateRow.mk (Some b.(RuntimeBatch.PartitionID)) <$> states) ∪ alert_series_runtime_state d) /\
    (states <> ∅ -> isInt2 b.(RuntimeBatch.PartitionID) = true).
Proof.
  intros [[Hn [= _ ->]]|[_ [a Hc]]]%unlessEmpty_Ok.
  - apply map_size_empty_iff in Hn. rewrite Hn, toJsonMap_empty. exists ∅. split; [done|].
    rewrite fmap_empty, (left_id_L ∅ _). by destruct d.
  - destruct (toJsonMap _ _) as [states|] eqn:E; [|done]. exists states. split; [done|].
    apply exec_Ok in Hc. unfold upsertSeries in Hc. destruct (isInt2 _); simpl in Hc; [|done].
    by injection Hc as _ <-.
Qed.

Lemma commitDefinitions_Ok b srv n d u n' d' :
  commitDefinitions b srv (n, d) = (Ok u, (n', d')) ->
  exists l states, mapM cutKey (map_to_list b.(RuntimeBatch.DefinitionStates)) = Some l /\
    toJsonMap toJsonDefinition (list_to_map l) = Some states /\
    d' = with_definition_states d
           ((StateRow.mk (Some b.(RuntimeBatch.PartitionID)) <$> states) ∪
            filter (fun kv => kv.1.2 ∉ b.(RuntimeBatch.ResetSeriesKeys)) (alert_definition_runtime_state d)) /\
    (states <> ∅ -> isInt2 b.(RuntimeBatch.PartitionID) = true) /\
    map_Forall (fun k _ => isUUID k.1 = true /\ is_Some (alert_definitions d !! k.1)) states.
Proof.
  unfold commitDefinitions. intros (u1 & [n1 d1] & Hdel & Hc)%bind_Ok.
  assert (d1 = with_definition_states d
            (filter (fun kv => kv.1.2 ∉ b.(RuntimeBatch.ResetSeriesKeys)) (alert_definition_runtime_state d))) as Hd1.
  { apply unlessEmpty_Ok in Hdel as [[Hn [= _ ->]]|[_ [a Hx]]].
    - apply nil_length_inv in Hn. rewrite Hn, map_filter_id; [by destruct d|]. intros ? ? _. set_solver.
    - apply exec_Ok in Hx. by injection Hx as _ <-. }
  destruct (mapM cutKey _) as [l|]; [|done]. exists l.
  apply unlessEmpty_Ok in Hc as [[Hn [= _ ->]]|[_ [a Hx]]].
  - apply nil_length_inv in Hn as ->. simpl. rewrite toJsonMap_empty. exists ∅. split; [done|]. split; [done|].
    rewrite fmap_empty, (left_id_L ∅ _). split; [done|]. split; [done|]. apply map_Forall_empty.
  - destruct (toJsonMap _ _) as [states|]; [|done]. exists states. split; [done|]. split; [done|].
    apply exec_Ok in Hx. unfold upsertDefinitionStates in Hx. subst d1. simpl in Hx.
    destruct (isInt2 _); simpl in Hx; [|done].
    destruct (forallb (fun kv => isUUID _) _) eqn:E1; simpl in Hx; [|done].
    destruct (forallb (fun kv => bool_decide _) _) eqn:E2; simpl in Hx; [|done]. injection Hx as _ <-.
    split; [done|]. split; [done|]. intros k x Hk%elem_of_map_to_list.
    rewrite forallb_forall in E1, E2. rewrite list_elem_of_In in Hk.
    split; [exact (E1 _ Hk)|]. exact (bool_decide_eq_true_1 _ (E2 _ Hk)).
Qed.

Lemma toJsonAlert_id a a' : toJsonAlert a = Some a' -> a' = a.
Proof. unfold toJsonAlert. case_goal; congruence. Qed.

(** The alerts with the cursors the statement returned. *)
Definition withCursors (out : list (string * Z)) (alerts : list Alert) : list Alert :=
  (fun alert => Alert.with_Cursor alert (default 0%Z (cursorsOf out !! alert.(Alert.ID)))) <$> alerts.

Lemma commitAlerts_Ok b srv n d created n' d' :
  commitAlerts b srv (n, d) = (Ok created, (n', d')) ->
  (b.(RuntimeBatch.Alerts) = [] /\ created = [] /\ d' = d) \/
  b.(RuntimeBatch.Alerts) <> [] /\
  exists out d1, mapM toJsonAlert b.(RuntimeBatch.Alerts) = Some b.(RuntimeBatch.Alerts) /\
    insertAlerts b.(RuntimeBatch.Alerts) srv d = (inr out, d1) /\
    created = withCursors out b.(RuntimeBatch.Alerts) /\ insertOutbox created srv d1 = (inr (), d').
Proof.
  unfold commitAlerts. destruct (Nat.eqb_spec (length b.(RuntimeBatch.Alerts)) 0) as [Hn|Hn].
  { intros [= <- _ <-]. apply nil_length_inv in Hn. by left. }
  destruct (mapM _ _) as [alerts|] eqn:E; [|done]. pose proof E as E'.
  apply mapM_id in E' as [-> _]; [|exact toJsonAlert_id].
  intros (out & [n1 d1] & H1%exec_Ok & (u & [n2 d2] & H2%exec_Ok & [= <- _ <-])%bind_Ok)%bind_Ok.
  right. split; [intros Hnil; by rewrite Hnil in Hn|]. exists out, d1. by destruct u.
Qed.

(** ** The whole transaction *)

(** The tables the alerts do not touch. *)
Definition sameBut (d d' : Database) : Prop :=
  alert_definitions d' = alert_definitions d /\ alert_inbox d' = alert_inbox d /\
  alert_rule_state d' = alert_rule_state d /\
  alert_series_runtime_state d' = alert_series_runtime_state d /\
  alert_definition_runtime_state d' = alert_definition_runtime_state d /\
  alert_partition_leases d' = alert_partition_leases d.

Lemma sameBut_refl d : sameBut d d.
Proof. done. Qed.
Lemma sameBut_trans d1 d2 d3 : sameBut d1 d2 -> sameBut d2 d3 -> sameBut d1 d3.
Proof. intros (?&?&?&?&?&?) (?&?&?&?&?&?). repeat split; congruence. Qed.

Lemma insertEvents_frame l srv d : sameBut d (insertEvents l srv d).2.
Proof. unfold insertEvents. by repeat case_goal. Qed.
Lemma insertAlerts_frame l srv d : sameBut d (insertAlerts l srv d).2.
Proof. unfold insertAlerts. case_goal; [done|apply insertEvents_frame]. Qed.
Lemma insertOutbox_frame l srv d : sameBut d (insertOutbox l srv d).2.
Proof. unfold insertOutbox. by repeat case_goal. Qed.

Lemma commitAlerts_frame b srv n d created n' d' :
  commitAlerts b srv (n, d) = (Ok created, (n', d')) -> sameBut d d'.
Proof.
  intros [(_ & _ & ->)|(_ & out & d1 & _ & H1 & _ & H2)]%commitAlerts_Ok; [done|].
  pose proof (insertAlerts_frame b.(RuntimeBatch.Alerts) srv d) as F1. rewrite H1 in F1.
  pose proof (insertOutbox_frame created srv d1) as F2. rewrite H2 in F2. by eapply sameBut_trans.
Qed.

(** The checkpoint part of a successful commit. *)
Record committed (b : RuntimeBatch) (srv : Server) (d d' : Database)
  (l : list (string * string * DefinitionEvaluationState)) (states : gmap string SeriesEvaluationState)
  (dstates : gmap (string * string) DefinitionEvaluationState) : Prop := {
  committed_observations_json :
    mapM marshalObservation b.(RuntimeBatch.Observations) = Some b.(RuntimeBatch.Observations);
  committed_series_json : toJsonMap toJsonSeries b.(RuntimeBatch.SeriesStates) = Some states;
  committed_keys : mapM cutKey (map_to_list b.(RuntimeBatch.DefinitionStates)) = Some l;
  committed_definitions_json : toJsonMap toJsonDefinition (list_to_map l) = Some dstates;
  committed_int2 : states <> ∅ \/ dstates <> ∅ -> isInt2 b.(RuntimeBatch.PartitionID) = true;
  committed_uuids :
    map_Forall (fun k _ => isUUID k.1 = true /\ is_Some (alert_definitions d !! k.1)) dstates;
  committed_definitions : alert_definitions d' = alert_definitions d;
  committed_inbox : alert_inbox d' =
    (foldl (insertInboxRow (sqlNow srv)) (alert_inbox d, 0%Z) b.(RuntimeBatch.Observations)).1;
  committed_rule_state : alert_rule_state d' = alert_rule_state d;
  committed_series : alert_series_runtime_state d' =
    (StateRow.mk (Some b.(RuntimeBatch.PartitionID)) <$> states) ∪ alert_series_runtime_state d;
  committed_definition_states : alert_definition_runtime_state d' =
    (StateRow.mk (Some b.(RuntimeBatch.PartitionID)) <$> dstates) ∪
    filter (fun kv => kv.1.2 ∉ b.(RuntimeBatch.ResetSeriesKeys)) (alert_definition_runtime_state d);
  committed_leases : alert_partition_leases d' = alert_partition_leases d }.

Lemma commitBody_Ok b srv n d created commits n' d' :
  commitBody b srv (n, d) = (Ok (created, commits), (n', d')) ->
  commits = true /\ exists l states dstates, committed b srv d d' l states dstates /\
    exists n1 d1 n2, commitAlerts b srv (n1, d1) = (Ok created, (n2, d')) /\
      alert_events d1 = alert_events d /\ alert_event_outbox d1 = alert_event_outbox d /\
      alert_definitions d1 = alert_definitions d /\ alert_inbox d1 = alert_inbox d' /\
      alert_events_cursor_seq d1 = alert_events_cursor_seq d /\
      alert_event_outbox_cursor_seq d1 = alert_event_outbox_cursor_seq d.
Proof.
  intros Hbody.
  apply bind_Ok in Hbody as (u1 & [n1 d1] & [Hobs H1]%commitInbox_Ok & Hbody).
  apply bind_Ok in Hbody as (u2 & [n2 d2] & H2%commitSeries_Ok & Hbody).
  apply bind_Ok in Hbody as (u3 & [n3 d3] & H3%commitDefinitions_Ok & Hbody).
  apply bind_Ok in Hbody as (c & [n4 d4] & H4 & [= <- <- _ <-]). split; [done|].
  destruct H2 as (states & S1 & -> & S2), H3 as (l & dstates & K1 & K2 & -> & K3 & K4).
  pose proof (commitAlerts_frame _ _ _ _ _ _ _ H4) as (F1 & F2 & F3 & F4 & F5 & F6). subst d1. simpl in *.
  exists l, states, dstates. split.
  - split; try done; naive_solver.
  - eexists _, _, _. by split; [exact H4|].
Qed.

Lemma CommitRuntimeBatch_Ok b srv n d created n' d' :
  CommitRuntimeBatch b srv (n, d) = (Ok created, (n', d')) ->
  exists n1, commitBody b srv (S n, d) = (Ok (created, true), (n1, d')).
Proof.
  intros (commits & n0 & d0 & Hbody & ->)%transaction_Ok. exists n0.
  by destruct (commitBody_Ok _ _ _ _ _ _ _ _ Hbody) as [-> _].
Qed.

Lemma noPanic_unlessEmpty {A} n (c : Session A) : noPanic c -> noPanic (unlessEmpty n c).
Proof. intros Hc. unfold unlessEmpty. case_goal; eauto with alerts. Qed.
#[export] Hint Resolve noPanic_unlessEmpty : alerts.

Lemma CommitRuntimeBatch_noPanic b : noPanic (CommitRuntimeBatch b).
Proof.
  apply noPanic_transaction, noPanic_bind; [|intros _; apply noPanic_bind; [|intros _; apply noPanic_bind]].
  - apply noPanic_unlessEmpty. case_goal; auto with alerts.
  - apply noPanic_unlessEmpty. case_goal; auto with alerts.
  - apply noPanic_bind; [auto with alerts|]. intros _. case_goal; [|auto with alerts].
    apply noPanic_unlessEmpty. case_goal; auto with alerts.
  - intros _. apply noPanic_bind; [|auto with alerts]. unfold commitAlerts.
    repeat case_goal; auto 7 with alerts.
Qed.

(** ** The checkpoint *)

Definition checkpoint (d : Database) : RuntimeSnapshot :=
  RuntimeSnapshot.mk (StateRow.state <$> alert_series_runtime_state d)
    (joinKeys (StateRow.state <$> alert_definition_runtime_state d)).

(** What the rest of the program keeps true of the tables: identifiers of
    definition states are uuids, and no state of the first generation is left
    (its evaluator is not called any more). *)
Definition kept (d : Database) : Prop :=
  alert_rule_state d = ∅ /\
  map_Forall (fun k _ => isUUID k.1 = true) (alert_definition_runtime_state d).

Lemma kept_barless d : kept d -> barless (StateRow.state <$> alert_definition_runtime_state d).
Proof.
  intros [_ Hk] k x Hx. rewrite lookup_fmap in Hx. destruct (_ !! k) as [row|] eqn:E; [|done].
  apply isUUID_noBar. by apply (Hk _ _ E).
Qed.

Lemma kept_committed b srv d d' l states dstates :
  committed b srv d d' l states dstates -> kept d -> kept d'.
Proof.
  intros [] [Hr Hk]. split; [congruence|]. rewrite committed_definition_states0.
  intros k x [Hx|[_ Hx]]%lookup_union_Some_raw.
  - rewrite lookup_fmap in Hx. destruct (dstates !! k) eqn:E; [|done]. by apply (committed_uuids0 _ _ E).
  - apply map_lookup_filter_Some in Hx as [Hx _]. by apply (Hk _ _ Hx).
Qed.

Lemma toJsonSeries_Some st st' : toJsonSeries st = Some st' -> st' = readSeries st.
Proof. unfold toJsonSeries. case_goal; congruence. Qed.

Lemma toJsonDefinition_Some st st' : toJsonDefinition st = Some st' -> st' = st.
Proof. unfold toJsonDefinition. case_goal; congruence. Qed.

Lemma filter_drops_key (keys : list string) (id sk : string)
  (T : gmap (string * string) (StateRow DefinitionEvaluationState)) :
  filter (fun kv : string * string * StateRow DefinitionEvaluationState => kv.1.2 ∉ keys) T !! (id, sk) = if decide (sk ∈ keys) then None else T !! (id, sk).
Proof.
  rewrite map_lookup_filter. destruct (T !! (id, sk)) as [row|]; simpl; [|by case_decide].
  case_guard as E; simpl; case_decide; simpl in *; done.
Qed.

(** The transaction implements the abstract commit. *)
Lemma committed_checkpoint b srv d d' l states dstates :
  kept d -> committed b srv d d' l states dstates ->
  checkpoint d' ≡ commitRuntime b (checkpoint d).
Proof.
  intros Hkept Hc. pose proof (kept_barless _ Hkept) as Hb.
  pose proof (kept_barless _ (kept_committed _ _ _ _ _ _ _ Hc Hkept)) as Hb'.
  destruct Hc as [_ Hs Hl Hd Hi Hu _ _ _ Es Ed _]. split.
  - intros k. unfold checkpoint, commitRuntime. cbn [RuntimeSnapshot.Series].
    rewrite Es, lookup_fmap, !lookup_union, !lookup_fmap, (toJsonMap_Some _ _ _ Hs k).
    destruct (RuntimeBatch.SeriesStates b !! k) as [st|] eqn:E; simpl.
    + destruct (toJsonSeries st) as [st'|] eqn:Est.
      * apply toJsonSeries_Some in Est as ->.
        destruct (alert_series_runtime_state d !! k); simpl; constructor; apply readSeries_equiv.
      * exfalso. pose proof (proj2 (toJsonMap_keys _ _ _ k Hs) ltac:(eauto)) as [y Hy].
        rewrite (toJsonMap_Some _ _ _ Hs k), E in Hy. simpl in Hy. congruence.
    + by destruct (alert_series_runtime_state d !! k).
  - apply map_eq. intros key. unfold checkpoint, commitRuntime. cbn [RuntimeSnapshot.Definitions].
    rewrite lookup_union, dropAllSeries_lookup.
    destruct (cut "|"%char key) as [[id sk] []] eqn:Ecut.
    + apply cut_found in Ecut as [Hid ->]. change (id +:+ String "|" "" +:+ sk) with (DefinitionStateKey id sk).
      rewrite !joinKeys_lookup, !lookup_fmap, Ed, lookup_union, lookup_fmap by done.
      rewrite (toJsonMap_Some _ _ _ Hd (id, sk)), (mapM_cutKey_lookup _ _ _ _ Hl Hid), filter_drops_key.
      rewrite definitionSeriesKey_of by done.
      destruct (RuntimeBatch.DefinitionStates b !! _) as [st|] eqn:E; simpl.
      * destruct (toJsonDefinition st) as [st'|] eqn:Est.
        -- apply toJsonDefinition_Some in Est as ->. simpl.
           by case_decide; [|destruct (alert_definition_runtime_state d !! (id, sk))].
        -- exfalso. pose proof (proj2 (toJsonMap_keys _ _ _ (id, sk) Hd)) as [y Hy].
           { rewrite (mapM_cutKey_lookup _ _ _ _ Hl Hid). eauto. }
           rewrite (toJsonMap_Some _ _ _ Hd (id, sk)), (mapM_cutKey_lookup _ _ _ _ Hl Hid), E in Hy.
           simpl in Hy. congruence.
      * case_decide; [done|]. by destruct (alert_definition_runtime_state d !! (id, sk)).
    + (* a key without a bar is in neither map *)
      rewrite !(joinKeys_nobar _ _ _ _ Ecut) by done. destruct (RuntimeBatch.DefinitionStates b !! key) as [st|] eqn:E.
      * exfalso. apply elem_of_map_to_list in E. apply list_elem_of_lookup_1 in E as [i Hlk].
        apply mapM_Some in Hl. destruct (Forall2_lookup_l _ _ _ _ _ Hl Hlk) as (y & _ & Hy).
        unfold cutKey in Hy. simpl in Hy. by rewrite Ecut in Hy.
      * by case_decide.
Qed.

Lemma CommitRuntimeBatch_Err b srv n d e n' d' :
  reliable srv -> CommitRuntimeBatch b srv (n, d) = (Err e, (n', d')) -> exists d1, d' = rollback d d1.
Proof. intros Hr. apply transaction_Err; [done|]. by intros []. Qed.

(** ** Which rows are loaded *)

Lemma int16_id p : isInt2 p = true -> int16 p = p.
Proof.
  unfold isInt2, int16, wrapS. intros H. bool_norm. rewrite Z.mod_small; lia.
Qed.

Lemma inPartitions_elem {A} ids p (row : StateRow A) :
  p ∈ ids -> inPartitions [p] row = true -> inPartitions ids row = true.
Proof.
  unfold inPartitions. destruct row as [[q|] st]; simpl; [|done]. intros Hin Hq%bool_decide_eq_true.
  apply list_elem_of_singleton in Hq as ->. by apply bool_decide_eq_true.
Qed.

(** The checkpoint of a key is loaded for a partition: there is none, or its
    row has that partition or none. *)
Definition homeRow {A} (p : Z) (row : option (StateRow A)) : Prop :=
  match row with Some row => inPartitions [int16 p] row = true | None => True end.

Definition definitionRow (d : Database) (key : string) : option (StateRow DefinitionEvaluationState) :=
  kv ← cutKey (key, ()); alert_definition_runtime_state d !! kv.1.

Lemma definitionRow_key d id sk :
  noBar id = true -> definitionRow d (DefinitionStateKey id sk) = alert_definition_runtime_state d !! (id, sk).
Proof.
  intros H. unfold definitionRow, cutKey, DefinitionStateKey. cbn [fst snd].
  pose proof (cut_absent "|"%char id sk H) as E. by rewrite E.
Qed.

(** Without a state of the first generation nothing is bootstrapped. *)
Lemma LoadRuntimeStates_Ok ps srv n d s s' :
  alert_rule_state d = ∅ -> LoadRuntimeStates ps srv (n, d) = (Ok s, s') ->
  s = RuntimeSnapshot.mk
        (StateRow.state <$> filter (fun kv => inPartitions (smallintPartitions ps) kv.2 = true)
           (alert_series_runtime_state d))
        (joinKeys (StateRow.state <$> filter (fun kv => inPartitions (smallintPartitions ps) kv.2 = true)
           (alert_definition_runtime_state d))).
Proof.
  intros Hr (series & [n1 d1] & H1%exec_Ok & (defs & [n2 d2] & H2%exec_Ok & H3)%bind_Ok)%bind_Ok.
  injection H1 as <- <-. injection H2 as <- <-.
  case_bool_decide; [|by injection H3 as <- _].
  apply bind_Ok in H3 as (rows & [n3 d3] & H3%exec_Ok & [= <- _]). injection H3 as <- _.
  assert (omap (fun '(id, seriesKey) =>
     st ← alert_rule_state d !! (id, seriesKey);
     row ← alert_definitions d !! id;
     Some (id, seriesKey, st, DefinitionRow.evaluation_mode row)) (Server.ruleStates srv) = []) as ->; [|done].
  rewrite Hr. induction (Server.ruleStates srv) as [|[i k] l IH]; [done|]. simpl. by rewrite lookup_empty.
Qed.

Lemma filter_state_lookup {K A} `{Countable K} ids (T : gmap K (StateRow A)) k :
  filter (fun kv => inPartitions ids kv.2 = true) T !! k =
  (row ← T !! k; if inPartitions ids row then Some row else None).
Proof.
  rewrite map_lookup_filter. destruct (T !! k) as [row|]; simpl; [|done].
  case_guard as E; simpl in *; destruct (inPartitions ids row); done.
Qed.

Lemma load_checkpoint ps srv n d s s' :
  kept d -> LoadRuntimeStates ps srv (n, d) = (Ok s, s') ->
  RuntimeSnapshot.Series s ⊆ RuntimeSnapshot.Series (checkpoint d) /\
  RuntimeSnapshot.Definitions s ⊆ RuntimeSnapshot.Definitions (checkpoint d) /\
  (forall p k, p ∈ ps -> homeRow p (alert_series_runtime_state d !! k) ->
     RuntimeSnapshot.Series s !! k = RuntimeSnapshot.Series (checkpoint d) !! k) /\
  (forall p k, p ∈ ps -> homeRow p (definitionRow d k) ->
     RuntimeSnapshot.Definitions s !! k = RuntimeSnapshot.Definitions (checkpoint d) !! k).
Proof.
  intros Hk H. pose proof (kept_barless _ Hk) as Hb. apply LoadRuntimeStates_Ok in H as ->; [|by apply Hk].
  simpl. set (ids := smallintPartitions ps).
  assert (barless (StateRow.state <$> filter (fun kv => inPartitions ids kv.2 = true)
                     (alert_definition_runtime_state d))) as Hb'.
  { intros k x Hx. rewrite lookup_fmap, filter_state_lookup in Hx.
    destruct (_ !! k) as [row|] eqn:E; [|done]. apply (Hb k (StateRow.state row)). by rewrite lookup_fmap, E. }
  assert (forall p, p ∈ ps -> int16 p ∈ ids) as Hids by (intros p Hp; apply list_elem_of_fmap; eauto).
  repeat split.
  - apply map_subseteq_spec. intros k x. rewrite !lookup_fmap, filter_state_lookup.
    destruct (_ !! k) as [row|]; simpl; [|done]. by case_goal.
  - apply map_subseteq_spec. intros k x (id & sk & -> & Hx)%joinKeys_Some.
    rewrite lookup_fmap, filter_state_lookup in Hx. destruct (_ !! (id, sk)) as [row|] eqn:E; [|done].
    simpl in Hx. destruct (inPartitions ids row); [|done]. rewrite joinKeys_lookup; [by rewrite lookup_fmap, E|done|].
    apply (Hb (id, sk) (StateRow.state row)). by rewrite lookup_fmap, E.
  - intros p k Hp Hh. rewrite !lookup_fmap, filter_state_lookup.
    destruct (_ !! k) as [row|]; simpl in *; [|done]. by rewrite (inPartitions_elem ids (int16 p)) by auto.
  - intros p k Hp Hh. destruct (cut "|"%char k) as [[id sk] []] eqn:Ecut.
    + apply cut_found in Ecut as [Hid ->]. change (id +:+ String "|" "" +:+ sk) with (DefinitionStateKey id sk) in *.
      rewrite !joinKeys_lookup, !lookup_fmap, filter_state_lookup by done.
      rewrite definitionRow_key in Hh by done.
      destruct (_ !! (id, sk)) as [row|]; simpl in *; [|done]. by rewrite (inPartitions_elem ids (int16 p)) by auto.
    + by rewrite !(joinKeys_nobar _ _ _ _ Ecut).
Qed.

(** ** The statements keep the tables in order *)

(** A statement that touches neither of the two tables. *)
Lemma kept_frame d d' :
  alert_rule_state d' = alert_rule_state d ->
  alert_definition_runtime_state d' = alert_definition_runtime_state d -> kept d -> kept d'.
Proof. intros H1 H2 [? ?]. split; [congruence|by rewrite H2]. Qed.

Ltac frame :=
  let t := fresh "t" in let Ht := fresh in
  intros ? t Ht; refine (kept_frame t _ _ _ Ht); cbv beta;
  repeat match goal with |- context [match ?x with _ => _ end] => destruct x; cbn [snd] end; reflexivity.

Lemma keeps_insertInbox l : keepsStatement kept (insertInbox l).
Proof. unfold insertInbox. frame. Qed.
Lemma keeps_insertEvents l : keepsStatement kept (insertEvents l).
Proof. unfold insertEvents. frame. Qed.
Lemma keeps_insertAlerts l : keepsStatement kept (insertAlerts l).
Proof. intros srv d Hd. unfold insertAlerts. case_goal; [done|by apply keeps_insertEvents]. Qed.
Lemma keeps_insertOutbox l : keepsStatement kept (insertOutbox l).
Proof. unfold insertOutbox. frame. Qed.
Lemma keeps_upsertSeries p m : keepsStatement kept (upsertSeries p m).
Proof. unfold upsertSeries. frame. Qed.
Lemma keeps_upsertDefinition d rule : keepsStatement kept (upsertDefinition d rule).
Proof. unfold upsertDefinition. frame. Qed.
Lemma keeps_claimOutbox limit : keepsStatement kept (claimOutbox limit).
Proof. unfold claimOutbox, limited. frame. Qed.
Lemma keeps_updateOutbox id f : keepsStatement kept (updateOutbox id f).
Proof. unfold updateOutbox. frame. Qed.
Lemma keeps_deleteEvents retention n : keepsStatement kept (deleteEvents retention n).
Proof. unfold deleteEvents, limited. frame. Qed.
Lemma keeps_deleteInbox p c n : keepsStatement kept (deleteInbox p c n).
Proof. unfold deleteInbox, limited. frame. Qed.

Lemma keeps_deleteStates keys : keepsStatement kept (deleteStates keys).
Proof.
  intros srv d [Hr Hk]. split; [done|]. intros k x Hx. apply map_lookup_filter_Some in Hx as [Hx _].
  by apply (Hk _ _ Hx).
Qed.

Lemma keeps_upsertDefinitionStates p m : keepsStatement kept (upsertDefinitionStates p m).
Proof.
  intros srv d [Hr Hk]. unfold upsertDefinitionStates. case_goal; [done|].
  destruct (forallb (fun kv => isUUID _) _) eqn:E1; simpl; [|done]. case_goal; [done|]. split; [done|].
  intros k x [Hx|[_ Hx]]%lookup_union_Some_raw; [|by apply (Hk _ _ Hx)].
  rewrite lookup_fmap in Hx. destruct (m !! k) as [y|] eqn:E; [|done].
  rewrite forallb_forall in E1. apply elem_of_map_to_list, list_elem_of_In in E. exact (E1 _ E).
Qed.

#[export] Hint Resolve keeps_insertInbox keeps_insertAlerts keeps_insertOutbox keeps_upsertSeries
  keeps_upsertDefinition keeps_claimOutbox keeps_updateOutbox keeps_deleteEvents keeps_deleteInbox
  keeps_deleteStates keeps_upsertDefinitionStates : alerts.
#[export] Hint Resolve keeps_exec : alerts.

Lemma keeps_unlessEmpty {A} n (c : Session A) : keeps kept c -> keeps kept (unlessEmpty n c).
Proof. intros Hc. unfold unlessEmpty. case_goal; [auto with alerts|]. apply keeps_bind; auto with alerts. Qed.

Lemma keeps_CommitRuntimeBatch b : keeps kept (CommitRuntimeBatch b).
Proof.
  apply keeps_transaction; [by intros d d' [? ?] _|].
  apply keeps_bind; [|intros _; apply keeps_bind; [|intros _; apply keeps_bind]].
  - apply keeps_unlessEmpty. case_goal; auto with alerts.
  - apply keeps_unlessEmpty. case_goal; auto with alerts.
  - apply keeps_bind; [apply keeps_unlessEmpty; auto with alerts|]. intros _. case_goal; [|auto with alerts].
    apply keeps_unlessEmpty. case_goal; auto with alerts.
  - intros _. apply keeps_bind; [|auto with alerts]. unfold commitAlerts.
    repeat case_goal; auto with alerts. apply keeps_bind; [auto with alerts|]. intros out.
    apply keeps_bind; auto with alerts.
Qed.

Lemma keeps_CreateDefinition d : keeps kept (CreateDefinition d).
Proof. unfold CreateDefinition. case_goal; auto with alerts. Qed.

Lemma keeps_SetEnabled id enabled t : keeps kept (SetEnabled id enabled t).
Proof. apply keeps_exec. frame. Qed.

Lemma keeps_ArchiveDefinition id t : keeps kept (ArchiveDefinition id t).
Proof. apply keeps_bind; [apply keeps_exec; frame|]. intros n. case_goal; auto with alerts. Qed.

Lemma keeps_Maintain policy : keeps kept (Maintain policy).
Proof.
  apply keeps_bind; [|intros n; apply keeps_bind; auto with alerts]; case_goal; auto with alerts.
Qed.

(** ** A deployment *)

(** A database in order behind a server that loses no answer. *)
Record Deployment := {
  pg : Postgres;
  pg_reliable : reliable pg.(server);
  pg_kept : kept pg.(db) }.

Program Definition call {A} (c : Session A) (Hc : keeps kept c) (r : Deployment) : Res StoreError A * Deployment :=
  ((run c r.(pg)).1, {| pg := (run c r.(pg)).2 |}).
Next Obligation.
  intros A c Hc r. unfold run. destruct (c _ _) as [res [n d]]. exact r.(pg_reliable).
Qed.
Next Obligation.
  intros A c Hc r. unfold run. pose proof (Hc r.(pg).(server) 0 r.(pg).(db) r.(pg_kept)) as H.
  by destruct (c _ _) as [res [n d]].
Qed.

Definition errorOf {A} (res : Res StoreError A) : option StoreError :=
  match res with Err e => Some e | _ => None end.

#[export] Instance postgres_repository : Repository Deployment := {
  ListDefinitions _ r := (run Postgres.ListDefinitions r.(pg)).1;
  LoadRuntimeStates ps r := (run (Postgres.LoadRuntimeStates ps) r.(pg)).1;
  CommitRuntimeBatch b := call (Postgres.CommitRuntimeBatch b) (keeps_CommitRuntimeBatch b) }.

Lemma keeps_ClaimPending limit : keeps kept (ClaimPending limit).
Proof. apply keeps_exec, keeps_claimOutbox. Qed.
Lemma keeps_mark id f : keeps kept (exec (updateOutbox id f)).
Proof. apply keeps_exec, keeps_updateOutbox. Qed.

#[export] Instance postgres_control : ControlRepository Deployment := {
  StoreCreateDefinition d := call (Postgres.CreateDefinition d) (keeps_CreateDefinition d);
  StoreSetEnabled _ id enabled t := call (Postgres.SetEnabled id enabled t) (keeps_SetEnabled id enabled t);
  StoreArchiveDefinition _ id t r :=
    let '(res, r') := call (Postgres.ArchiveDefinition id t) (keeps_ArchiveDefinition id t) r in (errorOf res, r');
  StoreListAlerts after limit r := (run (Postgres.ListAlerts after limit) r.(pg)).1;
  StoreClaimPending _ limit := call (Postgres.ClaimPending limit) (keeps_ClaimPending limit);
  StoreMarkPublished _ id r :=
    let '(res, r') := call (Postgres.MarkPublished id) (keeps_mark id publishRow) r in (errorOf res, r');
  StoreMarkPublishFailed _ id message r :=
    let '(res, r') := call (Postgres.MarkPublishFailed id message) (keeps_mark id (failRow message)) r in
    (errorOf res, r');
  StoreMaintain _ policy := call (Postgres.Maintain policy) (keeps_Maintain policy);
  StoreOperationalStats _ r := (run Postgres.OperationalStats r.(pg)).1;
  StorePing r := errorOf (run Postgres.Ping r.(pg)).1 }.

Lemma call_inv {A} (c : Session A) Hc r res r' :
  call c Hc r = (res, r') -> exists n, c r.(pg).(server) (0, r.(pg).(db)) = (res, (n, r'.(pg).(db))).
Proof.
  intros [= <- <-]. simpl. unfold run. destruct (c _ _) as [res [n d]]. by exists n.
Qed.

Lemma run_inv {A} (c : Session A) p res :
  (run c p).1 = res -> exists s, c p.(server) (0, p.(db)) = (res, s).
Proof. unfold run. destruct (c _ _) as [res' [n d]]. intros <-. eauto. Qed.

#[export] Program Instance postgres_laws : RepositoryLaws Deployment := {
  runtimeOf r := checkpoint r.(pg).(db);
  home r p k := homeRow p (alert_series_runtime_state r.(pg).(db) !! k);
  homeDefinition r p k := homeRow p (definitionRow r.(pg).(db) k) }.
Next Obligation.
  intros b r alerts r' (n & H)%call_inv. apply CommitRuntimeBatch_Ok in H as [n1 (_ & l & states & dstates & Hc & _)%commitBody_Ok].
  by eapply committed_checkpoint, Hc; apply pg_kept.
Qed.
Next Obligation.
  intros b r e r' (n & H)%call_inv. apply CommitRuntimeBatch_Err in H as [d1 ->]; [|apply pg_reliable]. done.
Qed.
Next Obligation.
  intros b r. simpl. unfold run. pose proof (CommitRuntimeBatch_noPanic b r.(pg).(server) (0, r.(pg).(db))) as H.
  by destruct (Postgres.CommitRuntimeBatch b _ _) as [res [n d]].
Qed.
Next Obligation.
  intros b r alerts r' (n & H)%call_inv.
  apply CommitRuntimeBatch_Ok in H as [n0 (_ & l & states & dstates & _ & n1 & d1 & n2 & Ha & _)%commitBody_Ok].
  apply commitAlerts_Ok in Ha as [(Hb & -> & _)|(_ & out & d2 & _ & _ & -> & _)].
  - exists []. rewrite Hb. split; constructor.
  - exists (RuntimeBatch.Alerts b). split; [done|]. unfold withCursors.
    apply Forall2_fmap_l, Forall_Forall2_diag, Forall_forall. done.
Qed.
Next Obligation.
  intros b r alerts r' (n & H)%call_inv. pose proof (pg_kept r) as [_ Hk].
  apply CommitRuntimeBatch_Ok in H as [n1 (_ & l & states & dstates & [_ Hs Hl Hd Hi Hu _ _ _ Es Ed _] & _)%commitBody_Ok].
  assert (forall A (st : A), isInt2 b.(RuntimeBatch.PartitionID) = true ->
    homeRow b.(RuntimeBatch.PartitionID) (Some (StateRow.mk (Some b.(RuntimeBatch.PartitionID)) st))) as Hnew.
  { intros A st H2. unfold homeRow, inPartitions. simpl. rewrite int16_id by done.
    apply bool_decide_eq_true. set_solver. }
  cbv beta. repeat split.
  - intros k Hsome%(toJsonMap_keys _ _ _ k Hs). destruct Hsome as [st Hst].
    rewrite Es, (lookup_union_Some_l _ _ _ (StateRow.mk (Some b.(RuntimeBatch.PartitionID)) st))
      by (by rewrite lookup_fmap, Hst).
    apply Hnew, Hi. left. intros ->. by rewrite lookup_empty in Hst.
  - intros p k Hh Hnone. rewrite Es, lookup_union, lookup_fmap, (toJsonMap_Some _ _ _ Hs k), Hnone. simpl.
    by rewrite (left_id_L None _).
  - intros k Hsome. unfold definitionRow.
    destruct (cutKey (k, ())) as [[[id sk] []]|] eqn:Ecut; simpl; [|done].
    unfold cutKey in Ecut. simpl in Ecut. destruct (cut _ k) as [[b1 a1] []] eqn:E; [|done]. simplify_eq.
    apply cut_found in E as [Hid ->]. change (id +:+ String "|" "" +:+ sk) with (DefinitionStateKey id sk) in *.
    rewrite <- (mapM_cutKey_lookup _ _ _ _ Hl Hid) in Hsome. apply (toJsonMap_keys _ _ _ (id, sk) Hd) in Hsome as [st Hst].
    rewrite Ed, (lookup_union_Some_l _ _ _ (StateRow.mk (Some b.(RuntimeBatch.PartitionID)) st))
      by (by rewrite lookup_fmap, Hst).
    apply Hnew, Hi. right. intros ->. by rewrite lookup_empty in Hst.
  - intros p k Hh Hnone. unfold definitionRow in *.
    destruct (cutKey (k, ())) as [[[id sk] []]|] eqn:Ecut; simpl in *; [|done].
    unfold cutKey in Ecut. simpl in Ecut. destruct (cut _ k) as [[b1 a1] []] eqn:E; [|done]. simplify_eq.
    apply cut_found in E as [Hid ->]. change (id +:+ String "|" "" +:+ sk) with (DefinitionStateKey id sk) in *.
    rewrite Ed, lookup_union, lookup_fmap, (toJsonMap_Some _ _ _ Hd (id, sk)),
      (mapM_cutKey_lookup _ _ _ _ Hl Hid), Hnone. simpl. rewrite (left_id_L None _), filter_drops_key.
    by case_decide.
Qed.
Next Obligation.
  intros ps r s (s' & H)%run_inv. by apply load_checkpoint in H; [|apply pg_kept].
Qed.
