(* ===== verification/PostgresInvariant.v ===== *)
(** * The tables of PostgreSQL stay in order

    What holds of the tables after any calls on any servers, failed or not:
    identifiers, cursors and (definition, source event) pairs are unique,
    cursors grow in the order of insertion, references lead to rows, every
    recorded alert is queued in the outbox and nothing else is, stored
    definitions satisfy the constraints of their columns. *)

From stdpp Require Import base gmap strings list numbers sorting.
From Stdlib Require Import Ascii.
From S2P Require Import Prelude GoFloat GoBase GoTime Model Json Rules Store StoreEvaluate Memory Fixtures.
From S2P Require Import Tables Postgres PostgresProps.
Import Database Postgres.
Open Scope session_scope.

(** ** The invariant *)

(** Cursors that grow along a list, up to the last value of a sequence. *)
Definition growing (seq : Z) (cursors : list Z) : Prop :=
  StronglySorted Z.lt cursors /\ Forall (fun c => (c <= seq)%Z) cursors.

Lemma growing_mono seq seq' l : growing seq l -> (seq <= seq')%Z -> growing seq' l.
Proof. intros [H1 H2] Hle. split; [done|]. eapply Forall_impl; [exact H2|]. intros c Hc. simpl in *. lia. Qed.

Lemma growing_snoc seq l : growing seq l -> growing (seq + 1) (l ++ [seq + 1])%Z.
Proof.
  intros [H1 H2]. split.
  - induction H1 as [|x l Hs IH Hx]; simpl; [by repeat constructor|].
    apply Forall_cons in H2 as [? H2]. constructor; [by apply IH|].
    apply Forall_app. split; [done|]. constructor; [lia|constructor].
  - apply Forall_app. split; [|constructor; [lia|constructor]].
    eapply Forall_impl; [exact H2|]. intros c Hc. simpl in *. lia.
Qed.

Lemma growing_sublist seq l l' : l `sublist_of` l' -> growing seq l' -> growing seq l.
Proof.
  intros Hsub [H1 H2]. split; [|by eapply sublist_Forall]. clear H2.
  induction Hsub as [|x l l' Hsub IH|x l l' Hsub IH]; [done| |].
  - apply StronglySorted_inv in H1 as [H1 Hx]. constructor; [by apply IH|by eapply sublist_Forall].
  - apply StronglySorted_inv in H1 as [H1 _]. by apply IH.
Qed.

Definition eventKey (row : EventRow) : string * string :=
  (row.(EventRow.definition_id), row.(EventRow.source_event_id)).

Record eventsOk (defs : gmap string DefinitionRow) (inbox : gmap string InboxRow) (events : list EventRow)
  (seq : Z) : Prop := {
  events_ids : NoDup (EventRow.id <$> events);
  events_keys : NoDup (eventKey <$> events);
  events_cursors : growing seq (EventRow.cursor <$> events);
  events_definitions : Forall (fun row => is_Some (defs !! row.(EventRow.definition_id))) events;
  events_sources : Forall (fun row => is_Some (inbox !! row.(EventRow.source_event_id))) events }.

Record outboxOk (events : list EventRow) (outbox : list OutboxRow) (seq : Z) : Prop := {
  outbox_ids : NoDup (OutboxRow.alert_id <$> outbox);
  outbox_cursors : growing seq (OutboxRow.cursor <$> outbox);
  outbox_events : Forall (fun row => row.(OutboxRow.alert_id) ∈ EventRow.id <$> events) outbox }.

(** The constraints of the columns of [alert_definitions]. *)
Definition rowOk (id : string) (row : DefinitionRow) : Prop :=
  row.(DefinitionRow.id) = id /\ isUUID id = true /\
  (0 <= row.(DefinitionRow.cooldown_seconds) < 2 ^ 31)%Z /\
  row.(DefinitionRow.evaluation_mode) ∈ ["confirmed_close"; "intrabar"; "both"] /\
  row.(DefinitionRow.trigger_mode) ∈ ["on_occurrence"; "once_per_bar"; "every_match"].

Definition hashesOk (defs : gmap string DefinitionRow) : Prop :=
  forall id id' row row', defs !! id = Some row -> defs !! id' = Some row' ->
    row.(DefinitionRow.definition_hash) = row'.(DefinitionRow.definition_hash) -> id = id'.

Record coreOk (d : Database) : Prop := {
  core_events : eventsOk (alert_definitions d) (alert_inbox d) (alert_events d) (alert_events_cursor_seq d);
  core_outbox : outboxOk (alert_events d) (alert_event_outbox d) (alert_event_outbox_cursor_seq d);
  core_definitions : map_Forall rowOk (alert_definitions d);
  core_hashes : hashesOk (alert_definitions d);
  core_states : map_Forall (fun k _ => is_Some (alert_definitions d !! k.1)) (alert_definition_runtime_state d);
  core_leases : map_Forall (fun p _ => (0 <= p < 256)%Z) (alert_partition_leases d) }.

(** Every recorded alert is queued. *)
Definition complete (d : Database) : Prop :=
  forall id, id ∈ EventRow.id <$> alert_events d -> id ∈ OutboxRow.alert_id <$> alert_event_outbox d.

Definition tablesOk (d : Database) : Prop := coreOk d /\ complete d.

(** The sequences do not go back, which a rollback relies on. *)
Definition beyond (s o : Z) (d : Database) : Prop :=
  coreOk d /\ (s <= alert_events_cursor_seq d)%Z /\ (o <= alert_event_outbox_cursor_seq d)%Z.

Definition sound {A} (statement : Statement A) : Prop := forall s o, keepsStatement (beyond s o) statement.
Definition soundCall {A} (c : Session A) : Prop := forall s o, keeps (beyond s o) c.

(** ** Statements on definitions *)

Lemma definitions_grow defs defs' inbox events seq :
  (forall id, is_Some (defs !! id) -> is_Some (defs' !! id)) ->
  eventsOk defs inbox events seq -> eventsOk defs' inbox events seq.
Proof.
  intros Hsub []. split; try done. eapply Forall_impl; [exact events_definitions0|]. intros row H. by apply Hsub.
Qed.

Lemma core_with_definitions d defs' :
  (forall id, is_Some (alert_definitions d !! id) -> is_Some (defs' !! id)) ->
  map_Forall rowOk defs' -> hashesOk defs' -> coreOk d -> coreOk (with_definitions d defs').
Proof.
  intros Hsub Hrow Hhash []. split; simpl; try done; [by eapply definitions_grow|].
  intros k x Hx. apply Hsub. by apply (core_states0 _ _ Hx).
Qed.

Lemma insert_grows {A} (m : gmap string A) k x id : is_Some (m !! id) -> is_Some (<[k := x]> m !! id).
Proof. intros H. apply lookup_insert_is_Some. destruct (decide (k = id)); auto. Qed.

Lemma hashesOk_update defs id row row' :
  hashesOk defs -> defs !! id = Some row ->
  row'.(DefinitionRow.definition_hash) = row.(DefinitionRow.definition_hash) -> hashesOk (<[id := row']> defs).
Proof.
  intros H Hrow Heq.
  assert (forall i r, <[id := row']> defs !! i = Some r -> exists r0, defs !! i = Some r0 /\
            r0.(DefinitionRow.definition_hash) = r.(DefinitionRow.definition_hash)) as Hold.
  { intros i r. rewrite lookup_insert. case_decide; [intros [= <-]; subst; eauto|eauto]. }
  intros i j ri rj (ri0 & Hi & Ei)%Hold (rj0 & Hj & Ej)%Hold E. eapply H; [done..|congruence].
Qed.

Lemma core_update d id row row' :
  coreOk d -> alert_definitions d !! id = Some row -> rowOk id row' ->
  row'.(DefinitionRow.definition_hash) = row.(DefinitionRow.definition_hash) ->
  coreOk (with_definitions d (<[id := row']> (alert_definitions d))).
Proof.
  intros Hc Hrow Hok Hh. pose proof (core_definitions _ Hc) as Hd. apply core_with_definitions; [| | |done].
  - intros i. apply insert_grows.
  - by apply map_Forall_insert_2.
  - eapply hashesOk_update; [by apply core_hashes|done|done].
Qed.

(** The row with a hash, as a row of the table. *)
Lemma rowWithHash_Some hash defs row :
  rowWithHash hash defs = Some row ->
  row.(DefinitionRow.definition_hash) = hash /\ exists id, defs !! id = Some row.
Proof.
  unfold rowWithHash. intros H. apply head_Some_elem_of in H. apply list_elem_of_filter in H as [Hh Hin].
  split; [done|]. apply list_elem_of_fmap in Hin as ([id r] & -> & Hin). exists id. by apply elem_of_map_to_list.
Qed.

Lemma rowWithHash_None hash defs id row :
  rowWithHash hash defs = None -> defs !! id = Some row -> row.(DefinitionRow.definition_hash) <> hash.
Proof.
  unfold rowWithHash. intros H Hrow Hh.
  assert (row ∈ filter (fun row => row.(DefinitionRow.definition_hash) = hash) (snd <$> map_to_list defs)) as Hin.
  { apply list_elem_of_filter. split; [done|]. apply list_elem_of_fmap. exists (id, row).
    split; [done|]. by apply elem_of_map_to_list. }
  destruct (filter _ _); [set_solver|done].
Qed.

Lemma definitionRefused_None d :
  definitionRefused d = None ->
  isUUID d.(AlertDefinition.ID) = true /\ (0 <= d.(AlertDefinition.CooldownSeconds) < 2 ^ 31)%Z /\
  d.(AlertDefinition.EvaluationMode) ∈ ["confirmed_close"; "intrabar"; "both"] /\
  d.(AlertDefinition.TriggerMode) ∈ ["on_occurrence"; "once_per_bar"; "every_match"].
Proof.
  unfold definitionRefused. destruct (isUUID _); [|done]. simpl. case_goal; [done|]. case_goal; [done|].
  intros _. unfold isInt4 in *. bool_norm. split; [done|]. split; [lia|]. done.
Qed.

Lemma sound_upsertDefinition d rule : sound (upsertDefinition d rule).
Proof.
  intros s o srv t (Hc & ? & ?). unfold upsertDefinition.
  destruct (definitionRefused d) eqn:Er; [done|]. apply definitionRefused_None in Er as (Hu & Hcd & Hm & Ht).
  pose proof (core_definitions _ Hc) as Hd.
  destruct (rowWithHash _ _) as [row|] eqn:Eh.
  - split; [|done]. apply rowWithHash_Some in Eh as [Hh [id Hrow]].
    pose proof (Hd _ _ Hrow) as (Hid & ? & ? & ? & ?). simpl. rewrite Hid. by eapply core_update.
  - destruct (alert_definitions t !! _) as [row|] eqn:Erow; [done|]. split; [|done]. simpl.
    apply core_with_definitions; [intros i; apply insert_grows| | |done].
    + apply map_Forall_insert_2; [|done]. by unfold rowOk.
    + intros i j ri rj. rewrite !lookup_insert. intros Hi Hj E.
      destruct (decide (_ = i)) as [<-|], (decide (_ = j)) as [<-|]; [done| | |].
      * injection Hi as <-. destruct (rowWithHash_None _ _ _ _ Eh Hj (eq_sym E)).
      * injection Hj as <-. destruct (rowWithHash_None _ _ _ _ Eh Hi E).
      * by eapply (core_hashes _ Hc i j).
Qed.

Lemma unarchived_Some id t row :
  unarchived id t = inr (Some row) ->
  alert_definitions t !! id = Some row /\ row.(DefinitionRow.archived_at) = None.
Proof.
  unfold unarchived. destruct (isUUID id); simpl; [|done].
  destruct (_ !! id) as [row'|]; simpl; [|done]. case_bool_decide; [|done]. by intros [= ->].
Qed.

Lemma core_updateRow d id row enabled u a e :
  coreOk d -> alert_definitions d !! id = Some row ->
  coreOk (with_definitions d (<[id := updateRow row enabled u a e]> (alert_definitions d))).
Proof.
  intros Hc Hrow. pose proof (core_definitions _ Hc _ _ Hrow) as (? & ? & ? & ? & ?). by eapply core_update.
Qed.

Lemma sound_SetEnabled id enabled t : soundCall (SetEnabled id enabled t).
Proof.
  intros s o. apply keeps_exec. intros srv d (Hc & ? & ?).
  destruct (unarchived id d) as [m|[row|]] eqn:E; [done| |done].
  apply unarchived_Some in E as [E _]. split; [|done]. by apply core_updateRow.
Qed.

Lemma sound_ArchiveDefinition id t : soundCall (ArchiveDefinition id t).
Proof.
  intros s o. apply keeps_bind; [|intros n; case_goal; auto with alerts].
  apply keeps_exec. intros srv d (Hc & ? & ?).
  destruct (unarchived id d) as [m|[row|]] eqn:E; [done| |done].
  apply unarchived_Some in E as [E _]. split; [|done]. by apply core_updateRow.
Qed.

(** ** Statements on observations, events and the outbox *)

Lemma insertInbox_fold now l : forall rows n,
  let rows' := (foldl (insertInboxRow now) (rows, n) l).1 in
  rows ⊆ rows' /\ (forall o, o ∈ l -> is_Some (rows' !! o.(Observation.SourceEventID))).
Proof.
  induction l as [|o l IH]; intros rows n; simpl; [split; [done|set_solver]|].
  destruct (rows !! Observation.SourceEventID o) as [row|] eqn:E.
  - destruct (IH rows n) as [Hsub Hin]. split; [done|]. intros o' [->|Ho']%elem_of_cons; [|by apply Hin].
    exists row. by eapply lookup_weaken.
  - destruct (IH (<[Observation.SourceEventID o := InboxRow.mk o now]> rows) (n + 1)%Z) as [Hsub Hin]. split.
    + etrans; [|exact Hsub]. by apply insert_subseteq.
    + intros o' [->|Ho']%elem_of_cons; [|by apply Hin]. eexists. eapply lookup_weaken; [|exact Hsub].
      by apply lookup_insert_eq.
Qed.

Lemma insertInbox_eq l srv d :
  insertInbox l srv d =
  (inr (foldl (insertInboxRow (sqlNow srv)) (alert_inbox d, 0%Z) l).2,
   with_inbox d (foldl (insertInboxRow (sqlNow srv)) (alert_inbox d, 0%Z) l).1).
Proof. unfold insertInbox. by destruct (foldl _ _ _). Qed.

Lemma core_with_inbox d inbox :
  Forall (fun row => is_Some (inbox !! row.(EventRow.source_event_id))) (alert_events d) ->
  coreOk d -> coreOk (with_inbox d inbox).
Proof. intros Hin Hc. split; simpl; try apply Hc. destruct (core_events _ Hc). by split. Qed.

Lemma sound_insertInbox l : sound (insertInbox l).
Proof.
  intros s o srv d (Hc & ? & ?). rewrite insertInbox_eq. split; [|done]. simpl.
  apply core_with_inbox; [|done]. eapply Forall_impl; [apply (events_sources _ _ _ _ (core_events _ Hc))|].
  intros row [x Hx]. exists x. eapply lookup_weaken; [exact Hx|]. apply insertInbox_fold.
Qed.

(** What an insertion of events keeps of the rows and the sequence. *)
Definition rowsOk (rows : list EventRow) (seq : Z) : Prop :=
  NoDup (EventRow.id <$> rows) /\ NoDup (eventKey <$> rows) /\ growing seq (EventRow.cursor <$> rows).

Definition newRow (e : NewEvent) (cursor : Z) : EventRow :=
  EventRow.mk e.(NewEvent.id) cursor e.(NewEvent.definition_id) e.(NewEvent.source_event_id)
    e.(NewEvent.series_key) e.(NewEvent.triggered_at) e.(NewEvent.fact).

Lemma eventWith_Some def src rows row :
  eventWith def src rows = Some row -> row ∈ rows /\ eventKey row = (def, src).
Proof.
  unfold eventWith. intros H%head_Some_elem_of. apply list_elem_of_filter in H as [[<- <-] Hin]. done.
Qed.

Lemma eventWith_None def src rows : eventWith def src rows = None -> (def, src) ∉ eventKey <$> rows.
Proof.
  unfold eventWith. intros H Hin. apply list_elem_of_fmap in Hin as (row & [= -> ->] & Hin).
  assert (row ∈ filter (fun r => EventRow.definition_id r = EventRow.definition_id row /\
                                 EventRow.source_event_id r = EventRow.source_event_id row) rows) as Hf
    by (by apply list_elem_of_filter).
  destruct (filter _ rows); [set_solver|done].
Qed.

(** One row: found again, or added. *)
Lemma insertEvent_step rows seq out e rows' seq' out' :
  insertEvent (inl (rows, seq, out)) e = inl (rows', seq', out') -> rowsOk rows seq ->
  rowsOk rows' seq' /\ seq' = (seq + 1)%Z /\
  ((rows' = rows /\ exists row, row ∈ rows /\ eventKey row = (e.(NewEvent.definition_id), e.(NewEvent.source_event_id))
      /\ out' = out ++ [(row.(EventRow.id), row.(EventRow.cursor))]) \/
   (rows' = rows ++ [newRow e (seq + 1)] /\ out' = out ++ [(e.(NewEvent.id), (seq + 1)%Z)])).
Proof.
  intros H (H1 & H2 & H3). unfold insertEvent in H.
  destruct (negb (isUUID _ && isUUID _)); [done|]. destruct (_ || _ || _); [done|].
  destruct (eventWith _ _ rows) as [row|] eqn:E.
  - case_bool_decide; [done|]. injection H as <- <- <-. apply eventWith_Some in E as [Hin Hk].
    split; [|split; [done|left; eauto]]. split; [done|]. split; [done|]. eapply growing_mono; [done|lia].
  - case_bool_decide as Hid; [done|]. injection H as <- <- <-. apply eventWith_None in E.
    split; [|split; [done|by right]]. unfold rowsOk. rewrite !fmap_app. simpl. split; [|split].
    + apply NoDup_app. split; [done|]. split; [|apply NoDup_singleton]. set_solver.
    + apply NoDup_app. split; [done|]. split; [|apply NoDup_singleton].
      intros k Hk ->%list_elem_of_singleton. by apply E.
    + by apply growing_snoc.
Qed.

Lemma insertEvent_failed l m : foldl insertEvent (inr m) l = inr m.
Proof. by induction l. Qed.

(** The answer of the statement: for each event the identifier and the cursor
    of the row it found or made. *)
Lemma insertEvent_fold l : forall rows seq out rows' seq' out',
  foldl insertEvent (inl (rows, seq, out)) l = inl (rows', seq', out') -> rowsOk rows seq ->
  rowsOk rows' seq' /\ (seq <= seq')%Z /\
  (exists new, rows' = rows ++ new /\ Forall (fun row => exists e, e ∈ l /\ row.(EventRow.id) = e.(NewEvent.id)) new) /\
  (exists more, out' = out ++ more /\
     Forall2 (fun e x => exists row, row ∈ rows' /\
        eventKey row = (e.(NewEvent.definition_id), e.(NewEvent.source_event_id)) /\
        x = (row.(EventRow.id), row.(EventRow.cursor))) l more).
Proof.
  induction l as [|e l IH]; intros rows seq out rows' seq' out'; cbn [foldl].
  { intros [= <- <- <-] H. split; [done|]. split; [done|]. split; [exists []|exists []]; rewrite app_nil_r; done. }
  intros H Hok. destruct (insertEvent (inl (rows, seq, out)) e) as [[[rows1 seq1] out1]|m] eqn:E.
  2:{ by rewrite insertEvent_failed in H. }
  apply insertEvent_step in E as (Hok1 & -> & E); [|done].
  destruct (IH _ _ _ _ _ _ H Hok1) as (Hok' & Hle & (new & -> & Hnew) & (more & -> & Hmore)).
  split; [done|]. split; [lia|].
  assert (Forall (fun row => exists e0, e0 ∈ e :: l /\ row.(EventRow.id) = e0.(NewEvent.id)) new) as Hnew'.
  { eapply Forall_impl; [exact Hnew|]. intros row (e0 & ? & ?). exists e0. split; [by right|done]. }
  destruct E as [(-> & row & Hin & Hk & ->)|[-> ->]].
  - split; [by exists new|]. exists ((row.(EventRow.id), row.(EventRow.cursor)) :: more).
    split; [by rewrite <- app_assoc|]. constructor; [|done]. exists row. split; [set_solver|done].
  - split.
    + exists (newRow e (seq + 1) :: new). split; [by rewrite <- app_assoc|]. constructor; [|done].
      exists e. split; [by left|done].
    + exists ((e.(NewEvent.id), (seq + 1)%Z) :: more). split; [by rewrite <- app_assoc|]. constructor; [|done].
      exists (newRow e (seq + 1)). split; [set_solver|done].
Qed.

Lemma insertEvent_fold_seq l : forall rows seq out,
  match foldl insertEvent (inl (rows, seq, out)) l with
  | inl (_, seq', _) | inr (_, seq') => (seq <= seq')%Z
  end.
Proof.
  induction l as [|e l IH]; intros rows seq out; cbn [foldl]; [lia|].
  destruct (insertEvent (inl (rows, seq, out)) e) as [[[rows1 seq1] out1]|[m seq1]] eqn:E.
  - specialize (IH rows1 seq1 out1). assert (seq <= seq1)%Z.
    { unfold insertEvent in E. repeat case_hyp E; simplify_eq; lia. }
    destruct (foldl _ _ _) as [[[? ?] ?]|[? ?]]; lia.
  - rewrite insertEvent_failed. unfold insertEvent in E. repeat case_hyp E; simplify_eq; lia.
Qed.

Lemma core_with_seq d seq :
  (alert_events_cursor_seq d <= seq)%Z -> coreOk d -> coreOk (with_events d (alert_events d) seq).
Proof.
  intros Hle Hc. split; simpl; try apply Hc. destruct (core_events _ Hc). split; try done. by eapply growing_mono.
Qed.

Lemma sound_insertEvents l : sound (insertEvents l).
Proof.
  intros s o srv d (Hc & Hs & Ho). unfold insertEvents.
  pose proof (insertEvent_fold_seq l (alert_events d) (alert_events_cursor_seq d) []) as Hseq.
  destruct (foldl _ _ _) as [[[rows seq] out]|[m seq]] eqn:E.
  2:{ split; [by apply core_with_seq|]. simpl. lia. }
  destruct (core_events _ Hc) as [Hi Hk Hcu Hd Hsrc].
  apply insertEvent_fold in E as ((Hi' & Hk' & Hcu') & _ & (new & -> & _) & _); [|done].
  destruct (forallb _ _) eqn:Ef; simpl.
  2:{ split; [by apply core_with_seq|]. simpl. lia. }
  split; [|simpl; lia]. rewrite drop_app_length, forallb_forall in Ef.
  assert (Forall (fun row => is_Some (alert_definitions d !! row.(EventRow.definition_id)) /\
                             is_Some (alert_inbox d !! row.(EventRow.source_event_id))) new) as Hnew.
  { apply Forall_forall. intros row Hrow%list_elem_of_In%Ef. unfold eventKeysOk in Hrow.
    apply andb_true_iff in Hrow as [H1%bool_decide_eq_true_1 H2%bool_decide_eq_true_1]. done. }
  rewrite Forall_and in Hnew. destruct Hnew as [Hn1 Hn2]. destruct (core_outbox _ Hc) as [O1 O2 O3].
  split; simpl; try apply Hc.
  - split; [done|done|done|by apply Forall_app|by apply Forall_app].
  - split; [done|done|]. eapply Forall_impl; [exact O3|]. intros row Hrow. rewrite fmap_app. set_solver.
Qed.

Lemma sound_insertAlerts l : sound (insertAlerts l).
Proof. intros s o srv d Hd. unfold insertAlerts. case_goal; [done|by apply sound_insertEvents]. Qed.

Lemma insertOutbox_fold now l : forall rows seq rows' seq',
  foldl (insertOutboxRow now) (rows, seq) l = (rows', seq') ->
  NoDup (OutboxRow.alert_id <$> rows) -> growing seq (OutboxRow.cursor <$> rows) ->
  NoDup (OutboxRow.alert_id <$> rows') /\ growing seq' (OutboxRow.cursor <$> rows') /\ (seq <= seq')%Z /\
  (exists new, rows' = rows ++ new) /\
  (forall a, a ∈ l -> a.(Alert.ID) ∈ OutboxRow.alert_id <$> rows').
Proof.
  induction l as [|a l IH]; intros rows seq rows' seq'; cbn [foldl].
  { intros [= <- <-] H1 H2. repeat split; try done; try apply H2; [exists []; by rewrite app_nil_r|set_solver]. }
  unfold insertOutboxRow at 2. case_bool_decide as Ha; intros H H1 H2.
  - destruct (IH _ _ _ _ H H1) as (? & ? & ? & [new ->] & Hin); [eapply growing_mono; [done|lia]|].
    split; [done|]. split; [done|]. split; [lia|]. split; [eauto|].
    intros a' [->|Ha']%elem_of_cons; [|by apply Hin]. rewrite fmap_app. set_solver.
  - destruct (IH _ _ _ _ H) as (? & ? & Hle & [new ->] & Hin).
    + rewrite fmap_app. apply NoDup_app. split; [done|]. split; [|apply NoDup_singleton]. set_solver.
    + rewrite fmap_app. by apply growing_snoc.
    + split; [done|]. split; [done|]. split; [clear -Hle; lia|]. rewrite <- app_assoc in *. split; [eauto|].
      intros a' [->|Ha']%elem_of_cons; [|by apply Hin]. rewrite !fmap_app. set_solver.
Qed.

Lemma core_with_outbox d rows seq :
  outboxOk (alert_events d) rows seq -> coreOk d -> coreOk (with_outbox d rows seq).
Proof. intros Ho Hc. split; simpl; try apply Hc. done. Qed.

Lemma sound_insertOutbox l : sound (insertOutbox l).
Proof.
  intros s o srv d (Hc & Hs & Ho). unfold insertOutbox. case_goal; [done|].
  destruct (foldl _ _ _) as [rows seq] eqn:E. destruct (core_outbox _ Hc) as [O1 O2 O3].
  apply insertOutbox_fold in E as (H1 & H2 & Hle & [new ->] & _); [|done|done].
  destruct (forallb _ (drop _ _)) eqn:Ef; simpl; (split; [|simpl; lia]); apply core_with_outbox; try done.
  - split; [done|done|]. apply Forall_app. split; [done|]. apply Forall_forall. intros row Hrow%list_elem_of_In.
    rewrite drop_app_length, forallb_forall in Ef. exact (bool_decide_eq_true_1 _ (Ef _ Hrow)).
  - split; [done| |done]. by eapply growing_mono.
Qed.

(** An update of outbox rows that leaves their keys. *)
Definition keepsKeys (f : OutboxRow -> OutboxRow) : Prop :=
  forall row, (f row).(OutboxRow.alert_id) = row.(OutboxRow.alert_id) /\
              (f row).(OutboxRow.cursor) = row.(OutboxRow.cursor).

Lemma outboxOk_map events rows seq f :
  keepsKeys f -> outboxOk events rows seq -> outboxOk events (f <$> rows) seq.
Proof.
  intros Hf [O1 O2 O3].
  assert (OutboxRow.alert_id <$> (f <$> rows) = OutboxRow.alert_id <$> rows) as E1
    by (rewrite <- list_fmap_compose; apply list_fmap_ext; intros; apply Hf).
  assert (OutboxRow.cursor <$> (f <$> rows) = OutboxRow.cursor <$> rows) as E2
    by (rewrite <- list_fmap_compose; apply list_fmap_ext; intros; apply Hf).
  split; [by rewrite E1|by rewrite E2|]. apply Forall_fmap. eapply Forall_impl; [exact O3|].
  intros row Hrow. simpl. by rewrite (proj1 (Hf row)).
Qed.

Lemma sound_updateOutbox id f : (forall now, keepsKeys (f now)) -> sound (updateOutbox id f).
Proof.
  intros Hf s o srv d (Hc & ? & ?). unfold updateOutbox. case_goal; [done|]. split; [|done].
  apply core_with_outbox; [|done]. apply outboxOk_map; [|by apply core_outbox].
  intros row. case_goal; [apply Hf|done].
Qed.

Lemma sound_claimOutbox limit : sound (claimOutbox limit).
Proof.
  intros s o srv d (Hc & ? & ?). unfold claimOutbox. destruct (limited _ _) as [m|chosen]; [done|]. split; [|done].
  apply core_with_outbox; [|done]. apply outboxOk_map; [|by apply core_outbox].
  intros row. by case_goal.
Qed.

(** ** Retention *)

Lemma sublist_filter_fmap {A B} (P : A -> Prop) `{!forall x, Decision (P x)} (f : A -> B) l :
  f <$> filter P l `sublist_of` f <$> l.
Proof.
  induction l as [|x l IH]; [done|]. rewrite filter_cons. case_decide; simpl; by constructor.
Qed.

Lemma sound_deleteEvents retention n : sound (deleteEvents retention n).
Proof.
  intros s o srv d (Hc & ? & ?). unfold deleteEvents. destruct (interval _); [|done].
  destruct (limited _ _) as [m|doomed]; [done|]. split; [|done].
  destruct (core_events _ Hc) as [Hi Hk Hcu Hd Hsrc], (core_outbox _ Hc) as [O1 O2 O3].
  split; simpl; try apply Hc; split.
  - eapply sublist_NoDup; [exact Hi|apply sublist_filter_fmap].
  - eapply sublist_NoDup; [exact Hk|apply sublist_filter_fmap].
  - eapply growing_sublist; [apply sublist_filter_fmap|done].
  - by apply Forall_filter.
  - by apply Forall_filter.
  - eapply sublist_NoDup; [exact O1|apply sublist_filter_fmap].
  - eapply growing_sublist; [apply sublist_filter_fmap|done].
  - apply Forall_forall. intros row [Hn Hrow]%list_elem_of_filter. rewrite Forall_forall in O3.
    specialize (O3 row Hrow). apply list_elem_of_fmap in O3 as (e & He & Hin).
    apply list_elem_of_fmap. exists e. split; [done|]. apply list_elem_of_filter. by rewrite <- He.
Qed.

Lemma sound_deleteInbox p c n : sound (deleteInbox p c n).
Proof.
  intros s o srv d (Hc & ? & ?). unfold deleteInbox. destruct (interval p) as [p'|], (interval c) as [c'|]; try done.
  destruct (limited _ _) as [m|doomed] eqn:El; [done|]. split; [|done]. simpl.
  apply core_with_inbox; [|done]. pose proof (events_sources _ _ _ _ (core_events _ Hc)) as Hsrc.
  rewrite Forall_forall in Hsrc |- *. intros row Hrow. destruct (Hsrc row Hrow) as [x Hx]. exists x.
  apply map_lookup_filter_Some. split; [done|]. simpl. intros Hin.
  unfold limited in El. case_hyp El; [done|]. injection El as <-.
  apply list_elem_of_fmap in Hin as (kv & Hkv & Hin). apply elem_of_take in Hin as (i & Hin%list_elem_of_lookup_2 & _).
  rewrite merge_sort_Permutation in Hin. apply list_elem_of_filter in Hin as [Hexp _].
  unfold expiredInbox in Hexp. apply andb_true_iff in Hexp as [Hexp _].
  apply negb_true_iff, bool_decide_eq_false in Hexp. apply Hexp. rewrite <- Hkv.
  apply list_elem_of_fmap. eauto.
Qed.

(** ** Checkpoints, states and leases *)

Lemma core_with_series d x : coreOk d -> coreOk (with_series d x).
Proof. intros Hc. split; simpl; apply Hc. Qed.
Lemma core_with_rule_state d x : coreOk d -> coreOk (with_rule_state d x).
Proof. intros Hc. split; simpl; apply Hc. Qed.
Lemma core_with_definition_states d x :
  map_Forall (fun k _ => is_Some (alert_definitions d !! k.1)) x -> coreOk d -> coreOk (with_definition_states d x).
Proof. intros Hx Hc. split; simpl; try apply Hc. done. Qed.
Lemma core_with_leases d x :
  map_Forall (fun p _ => (0 <= p < 256)%Z) x -> coreOk d -> coreOk (with_leases d x).
Proof. intros Hx Hc. split; simpl; try apply Hc. done. Qed.

Lemma sound_upsertSeries p m : sound (upsertSeries p m).
Proof.
  intros s o srv d (Hc & ? & ?). unfold upsertSeries. case_goal; [done|]. split; [|done].
  by apply core_with_series.
Qed.

Lemma sound_deleteStates keys : sound (deleteStates keys).
Proof.
  intros s o srv d (Hc & ? & ?). split; [|done]. apply core_with_definition_states; [|done].
  intros k x [Hx _]%map_lookup_filter_Some. by apply (core_states _ Hc _ _ Hx).
Qed.

Lemma sound_upsertDefinitionStates p m : sound (upsertDefinitionStates p m).
Proof.
  intros s o srv d (Hc & ? & ?). unfold upsertDefinitionStates. case_goal; [done|].
  destruct (negb (forallb (fun kv => isUUID _) _)); [done|].
  destruct (forallb (fun kv => bool_decide _) _) eqn:E; simpl; [|done]. split; [|done]. apply core_with_definition_states; [|done].
  intros k x [Hx|[_ Hx]]%lookup_union_Some_raw; [|by apply (core_states _ Hc _ _ Hx)].
  rewrite lookup_fmap in Hx. destruct (m !! k) as [y|] eqn:Ek; [|done].
  rewrite forallb_forall in E. apply elem_of_map_to_list, list_elem_of_In in Ek.
  exact (bool_decide_eq_true_1 _ (E _ Ek)).
Qed.

Lemma leaseRow_failed owner now ttl m l : foldl (leaseRow owner now ttl) (inr m) l = inr m.
Proof. by induction l. Qed.

Lemma leaseRow_range owner now ttl l : forall rows out rows' out',
  foldl (leaseRow owner now ttl) (inl (rows, out)) l = inl (rows', out') ->
  map_Forall (fun p _ => (0 <= p < 256)%Z) rows -> map_Forall (fun p _ => (0 <= p < 256)%Z) rows'.
Proof.
  induction l as [|p l IH]; intros rows out rows' out'; cbn [foldl]; [by intros [= <- _]|].
  intros H Hr. destruct (leaseRow owner now ttl (inl (rows, out)) p) as [[rows1 out1]|m] eqn:E.
  2:{ by rewrite leaseRow_failed in H. }
  apply (IH _ _ _ _ H). unfold leaseRow in E. repeat case_hyp E; simplify_eq; try done;
    apply map_Forall_insert_2; try done; bool_norm; lia.
Qed.

Lemma sound_acquireLeases owner ids ttl : sound (acquireLeases owner ids ttl).
Proof.
  intros s o srv d (Hc & ? & ?). unfold acquireLeases. destruct (interval ttl); [|done].
  destruct (foldl _ _ _) as [[rows out]|m] eqn:E; [|done]. split; [|done]. apply core_with_leases; [|done].
  eapply leaseRow_range; [exact E|]. apply (core_leases _ Hc).
Qed.

Lemma sound_renewLeases owner ids ttl : sound (renewLeases owner ids ttl).
Proof.
  intros s o srv d (Hc & ? & ?). unfold renewLeases. destruct (interval ttl); [|done]. split; [|done].
  apply core_with_leases; [|done]. intros p x Hx. rewrite map_lookup_imap in Hx.
  destruct (_ !! p) as [row|] eqn:E; [|done]. by apply (core_leases _ Hc _ _ E).
Qed.

#[export] Hint Resolve sound_upsertDefinition sound_insertInbox sound_insertEvents sound_insertAlerts
  sound_insertOutbox sound_claimOutbox sound_deleteEvents sound_deleteInbox sound_upsertSeries
  sound_deleteStates sound_upsertDefinitionStates sound_acquireLeases sound_renewLeases : alerts.

(** ** Calls *)

Lemma sound_ret {A} (a : A) : soundCall (ret a).
Proof. intros s o. apply keeps_ret. Qed.
Lemma sound_throw {A} e : soundCall (throw e : Session A).
Proof. intros s o. apply keeps_throw. Qed.
Lemma sound_exec {A} (statement : Statement A) : sound statement -> soundCall (exec statement).
Proof. intros H s o. by apply keeps_exec. Qed.
Lemma sound_bind {A B} (c : Session A) (f : A -> Session B) :
  soundCall c -> (forall a, soundCall (f a)) -> soundCall (bind c f).
Proof. intros Hc Hf s o. apply keeps_bind; [apply Hc|]. intros a. apply Hf. Qed.
Lemma sound_unlessEmpty {A} n (c : Session A) : soundCall c -> soundCall (unlessEmpty n c).
Proof.
  intros Hc. unfold unlessEmpty. case_goal; [apply sound_ret|]. apply sound_bind; [done|]. intros. apply sound_ret.
Qed.
#[export] Hint Resolve sound_ret sound_throw sound_exec sound_bind sound_unlessEmpty : alerts.

Lemma core_rollback d d' :
  coreOk d -> (alert_events_cursor_seq d <= alert_events_cursor_seq d')%Z ->
  (alert_event_outbox_cursor_seq d <= alert_event_outbox_cursor_seq d')%Z -> coreOk (rollback d d').
Proof.
  intros [[] [] ? ? ? ?] H1 H2. split; simpl; try done; split; simpl; try done; by eapply growing_mono.
Qed.

Lemma sound_transaction {A} (body : Session (A * bool)) : soundCall body -> soundCall (transaction body).
Proof.
  intros Hb s o srv n d (Hc & Hs & Ho).
  specialize (Hb (alert_events_cursor_seq d) (alert_event_outbox_cursor_seq d) srv (S n) d).
  assert (beyond (alert_events_cursor_seq d) (alert_event_outbox_cursor_seq d) (body srv (S n, d)).2.2)
    as (Hc' & Hs' & Ho') by (apply Hb; split; [done|lia]). clear Hb.
  unfold transaction, transactionOn. case_goal; [by case_goal|].
  destruct (body srv (S n, d)) as [[[a []]|e|] [n' d']]; simpl in *; repeat case_goal; simpl;
    (split; [first [done|by apply core_rollback]|simpl; lia]).
Qed.

Lemma sound_CommitRuntimeBatch b : soundCall (CommitRuntimeBatch b).
Proof.
  apply sound_transaction, sound_bind; [|intros _; apply sound_bind; [|intros _; apply sound_bind]].
  - apply sound_unlessEmpty. case_goal; auto with alerts.
  - apply sound_unlessEmpty. case_goal; auto with alerts.
  - apply sound_bind; [auto with alerts|]. intros _. case_goal; [|auto with alerts].
    apply sound_unlessEmpty. case_goal; auto with alerts.
  - intros _. apply sound_bind; [|auto with alerts]. unfold commitAlerts.
    repeat case_goal; auto 7 with alerts.
Qed.

Lemma sound_each {A S} (f : S -> A -> Session S) l : (forall s x, soundCall (f s x)) -> forall s, soundCall (each f s l).
Proof. intros Hf. induction l as [|x l IH]; intros s; simpl; auto with alerts. Qed.

Lemma sound_applyDefinition now o created d : soundCall (applyDefinition now o created d).
Proof.
  unfold applyDefinition. case_goal; [auto with alerts|]. apply sound_bind.
  - unfold lockState. apply sound_bind; [|intros _; apply sound_bind]; try intros _;
      apply sound_exec; intros s p srv t (Hc & ? & ?); (split; [|done]); try done.
    by apply core_with_rule_state.
  - intros st. destruct (apply d o st now) as [[[st' alert] []]|]; cbn [negb].
    + apply sound_bind.
      * apply sound_exec. intros s p srv t (Hc & ? & ?). unfold updateState. case_goal; [|done].
        split; [|done]. by apply core_with_rule_state.
      * intros _. case_goal; auto 7 with alerts.
    + apply sound_ret.
    + by intros s p srv n t Ht.
Qed.

Lemma sound_ApplyObservation now o : soundCall (ApplyObservation now o).
Proof.
  unfold ApplyObservation. case_goal; [|auto with alerts].
  apply sound_transaction, sound_bind; [auto with alerts|]. intros k. case_goal; [auto with alerts|].
  apply sound_bind; [apply sound_exec; by intros s p srv t Ht|]. intros ds.
  apply sound_bind; [|auto with alerts]. apply sound_each. intros. apply sound_applyDefinition.
Qed.

Lemma sound_Maintain policy : soundCall (Maintain policy).
Proof. unfold Maintain. apply sound_bind; [|intros k; apply sound_bind]; repeat case_goal; auto with alerts. Qed.

Lemma sound_AcquirePartitions owner ps ttl : soundCall (AcquirePartitions owner ps ttl).
Proof.
  unfold AcquirePartitions. case_goal; [auto with alerts|]. apply sound_transaction, sound_bind; [auto with alerts|].
  intros k. case_goal; auto with alerts.
Qed.

Lemma sound_ReleasePartitions owner : soundCall (ReleasePartitions owner).
Proof.
  apply sound_exec. intros s o srv d (Hc & ? & ?). split; [|done]. apply core_with_leases; [|done].
  intros p x [Hx _]%map_lookup_filter_Some. by apply (core_leases _ Hc _ _ Hx).
Qed.

(** ** Every alert is queued *)

Lemma complete_frame d d' :
  alert_events d' = alert_events d ->
  (forall id, id ∈ OutboxRow.alert_id <$> alert_event_outbox d -> id ∈ OutboxRow.alert_id <$> alert_event_outbox d') ->
  complete d -> complete d'.
Proof. intros He Ho Hc id Hid. rewrite He in Hid. by apply Ho, Hc. Qed.

(** Calls that keep it, on tables in order. *)
Definition completes {A} (c : Session A) : Prop :=
  forall srv n d, coreOk d -> complete d -> complete (c srv (n, d)).2.2.

Lemma completes_keeps {A} (c : Session A) : keeps complete c -> completes c.
Proof. intros H srv n d _ Hd. by apply H. Qed.

Lemma completes_transaction {A} (body : Session (A * bool)) :
  (forall srv n d a n' d', coreOk d -> complete d -> body srv (n, d) = (Ok (a, true), (n', d')) -> complete d') ->
  completes (transaction body).
Proof.
  intros Hb srv n d Hc Hd. specialize (Hb srv (S n) d). unfold transaction, transactionOn. case_goal; [by case_goal|].
  destruct (body srv (S n, d)) as [[[a []]|e|] [n' d']]; simpl in *; try done.
  repeat case_goal; simpl; try done; by eapply Hb.
Qed.

Lemma insertOutbox_Ok l srv d d' :
  insertOutbox l srv d = (inr (), d') -> NoDup (OutboxRow.alert_id <$> alert_event_outbox d) ->
  growing (alert_event_outbox_cursor_seq d) (OutboxRow.cursor <$> alert_event_outbox d) ->
  alert_events d' = alert_events d /\ exists new, alert_event_outbox d' = alert_event_outbox d ++ new /\
  (forall a, a ∈ l -> a.(Alert.ID) ∈ OutboxRow.alert_id <$> alert_event_outbox d').
Proof.
  unfold insertOutbox. case_goal; [done|]. destruct (foldl _ _ _) as [rows seq] eqn:E. intros H H1 H2.
  apply insertOutbox_fold in E as (_ & _ & _ & [new ->] & Hin); [|done|done].
  destruct (forallb _ (drop _ _)); simplify_eq/=. eauto.
Qed.

(** What the inserted events are, and that their queue is the outbox. *)
Lemma insertAlerts_Ok l srv d out d' :
  insertAlerts l srv d = (inr out, d') -> rowsOk (alert_events d) (alert_events_cursor_seq d) ->
  alert_event_outbox d' = alert_event_outbox d /\
  alert_event_outbox_cursor_seq d' = alert_event_outbox_cursor_seq d /\
  rowsOk (alert_events d') (alert_events_cursor_seq d') /\
  (exists new, alert_events d' = alert_events d ++ new /\
     Forall (fun row => exists a, a ∈ l /\ row.(EventRow.id) = a.(Alert.ID)) new) /\
  Forall2 (fun a x => exists row, row ∈ alert_events d' /\
     eventKey row = (a.(Alert.DefinitionID), a.(Alert.SourceEventID)) /\
     x = (row.(EventRow.id), row.(EventRow.cursor))) l out.
Proof.
  unfold insertAlerts. case_goal; [done|]. unfold insertEvents.
  destruct (foldl _ _ _) as [[[rows seq] out0]|[m seq]] eqn:E; [|done].
  destruct (forallb _ (drop _ _)); [|done]. intros [= <- <-] Hok.
  apply insertEvent_fold in E as (Hok' & _ & (new & -> & Hnew) & (more & -> & Hmore)); [|done]. simpl.
  split; [done|]. split; [done|]. split; [done|]. split.
  - exists new. split; [done|]. eapply Forall_impl; [exact Hnew|].
    intros row (e & He & Hid). apply list_elem_of_fmap in He as (a & -> & Ha). eauto.
  - apply Forall2_fmap_l in Hmore. eapply Forall2_impl; [exact Hmore|]. intros a x (row & Hrow & Hk & Hx). eauto.
Qed.

Lemma withCursors_ids out l : Alert.ID <$> withCursors out l = Alert.ID <$> l.
Proof. unfold withCursors. rewrite <- list_fmap_compose. by apply list_fmap_ext. Qed.

Lemma completes_CommitRuntimeBatch b : completes (CommitRuntimeBatch b).
Proof.
  apply completes_transaction. intros srv n d created n' d' Hc Hd Hbody.
  apply commitBody_Ok in Hbody as (_ & l & states & dstates & _ & n1 & d1 & n2 & Ha & He & Ho & _ & _ & Hes & Hos).
  apply commitAlerts_Ok in Ha as [(_ & _ & ->)|(_ & out & d2 & _ & H1 & -> & H2)].
  { intros id. rewrite He, Ho. apply Hd. }
  destruct (core_events _ Hc) as [Hi Hk Hcu _ _], (core_outbox _ Hc) as [O1 O2 _].
  apply insertAlerts_Ok in H1 as (E1 & E2 & _ & (new & E3 & Hnew) & _); [|unfold rowsOk; by rewrite He, Hes].
  apply insertOutbox_Ok in H2 as (E4 & more & E5 & Hin); [|by rewrite E1, Ho|by rewrite E1, E2, Ho, Hos].
  intros id. rewrite E4, E3, He, fmap_app, elem_of_app. intros [Hid|Hid].
  - rewrite E5, E1, Ho, fmap_app, elem_of_app. left. by apply Hd.
  - apply list_elem_of_fmap in Hid as (row & -> & Hrow). rewrite Forall_forall in Hnew.
    destruct (Hnew row Hrow) as (a & Ha & ->).
    assert (a.(Alert.ID) ∈ Alert.ID <$> withCursors out (RuntimeBatch.Alerts b)) as Hw
      by (rewrite withCursors_ids; apply list_elem_of_fmap; eauto).
    apply list_elem_of_fmap in Hw as (a' & -> & Ha'). by apply Hin.
Qed.

(** The first generation never records an alert: the row it proposes has no
    [evaluated_at]. *)
Lemma insertEvents_legacy d key alert srv t :
  exists message, (insertEvents [legacyEvent d key alert] srv t).1 = inl message /\
    alert_events (insertEvents [legacyEvent d key alert] srv t).2 = alert_events t /\
    alert_event_outbox (insertEvents [legacyEvent d key alert] srv t).2 = alert_event_outbox t.
Proof.
  unfold insertEvents. cbn [foldl]. unfold insertEvent.
  destruct (negb (isUUID _ && isUUID _)); [eauto|].
  rewrite (orb_true_r (_ || _)). eauto.
Qed.

Lemma keeps_legacy d key alert : keeps complete (exec (insertEvents [legacyEvent d key alert])).
Proof.
  apply keeps_exec. intros srv t Ht. destruct (insertEvents_legacy d key alert srv t) as (m & _ & He & Ho).
  eapply complete_frame; [exact He| |exact Ht]. intros id. by rewrite Ho.
Qed.

(** A statement that touches neither events nor outbox. *)
Lemma keeps_elsewhere {A} (st : Statement A) :
  (forall srv d, alert_events (st srv d).2 = alert_events d /\ alert_event_outbox (st srv d).2 = alert_event_outbox d) ->
  keeps complete (exec st).
Proof.
  intros H. apply keeps_exec. intros srv d Hd. destruct (H srv d) as [He Ho].
  eapply complete_frame; [exact He| |exact Hd]. intros id. by rewrite Ho.
Qed.

Ltac elsewhere := apply keeps_elsewhere; let v := fresh "srv" in let t := fresh "t" in intros v t; unfold limited; cbv beta;
  repeat match goal with |- context [match ?x with _ => _ end] => destruct x; cbn [snd] end; by split.

Lemma complete_insertOutbox l : keeps complete (exec (insertOutbox l)).
Proof.
  apply keeps_exec. intros srv d Hd. unfold insertOutbox. case_goal; [done|].
  destruct (foldl _ _ _) as [rows seq] eqn:E.
  assert (forall k rows0 seq0, foldl (insertOutboxRow (sqlNow srv)) (rows0, seq0) k = (rows, seq) ->
    forall id, id ∈ OutboxRow.alert_id <$> rows0 -> id ∈ OutboxRow.alert_id <$> rows) as Hgrow.
  { induction k as [|a k IH]; intros rows0 seq0; cbn [foldl]; [by intros [= -> _]|].
    unfold insertOutboxRow at 2. case_bool_decide; intros H' id Hid; eapply IH; try exact H'; [done|].
    rewrite fmap_app. set_solver. }
  destruct (forallb _ (drop _ _)); simpl; [|done].
  apply (complete_frame d); [done| |exact Hd]. simpl. by eapply Hgrow.
Qed.

Lemma complete_map d f seq :
  keepsKeys f -> complete d -> complete (with_outbox d (f <$> alert_event_outbox d) seq).
Proof.
  intros Hf. apply complete_frame; [done|]. intros id. simpl. rewrite <- list_fmap_compose.
  by rewrite (list_fmap_ext (OutboxRow.alert_id ∘ f) OutboxRow.alert_id) by (intros; apply Hf).
Qed.

Lemma complete_deleteEvents retention n : keeps complete (exec (deleteEvents retention n)).
Proof.
  apply keeps_exec. intros srv d Hd. unfold deleteEvents. destruct (interval _); [|done].
  destruct (limited _ _) as [m|doomed]; [done|]. simpl. intros id Hid.
  apply list_elem_of_fmap in Hid as (e & -> & [Hn He]%list_elem_of_filter).
  assert (EventRow.id e ∈ OutboxRow.alert_id <$> alert_event_outbox d) as Ho by (apply Hd, list_elem_of_fmap; eauto).
  apply list_elem_of_fmap in Ho as (row & Hid & Hrow). apply list_elem_of_fmap. exists row. split; [done|].
  apply list_elem_of_filter. by rewrite <- Hid.
Qed.

Lemma complete_applyDefinition now o created d : keeps complete (applyDefinition now o created d).
Proof.
  unfold applyDefinition. case_goal; [auto with alerts|]. apply keeps_bind.
  - unfold lockState. apply keeps_bind; [elsewhere|intros _; apply keeps_bind; [elsewhere|intros _; elsewhere]].
  - intros st. destruct (apply d o st now) as [[[st' alert] []]|]; cbn [negb]; [|auto with alerts|by intros srv n t Ht].
    apply keeps_bind; [unfold updateState; elsewhere|]. intros _. destruct alert as [alert|]; [|auto with alerts].
    apply keeps_bind; [apply keeps_legacy|]. intros out.
    apply keeps_bind; [apply complete_insertOutbox|auto with alerts].
Qed.

Lemma keeps_each {A S} (P : Database -> Prop) (f : S -> A -> Session S) l :
  (forall s x, keeps P (f s x)) -> forall s, keeps P (each f s l).
Proof. intros Hf. induction l as [|x l IH]; intros s; simpl; [auto with alerts|]. by apply keeps_bind. Qed.

Lemma complete_ApplyObservation now o : keeps complete (ApplyObservation now o).
Proof.
  unfold ApplyObservation. case_goal; [|auto with alerts]. apply keeps_transaction; [by intros d d' Hd _|].
  apply keeps_bind; [unfold insertInbox; elsewhere|]. intros k. case_goal; [auto with alerts|].
  apply keeps_bind; [elsewhere|]. intros ds. apply keeps_bind; [|auto with alerts].
  apply keeps_each. intros. apply complete_applyDefinition.
Qed.

(** ** All calls *)

(** The calls of the repository that may write. *)
Inductive Call :=
| CallCreate (d : AlertDefinition)
| CallSetEnabled (id : string) (enabled : bool) (effectiveAt : Time)
| CallArchive (id : string) (effectiveAt : Time)
| CallApply (now : Time) (o : Observation)
| CallCommit (b : RuntimeBatch)
| CallClaim (limit : Z)
| CallPublished (id : string)
| CallFailed (id message : string)
| CallMaintain (policy : RetentionPolicy.RetentionPolicy)
| CallAcquire (owner : string) (partitions : list Z) (ttl : Duration)
| CallRenew (owner : string) (partitions : list Z) (ttl : Duration)
| CallRelease (owner : string).

Definition discard {A} (c : Session A) : Session unit := bind c (fun _ => ret ()).

Definition perform (c : Call) : Session unit :=
  match c with
  | CallCreate d => discard (CreateDefinition d)
  | CallSetEnabled id enabled t => discard (SetEnabled id enabled t)
  | CallArchive id t => ArchiveDefinition id t
  | CallApply now o => discard (ApplyObservation now o)
  | CallCommit b => discard (CommitRuntimeBatch b)
  | CallClaim limit => discard (ClaimPending limit)
  | CallPublished id => MarkPublished id
  | CallFailed id message => MarkPublishFailed id message
  | CallMaintain policy => discard (Maintain policy)
  | CallAcquire owner ps ttl => discard (AcquirePartitions owner ps ttl)
  | CallRenew owner ps ttl => discard (RenewPartitions owner ps ttl)
  | CallRelease owner => ReleasePartitions owner
  end.

Lemma discard_state {A} (c : Session A) srv s : (discard c srv s).2 = (c srv s).2.
Proof. unfold discard, bind. by destruct (c srv s) as [[a|e|] s1]. Qed.

Lemma keepsKeys_publish now : keepsKeys (publishRow now).
Proof. done. Qed.
Lemma keepsKeys_fail message now : keepsKeys (failRow message now).
Proof. done. Qed.

Lemma perform_sound c srv d : coreOk d -> coreOk (perform c srv (0, d)).2.2.
Proof.
  intros Hd.
  assert (forall A (s : Session A), soundCall s -> coreOk (s srv (0, d)).2.2) as Hs.
  { intros A s Hs. by apply (Hs (alert_events_cursor_seq d) (alert_event_outbox_cursor_seq d) srv 0 d). }
  destruct c; cbn [perform]; rewrite ?discard_state; apply Hs.
  - unfold CreateDefinition. case_goal; auto with alerts.
  - apply sound_SetEnabled.
  - apply sound_ArchiveDefinition.
  - apply sound_ApplyObservation.
  - apply sound_CommitRuntimeBatch.
  - apply sound_exec, sound_claimOutbox.
  - apply sound_exec, sound_updateOutbox, keepsKeys_publish.
  - apply sound_exec, sound_updateOutbox, keepsKeys_fail.
  - apply sound_Maintain.
  - apply sound_AcquirePartitions.
  - apply sound_bind; [|intros; apply sound_ret]. apply sound_exec, sound_renewLeases.
  - apply sound_ReleasePartitions.
Qed.

Lemma perform_complete c srv d : coreOk d -> complete d -> complete (perform c srv (0, d)).2.2.
Proof.
  intros Hc Hd.
  assert (forall id f, (forall now, keepsKeys (f now)) -> keeps complete (exec (updateOutbox id f))) as Hu.
  { intros id f Hf. apply keeps_exec. intros srv' t Ht. unfold updateOutbox. case_goal; [done|].
    apply complete_map; [|done]. intros row. case_goal; [apply Hf|done]. }
  destruct c; cbn [perform]; rewrite ?discard_state;
    [..|by apply completes_CommitRuntimeBatch| | | | | | |]; revert d Hc Hd; intros d _; generalize 0; intros n;
    revert srv n d; match goal with |- forall srv n d, complete d -> complete (?s srv (n, d)).2.2 => change (keeps complete s) end.
  - unfold CreateDefinition. case_goal; [unfold upsertDefinition; elsewhere|auto with alerts].
  - unfold SetEnabled. elsewhere.
  - unfold ArchiveDefinition. apply keeps_bind; [elsewhere|]. intros k. case_goal; auto with alerts.
  - apply complete_ApplyObservation.
  - apply keeps_exec. intros srv d Hd. unfold claimOutbox. destruct (limited _ _); [done|].
    apply complete_map; [|done]. intros row. by case_goal.
  - apply Hu, keepsKeys_publish.
  - apply Hu, keepsKeys_fail.
  - unfold Maintain. apply keeps_bind; [case_goal; [apply complete_deleteEvents|auto with alerts]|].
    intros k. apply keeps_bind; [|auto with alerts].
    case_goal; [unfold deleteInbox; elsewhere|auto with alerts].
  - unfold AcquirePartitions. case_goal; [auto with alerts|].
    apply keeps_transaction; [by intros d d' Hd _|]. apply keeps_bind; [unfold acquireLeases; elsewhere|].
    intros k. case_goal; auto with alerts.
  - unfold RenewPartitions. apply keeps_bind; [unfold renewLeases; elsewhere|auto with alerts].
  - unfold ReleasePartitions. elsewhere.
Qed.

(** The tables after a history of calls, each with the server it met. *)
Definition history (calls : list (Server * Call)) : Database :=
  foldl (fun d '(srv, c) => (perform c srv (0, d)).2.2) Database.empty calls.

Lemma coreOk_empty : coreOk Database.empty.
Proof.
  split; simpl; try apply map_Forall_empty; [| |intros id id' row row'; by rewrite lookup_empty];
    repeat constructor.
Qed.

Lemma history_ok calls : tablesOk (history calls).
Proof.
  unfold history. induction calls as [|[srv c] calls IH] using rev_ind.
  { split; [apply coreOk_empty|]. intros id. simpl. set_solver. }
  rewrite foldl_app. simpl. destruct IH. split; [by apply perform_sound|by apply perform_complete].
Qed.

(** C9: the tables stay in order. After any calls of the repository, in any
    order, whatever fails on the way and whichever answers are lost, the
    identifiers, the cursors and the (definition, source event) pairs of the
    alerts are unique, the cursors grow in the order of insertion, every
    reference leads to a row, the constraints of the definitions hold and a
    hash has one definition; and the outbox is transactional: the alerts that
    are recorded are exactly those that are queued for publication. *)
Theorem tables_in_order (calls : list (Server * Call)) :
  coreOk (history calls) /\
  (forall id, id ∈ EventRow.id <$> alert_events (history calls) <->
              id ∈ OutboxRow.alert_id <$> alert_event_outbox (history calls)).
Proof.
  destruct (history_ok calls) as [Hc Hd]. split; [done|]. intros id. split; [apply Hd|]. intros (row & -> & Hrow)%list_elem_of_fmap.
  destruct (core_outbox _ Hc) as [_ _ O3]. rewrite Forall_forall in O3. by apply O3.
Qed.
