(* ===== verification/PostgresCommit.v ===== *)
(** * Committing a batch to PostgreSQL

    The transaction as a whole: what it stores, that nothing remains of one
    that failed, and that a batch whose acknowledgement was lost can be
    committed again without effect. *)

From stdpp Require Import base gmap strings list numbers sorting.
From Stdlib Require Import Ascii.
From S2P Require Import Prelude GoFloat GoBase GoTime Model Json Rules Store StoreEvaluate Memory Fixtures.
From S2P Require Import Tables Postgres PostgresProps PostgresInvariant.
Import Database Postgres.
Open Scope session_scope.

(** ** A server without faults *)

Definition sane (srv : Server) : Prop := forall n, srv.(Server.fault) n = None.

Lemma exec_sane {D A} (statement : StatementOn D A) srv n d a d' :
  sane srv -> statement srv d = (inr a, d') -> exec statement srv (n, d) = (Ok a, (S n, d')).
Proof. intros Hs H. unfold exec. by rewrite Hs, H. Qed.

(** The call returns a value in a given state. *)
Definition returns {A} (c : Session A) (srv : Server) (d : Database) (a : A) (d' : Database) : Prop :=
  forall n, exists n', c srv (n, d) = (Ok a, (n', d')).

Lemma returns_ret {A} (a : A) srv d : returns (ret a) srv d a d.
Proof. intros n. by exists n. Qed.
Lemma returns_exec {A} (statement : Statement A) srv d a d' :
  sane srv -> statement srv d = (inr a, d') -> returns (exec statement) srv d a d'.
Proof. intros Hs H n. exists (S n). by apply exec_sane. Qed.
Lemma returns_bind {A B} (c : Session A) (f : A -> Session B) srv d a d1 b d2 :
  returns c srv d a d1 -> returns (f a) srv d1 b d2 -> returns (bind c f) srv d b d2.
Proof. intros Hc Hf n. destruct (Hc n) as [n1 E]. destruct (Hf n1) as [n2 E']. exists n2. unfold bind. by rewrite E. Qed.
Lemma returns_unlessEmpty {A} k (c : Session A) srv d a :
  (k <> 0 -> returns c srv d a d) -> returns (unlessEmpty k c) srv d () d.
Proof.
  intros Hc. unfold unlessEmpty. destruct (Nat.eqb_spec k 0); [apply returns_ret|].
  eapply returns_bind; [by apply Hc|apply returns_ret].
Qed.

(** ** The same batch again *)

Lemma insertInbox_known now l : forall rows n,
  (forall o, o ∈ l -> is_Some (rows !! o.(Observation.SourceEventID))) ->
  (foldl (insertInboxRow now) (rows, n) l).1 = rows.
Proof.
  induction l as [|o l IH]; intros rows n H; [done|]. cbn [foldl]. unfold insertInboxRow at 2.
  destruct (H o ltac:(set_solver)) as [x ->]. apply IH. set_solver.
Qed.

Lemma union_again {K A} `{Countable K} (m t : gmap K A) : m ∪ (m ∪ t) = m ∪ t.
Proof. by rewrite (assoc_L (∪)), (idemp_L (∪)). Qed.

Lemma reset_again {A} (keys : list string) (m t : gmap (string * string) A) :
  m ∪ filter (fun kv => kv.1.2 ∉ keys) (m ∪ filter (fun kv => kv.1.2 ∉ keys) t)
  = m ∪ filter (fun kv => kv.1.2 ∉ keys) t.
Proof.
  apply map_eq. intros k. rewrite !lookup_union. destruct (m !! k) as [x|] eqn:Em.
  { by destruct (filter _ _ !! k), (filter _ t !! k). }
  rewrite !(left_id_L None _), !map_lookup_filter, lookup_union, Em, (left_id_L None _), map_lookup_filter.
  destruct (t !! k); simpl; [|done]. by case_guard.
Qed.

Lemma commitInbox_again b srv d :
  sane srv -> mapM marshalObservation b.(RuntimeBatch.Observations) = Some b.(RuntimeBatch.Observations) ->
  (forall o, o ∈ b.(RuntimeBatch.Observations) -> is_Some (alert_inbox d !! o.(Observation.SourceEventID))) ->
  returns (commitInbox b) srv d () d.
Proof.
  intros Hs Hj Hin. apply (returns_unlessEmpty _ _ _ _ (foldl (insertInboxRow (sqlNow srv)) (alert_inbox d, 0%Z)
    b.(RuntimeBatch.Observations)).2). intros _. rewrite Hj. apply returns_exec; [done|].
  rewrite insertInbox_eq, insertInbox_known by done. by destruct d.
Qed.

Lemma commitSeries_again b srv d states :
  sane srv -> toJsonMap toJsonSeries b.(RuntimeBatch.SeriesStates) = Some states ->
  (states <> ∅ -> isInt2 b.(RuntimeBatch.PartitionID) = true) ->
  (StateRow.mk (Some b.(RuntimeBatch.PartitionID)) <$> states) ∪ alert_series_runtime_state d
    = alert_series_runtime_state d ->
  returns (commitSeries b) srv d () d.
Proof.
  intros Hs Hj Hp Hsame. apply (returns_unlessEmpty _ _ _ _ ()). intros Hn. rewrite Hj.
  apply returns_exec; [done|]. unfold upsertSeries. rewrite Hp; [simpl; rewrite Hsame; by destruct d|].
  intros ->. apply Hn, map_size_empty_iff, map_eq. intros k. rewrite lookup_empty.
  destruct (_ !! k) eqn:E; [|done]. pose proof (proj2 (toJsonMap_keys _ _ _ k Hj) ltac:(eauto)) as [y Hy].
  by rewrite lookup_empty in Hy.
Qed.

Lemma commitDefinitions_again b srv d l states :
  sane srv -> mapM cutKey (map_to_list b.(RuntimeBatch.DefinitionStates)) = Some l ->
  toJsonMap toJsonDefinition (list_to_map l) = Some states ->
  (states <> ∅ -> isInt2 b.(RuntimeBatch.PartitionID) = true) ->
  map_Forall (fun k _ => isUUID k.1 = true /\ is_Some (alert_definitions d !! k.1)) states ->
  (StateRow.mk (Some b.(RuntimeBatch.PartitionID)) <$> states) ∪
    filter (fun kv => kv.1.2 ∉ b.(RuntimeBatch.ResetSeriesKeys)) (alert_definition_runtime_state d)
    = alert_definition_runtime_state d ->
  returns (commitDefinitions b) srv d () d.
Proof.
  intros Hs Hl Hj Hp Hu Hsame. unfold commitDefinitions.
  set (d1 := with_definition_states d
    (filter (fun kv => kv.1.2 ∉ b.(RuntimeBatch.ResetSeriesKeys)) (alert_definition_runtime_state d))).
  apply (returns_bind _ _ _ _ () d1).
  - unfold unlessEmpty. destruct (Nat.eqb_spec (length b.(RuntimeBatch.ResetSeriesKeys)) 0) as [Hn|Hn].
    + apply nil_length_inv in Hn. subst d1. rewrite Hn, map_filter_id by (intros; set_solver).
      destruct d; apply returns_ret.
    + eapply returns_bind; [by apply returns_exec|apply returns_ret].
  - rewrite Hl. unfold unlessEmpty. destruct (Nat.eqb_spec (length l) 0) as [Hn|Hn].
    + apply nil_length_inv in Hn. subst l. simpl in Hj. rewrite toJsonMap_empty in Hj. injection Hj as <-.
      rewrite fmap_empty, (left_id_L ∅ _) in Hsame. subst d1. rewrite Hsame. destruct d; apply returns_ret.
    + eapply returns_bind; [|apply returns_ret]. rewrite Hj. apply returns_exec; [done|].
      assert (states <> ∅) as Hne.
      { intros ->. apply Hn. destruct l as [|[k x] l]; [done|]. exfalso.
        pose proof (proj2 (toJsonMap_keys _ _ _ k Hj)) as [y Hy]; [|by rewrite lookup_empty in Hy].
        simpl. apply lookup_insert_is_Some. by left. }
      unfold upsertDefinitionStates. rewrite (Hp Hne).
      assert (forallb (fun kv : string * string * DefinitionEvaluationState => isUUID kv.1.1) (map_to_list states) = true) as ->.
      { apply forallb_forall. intros [k x] Hk%list_elem_of_In%elem_of_map_to_list. by apply (Hu _ _ Hk). }
      assert (forallb (fun kv : string * string * DefinitionEvaluationState =>
                bool_decide (is_Some (alert_definitions d1 !! kv.1.1))) (map_to_list states) = true) as ->.
      { apply forallb_forall. intros [k x] Hk%list_elem_of_In%elem_of_map_to_list.
        apply bool_decide_eq_true. by apply (Hu _ _ Hk). }
      simpl. rewrite Hsame. by destruct d.
Qed.

(** A row the table accepts. *)
Definition acceptable (e : NewEvent) : Prop :=
  isUUID e.(NewEvent.id) && isUUID e.(NewEvent.definition_id) = true /\
  e.(NewEvent.reasonsNull) || e.(NewEvent.observationNull) || bool_decide (e.(NewEvent.evaluated_at) = None) = false.

(** An insertion that succeeded accepted every row, and touched each row of
    the table once. *)
Lemma insertEvent_fold_once l : forall rows seq out rows' seq' out',
  foldl insertEvent (inl (rows, seq, out)) l = inl (rows', seq', out') -> rowsOk rows seq ->
  NoDup out -> Forall (fun x => x.2 <= seq)%Z out -> Forall acceptable l /\ NoDup out'.
Proof.
  induction l as [|e l IH]; intros rows seq out rows' seq' out'; cbn [foldl]; [by intros [= <- <- <-]|].
  intros H Hok Hnd Hle. destruct (insertEvent (inl (rows, seq, out)) e) as [[[rows1 seq1] out1]|m] eqn:E.
  2:{ by rewrite insertEvent_failed in H. }
  pose proof E as Estep. apply insertEvent_step in Estep as (Hok1 & -> & _); [|done].
  assert (acceptable e /\ NoDup out1 /\ Forall (fun x => x.2 <= seq + 1)%Z out1) as (He & Hnd1 & Hle1).
  { assert (Forall (fun x => x.2 <= seq + 1)%Z out) as Hle'
      by (eapply Forall_impl; [exact Hle|intros x Hx; simpl in *; lia]).
    unfold insertEvent in E. destruct (isUUID _ && isUUID _) eqn:Eu; [|done]. cbn [negb] in E.
    destruct (_ || _ || _) eqn:En; [done|]. split; [done|].
    destruct (eventWith _ _ rows) as [row|] eqn:Ew.
    - case_bool_decide as Hin; [done|]. injection E as _ <-. apply eventWith_Some in Ew as [Hrow _]. split.
      + apply NoDup_app. split; [done|]. split; [|apply NoDup_singleton]. set_solver.
      + apply Forall_app. split; [done|]. constructor; [|constructor]. simpl.
        destruct Hok as (_ & _ & _ & Hc). rewrite Forall_fmap, Forall_forall in Hc. specialize (Hc row Hrow).
        simpl in Hc. lia.
    - case_bool_decide; [done|]. injection E as _ <-. split.
      + apply NoDup_app. split; [done|]. split; [|apply NoDup_singleton].
        intros x Hx ->%list_elem_of_singleton. rewrite Forall_forall in Hle. specialize (Hle _ Hx). simpl in Hle. lia.
      + apply Forall_app. split; [done|]. constructor; [|constructor]. simpl. lia. }
  destruct (IH _ _ _ _ _ _ H Hok1 Hnd1 Hle1) as [? ?]. split; [by constructor|done].
Qed.

Lemma eventWith_unique rows row :
  NoDup (eventKey <$> rows) -> row ∈ rows ->
  eventWith row.(EventRow.definition_id) row.(EventRow.source_event_id) rows = Some row.
Proof.
  intros Hnd Hin. destruct (eventWith _ _ rows) as [row'|] eqn:E.
  - apply eventWith_Some in E as [Hin' Hk]. f_equal.
    apply list_elem_of_lookup_1 in Hin as [i Hi], Hin' as [j Hj].
    assert (i = j) as ->; [|congruence]. eapply (NoDup_lookup (eventKey <$> rows) _ _ (eventKey row)); [done| |].
    + by rewrite list_lookup_fmap, Hi.
    + rewrite list_lookup_fmap, Hj. simpl. by rewrite Hk.
  - apply eventWith_None in E. exfalso. apply E. apply list_elem_of_fmap. eauto.
Qed.

Lemma insertEvent_again rows l : forall seq out xs,
  NoDup (eventKey <$> rows) -> Forall acceptable l -> NoDup (out ++ xs) ->
  Forall2 (fun e x => exists row, row ∈ rows /\
     eventKey row = (e.(NewEvent.definition_id), e.(NewEvent.source_event_id)) /\
     x = (row.(EventRow.id), row.(EventRow.cursor))) l xs ->
  foldl insertEvent (inl (rows, seq, out)) l = inl (rows, (seq + Z.of_nat (length l))%Z, out ++ xs).
Proof.
  induction l as [|e l IH]; intros seq out xs Hnd Ha Hout Hxs; cbn [foldl].
  { inversion Hxs. subst. simpl. by rewrite app_nil_r, Z.add_0_r. }
  inversion Hxs as [|? x ? xs' (row & Hrow & [= Hk1 Hk2] & Hx) Hxs']. subst.
  apply Forall_cons in Ha as [[Hu Hn] Ha].
  assert (insertEvent (inl (rows, seq, out)) e
          = inl (rows, (seq + 1)%Z, out ++ [(EventRow.id row, EventRow.cursor row)])) as ->.
  { unfold insertEvent. rewrite Hu, Hn. cbn [negb]. rewrite <- Hk1, <- Hk2, eventWith_unique by done.
    rewrite bool_decide_eq_false_2; [done|]. intros Hin. apply NoDup_app in Hout as (_ & Hdisj & _).
    apply (Hdisj _ Hin). by left. }
  rewrite (IH _ _ xs') by (try done; by rewrite <- app_assoc). rewrite <- app_assoc. simpl.
  do 3 f_equal. lia.
Qed.

(** The alerts inserted again: the same answer, the same rows. *)
Lemma insertAlerts_again l srv srv' d d1 d2 out :
  insertAlerts l srv d = (inr out, d1) -> rowsOk (alert_events d) (alert_events_cursor_seq d) ->
  alert_events d2 = alert_events d1 ->
  insertAlerts l srv' d2 =
    (inr out, with_events d2 (alert_events d2) (alert_events_cursor_seq d2 + Z.of_nat (length l))).
Proof.
  unfold insertAlerts. destruct (forallb numbersOk l); [|done]. cbn [negb]. unfold insertEvents.
  destruct (foldl _ _ _) as [[[rows seq] out0]|[m seq]] eqn:E; [|done].
  destruct (forallb _ (drop _ _)); [|done]. intros [= <- <-] Hok Hev. simpl in Hev.
  pose proof (insertEvent_fold_once _ _ _ _ _ _ _ E Hok (NoDup_nil_2) (Forall_nil_2 _)) as [Hacc Hnd].
  apply insertEvent_fold in E as ((_ & Hk & _) & _ & _ & (more & -> & Hmore)); [|done].
  rewrite Hev, (insertEvent_again _ _ _ [] more Hk Hacc Hnd Hmore), length_fmap, drop_ge by done. done.
Qed.

Lemma insertOutbox_known now l : forall rows seq,
  (forall a, a ∈ l -> a.(Alert.ID) ∈ OutboxRow.alert_id <$> rows) ->
  foldl (insertOutboxRow now) (rows, seq) l = (rows, (seq + Z.of_nat (length l))%Z).
Proof.
  induction l as [|a l IH]; intros rows seq H; cbn [foldl]; [simpl; by rewrite Z.add_0_r|].
  unfold insertOutboxRow at 2. rewrite bool_decide_eq_true_2 by (apply H; set_solver).
  rewrite IH by (intros; apply H; set_solver). simpl. f_equal. lia.
Qed.

(** ** Properties *)

(** How a transaction can end: without effect, or with the effect of its body
    and possibly without an answer. *)
Lemma transaction_cases {A} (body : Session (A * bool)) srv n d res n' d' :
  (forall srv s a s', body srv s = (Ok (a, false), s') -> False) -> noPanic body ->
  transaction body srv (n, d) = (res, (n', d')) ->
  (exists e, res = Err e /\ d' = rollback d d') \/
  exists a n1, body srv (S n, d) = (Ok (a, true), (n1, d')) /\ (res = Ok a \/ exists e, res = Err e).
Proof.
  intros Htrue Hnp. specialize (Hnp srv (S n, d)). unfold transaction, transactionOn.
  assert (d = rollback d d) as Hdd by (by destruct d).
  destruct (Server.fault srv n) as [[]|]; [intros [= <- _ <-]; left; eauto..|].
  destruct (body srv (S n, d)) as [[[a []]|e|] [n1 d1]] eqn:E; simpl in Hnp; [| |intros [= <- _ <-]; left; eauto|done].
  - destruct (Server.fault srv n1) as [[]|]; intros [= <- _ <-]; [left|right|right]; eauto 6.
  - by apply Htrue in E.
Qed.

Lemma commitBody_commits b srv s a s' : commitBody b srv s = (Ok (a, false), s') -> False.
Proof. destruct s as [n d], s' as [n' d']. intros [H _]%commitBody_Ok. done. Qed.

Lemma commitBody_noPanic b : noPanic (commitBody b).
Proof.
  apply noPanic_bind; [|intros _; apply noPanic_bind; [|intros _; apply noPanic_bind]].
  - apply noPanic_unlessEmpty. case_goal; auto with alerts.
  - apply noPanic_unlessEmpty. case_goal; auto with alerts.
  - apply noPanic_bind; [auto with alerts|]. intros _. case_goal; [|auto with alerts].
    apply noPanic_unlessEmpty. case_goal; auto with alerts.
  - intros _. apply noPanic_bind; [|auto with alerts]. unfold commitAlerts.
    repeat case_goal; auto 7 with alerts.
Qed.

Lemma run_cases b p res p' :
  run (CommitRuntimeBatch b) p = (res, p') ->
  p'.(server) = p.(server) /\
  ((exists e, res = Err e /\ p'.(db) = rollback p.(db) p'.(db)) \/
   exists a n1, commitBody b p.(server) (1, p.(db)) = (Ok (a, true), (n1, p'.(db))) /\
     (res = Ok a \/ exists e, res = Err e)).
Proof.
  unfold run. destruct (CommitRuntimeBatch b _ _) as [res0 [n d]] eqn:E. intros [= <- <-]. split; [done|]. simpl.
  apply transaction_cases in E; [done|apply commitBody_commits|apply commitBody_noPanic].
Qed.

(** Everything the commit of the body leaves in the tables. *)
Lemma commitBody_stores b srv n d created n' d' :
  coreOk d -> commitBody b srv (n, d) = (Ok (created, true), (n', d')) ->
  (forall o, o ∈ b.(RuntimeBatch.Observations) -> is_Some (alert_inbox d' !! o.(Observation.SourceEventID))) /\
  (forall a, a ∈ b.(RuntimeBatch.Alerts) ->
     (a.(Alert.DefinitionID), a.(Alert.SourceEventID)) ∈ eventKey <$> alert_events d' /\
     a.(Alert.ID) ∈ OutboxRow.alert_id <$> alert_event_outbox d') /\
  alert_events d `prefix_of` alert_events d' /\ alert_event_outbox d `prefix_of` alert_event_outbox d'.
Proof.
  intros Hc Hbody. apply commitBody_Ok in Hbody
    as (_ & l & states & dstates & Hcom & n1 & d1 & n2 & Ha & He & Ho & _ & _ & Hes & Hos).
  split.
  { rewrite (committed_inbox _ _ _ _ _ _ _ Hcom). apply insertInbox_fold. }
  destruct (core_events _ Hc) as [Hi Hk Hcu _ _], (core_outbox _ Hc) as [O1 O2 _].
  apply commitAlerts_Ok in Ha as [(-> & _ & ->)|(_ & out & d2 & _ & H1 & -> & H2)].
  { rewrite He, Ho. split; [set_solver|done]. }
  apply insertAlerts_Ok in H1 as (E1 & E2 & _ & (new & E3 & _) & Hout); [|unfold rowsOk; by rewrite He, Hes].
  apply insertOutbox_Ok in H2 as (E4 & more & E5 & Hin); [|by rewrite E1, Ho|by rewrite E1, E2, Ho, Hos].
  rewrite E4, E5, E1, Ho, E3, He. split; [|split; by apply prefix_app_r].
  intros a Hal. split.
  - apply list_elem_of_lookup_1 in Hal as [i Hi'].
    destruct (Forall2_lookup_l _ _ _ _ _ Hout Hi') as (x & _ & row & Hrow & <- & _).
    apply list_elem_of_fmap. exists row. split; [done|]. by rewrite <- He, <- E3.
  - assert (a.(Alert.ID) ∈ Alert.ID <$> withCursors out b.(RuntimeBatch.Alerts)) as Hw
      by (rewrite withCursors_ids; apply list_elem_of_fmap; eauto).
    apply list_elem_of_fmap in Hw as (a' & -> & Ha'). rewrite <- Ho, <- E1, <- E5. by apply Hin.
Qed.

(** C2: a commit is all or nothing. Whatever the transaction meets, it ends in
    one of two ways: with an error and the tables as they were, or with the
    whole of the batch stored, even if an error is reported because the
    answer to COMMIT was lost: the checkpoint is that of the abstract commit,
    every observation is in the inbox, every alert is recorded and queued,
    and nothing that was there is gone. It never panics. *)
Theorem commit_all_or_nothing (b : RuntimeBatch) (p p' : Postgres) (res : Res StoreError (list Alert)) :
  coreOk p.(db) -> kept p.(db) -> run (CommitRuntimeBatch b) p = (res, p') ->
  (exists e, res = Err e /\ p'.(db) = rollback p.(db) p'.(db)) \/
  (res <> Panic /\
   checkpoint p'.(db) ≡ commitRuntime b (checkpoint p.(db)) /\
   (forall o, o ∈ b.(RuntimeBatch.Observations) -> is_Some (alert_inbox p'.(db) !! o.(Observation.SourceEventID))) /\
   (forall a, a ∈ b.(RuntimeBatch.Alerts) ->
      (a.(Alert.DefinitionID), a.(Alert.SourceEventID)) ∈ eventKey <$> alert_events p'.(db) /\
      a.(Alert.ID) ∈ OutboxRow.alert_id <$> alert_event_outbox p'.(db)) /\
   alert_events p.(db) `prefix_of` alert_events p'.(db) /\
   alert_event_outbox p.(db) `prefix_of` alert_event_outbox p'.(db)).
Proof.
  intros Hc Hk [_ [Herr|(a & n1 & Hbody & Hres)]]%run_cases; [by left|right].
  pose proof (commitBody_stores _ _ _ _ _ _ _ Hc Hbody) as Hst.
  apply commitBody_Ok in Hbody as (_ & l & states & dstates & Hcom & _).
  split; [by destruct Hres as [->|[e ->]]|]. split; [|done]. by eapply committed_checkpoint.
Qed.

(** The batch of postgres_integration_test.go, on a database that has its
    definition; servers whose exchange [k] fails, before or after its effect. *)
Definition pgID : string := "11111111-1111-4111-8111-111111111111".
Definition pgDefinition : AlertDefinition :=
  AlertDefinition.mk pgID 1 "sha256:integration" "integration red" true btc redColor "confirmed_close"
    "every_match" 0 (start - Hour) (start - Hour) (start - Hour).
Definition pgAlert : Alert :=
  Alert.mk "io.ytstack.alert.triggered.v1" "22222222-2222-4222-8222-222222222222" pgID 1 "sha256:integration"
    "integration red" "one" "one" btc (start + Minute) (start + Minute) ["red candle closed"] [] noAlgorithm
    1 "confirmed" (Some redBar) "pending" 0.
Definition pgSeriesState : SeriesEvaluationState :=
  SeriesEvaluationState.mk start 2 "confirmed" "" zeroTime
    (FeatureState.mk (Some (fl 99)) (Some ∅) [] [] zeroTime "") FeatureState.zero [].
Definition pgBatchOf (alerts : list Alert) : RuntimeBatch :=
  RuntimeBatch.mk 142 [redBar] {[Series.Key btc := pgSeriesState]}
    {[DefinitionStateKey pgID (Series.Key btc) := DefinitionEvaluationState.mk true false zeroTime zeroTime]}
    [] alerts.
Definition pgBatch : RuntimeBatch := pgBatchOf [pgAlert].

Definition pgServer (fault : nat -> option Fault) : Server := Server.mk (start + Hour) fault [] [1%Z; 2%Z; 3%Z].
Definition working : Server := pgServer (fun _ => None).
Lemma working_reliable : reliable working.
Proof. intros n message. discriminate. Qed.
Lemma emptyKept : kept Database.empty.
Proof. split; [done|]. intros k x Hx. discriminate Hx. Qed.
Definition losing (k : nat) : Server :=
  pgServer (fun n => if bool_decide (n = k) then Some (Fault.Lost "connection reset") else None).
Definition pgStart : Database := history [(working, CallCreate pgDefinition)].

Lemma commit_all_or_nothing_witness :
  let p' := (run (CommitRuntimeBatch pgBatch) (Postgres.mk pgStart (losing 6))).2 in
  pgAlert.(Alert.ID) ∈ OutboxRow.alert_id <$> alert_event_outbox p'.(db).
Proof.
  destruct (commit_all_or_nothing pgBatch (Postgres.mk pgStart (losing 6))
    (run (CommitRuntimeBatch pgBatch) (Postgres.mk pgStart (losing 6))).2
    (run (CommitRuntimeBatch pgBatch) (Postgres.mk pgStart (losing 6))).1) as [[e [_ H]]|(_ & _ & _ & H & _)].
  - apply history_ok.
  - split; [vm_compute; reflexivity|]. intros k x Hx. vm_compute in Hx. discriminate Hx.
  - apply surjective_pairing.
  - exfalso. apply (f_equal alert_events) in H. vm_compute in H. discriminate H.
  - apply H. left.
Defined.

Lemma rollback_eq d d' :
  sameBut d d' -> alert_events d' = alert_events d -> alert_event_outbox d' = alert_event_outbox d ->
  d' = rollback d d'.
Proof. intros (? & ? & ? & ? & ? & ?) ? ?. destruct d, d'. unfold rollback. simpl in *. congruence. Qed.

Lemma rollback_inv d d' : d' = rollback d d' ->
  sameBut d d' /\ alert_events d' = alert_events d /\ alert_event_outbox d' = alert_event_outbox d.
Proof. intros ->. done. Qed.

(** The same body on the tables it left. *)
Lemma commitBody_again b srv srv' n d created n1 d1 :
  coreOk d -> commitBody b srv (n, d) = (Ok (created, true), (n1, d1)) -> sane srv' ->
  exists d2, returns (commitBody b) srv' d1 (created, true) d2 /\ d2 = rollback d1 d2.
Proof.
  intros Hc Hbody Hs. pose proof (commitBody_stores _ _ _ _ _ _ _ Hc Hbody) as (Hin & _ & _ & _).
  apply commitBody_Ok in Hbody as (_ & l & states & dstates & Hcom & n2 & d0 & n3 & Ha & He & Ho & _ & _ & Hes & Hos).
  destruct Hcom as [Hj Hsj Hl Hdj Hp Hu Hdefs _ Hrs Hser Hdst Hle].
  assert (forall created' d2, returns (commitAlerts b) srv' d1 created' d2 ->
            returns (commitBody b) srv' d1 (created', true) d2) as Hbody'.
  { intros created' d2 Hr. eapply returns_bind; [by apply commitInbox_again|].
    eapply returns_bind; [eapply commitSeries_again; [done|done|auto|]|].
    { rewrite Hser. apply union_again. }
    eapply returns_bind; [eapply commitDefinitions_again; [done|done|done|auto| |]|].
    { by rewrite Hdefs. }
    { rewrite Hdst. apply reset_again. }
    eapply returns_bind; [exact Hr|apply returns_ret]. }
  destruct (core_events _ Hc) as [Hi Hk Hcu _ _], (core_outbox _ Hc) as [O1 O2 _].
  apply commitAlerts_Ok in Ha as [(Hnil & -> & ->)|(Hne & out & dm & Haj & H1 & -> & H2)].
  { exists d0. split; [|by destruct d0]. apply Hbody'. unfold commitAlerts. rewrite Hnil. apply returns_ret. }
  pose proof H1 as H1'. apply insertAlerts_Ok in H1' as (E1 & E2 & _ & _ & _); [|unfold rowsOk; by rewrite He, Hes].
  pose proof H2 as H2'. apply insertOutbox_Ok in H2' as (E4 & more & E5 & Hq); [|by rewrite E1, Ho|by rewrite E1, E2, Ho, Hos].
  pose proof (insertAlerts_again _ srv srv' d0 dm d1 out H1 ltac:(unfold rowsOk; by rewrite He, Hes) E4) as Hagain.
  set (d2 := with_events d1 (alert_events d1) _) in Hagain.
  assert (insertOutbox (withCursors out b.(RuntimeBatch.Alerts)) srv' d2 =
    (inr (), with_outbox d2 (alert_event_outbox d2) (alert_event_outbox_cursor_seq d2 +
       Z.of_nat (length (withCursors out b.(RuntimeBatch.Alerts)))))) as Hagain2.
  { unfold insertOutbox in H2 |- *. destruct (forallb (fun a => isUUID _) _); [|done]. cbn [negb] in *.
    subst d2. simpl. rewrite insertOutbox_known by exact Hq. by rewrite drop_all. }
  exists (with_outbox d2 (alert_event_outbox d2) (alert_event_outbox_cursor_seq d2 +
       Z.of_nat (length (withCursors out b.(RuntimeBatch.Alerts)))))%Z.
  split; [|by apply rollback_eq]. apply Hbody'. unfold commitAlerts.
  destruct (Nat.eqb_spec (length b.(RuntimeBatch.Alerts)) 0) as [Hn|Hn].
  { by apply nil_length_inv in Hn. }
  rewrite Haj. eapply returns_bind; [by apply returns_exec|].
  eapply returns_bind; [by apply returns_exec|apply returns_ret].
Qed.

(** C8: a lost acknowledgement does no harm. When a commit fails, either the
    tables are as they were, or the batch is stored: then the very same batch,
    with its times, committed again on a server that works succeeds, with the
    tables as the first commit left them up to the sequences, no alert
    recorded or queued twice, and with the answer the first commit would have
    given. *)
Theorem commit_retried (b : RuntimeBatch) (d d1 : Database) (srv srv' : Server) (res : Res StoreError (list Alert)) :
  coreOk d -> run (CommitRuntimeBatch b) (Postgres.mk d srv) = (res, Postgres.mk d1 srv) ->
  (forall n, srv'.(Server.fault) n = None) ->
  (exists e, res = Err e /\ d1 = rollback d d1) \/
  exists alerts d2,
    run (CommitRuntimeBatch b) (Postgres.mk d1 srv') = (Ok alerts, Postgres.mk d2 srv') /\
    d2 = rollback d1 d2 /\ (forall a, res = Ok a -> a = alerts).
Proof.
  intros Hc [_ [Herr|(a & n1 & Hbody & Hres)]]%run_cases Hs; [by left|right]. simpl in *.
  destruct (commitBody_again _ _ srv' _ _ _ _ _ Hc Hbody Hs) as (d2 & Hr & Heq). exists a, d2.
  split; [|split; [done|by destruct Hres as [->|[e ->]]; [intros ? [= ->]|]]].
  unfold run, CommitRuntimeBatch, transaction, transactionOn. simpl. rewrite Hs.
  destruct (Hr 1) as [n2 ->]. by rewrite Hs.
Qed.

Definition pgLost : Database := (run (CommitRuntimeBatch pgBatch) (Postgres.mk pgStart (losing 6))).2.(db).

Lemma commit_retried_witness :
  exists alerts d2,
    run (CommitRuntimeBatch pgBatch) (Postgres.mk pgLost working) = (Ok alerts, Postgres.mk d2 working) /\
    alert_events d2 = alert_events pgLost /\ length (alert_events pgLost) = 1.
Proof.
  destruct (commit_retried pgBatch pgStart pgLost (losing 6) working
    (run (CommitRuntimeBatch pgBatch) (Postgres.mk pgStart (losing 6))).1) as [[e [_ H]]|(alerts & d2 & H & Heq & _)].
  - apply history_ok.
  - vm_compute. reflexivity.
  - intros n. reflexivity.
  - exfalso. apply (f_equal alert_events) in H. vm_compute in H. discriminate H.
  - exists alerts, d2. split; [exact H|]. split; [exact (f_equal alert_events Heq)|]. vm_compute. reflexivity.
Defined.
