(* ===== verification/PostgresOps.v ===== *)
(** * Leases, outbox and retention in PostgreSQL

    What calls do to the tables: a lease that has not expired is its owner's,
    an alert that was claimed rests for thirty seconds, or the backoff after a
    failure, whatever calls follow, and retention deletes nothing that is still
    needed. *)

From stdpp Require Import base gmap strings list numbers sorting.
From Stdlib Require Import Ascii.
From S2P Require Import Prelude GoFloat GoBase GoTime Model Json Rules Store StoreEvaluate Memory Fixtures.
From S2P Require Import Tables Postgres PostgresProps PostgresInvariant PostgresCommit.
Import Database Postgres.
Open Scope session_scope.

(** ** Leases *)

(** The owner a call acts for. *)
Definition callOwner (c : Call) : option string :=
  match c with
  | CallAcquire owner _ _ | CallRenew owner _ _ | CallRelease owner => Some owner
  | _ => None
  end.

(** The row of a partition that stays while others act at [now]. *)
Definition heldAt (now : Time) (p : Z) (row : LeaseRow) (d : Database) : Prop :=
  alert_partition_leases d !! p = Some row /\ (now < row.(LeaseRow.expires_at))%Z.

Lemma heldAt_frame now p row d d' :
  alert_partition_leases d' = alert_partition_leases d -> heldAt now p row d -> heldAt now p row d'.
Proof. intros H [? ?]. split; [congruence|done]. Qed.

Lemma leaseRow_held owner now ttl p row l : forall rows out rows' out',
  row.(LeaseRow.owner_id) <> owner -> (now < row.(LeaseRow.expires_at))%Z ->
  foldl (leaseRow owner now ttl) (inl (rows, out)) l = inl (rows', out') ->
  rows !! p = Some row -> rows' !! p = Some row.
Proof.
  induction l as [|q l IH]; intros rows out rows' out' Ho He; cbn [foldl]; [by intros [= <- _]|].
  intros H Hp. destruct (leaseRow owner now ttl (inl (rows, out)) q) as [[rows1 out1]|m] eqn:E.
  2:{ by rewrite leaseRow_failed in H. }
  eapply (IH _ _ _ _ Ho He H). unfold leaseRow in E.
  destruct (negb _); [done|]. case_bool_decide; [done|].
  destruct (decide (q = p)) as [->|Hne].
  - rewrite Hp in E. rewrite eqb_neq_false in E by done.
    replace (LeaseRow.expires_at row <=? now)%Z with false in E by lia. simpl in E. by injection E as <- _.
  - repeat case_hyp E; injection E as <- _; try done; by rewrite lookup_insert_ne.
Qed.

(** Calls that leave the lease alone. *)
Definition leavesLease (now : Time) (p : Z) (row : LeaseRow) {A} (c : Session A) : Prop :=
  forall srv n d, sqlNow srv = now -> heldAt now p row d -> heldAt now p row (c srv (n, d)).2.2.

Section Leaves.
Context (now : Time) (p : Z) (row : LeaseRow).

Lemma leaves_ret {A} (a : A) : leavesLease now p row (ret a).
Proof. by intros srv n d _ H. Qed.
Lemma leaves_throw {A} e : leavesLease now p row (throw e : Session A).
Proof. by intros srv n d _ H. Qed.
Lemma leaves_exec {A} (st : Statement A) :
  (forall srv d, sqlNow srv = now -> heldAt now p row d -> heldAt now p row (st srv d).2) ->
  leavesLease now p row (exec st).
Proof.
  intros Hst srv n d Hn Hd. specialize (Hst srv d Hn Hd). unfold exec.
  destruct (st srv d) as [[m|a] d']; simpl in *; by repeat case_goal.
Qed.
Lemma leaves_bind {A B} (c : Session A) (f : A -> Session B) :
  leavesLease now p row c -> (forall a, leavesLease now p row (f a)) -> leavesLease now p row (bind c f).
Proof.
  intros Hc Hf srv n d Hn Hd. unfold bind. specialize (Hc srv n d Hn Hd).
  destruct (c srv (n, d)) as [[a|e|] [n1 d1]]; simpl in *; [by apply Hf|done..].
Qed.
Lemma leaves_transaction {A} (body : Session (A * bool)) :
  leavesLease now p row body -> leavesLease now p row (transaction body).
Proof.
  intros Hb srv n d Hn Hd. specialize (Hb srv (S n) d Hn Hd). unfold transaction, transactionOn.
  case_goal; [by case_goal|].
  destruct (body srv (S n, d)) as [[[a []]|e|] [n' d']]; simpl in *; repeat case_goal; simpl; done.
Qed.
Lemma leaves_unlessEmpty {A} k (c : Session A) :
  leavesLease now p row c -> leavesLease now p row (unlessEmpty k c).
Proof.
  intros Hc. unfold unlessEmpty. case_goal; [apply leaves_ret|]. apply leaves_bind; [done|]. intros. apply leaves_ret.
Qed.
(** A statement on other tables. *)
Lemma leaves_elsewhere {A} (st : Statement A) :
  (forall srv d, alert_partition_leases (st srv d).2 = alert_partition_leases d) ->
  leavesLease now p row (exec st).
Proof. intros H. apply leaves_exec. intros srv d _. by apply heldAt_frame. Qed.
End Leaves.

#[export] Hint Resolve leaves_ret leaves_throw leaves_bind leaves_unlessEmpty leaves_transaction : alerts.

Ltac otherTable := apply leaves_elsewhere; let v := fresh "srv" in let t := fresh "t" in intros v t; unfold limited; cbv beta;
  repeat match goal with |- context [match ?x with _ => _ end] => destruct x; cbn [snd] end; done.

Lemma leaves_insertEvents now p row l : leavesLease now p row (exec (insertEvents l)).
Proof. unfold insertEvents. otherTable. Qed.
Lemma leaves_insertAlerts now p row l : leavesLease now p row (exec (insertAlerts l)).
Proof. unfold insertAlerts, insertEvents. otherTable. Qed.
Lemma leaves_insertOutbox now p row l : leavesLease now p row (exec (insertOutbox l)).
Proof. unfold insertOutbox. otherTable. Qed.
Lemma leaves_updateOutbox now p row id f : leavesLease now p row (exec (updateOutbox id f)).
Proof. unfold updateOutbox. otherTable. Qed.
#[export] Hint Resolve leaves_insertEvents leaves_insertAlerts leaves_insertOutbox leaves_updateOutbox : alerts.

Lemma leaves_CommitRuntimeBatch now p row b : leavesLease now p row (CommitRuntimeBatch b).
Proof.
  apply leaves_transaction, leaves_bind; [|intros _; apply leaves_bind; [|intros _; apply leaves_bind]].
  - apply leaves_unlessEmpty. case_goal; [unfold insertInbox; otherTable|auto with alerts].
  - apply leaves_unlessEmpty. case_goal; [unfold upsertSeries; otherTable|auto with alerts].
  - apply leaves_bind; [apply leaves_unlessEmpty; unfold deleteStates; otherTable|]. intros _.
    case_goal; [|auto with alerts]. apply leaves_unlessEmpty.
    case_goal; [unfold upsertDefinitionStates; otherTable|auto with alerts].
  - intros _. apply leaves_bind; [|auto with alerts]. unfold commitAlerts. repeat case_goal; auto 7 with alerts.
Qed.

Lemma leaves_each {A S} now p row (f : S -> A -> Session S) l :
  (forall s x, leavesLease now p row (f s x)) -> forall s, leavesLease now p row (each f s l).
Proof. intros Hf. induction l as [|x l IH]; intros s; simpl; auto with alerts. Qed.

Lemma leaves_ApplyObservation now p row t o : leavesLease now p row (ApplyObservation t o).
Proof.
  unfold ApplyObservation. case_goal; [|auto with alerts].
  apply leaves_transaction, leaves_bind; [unfold insertInbox; otherTable|]. intros k. case_goal; [auto with alerts|].
  apply leaves_bind; [otherTable|]. intros ds. apply leaves_bind; [|auto with alerts].
  apply leaves_each. intros created d. unfold applyDefinition. case_goal; [auto with alerts|].
  apply leaves_bind.
  { unfold lockState. apply leaves_bind; [otherTable|intros _; apply leaves_bind; [otherTable|intros _; otherTable]]. }
  intros st. destruct (apply d o st t) as [[[st' alert] []]|]; cbn [negb]; [|auto with alerts|by intros srv n d' _ H].
  apply leaves_bind; [unfold updateState; otherTable|]. intros _. destruct alert; auto 7 with alerts.
Qed.

Lemma leaves_AcquirePartitions now p row owner ps ttl :
  owner <> row.(LeaseRow.owner_id) -> leavesLease now p row (AcquirePartitions owner ps ttl).
Proof.
  intros Ho. unfold AcquirePartitions. case_goal; [auto with alerts|]. apply leaves_transaction, leaves_bind.
  - apply leaves_exec. intros srv' d' Hn [Hp' He']. unfold acquireLeases. destruct (interval ttl) as [ttl'|]; [|done].
    destruct (foldl _ _ _) as [[rows out]|m] eqn:E; [|done]. split; [|done]. simpl.
    rewrite <- Hn in He'. eapply leaseRow_held; [|exact He'|exact E|exact Hp']. congruence.
  - intros k. case_goal; auto with alerts.
Qed.

(** The calls of the others. *)
Lemma leaves_perform now p row c :
  callOwner c <> Some row.(LeaseRow.owner_id) -> leavesLease now p row (perform c).
Proof.
  intros Ho. assert (forall A (s : Session A), leavesLease now p row s -> leavesLease now p row (discard s)) as Hd
    by (intros A s Hs; apply leaves_bind; auto with alerts).
  destruct c; cbn [perform callOwner] in *; try apply Hd.
  - unfold CreateDefinition. case_goal; [unfold upsertDefinition; otherTable|auto with alerts].
  - unfold SetEnabled. otherTable.
  - unfold ArchiveDefinition. apply leaves_bind; [otherTable|]. intros k. case_goal; auto with alerts.
  - apply leaves_ApplyObservation.
  - apply leaves_CommitRuntimeBatch.
  - unfold ClaimPending, claimOutbox. otherTable.
  - unfold MarkPublished. auto with alerts.
  - unfold MarkPublishFailed. auto with alerts.
  - unfold Maintain. apply leaves_bind; [case_goal; [unfold deleteEvents; otherTable|auto with alerts]|].
    intros k. apply leaves_bind; [|auto with alerts]. case_goal; [unfold deleteInbox; otherTable|auto with alerts].
  - apply leaves_AcquirePartitions. congruence.
  - unfold RenewPartitions. apply leaves_bind; [|auto with alerts]. apply leaves_exec. intros srv' d' Hn [Hp' He'].
    unfold renewLeases. destruct (interval ttl); [|done]. split; [|done]. simpl.
    rewrite map_lookup_imap, Hp'. simpl. rewrite bool_decide_eq_false_2; [done|]. intros [? _]. congruence.
  - unfold ReleasePartitions. apply leaves_exec. intros srv' d' _ [Hp' He']. split; [|done].
    apply map_lookup_filter_Some. split; [done|]. simpl. congruence.
Qed.

(** C18: a lease that has not expired is its owner's. No call made for another
    owner, nor any call that is not about leases, changes its row or takes it
    away, whether the call succeeds or fails: two workers never own a
    partition at the same time. *)
Theorem lease_kept (c : Call) (srv : Server) (d : Database) (p : Z) (row : LeaseRow) :
  alert_partition_leases d !! p = Some row -> (sqlNow srv < row.(LeaseRow.expires_at))%Z ->
  callOwner c <> Some row.(LeaseRow.owner_id) ->
  alert_partition_leases (perform c srv (0, d)).2.2 !! p = Some row.
Proof. intros Hp He Ho. by apply (leaves_perform (sqlNow srv) p row c Ho srv 0 d). Qed.

Definition leased : Database :=
  history [(working, CallAcquire "a" [142; 7]%Z (15 * Second)%Z)].

Lemma lease_kept_witness :
  exists row, alert_partition_leases leased !! 142%Z = Some row /\
    alert_partition_leases (perform (CallAcquire "b" [142%Z] (15 * Second)%Z) working (0, leased)).2.2 !! 142%Z = Some row.
Proof.
  eexists. split; [vm_compute; reflexivity|].
  apply (lease_kept (CallAcquire "b" [142%Z] (15 * Second)%Z) working leased 142);
    [vm_compute; reflexivity|vm_compute; reflexivity|intros H; discriminate H].
Defined.

(** What a successful acquisition gives: every partition asked for. *)
Lemma leaseRow_acquired owner now ttl l : forall rows out rows' out',
  foldl (leaseRow owner now ttl) (inl (rows, out)) l = inl (rows', out') ->
  (length out' <= length out + length l)%nat /\
  (forall p, p ∈ out -> rows !! p = Some (LeaseRow.mk owner (now + ttl)) ->
     rows' !! p = Some (LeaseRow.mk owner (now + ttl))) /\
  (length out' = length out + length l -> forall p, p ∈ l -> rows' !! p = Some (LeaseRow.mk owner (now + ttl))).
Proof.
  induction l as [|q l IH]; intros rows out rows' out'; cbn [foldl].
  { intros [= <- <-]. simpl. split; [lia|]. split; [done|set_solver]. }
  intros H. destruct (leaseRow owner now ttl (inl (rows, out)) q) as [[rows1 out1]|m] eqn:E.
  2:{ by rewrite leaseRow_failed in H. }
  destruct (IH _ _ _ _ H) as (Hlen & Hkeep & Hall). unfold leaseRow in E.
  destruct (negb _); [done|]. case_bool_decide as Hq; [done|].
  assert ((rows1 = rows /\ out1 = out) \/ (rows1 = <[q := LeaseRow.mk owner (now + ttl)]> rows /\ out1 = out ++ [q]))
    as [[-> ->]|[-> ->]] by (repeat case_hyp E; simplify_eq; eauto).
  - simpl. split; [lia|]. split; [done|]. intros Hl. lia.
  - rewrite length_app in *. simpl in *. split; [lia|]. split.
    + intros p Hp Hrow. apply Hkeep; [set_solver|]. by rewrite lookup_insert_ne by (intros ->; done).
    + intros Hl p [->|Hp]%elem_of_cons; [|apply Hall; [lia|done]].
      apply Hkeep; [set_solver|]. by rewrite lookup_insert_eq.
Qed.

Lemma AcquirePartitions_Ok owner ps ttl srv n d granted n' d' :
  AcquirePartitions owner ps ttl srv (n, d) = (Ok granted, (n', d')) ->
  if granted then exists ttl', interval ttl = Some ttl' /\ forall q, q ∈ ps ->
    alert_partition_leases d' !! int16 q = Some (LeaseRow.mk owner (sqlNow srv + ttl')%Z)
  else alert_partition_leases d' = alert_partition_leases d.
Proof.
  intros E. unfold AcquirePartitions in E. case_hyp E; [done|].
  apply transaction_Ok in E as (commits & n1 & d1 & (count & [n2 d2] & H1%exec_Ok & H2)%bind_Ok & ->).
  destruct (Nat.eqb_spec count (length ps)) as [Hcount|Hcount]; cbn [negb] in H2;
    injection H2 as <- <- _ <-; [|done].
  unfold acquireLeases in H1. destruct (interval ttl) as [ttl'|] eqn:Et; [|done].
  destruct (foldl _ _ _) as [[rows out]|m] eqn:Ef; [|done]. injection H1 as Hc <-.
  destruct (leaseRow_acquired _ _ _ _ _ _ _ _ Ef) as (_ & _ & Hall).
  exists ttl'. split; [done|]. intros q Hq. apply Hall; [|unfold smallintPartitions; apply list_elem_of_fmap; eauto].
  unfold smallintPartitions. rewrite length_fmap. simpl. lia.
Qed.

Lemma noPanic_AcquirePartitions owner ps ttl : noPanic (AcquirePartitions owner ps ttl).
Proof.
  unfold AcquirePartitions. case_goal; [auto with alerts|]. apply noPanic_transaction, noPanic_bind; [auto with alerts|].
  intros k. case_goal; auto with alerts.
Qed.

(** Leases are acquired together or not at all. If [AcquirePartitions]
    reports success the owner has every partition it asked for until the same
    moment; if it reports that it did not, or fails before the commit, no
    lease has changed. *)
Theorem acquire_all_or_none (owner : string) (ps : list Z) (ttl : Duration) (p p' : Postgres) (res : Res StoreError bool) :
  run (AcquirePartitions owner ps ttl) p = (res, p') ->
  match res with
  | Ok true => exists until, forall q, q ∈ ps ->
      alert_partition_leases p'.(db) !! int16 q = Some (LeaseRow.mk owner until)
  | Ok false => alert_partition_leases p'.(db) = alert_partition_leases p.(db)
  | Err _ => reliable p.(server) -> alert_partition_leases p'.(db) = alert_partition_leases p.(db)
  | Panic => False
  end.
Proof.
  unfold run. destruct (AcquirePartitions _ _ _ _ _) as [res0 [n d]] eqn:E. intros [= <- <-]. simpl.
  destruct res0 as [granted|e|].
  - apply AcquirePartitions_Ok in E. destruct granted; [|done]. destruct E as (ttl' & _ & H). eauto.
  - intros Hr. unfold AcquirePartitions in E. case_hyp E; [by injection E as _ _ <-|].
    apply transaction_Err in E as [d1 ->]; [done|done|by intros []].
  - pose proof (noPanic_AcquirePartitions owner ps ttl (server p) (0, db p)) as Hnp. by rewrite E in Hnp.
Qed.

Lemma acquire_all_or_none_witness :
  exists until, forall q, q ∈ [142; 7]%Z ->
    alert_partition_leases (run (AcquirePartitions "a" [142; 7]%Z (15 * Second)%Z) (Postgres.mk pgStart working)).2.(db)
      !! int16 q = Some (LeaseRow.mk "a" until).
Proof.
  exact (acquire_all_or_none "a" [142; 7]%Z (15 * Second)%Z (Postgres.mk pgStart working) _ (Ok true) eq_refl).
Defined.

(** ** The outbox *)

Lemma due_after_claim now now' row :
  (now' < now + 30 * Second)%Z -> due now' (claimRow now row) = false.
Proof.
  intros H. unfold due, claimRow. simpl. apply andb_false_iff. right. apply Z.leb_gt. lia.
Qed.

(** The rows a claim takes. *)
Definition taken (now : Time) (limit : Z) (rows : list OutboxRow) : list OutboxRow :=
  take (Z.to_nat limit) (merge_sort outboxLe (filter (fun row => due now row = true) rows)).

Lemma taken_elem now limit rows row : row ∈ taken now limit rows -> row ∈ rows /\ due now row = true.
Proof.
  unfold taken. intros (i & Hi%list_elem_of_lookup_2 & _)%elem_of_take.
  rewrite merge_sort_Permutation in Hi. by apply list_elem_of_filter in Hi as [? ?].
Qed.

Lemma claimOutbox_Ok limit srv d out d' :
  claimOutbox limit srv d = (inr out, d') ->
  (forall a, a ∈ out -> a ∈ OutboxRow.payload <$> taken (sqlNow srv) limit (alert_event_outbox d)) /\
  alert_event_outbox d' =
    (fun row => if bool_decide (row.(OutboxRow.cursor) ∈
                     OutboxRow.cursor <$> taken (sqlNow srv) limit (alert_event_outbox d))
                then claimRow (sqlNow srv) row else row) <$> alert_event_outbox d.
Proof.
  unfold claimOutbox, limited. fold (taken (sqlNow srv) limit (alert_event_outbox d)). case_goal; [done|].
  intros [= <- <-]. split; [|done]. intros a (row & -> & Hin)%list_elem_of_fmap.
  apply list_elem_of_omap in Hin as (c & _ & Hhead). apply head_Some_elem_of in Hhead.
  apply list_elem_of_filter in Hhead as [_ Hrow]. apply list_elem_of_fmap. eauto.
Qed.

(** The row [c], of the alert [a] in its attempt [k], is not due before
    [until]; if it is [kept], it is there. *)
Record rests (until : Time) (c : Z) (a : string) (k : Z) (kept : bool) (d : Database) : Prop := {
  rests_cursor : (c <= alert_event_outbox_cursor_seq d)%Z;
  rests_row : forall row, row ∈ alert_event_outbox d -> row.(OutboxRow.cursor) = c ->
    row.(OutboxRow.alert_id) = a /\ row.(OutboxRow.attempts) = k /\
    (row.(OutboxRow.published_at) <> None \/ (until <= row.(OutboxRow.next_attempt_at))%Z);
  rests_kept : kept = true -> exists row, row ∈ alert_event_outbox d /\ row.(OutboxRow.cursor) = c }.

Lemma insertOutbox_new now l : forall rows seq rows' seq',
  foldl (insertOutboxRow now) (rows, seq) l = (rows', seq') ->
  (seq <= seq')%Z /\ exists new, rows' = rows ++ new /\ Forall (fun row => (seq < row.(OutboxRow.cursor))%Z) new.
Proof.
  induction l as [|alert l IH]; intros rows seq rows' seq'; cbn [foldl].
  { intros [= <- <-]. split; [lia|]. exists []. split; [by rewrite app_nil_r|constructor]. }
  unfold insertOutboxRow at 2. case_bool_decide; intros (Hle & new & -> & Hnew)%IH; (split; [lia|]).
  - exists new. split; [done|]. eapply Forall_impl; [exact Hnew|]. simpl. lia.
  - eexists (_ :: new). rewrite <- app_assoc. split; [reflexivity|]. constructor; [simpl; lia|].
    eapply Forall_impl; [exact Hnew|]. simpl. lia.
Qed.

Section Rests.
Context (until : Time) (c : Z) (a : string) (k : Z) (kept : bool).
Notation P := (rests until c a k kept).
Implicit Types (d : Database).

Lemma rests_frame d d' :
  alert_event_outbox d' = alert_event_outbox d -> alert_event_outbox_cursor_seq d' = alert_event_outbox_cursor_seq d ->
  P d -> P d'.
Proof. intros Ho Hs []. split; by rewrite ?Ho, ?Hs. Qed.

Lemma rests_rollback d d' : P d -> P d' -> P (rollback d d').
Proof. intros [] []. by split. Qed.

(** Rows that change one by one, and keep their cursors. *)
Lemma rests_map (f : OutboxRow -> OutboxRow) d :
  (forall row, row ∈ alert_event_outbox d -> (f row).(OutboxRow.cursor) = row.(OutboxRow.cursor)) ->
  (forall row, row ∈ alert_event_outbox d -> row.(OutboxRow.cursor) = c ->
     (f row).(OutboxRow.alert_id) = row.(OutboxRow.alert_id) /\ (f row).(OutboxRow.attempts) = row.(OutboxRow.attempts) /\
     ((f row).(OutboxRow.published_at) <> None \/ f row = row \/ (until <= (f row).(OutboxRow.next_attempt_at))%Z)) ->
  P d -> P (with_outbox d (f <$> alert_event_outbox d) (alert_event_outbox_cursor_seq d)).
Proof.
  intros Hcur Hrow [Hc Hr Hk]. split; [done| |].
  - intros row' (row & -> & Hin)%list_elem_of_fmap Hrc. rewrite Hcur in Hrc by done.
    destruct (Hr row Hin Hrc) as (Ha & Hatt & Hrest), (Hrow row Hin Hrc) as (-> & -> & H). split; [done|]. split; [done|].
    destruct H as [?|[->|?]]; auto.
  - intros (row & Hin & Hrc)%Hk. exists (f row). split; [simpl; apply list_elem_of_fmap; eauto|]. by rewrite Hcur.
Qed.

Lemma rests_elsewhere {A} (st : Statement A) :
  (forall srv d, alert_event_outbox (st srv d).2 = alert_event_outbox d /\
     alert_event_outbox_cursor_seq (st srv d).2 = alert_event_outbox_cursor_seq d) ->
  keeps P (exec st).
Proof. intros H. apply keeps_exec. intros srv d. destruct (H srv d). by apply rests_frame. Qed.

Lemma rests_insertOutbox l : keeps P (exec (insertOutbox l)).
Proof.
  apply keeps_exec. intros srv d [Hc Hr Hk]. unfold insertOutbox. case_goal; [by split|].
  destruct (foldl _ _ _) as [rows seq] eqn:E. apply insertOutbox_new in E as (Hle & new & -> & Hnew).
  case_goal; simpl; (split; simpl; [lia| |]); [|intros (row & Hin & Hrc)%Hk; exists row; set_solver|done..].
  intros row [Hin|Hin]%elem_of_app Hrc; [by apply Hr|]. rewrite Forall_forall in Hnew. specialize (Hnew row Hin).
  simpl in Hnew. lia.
Qed.

Lemma rests_updateOutbox id (f : Time -> OutboxRow -> OutboxRow) srv n d :
  (forall row, (f (sqlNow srv) row).(OutboxRow.cursor) = row.(OutboxRow.cursor)) ->
  (forall row, row ∈ alert_event_outbox d -> row.(OutboxRow.cursor) = c -> row.(OutboxRow.alert_id) = id ->
     (f (sqlNow srv) row).(OutboxRow.alert_id) = row.(OutboxRow.alert_id) /\
     (f (sqlNow srv) row).(OutboxRow.attempts) = row.(OutboxRow.attempts) /\
     ((f (sqlNow srv) row).(OutboxRow.published_at) <> None \/
      (until <= (f (sqlNow srv) row).(OutboxRow.next_attempt_at))%Z)) ->
  P d -> P (exec (updateOutbox id f) srv (n, d)).2.2.
Proof.
  intros Hcur Hrow Hd. unfold exec, updateOutbox. destruct (isUUID id); simpl; [|by repeat case_goal].
  assert (P (with_outbox d ((fun row => if bool_decide (row.(OutboxRow.alert_id) = id) then f (sqlNow srv) row else row)
               <$> alert_event_outbox d) (alert_event_outbox_cursor_seq d))) as H; [|by repeat case_goal].
  apply rests_map; [|intros row Hin Hrc|done]; [intros row _; by case_bool_decide|].
  case_bool_decide as Hid; [|by auto]. destruct (Hrow row Hin Hrc Hid) as (? & ? & [?|?]); auto.
Qed.

(** A claim before [until] takes other rows. *)
Lemma rests_taken now limit d :
  (now < until)%Z -> P d -> c ∉ OutboxRow.cursor <$> taken now limit (alert_event_outbox d).
Proof.
  intros Hlt [_ Hr _] (row & Hrc & [Hin Hdue]%taken_elem)%list_elem_of_fmap.
  unfold due in Hdue. apply andb_true_iff in Hdue as [Hp%bool_decide_eq_true Hn].
  destruct (Hr row Hin (eq_sym Hrc)) as (_ & _ & [?|?]); [done|lia].
Qed.

Lemma rests_claimOutbox limit srv d : (sqlNow srv < until)%Z -> P d -> P (claimOutbox limit srv d).2.
Proof.
  intros Hlt Hd. pose proof (rests_taken _ limit d Hlt Hd) as Hno. unfold claimOutbox, limited.
  fold (taken (sqlNow srv) limit (alert_event_outbox d)). case_goal; [done|]. simpl.
  apply rests_map; [intros row _; by case_bool_decide|intros row Hin Hrc|done].
  rewrite bool_decide_eq_false_2 by (by rewrite Hrc). auto.
Qed.
End Rests.

#[export] Hint Resolve rests_insertOutbox : alerts.
Ltac outsideOutbox := apply rests_elsewhere; let v := fresh "srv" in let t := fresh "t" in intros v t; unfold limited; cbv beta;
  repeat match goal with |- context [match ?x with _ => _ end] => destruct x; cbn [snd] end; by split.

Lemma rests_unlessEmpty until c a k kept {A} n (s : Session A) :
  keeps (rests until c a k kept) s -> keeps (rests until c a k kept) (unlessEmpty n s).
Proof. intros Hs. unfold unlessEmpty. case_goal; [auto with alerts|]. apply keeps_bind; auto with alerts. Qed.

Lemma rests_CommitRuntimeBatch until c a k kept b : keeps (rests until c a k kept) (CommitRuntimeBatch b).
Proof.
  apply keeps_transaction; [apply rests_rollback|].
  apply keeps_bind; [|intros _; apply keeps_bind; [|intros _; apply keeps_bind]].
  - apply rests_unlessEmpty. case_goal; [unfold insertInbox; outsideOutbox|auto with alerts].
  - apply rests_unlessEmpty. case_goal; [unfold upsertSeries; outsideOutbox|auto with alerts].
  - apply keeps_bind; [apply rests_unlessEmpty; unfold deleteStates; outsideOutbox|]. intros _.
    case_goal; [|auto with alerts]. apply rests_unlessEmpty.
    case_goal; [unfold upsertDefinitionStates; outsideOutbox|auto with alerts].
  - intros _. apply keeps_bind; [|auto with alerts]. unfold commitAlerts. repeat case_goal; auto with alerts.
    apply keeps_bind; [unfold insertAlerts, insertEvents; outsideOutbox|]. intros out. apply keeps_bind; auto with alerts.
Qed.

Lemma rests_ApplyObservation until c a k kept now o : keeps (rests until c a k kept) (ApplyObservation now o).
Proof.
  unfold ApplyObservation. case_goal; [|auto with alerts]. apply keeps_transaction; [apply rests_rollback|].
  apply keeps_bind; [unfold insertInbox; outsideOutbox|]. intros n. case_goal; [auto with alerts|].
  apply keeps_bind; [outsideOutbox|]. intros ds. apply keeps_bind; [|auto with alerts].
  apply keeps_each. intros created d. unfold applyDefinition. case_goal; [auto with alerts|]. apply keeps_bind.
  { unfold lockState. apply keeps_bind; [outsideOutbox|intros _; apply keeps_bind; [outsideOutbox|intros _; outsideOutbox]]. }
  intros st. destruct (apply d o st now) as [[[st' alert] []]|]; cbn [negb]; [|auto with alerts|by intros srv m t H].
  apply keeps_bind; [unfold updateState; outsideOutbox|]. intros _. destruct alert as [alert|]; [|auto with alerts].
  apply keeps_bind; [unfold insertEvents; outsideOutbox|]. intros out. apply keeps_bind; auto with alerts.
Qed.

(** A call that meets [srv]: no claim at [until] or later, no failure of [a]
    reported whose delay ends before [until]; no maintenance, if the row has
    to stay. *)
Definition quiet (until : Time) (a : string) (k : Z) (kept : bool) (call : Server * Call) : Prop :=
  let '(srv, c) := call in
  (sqlNow srv < until)%Z /\
  (forall message, c = CallFailed a message -> (until <= sqlNow srv + backoff k)%Z) /\
  (forall policy, c = CallMaintain policy -> kept = false).

Lemma rests_perform until c a k kept srv call d :
  quiet until a k kept (srv, call) -> rests until c a k kept d -> rests until c a k kept (perform call srv (0, d)).2.2.
Proof.
  intros (Hnow & Hfail & Hmaintain) Hd.
  assert (forall A (s : Session A), keeps (rests until c a k kept) s -> rests until c a k kept (s srv (0, d)).2.2) as Hs
    by (intros A s Hs; by apply Hs).
  destruct call; cbn [perform]; rewrite ?discard_state.
  - apply Hs. unfold CreateDefinition. case_goal; [unfold upsertDefinition; outsideOutbox|auto with alerts].
  - apply Hs. unfold SetEnabled. outsideOutbox.
  - apply Hs. unfold ArchiveDefinition. apply keeps_bind; [outsideOutbox|]. intros n. case_goal; auto with alerts.
  - apply Hs, rests_ApplyObservation.
  - apply Hs, rests_CommitRuntimeBatch.
  - unfold ClaimPending, exec. pose proof (rests_claimOutbox until c a k kept limit srv d Hnow Hd) as H.
    destruct (claimOutbox limit srv d) as [[m|out] d']; simpl in *; by repeat case_goal.
  - apply rests_updateOutbox; [done| |done]. intros row _ _ _. split; [done|]. split; [done|]. by left.
  - apply rests_updateOutbox; [done| |done]. intros row Hin Hrc <-. split; [done|]. split; [done|]. right.
    destruct (rests_row _ _ _ _ _ _ Hd row Hin Hrc) as (Ha & Hk & _). simpl. rewrite Hk. apply (Hfail message). by rewrite Ha.
  - apply Hs. unfold Maintain. specialize (Hmaintain policy eq_refl) as ->. apply keeps_bind.
    + case_goal; [|auto with alerts]. apply keeps_exec. intros srv' t Ht. unfold deleteEvents.
      destruct (interval _) as [keep|]; [|done].
      destruct (@limited EventRow _ _) as [m|doomed]; [done|]. destruct Ht as [Hc Hr _]. split; [done| |done]. simpl.
      intros row [_ Hin]%list_elem_of_filter. by apply Hr.
    + intros n. apply keeps_bind; [|auto with alerts]. case_goal; [unfold deleteInbox; outsideOutbox|auto with alerts].
  - apply Hs. unfold AcquirePartitions. case_goal; [auto with alerts|]. apply keeps_transaction; [apply rests_rollback|].
    apply keeps_bind; [unfold acquireLeases; outsideOutbox|]. intros n. case_goal; auto with alerts.
  - apply Hs. unfold RenewPartitions. apply keeps_bind; [unfold renewLeases; outsideOutbox|auto with alerts].
  - apply Hs. unfold ReleasePartitions. outsideOutbox.
Qed.

(** The tables after more calls. *)
Definition afterCalls (calls : list (Server * Call)) (d : Database) : Database :=
  foldl (fun d '(srv, c) => (perform c srv (0, d)).2.2) d calls.

Lemma rests_afterCalls until c a k kept calls : forall d,
  Forall (quiet until a k kept) calls -> rests until c a k kept d -> rests until c a k kept (afterCalls calls d).
Proof.
  induction calls as [|[srv call] calls IH]; intros d Hq Hd; [done|]. apply Forall_cons in Hq as [Hc Hq].
  apply IH; [done|]. by apply rests_perform.
Qed.

Lemma afterCalls_sound calls : forall d, coreOk d -> coreOk (afterCalls calls d).
Proof. induction calls as [|[srv call] calls IH]; intros d Hd; [done|]. by apply IH, perform_sound. Qed.

Lemma cursor_unique d row row' :
  coreOk d -> row ∈ alert_event_outbox d -> row' ∈ alert_event_outbox d ->
  row'.(OutboxRow.cursor) = row.(OutboxRow.cursor) -> row' = row.
Proof.
  intros [_ [_ [Hsorted _] _] _ _ _ _] [i Hi]%list_elem_of_lookup_1 [j Hj]%list_elem_of_lookup_1 Hc.
  assert (NoDup (OutboxRow.cursor <$> alert_event_outbox d)) as Hnd.
  { induction Hsorted as [|c l _ IH Hl]; constructor; [|done]. intros Hin. rewrite Forall_forall in Hl.
    specialize (Hl c Hin). lia. }
  assert (j = i) as ->; [|congruence]. eapply NoDup_lookup; [exact Hnd|by rewrite list_lookup_fmap, Hj|].
  rewrite list_lookup_fmap, Hi. simpl. by rewrite Hc.
Qed.

(** A row that was taken rests for thirty seconds. *)
Lemma taken_rests limit srv d out d1 row until kept :
  coreOk d -> claimOutbox limit srv d = (inr out, d1) -> row ∈ taken (sqlNow srv) limit (alert_event_outbox d) ->
  (until <= sqlNow srv + 30 * Second)%Z ->
  rests until row.(OutboxRow.cursor) row.(OutboxRow.alert_id) (row.(OutboxRow.attempts) + 1) kept d1.
Proof.
  intros Hcore H1 Hrow Huntil. pose proof (core_outbox _ Hcore) as [_ [_ Hle] _].
  pose proof (taken_elem _ _ _ _ Hrow) as [Hin _].
  assert (alert_event_outbox_cursor_seq d1 = alert_event_outbox_cursor_seq d) as Hseq.
  { unfold claimOutbox in H1. destruct (limited _ _); [done|]. by injection H1 as _ <-. }
  assert (row.(OutboxRow.cursor) ∈ OutboxRow.cursor <$> taken (sqlNow srv) limit (alert_event_outbox d)) as Hc
    by (apply list_elem_of_fmap; eauto).
  apply claimOutbox_Ok in H1 as [_ Hd1]. split.
  - rewrite Hseq. rewrite Forall_forall in Hle. apply Hle. apply list_elem_of_fmap. eauto.
  - rewrite Hd1. intros row1 (row0 & -> & Hin0)%list_elem_of_fmap Hrc.
    assert (row0.(OutboxRow.cursor) = row.(OutboxRow.cursor)) as Hrc0 by (revert Hrc; by case_bool_decide).
    assert (row0 = row) as -> by (by eapply cursor_unique). rewrite bool_decide_eq_true_2 by done. simpl.
    split; [done|]. split; [done|]. right. lia.
  - intros _. rewrite Hd1. eexists. split; [apply list_elem_of_fmap; exists row; done|]. by case_bool_decide.
Qed.

(** C22: an alert is not claimed twice within thirty seconds. After a claim
    took a row, let any calls of any publishers, engines and operators follow,
    successful or failed, in any number, but for two. A reported failure of
    the alert replaces the thirty seconds by the backoff of its attempts,
    from the time of the report: [until] is at most thirty seconds after the
    claim and at most the backoff after each such report. And maintenance may
    delete the row, once the alert is published. Then a claim before [until]
    does not take the row again; and if there was no maintenance in between,
    it takes no row of the same alert: publishers that share the outbox do
    not publish the same alert, unless the first has had its time. What a
    claim returns are alerts of rows it took, and none of them was published. *)
Theorem claims_disjoint (limit limit' : Z) (srv srv' : Server) (d d1 d2 : Database) (out out' : list Alert)
  (calls : list (Server * Call)) (row : OutboxRow) (until : Time) (maintained : bool) :
  coreOk d ->
  claimOutbox limit srv d = (inr out, d1) -> row ∈ taken (sqlNow srv) limit (alert_event_outbox d) ->
  (until <= sqlNow srv + 30 * Second)%Z ->
  Forall (quiet until row.(OutboxRow.alert_id) (row.(OutboxRow.attempts) + 1) (negb maintained)) calls ->
  claimOutbox limit' srv' (afterCalls calls d1) = (inr out', d2) -> (sqlNow srv' < until)%Z ->
  let again := taken (sqlNow srv') limit' (alert_event_outbox (afterCalls calls d1)) in
  row.(OutboxRow.published_at) = None /\
  row.(OutboxRow.cursor) ∉ OutboxRow.cursor <$> again /\
  (maintained = false -> row.(OutboxRow.alert_id) ∉ OutboxRow.alert_id <$> again) /\
  (forall a, a ∈ out -> a ∈ OutboxRow.payload <$> taken (sqlNow srv) limit (alert_event_outbox d)) /\
  (forall a, a ∈ out' -> a ∈ OutboxRow.payload <$> again).
Proof.
  intros Hcore H1 Hrow Huntil Hq H2 Hlt again.
  pose proof (taken_rests _ _ _ _ _ _ _ (negb maintained) Hcore H1 Hrow Huntil) as Hrest.
  apply (rests_afterCalls _ _ _ _ _ _ _ Hq) in Hrest.
  pose proof (rests_taken _ _ _ _ _ (sqlNow srv') limit' _ Hlt Hrest) as Hno. fold again in Hno.
  split. { apply taken_elem in Hrow as [_ Hdue]. unfold due in Hdue. apply andb_true_iff in Hdue as [Hp _].
           by apply bool_decide_eq_true in Hp. }
  split; [done|]. split; [|by split; [apply claimOutbox_Ok in H1 as [? _]|apply claimOutbox_Ok in H2 as [? _]]].
  intros -> (row' & Ha & Hin')%list_elem_of_fmap. apply Hno, list_elem_of_fmap.
  destruct (rests_kept _ _ _ _ _ _ Hrest eq_refl) as (row1 & Hin1 & Hc1). exists row'. split; [|done].
  destruct (rests_row _ _ _ _ _ _ Hrest row1 Hin1 Hc1) as (Ha1 & _ & _). rewrite <- Hc1. f_equal.
  apply taken_elem in Hin' as [Hin' _].
  assert (coreOk (afterCalls calls d1)) as [_ [Hids _ _] _ _ _ _].
  { apply afterCalls_sound. pose proof (sound_claimOutbox limit (alert_events_cursor_seq d)
      (alert_event_outbox_cursor_seq d) srv d) as Hs. rewrite H1 in Hs. by apply Hs. }
  apply list_elem_of_lookup_1 in Hin' as [i Hi], Hin1 as [j Hj].
  assert (i = j) as ->; [|congruence]. eapply NoDup_lookup; [exact Hids|by rewrite list_lookup_fmap, Hi|].
  rewrite list_lookup_fmap, Hj. simpl. by rewrite Ha1, Ha.
Qed.

(** Two publishers, twenty-nine seconds apart; in between, the batch is
    committed again, there is another claim, and a failure of another alert is
    reported. *)
Definition queued : Database := history [(working, CallCreate pgDefinition); (working, CallCommit pgBatch)].
Definition later (k : Z) : Server := Server.mk (start + Hour + k * Second) (fun _ => None) [] [1%Z; 2%Z; 3%Z].
Definition between : list (Server * Call) :=
  [(later 2, CallCommit pgBatch); (later 3, CallClaim 100); (later 4, CallFailed pgDefinition.(AlertDefinition.ID) "timeout")].
Definition claimed : Database := (claimOutbox 100 (later 1) queued).2.

Lemma queued_ok : coreOk queued.
Proof. exact (afterCalls_sound [(working, CallCreate pgDefinition); (working, CallCommit pgBatch)] _ coreOk_empty). Qed.

Lemma claims_disjoint_witness :
  length (taken (sqlNow (later 1)) 100 (alert_event_outbox queued)) = 1 /\
  (forall row, row ∈ taken (sqlNow (later 1)) 100 (alert_event_outbox queued) ->
     row.(OutboxRow.alert_id) ∉ OutboxRow.alert_id <$>
       taken (sqlNow (later 30)) 100 (alert_event_outbox (afterCalls between claimed))).
Proof.
  split; [vm_compute; reflexivity|]. intros row Hrow.
  assert (row.(OutboxRow.alert_id) = pgAlert.(Alert.ID)) as Hid.
  { assert (forallb (fun row => row.(OutboxRow.alert_id) == pgAlert.(Alert.ID))
              (taken (sqlNow (later 1)) 100 (alert_event_outbox queued)) = true) as H by (vm_compute; reflexivity).
    rewrite forallb_forall in H. apply String.eqb_eq, H. by apply list_elem_of_In. }
  destruct (claims_disjoint 100 100 (later 1) (later 30) queued claimed (claimOutbox 100 (later 30) (afterCalls between claimed)).2
    [Alert.with_Cursor pgAlert 1] [] between row (sqlNow (later 31)) false queued_ok) as (_ & _ & H & _).
  - vm_compute. reflexivity.
  - exact Hrow.
  - vm_compute. discriminate.
  - rewrite Hid.
    assert (forall k c, (sqlNow (later k) < sqlNow (later 31))%Z ->
        (match c with CallFailed id _ => id <> pgAlert.(Alert.ID) | CallMaintain _ => False | _ => True end) ->
        quiet (sqlNow (later 31)) pgAlert.(Alert.ID) (row.(OutboxRow.attempts) + 1) true (later k, c)) as Hq.
    { intros k c Hk Hc. split; [exact Hk|].
      split; [intros m ->; by destruct Hc|intros p ->; by destruct Hc]. }
    repeat (apply Forall_cons; split; [apply Hq; [vm_compute; reflexivity|exact I || (intros E; discriminate E)]|]). apply Forall_nil_2.
  - vm_compute. reflexivity.
  - vm_compute. reflexivity.
  - exact (H eq_refl).
Defined.

(** The delay after a failure, for the attempts there can be: it doubles from
    two seconds and stops at 256, so the bound of 300 is never reached. *)
Lemma backoff_bounds attempts :
  (1 <= attempts)%Z -> (2 * Second <= backoff attempts <= 256 * Second)%Z.
Proof.
  intros H. unfold backoff.
  assert (2 ^ 1 <= 2 ^ Z.min attempts 8 <= 2 ^ 8)%Z by (split; apply Z.pow_le_mono_r; lia).
  unfold Second. lia.
Qed.

(** ** Retention *)

(** The deletions of a maintenance run, at [now]: what may be gone from the
    tables of [d] in those of [d']. *)
Record retained (policy : RetentionPolicy.RetentionPolicy) (now : Time) (d d' : Database) : Prop := {
  retained_events : forall e, e ∈ alert_events d -> e ∉ alert_events d' ->
    exists keep, interval policy.(RetentionPolicy.AlertEvents) = Some keep /\
      (0 < policy.(RetentionPolicy.AlertEvents))%Z /\ (e.(EventRow.triggered_at) < now - keep)%Z;
  retained_outbox : forall row, row ∈ alert_event_outbox d -> row.(OutboxRow.published_at) = None ->
    row ∈ alert_event_outbox d';
  retained_alerts : forall e row, e ∈ alert_events d -> row ∈ alert_event_outbox d ->
    row.(OutboxRow.alert_id) = e.(EventRow.id) -> row.(OutboxRow.published_at) = None -> e ∈ alert_events d';
  retained_inbox : forall id row, alert_inbox d !! id = Some row -> alert_inbox d' !! id = None ->
    id ∉ EventRow.source_event_id <$> alert_events d' /\
    exists keep, interval (if row.(InboxRow.payload).(Observation.Status) == "provisional"
                           then policy.(RetentionPolicy.ProvisionalInbox)
                           else policy.(RetentionPolicy.ConfirmedInbox)) = Some keep /\
      (row.(InboxRow.received_at) < now - keep)%Z;
  retained_same : alert_definitions d' = alert_definitions d /\
    alert_series_runtime_state d' = alert_series_runtime_state d /\
    alert_definition_runtime_state d' = alert_definition_runtime_state d /\
    alert_partition_leases d' = alert_partition_leases d }.

Lemma retained_refl policy now d : retained policy now d d.
Proof. split; try done. intros id row H1 H2. congruence. Qed.

Lemma outboxOf_unique rows row :
  NoDup (OutboxRow.alert_id <$> rows) -> row ∈ rows -> outboxOf row.(OutboxRow.alert_id) rows = Some row.
Proof.
  intros Hnd Hin. unfold outboxOf. destruct (head _) as [row'|] eqn:E.
  - apply head_Some_elem_of, list_elem_of_filter in E as [Hid Hin']. f_equal.
    apply list_elem_of_lookup_1 in Hin as [i Hi], Hin' as [j Hj].
    assert (i = j) as ->; [|congruence].
    eapply NoDup_lookup; [exact Hnd|by rewrite list_lookup_fmap, Hi|rewrite list_lookup_fmap, Hj; simpl; by rewrite Hid].
  - exfalso. assert (row ∈ filter (fun r => OutboxRow.alert_id r = OutboxRow.alert_id row) rows) as H
      by (by apply list_elem_of_filter).
    destruct (filter _ rows); [set_solver|done].
Qed.

(** What [deleteEvents] removes. *)
Lemma deleteEvents_retained policy srv d n :
  coreOk d -> (0 < policy.(RetentionPolicy.AlertEvents))%Z ->
  retained policy (sqlNow srv) d (deleteEvents policy.(RetentionPolicy.AlertEvents) n srv d).2 /\
  alert_inbox (deleteEvents policy.(RetentionPolicy.AlertEvents) n srv d).2 = alert_inbox d.
Proof.
  intros Hc Hpos. unfold deleteEvents. destruct (interval _) as [keep|] eqn:Ei; [|by split; [apply retained_refl|]].
  destruct (limited _ _) as [m|doomed] eqn:El; [by split; [apply retained_refl|]|].
  assert (forall e, e ∈ doomed -> e ∈ alert_events d /\
            expiredEvent (sqlNow srv) keep (alert_event_outbox d) e = true) as Hdoomed.
  { intros e He. unfold limited in El. case_hyp El; [done|]. injection El as <-.
    apply elem_of_take in He as (i & He%list_elem_of_lookup_2 & _). rewrite merge_sort_Permutation in He.
    by apply list_elem_of_filter in He as [? ?]. }
  assert (forall id, id ∈ EventRow.id <$> doomed -> exists row, row ∈ alert_event_outbox d /\
            row.(OutboxRow.alert_id) = id /\ row.(OutboxRow.published_at) <> None) as Hpub.
  { intros id (e & -> & [He Hexp]%Hdoomed)%list_elem_of_fmap. unfold expiredEvent in Hexp.
    apply andb_true_iff in Hexp as [_ Hexp]. destruct (outboxOf _ _) as [row|] eqn:Eo; [|done].
    apply negb_true_iff, bool_decide_eq_false in Hexp. unfold outboxOf in Eo.
    apply head_Some_elem_of, list_elem_of_filter in Eo as [? ?]. eauto. }
  assert (forall row, row ∈ alert_event_outbox d -> row.(OutboxRow.published_at) = None ->
            row.(OutboxRow.alert_id) ∉ EventRow.id <$> doomed) as Hkeep.
  { intros row Hrow Hn (row' & Hrow' & Hid & Hp)%Hpub. pose proof (outbox_ids _ _ _ (core_outbox _ Hc)) as Hnd.
    pose proof (outboxOf_unique _ _ Hnd Hrow) as E1. pose proof (outboxOf_unique _ _ Hnd Hrow') as E2.
    rewrite Hid, E1 in E2. by injection E2 as ->. }
  split; [|done]. split; try done; simpl.
  - intros e He Hgone. exists keep. split; [done|]. split; [done|].
    assert (e.(EventRow.id) ∈ EventRow.id <$> doomed) as Hin.
    { apply dec_stable. intros Hn. apply Hgone. by apply list_elem_of_filter. }
    apply list_elem_of_fmap in Hin as (e' & Hid & [He' Hexp]%Hdoomed).
    assert (e' = e) as ->.
    { apply list_elem_of_lookup_1 in He as [i Hi], He' as [j Hj]. assert (i = j) as ->; [|congruence].
      eapply NoDup_lookup; [exact (events_ids _ _ _ _ (core_events _ Hc))|by rewrite list_lookup_fmap, Hi|].
      rewrite list_lookup_fmap, Hj. simpl. by rewrite Hid. }
    unfold expiredEvent in Hexp. apply andb_true_iff in Hexp as [Hexp _]. by apply Z.ltb_lt.
  - intros row Hrow Hn. apply list_elem_of_filter. split; [by apply Hkeep|done].
  - intros e row He Hrow Hid Hn. apply list_elem_of_filter. split; [|done]. rewrite <- Hid. by apply Hkeep.
  - intros id row H1 H2. congruence.
Qed.

Lemma deleteInbox_retained policy srv d n :
  retained policy (sqlNow srv) d
    (deleteInbox policy.(RetentionPolicy.ProvisionalInbox) policy.(RetentionPolicy.ConfirmedInbox) n srv d).2 /\
  alert_events (deleteInbox policy.(RetentionPolicy.ProvisionalInbox) policy.(RetentionPolicy.ConfirmedInbox) n srv d).2
    = alert_events d /\
  alert_event_outbox (deleteInbox policy.(RetentionPolicy.ProvisionalInbox) policy.(RetentionPolicy.ConfirmedInbox) n srv d).2
    = alert_event_outbox d.
Proof.
  unfold deleteInbox.
  destruct (interval (RetentionPolicy.ProvisionalInbox policy)) as [kp|] eqn:Ep,
    (interval (RetentionPolicy.ConfirmedInbox policy)) as [kc|] eqn:Ec; try (by split; [apply retained_refl|]).
  destruct (limited _ _) as [m|doomed] eqn:El; [by split; [apply retained_refl|]|]. split; [|done].
  split; try done. simpl. intros id row Hrow Hgone.
  apply map_lookup_filter_None in Hgone as [Hgone|Hgone]; [congruence|].
  specialize (Hgone _ Hrow). simpl in Hgone. apply dec_stable in Hgone.
  apply list_elem_of_fmap in Hgone as ([id' row'] & -> & Hin). unfold limited in El. case_hyp El; [done|]. injection El as <-.
  apply elem_of_take in Hin as (i & Hin%list_elem_of_lookup_2 & _). rewrite merge_sort_Permutation in Hin.
  apply list_elem_of_filter in Hin as [Hexp Hin%elem_of_map_to_list]. simpl in *.
  assert (row' = row) as -> by congruence. unfold expiredInbox in Hexp. simpl in Hexp.
  apply andb_true_iff in Hexp as [Hn Hage]. split; [by apply negb_true_iff, bool_decide_eq_false in Hn|].
  destruct (_ == _); [exists kp|exists kc]; (split; [done|]); lia.
Qed.

(** C23: retention deletes only what is done with. Whatever a maintenance run
    meets, an event that it deletes is older than the retention of events and
    its alert has been published: no alert is dropped that a publisher has
    yet to send. An observation it deletes from the inbox is older than the
    retention of its status, and no remaining event refers to it. Definitions,
    checkpoints and leases stay. *)
Theorem retention_safe (policy : RetentionPolicy.RetentionPolicy) (p p' : Postgres)
  (res : Res StoreError MaintenanceResult.MaintenanceResult) :
  coreOk p.(db) -> run (Maintain policy) p = (res, p') ->
  retained policy (sqlNow p.(server)) p.(db) p'.(db).
Proof.
  intros Hc. unfold run. destruct (Maintain _ _ _) as [res0 [n d']] eqn:E. intros [= _ <-]. simpl.
  unfold Maintain in E. set (size := if (_ <=? 0)%Z then _ else _) in E.
  set (c1 := if (_ >? 0)%Z then exec (deleteEvents _ _) else _) in E.
  set (c2 := if (_ && _)%Z then _ else _) in E.
  assert (forall n0 r n1 d1, c1 (server p) (n0, db p) = (r, (n1, d1)) ->
    retained policy (sqlNow (server p)) (db p) d1 /\ alert_inbox d1 = alert_inbox (db p)) as H1.
  { intros n0 r n1 d1 H. subst c1. destruct (Z.gtb_spec (RetentionPolicy.AlertEvents policy) 0).
    2:{ injection H as _ _ <-. split; [apply retained_refl|done]. }
    assert (d1 = db p \/ d1 = (deleteEvents policy.(RetentionPolicy.AlertEvents) size (server p) (db p)).2) as [->| ->].
    { unfold exec in H. repeat case_hyp H; simplify_eq; eauto. }
    - split; [apply retained_refl|done].
    - by apply deleteEvents_retained. }
  assert (forall d n0 r n1 d1, c2 (server p) (n0, d) = (r, (n1, d1)) ->
    retained policy (sqlNow (server p)) d d1 /\ alert_events d1 = alert_events d /\
    alert_event_outbox d1 = alert_event_outbox d) as H2.
  { intros d n0 r n1 d1 H. subst c2. destruct (_ && _).
    2:{ injection H as _ _ <-. split; [apply retained_refl|done]. }
    assert (d1 = d \/ d1 = (deleteInbox policy.(RetentionPolicy.ProvisionalInbox)
        policy.(RetentionPolicy.ConfirmedInbox) size (server p) d).2) as [->| ->].
    { unfold exec in H. repeat case_hyp H; simplify_eq; eauto. }
    - split; [apply retained_refl|done].
    - apply deleteInbox_retained. }
  unfold bind in E. destruct (c1 (server p) (0, db p)) as [[a|e|] [n1 d1]] eqn:E1; [|injection E as _ _ <-; by eapply H1..].
  apply H1 in E1 as [[R1 R2 R3 R4 R5] Hi].
  destruct (c2 (server p) (n1, d1)) as [r2 [n2 d2]] eqn:E2. apply H2 in E2 as [[S1 S2 S3 S4 S5] [He Ho]].
  assert (d' = d2) as -> by (by destruct r2; injection E as _ _ <-). rewrite <- He in *.
  split.
  - intros e Hin Hout. by apply R1.
  - intros row Hrow Hn. apply S2; [by apply R2|done].
  - intros e row ? ? ? ?. by eapply R3.
  - intros id row Hrow. apply S4. by rewrite Hi.
  - destruct R5 as (? & ? & ? & ?), S5 as (? & ? & ? & ?). split_and!; congruence.
Qed.

(** A week later, with the alert published and kept for a day. *)
Definition published : Database :=
  history [(working, CallCreate pgDefinition); (working, CallCommit pgBatch);
           (working, CallPublished pgAlert.(Alert.ID))].
Definition weekLater : Postgres :=
  Postgres.mk published (Server.mk (start + 168 * Hour) (fun _ => None) [] []).
Definition dayOfAlerts : RetentionPolicy.RetentionPolicy :=
  RetentionPolicy.mk Hour (24 * Hour) (24 * Hour) 100.
Definition swept : Res StoreError MaintenanceResult.MaintenanceResult * Postgres := run (Maintain dayOfAlerts) weekLater.

Lemma retention_safe_witness :
  length (alert_events published) = 1 /\ alert_events swept.2.(db) = [] /\ alert_inbox swept.2.(db) = ∅ /\
  retained dayOfAlerts (sqlNow weekLater.(server)) weekLater.(db) swept.2.(db).
Proof.
  split; [vm_compute; reflexivity|]. split; [vm_compute; reflexivity|]. split; [vm_compute; reflexivity|].
  exact (retention_safe dayOfAlerts weekLater swept.2 swept.1 (proj1 (history_ok _)) (surjective_pairing swept)).
Defined.
