(* ===== verification/MemoryProps.v ===== *)
(** * The in-memory repository keeps the repository's promises

    The log of alerts is a sequence of cursors 1, 2, ... with distinct
    identifiers, paged through completely by [ListAlerts]; a batch commits
    once; a lease has one owner; a definition is created once per hash. *)

From stdpp Require Import base gmap strings list numbers sorting.
From S2P Require Import Prelude GoFloat GoBase GoTime Model Rules Store StoreEvaluate Memory Fixtures.
Import Memory.

(** ** The log of alerts *)

(** The cursor of an alert is its position, counted from 1. *)
Definition cursorsOk (l : list Alert) : Prop :=
  forall i a, l !! i = Some a -> a.(Alert.Cursor) = Z.of_nat (i + 1).

Definition idsDistinct (l : list Alert) : Prop := NoDup (Alert.ID <$> l).

Definition logOk (l : list Alert) : Prop := cursorsOk l /\ idsDistinct l.

Lemma cursorsOk_snoc l a :
  cursorsOk l -> cursorsOk (l ++ [Alert.with_Cursor a (Z.of_nat (length l + 1))]).
Proof.
  intros H i b [Hi|[Hl Hi]]%lookup_app_Some; [by apply H|].
  destruct (i - length l) as [|k] eqn:E; [|done]. simplify_eq/=. lia.
Qed.

Lemma knownID_spec stored id :
  existsb (fun e => e.(Alert.ID) == id) stored = true <-> id ∈ Alert.ID <$> stored.
Proof.
  rewrite existsb_exists, list_elem_of_fmap. setoid_rewrite String.eqb_eq.
  setoid_rewrite list_elem_of_In. naive_solver.
Qed.

Lemma storeAlert_logOk stored created a :
  logOk stored -> logOk (storeAlert (stored, created) a).1.
Proof.
  intros [Hc Hi]. unfold storeAlert. destruct (existsb _ _) eqn:E; [done|]. simpl.
  split; [by apply cursorsOk_snoc|]. unfold idsDistinct in *. rewrite fmap_app. simpl.
  apply NoDup_app. repeat split; [done| |apply NoDup_singleton].
  intros x Hx ->%list_elem_of_singleton. simpl in Hx. apply knownID_spec in Hx. congruence.
Qed.

(** What the loop of the commit stores: the alerts of the batch whose
    identifier is neither in the log nor earlier in the batch. *)
Fixpoint fresh (known : list string) (l : list Alert) : list Alert :=
  match l with
  | [] => []
  | a :: rest => if bool_decide (a.(Alert.ID) ∈ known) then fresh known rest
                 else a :: fresh (known ++ [a.(Alert.ID)]) rest
  end.

(** Cursors given in sequence, from [n + 1]. *)
Fixpoint numbered (n : nat) (l : list Alert) : list Alert :=
  match l with
  | [] => []
  | a :: rest => Alert.with_Cursor a (Z.of_nat (n + 1)) :: numbered (S n) rest
  end.

Lemma storeAlert_fold l : forall stored created,
  foldl storeAlert (stored, created) l =
  (stored ++ numbered (length stored) (fresh (Alert.ID <$> stored) l),
   created ++ numbered (length stored) (fresh (Alert.ID <$> stored) l)).
Proof.
  induction l as [|a l IH]; intros stored created; simpl; [by rewrite !app_nil_r|].
  destruct (existsb _ _) eqn:E.
  - apply knownID_spec in E. rewrite bool_decide_eq_true_2 by done. apply IH.
  - assert (a.(Alert.ID) ∉ Alert.ID <$> stored) as E' by (rewrite <- knownID_spec; congruence).
    rewrite bool_decide_eq_false_2 by done. rewrite IH, fmap_app, length_app. simpl.
    rewrite Nat.add_1_r, <- !app_assoc. done.
Qed.

Lemma fresh_known l : forall known,
  (forall a, a ∈ l -> a.(Alert.ID) ∈ known) -> fresh known l = [].
Proof.
  induction l as [|a l IH]; intros known H; simpl; [done|].
  rewrite bool_decide_eq_true_2 by (apply H; set_solver). apply IH. set_solver.
Qed.

Lemma fresh_covers l : forall known a,
  a ∈ l -> a.(Alert.ID) ∈ known \/ a.(Alert.ID) ∈ Alert.ID <$> fresh known l.
Proof.
  induction l as [|b l IH]; intros known a; [set_solver|].
  rewrite elem_of_cons. simpl. case_bool_decide as Hb.
  - intros [->|Ha]; [by left|by apply IH].
  - rewrite fmap_cons, elem_of_cons.
    intros [->|Ha]; [by right; left|].
    destruct (IH (known ++ [Alert.ID b]) a Ha) as [H|H]; [|by right; right].
    apply elem_of_app in H as [H|H%list_elem_of_singleton]; [by left|by right; left].
Qed.

Lemma fresh_sublist l : forall known, fresh known l `sublist_of` l.
Proof.
  induction l as [|b l IH]; intros known; simpl; [constructor|].
  case_bool_decide; by constructor.
Qed.

Lemma numbered_IDs n l : Alert.ID <$> numbered n l = Alert.ID <$> l.
Proof. revert n. induction l as [|a l IH]; intros n; simpl; [done|]. by rewrite IH. Qed.

Lemma numbered_Forall2 l : forall n,
  Forall2 (fun a a0 => a = Alert.with_Cursor a0 a.(Alert.Cursor)) (numbered n l) l.
Proof. induction l as [|b l IH]; intros n; simpl; by constructor. Qed.

Lemma commit_split b m :
  commitRuntimeBatch b m =
  let new := numbered (length m.(alerts)) (fresh (Alert.ID <$> m.(alerts)) b.(RuntimeBatch.Alerts)) in
  (new,
   Memory.mk m.(definitions) m.(byHash) m.(archived) m.(states)
     (b.(RuntimeBatch.SeriesStates) ∪ m.(seriesRuntime))
     (b.(RuntimeBatch.DefinitionStates)
        ∪ dropAllSeries definitionSeriesKey b.(RuntimeBatch.ResetSeriesKeys) m.(definitionRuntime))
     (list_to_set (Observation.SourceEventID <$> b.(RuntimeBatch.Observations)) ∪ m.(inbox))
     (m.(alerts) ++ new) m.(leases)).
Proof. unfold commitRuntimeBatch. simpl. by rewrite storeAlert_fold. Qed.

(** ** The instance of the interface *)

#[export] Instance memory_repository : Repository Memory := {
  ListDefinitions env m := Ok (listDefinitions env m);
  LoadRuntimeStates _ m := Ok (loadRuntimeStates m);
  CommitRuntimeBatch b m := let '(created, m') := commitRuntimeBatch b m in (Ok created, m') }.

(** Every owner is loaded the whole checkpoint, so each key is at home in
    every partition. *)
#[export] Program Instance memory_laws : RepositoryLaws Memory := {
  runtimeOf := loadRuntimeStates;
  home _ _ _ := True;
  homeDefinition _ _ _ := True }.
Next Obligation. intros b m ? m'. simpl. rewrite commit_split. by intros [= _ <-]. Qed.
Next Obligation. intros b m e m'. simpl. by rewrite commit_split. Qed.
Next Obligation. intros b m. simpl. by rewrite commit_split. Qed.
Next Obligation.
  intros b m as_ m'. simpl. rewrite commit_split. simpl. intros [= <- _].
  eexists; split; [apply fresh_sublist|apply numbered_Forall2].
Qed.
Next Obligation. done. Qed.
Next Obligation. intros ps m s. simpl. intros [= <-]. repeat split; done. Qed.

(** ** Paging *)

Lemma takeMatching_app f limit l : forall out,
  (Z.of_nat (length out) < limit)%Z ->
  takeMatching f limit out l = out ++ take (Z.to_nat limit - length out) (filter (fun a => f a = true) l).
Proof.
  induction l as [|a l IH]; intros out Hl; simpl.
  { by rewrite filter_nil, take_nil, app_nil_r. }
  rewrite filter_cons. destruct (f a) eqn:E.
  - rewrite decide_True by done. rewrite length_app. simpl. case_goal.
    + assert (Z.to_nat limit - length out = 1) as -> by lia. done.
    + rewrite IH by (rewrite length_app; simpl; lia). rewrite length_app. simpl.
      destruct (Z.to_nat limit - length out) as [|n] eqn:En; [lia|].
      simpl. rewrite <- app_assoc. simpl. do 3 f_equal. lia.
  - rewrite decide_False by done. by apply IH.
Qed.

Lemma filter_cursors l n :
  cursorsOk l -> filter (fun a => (a.(Alert.Cursor) >? Z.of_nat n)%Z = true) l = drop n l.
Proof.
  intros Hl. rewrite <- (take_drop n l) at 1. rewrite filter_app.
  rewrite (filter_drops _ (take n l)).
  2:{ apply Forall_lookup. intros i a Hi. apply lookup_take_Some in Hi as [Hi ?].
      apply Hl in Hi. lia. }
  apply filter_keeps, Forall_lookup. intros i a Hi. rewrite lookup_drop in Hi.
  apply Hl in Hi. lia.
Qed.

Lemma ListAlerts_page m n limit :
  cursorsOk m.(alerts) -> (1 <= limit)%Z ->
  ListAlerts (Z.of_nat n) limit m = take (Z.to_nat limit) (drop n m.(alerts)).
Proof.
  intros Hc Hl. unfold ListAlerts. rewrite takeMatching_app by (simpl; lia).
  simpl. by rewrite filter_cursors, Nat.sub_0_r.
Qed.

(** A client that pages: ask for what follows the last cursor it was given,
    until a page is empty. The fuel is the number of pages asked for. *)
Fixpoint pages (fuel : nat) (after limit : Z) (m : Memory) : list Alert :=
  match fuel with
  | 0 => []
  | S fuel' =>
      match ListAlerts after limit m with
      | [] => []
      | a :: page =>
          (a :: page) ++ pages fuel' (default a (last page)).(Alert.Cursor) limit m
      end
  end.

Lemma pages_from m limit : forall fuel n,
  cursorsOk m.(alerts) -> (1 <= limit)%Z -> length m.(alerts) - n < fuel ->
  pages fuel (Z.of_nat n) limit m = drop n m.(alerts).
Proof.
  induction fuel as [|fuel IH]; intros n Hc Hl Hf; [lia|]. cbn [pages].
  rewrite ListAlerts_page by done.
  destruct (take (Z.to_nat limit) (drop n m.(alerts))) as [|a page] eqn:E.
  - apply (f_equal length) in E. rewrite length_take, length_drop in E. simpl in E.
    by rewrite drop_ge by lia.
  - set (k := length (a :: page)).
    assert (take k (drop n m.(alerts)) = a :: page) as Ek.
    { unfold k. rewrite <- E. apply take_length_take. }
    assert (k <= length m.(alerts) - n) as Hk.
    { apply (f_equal length) in Ek. rewrite length_take, length_drop in Ek. unfold k in *. lia. }
    assert ((default a (last page)).(Alert.Cursor) = Z.of_nat (n + k)) as ->.
    { assert (m.(alerts) !! (n + (k - 1)) = Some (default a (last page))) as Hi.
      { rewrite <- lookup_drop. rewrite <- (take_drop k (drop n m.(alerts))), Ek.
        rewrite lookup_app_l by (fold k; unfold k; simpl; lia).
        unfold k. simpl. rewrite Nat.sub_0_r.
        destruct page as [|b page] using rev_ind; [done|].
        rewrite last_snoc, length_app. simpl. rewrite Nat.add_1_r. simpl.
        by rewrite lookup_app_r, Nat.sub_diag by lia. }
      apply Hc in Hi. rewrite Hi. unfold k. simpl. lia. }
    rewrite IH by (try done; unfold k in *; simpl in *; lia).
    rewrite <- Ek at 1. rewrite <- drop_drop. apply take_drop.
Qed.

(** ** Traces of calls

    Every exported method that changes the store, as a label. *)
Inductive Op :=
| OpCreate (d : AlertDefinition)
| OpSetEnabled (env : Env) (id : string) (enabled : bool) (effectiveAt : Time)
| OpArchive (id : string) (effectiveAt : Time)
| OpApply (env : Env) (o : Observation)
| OpCommit (batch : RuntimeBatch)
| OpMarkPublished (id : string)
| OpMarkPublishFailed (id message : string)
| OpMaintain (policy : RetentionPolicy.RetentionPolicy)
| OpAcquire (owner : string) (partitions : list Z) (ttl : Duration)
| OpRenew (owner : string) (partitions : list Z) (ttl : Duration)
| OpRelease (owner : string).

Definition exec (m : Memory) (op : Op) : Memory :=
  match op with
  | OpCreate d => (CreateDefinition d m).2
  | OpSetEnabled env id enabled t => (SetEnabled env id enabled t m).2
  | OpArchive id t => (ArchiveDefinition id t m).2
  | OpApply env o => match ApplyObservation env o m with Some (_, m') => m' | None => m end
  | OpCommit b => (commitRuntimeBatch b m).2
  | OpMarkPublished id => (MarkPublished id m).2
  | OpMarkPublishFailed id msg => (MarkPublishFailed id msg m).2
  | OpMaintain p => (Maintain p m).2
  | OpAcquire owner ps ttl => (AcquirePartitions owner ps ttl m).2
  | OpRenew owner ps ttl => (RenewPartitions owner ps ttl m).2
  | OpRelease owner => ReleasePartitions owner m
  end.

Definition execAll (m : Memory) (ops : list Op) : Memory := foldl exec m ops.

(** An invariant of every trace. *)
Lemma execAll_inv (P : Memory -> Prop) ops :
  (forall m op, op ∈ ops -> P m -> P (exec m op)) -> forall m, P m -> P (execAll m ops).
Proof.
  unfold execAll. induction ops as [|op ops IH]; intros H m Hm; simpl; [done|].
  apply IH; [intros; apply H; set_solver|]. apply H; set_solver.
Qed.

(** *** Applying an observation *)

Lemma Compile_no_panic r : Compile r <> Panic.
Proof. unfold Compile. by destruct (Validate r). Qed.

(** What an observation leaves alone, and that the log only grows. *)
Definition onlyAppends (m m' : Memory) : Prop :=
  m'.(definitions) = m.(definitions) /\ m'.(byHash) = m.(byHash) /\ m'.(archived) = m.(archived)
  /\ m'.(leases) = m.(leases) /\ (cursorsOk m.(alerts) -> cursorsOk m'.(alerts)).

Lemma onlyAppends_refl m : onlyAppends m m.
Proof. by repeat split. Qed.

Lemma onlyAppends_trans m1 m2 m3 : onlyAppends m1 m2 -> onlyAppends m2 m3 -> onlyAppends m1 m3.
Proof. unfold onlyAppends. intros (?&?&?&?&?) (?&?&?&?&?). repeat split; try congruence. auto. Qed.

Lemma applyDefinition_appends now o payload m created d m' created' :
  applyDefinition now o payload (m, created) d = Some (m', created') -> onlyAppends m m'.
Proof.
  unfold applyDefinition. case_goal; [intros [= <- _]; apply onlyAppends_refl|].
  destruct (apply _ _ _ _) as [[[st al] acc]|]; simpl; [|done].
  destruct acc; simpl; [|intros [= <- _]; apply onlyAppends_refl].
  destruct al; intros [= <- _]; repeat split; [|done]. by apply cursorsOk_snoc.
Qed.

Lemma ApplyObservation_appends env o m r m' :
  ApplyObservation env o m = Some (r, m') -> onlyAppends m m'.
Proof.
  unfold ApplyObservation. case_goal; [intros [= _ <-]; apply onlyAppends_refl|].
  destruct (marshalObservation o) as [x|]; [|intros [= _ <-]; by repeat split].
  destruct (loopM _ _ _) as [[m2 created]|] eqn:E; simpl; [|done]. intros [= _ <-].
  eapply (loopM_inv (fun s => onlyAppends m s.1)) in E; [done|by repeat split|].
  intros [m1 c1] d [m3 c3] H _ Ha. simpl in *.
  eapply onlyAppends_trans; [done|]. by eapply applyDefinition_appends.
Qed.

(** *** The invariant of the log *)

Lemma markFirst_Some id l l' :
  markFirst id l = Some l' ->
  exists i a, l !! i = Some a /\ a.(Alert.ID) = id
    /\ l' = <[i := Alert.with_PublishStatus a "published"]> l
    /\ (forall j b, l !! j = Some b -> b.(Alert.ID) = id -> i <= j).
Proof.
  revert l'. induction l as [|a l IH]; intros l'; simpl; [done|].
  destruct (String.eqb_spec a.(Alert.ID) id) as [Ha|Ha].
  - intros [= <-]. exists 0, a. repeat split; [done|intros; lia].
  - destruct (markFirst id l) as [l1|]; simpl; [|done]. intros [= <-].
    destruct (IH _ eq_refl) as (i & b & Hi & Hb & -> & Hmin).
    exists (S i), b. repeat split; try done.
    intros [|j] c Hc Hid; simpl in Hc; [congruence|]. specialize (Hmin j c Hc Hid). lia.
Qed.

Lemma cursorsOk_mark l i a p :
  cursorsOk l -> l !! i = Some a -> cursorsOk (<[i := Alert.with_PublishStatus a p]> l).
Proof.
  intros Hc Hi j b Hj. destruct (decide (i = j)) as [<-|Hne].
  - rewrite list_lookup_insert_eq in Hj by (by eapply lookup_lt_Some). simplify_eq/=. by apply Hc.
  - rewrite list_lookup_insert_ne in Hj by done. by apply Hc.
Qed.

Lemma numbered_cursors l : forall stored, cursorsOk stored -> cursorsOk (stored ++ numbered (length stored) l).
Proof.
  induction l as [|a l IH]; intros stored Hs; simpl; [by rewrite app_nil_r|].
  set (a' := Alert.with_Cursor a _).
  replace (stored ++ a' :: numbered (S (length stored)) l)
    with ((stored ++ [a']) ++ numbered (length (stored ++ [a'])) l).
  - apply IH. by apply cursorsOk_snoc.
  - rewrite length_app. simpl. rewrite Nat.add_1_r, <- app_assoc. done.
Qed.

Lemma exec_cursors m op : cursorsOk m.(alerts) -> cursorsOk (exec m op).(alerts).
Proof.
  intros H. destruct op; simpl; try done.
  - unfold CreateDefinition. repeat case_goal; done.
  - unfold SetEnabled. repeat case_goal; done.
  - unfold ArchiveDefinition. repeat case_goal; done.
  - destruct (ApplyObservation _ _ _) as [[r m']|] eqn:E; [|done].
    apply ApplyObservation_appends in E as (?&?&?&?&Hc). by apply Hc.
  - rewrite commit_split. simpl. by apply numbered_cursors.
  - unfold MarkPublished. destruct (markFirst _ _) as [l|] eqn:E; [|done]. simpl.
    apply markFirst_Some in E as (i & a & Hi & _ & -> & _). by apply cursorsOk_mark.
  - unfold AcquirePartitions. by case_goal.
  - unfold RenewPartitions, AcquirePartitions. by case_goal.
Qed.

Lemma execAll_cursors ops : cursorsOk (execAll NewMemory ops).(alerts).
Proof.
  apply (execAll_inv (fun m => cursorsOk m.(alerts))); [intros; by apply exec_cursors|].
  intros i a H. done.
Qed.

(** *** Leases *)

Lemma acquire_lookup (owner : string) (ps : list Z) (l : gmap Z string) (p : Z) :
  foldl (fun l p => <[p := owner]> l) l ps !! p = if decide (p ∈ ps) then Some owner else l !! p.
Proof.
  induction ps as [|q ps IH] using rev_ind; [done|].
  rewrite foldl_app. simpl. destruct (decide (p = q)) as [->|Hpq].
  - rewrite lookup_insert_eq, decide_True by set_solver. done.
  - rewrite lookup_insert_ne by done. rewrite IH.
    destruct (decide (p ∈ ps)), (decide (p ∈ ps ++ [q])); set_solver.
Qed.

Lemma AcquirePartitions_spec owner ps ttl m :
  let '(ok, m') := AcquirePartitions owner ps ttl m in
  (ok = true <-> forall p, p ∈ ps -> leaseOf m p = "" \/ leaseOf m p = owner) /\
  (forall p, leaseOf m' p = if ok && bool_decide (p ∈ ps) then owner else leaseOf m p).
Proof.
  unfold AcquirePartitions. destruct (existsb _ _) eqn:E.
  - split; [|done]. split; [done|]. intros H.
    apply existsb_exists in E as (p & Hp & Hb). apply list_elem_of_In in Hp.
    bool_norm. by destruct (H p Hp).
  - split.
    + split; [|done]. intros _ p Hp.
      destruct (String.eqb_spec (leaseOf m p) "") as [?|Hn]; [by left|right].
      destruct (String.eqb_spec (leaseOf m p) owner) as [?|Ho]; [done|].
      assert (existsb (fun p => (leaseOf m p != "") && (leaseOf m p != owner)) ps = true); [|congruence].
      apply existsb_exists. exists p. split; [by apply list_elem_of_In|].
      by rewrite !eqb_neq_false.
    + intros p. unfold leaseOf at 1. simpl. rewrite acquire_lookup. by do 2 case_decide || case_goal.
Qed.

Lemma release_lookup owner m p :
  leaseOf (ReleasePartitions owner m) p = if leaseOf m p == owner then "" else leaseOf m p.
Proof.
  unfold leaseOf, ReleasePartitions. simpl.
  destruct (m.(leases) !! p) as [o|] eqn:E; simpl.
  - destruct (String.eqb_spec o owner) as [->|Ho].
    + rewrite (proj2 (map_lookup_filter_None _ _ _)); [done|]. right. simpl. intros x Hx Hne.
      rewrite E in Hx. by simplify_eq.
    + by rewrite (proj2 (map_lookup_filter_Some _ _ _ _) (conj E Ho)).
  - rewrite (proj2 (map_lookup_filter_None _ _ _)) by (by left). simpl. by case_goal.
Qed.

Lemma acquire_keeps owner other ps ttl m p :
  owner <> "" -> leaseOf m p = owner -> leaseOf (AcquirePartitions other ps ttl m).2 p = owner.
Proof.
  intros Hne Hp. pose proof (AcquirePartitions_spec other ps ttl m) as H.
  destruct (AcquirePartitions other ps ttl m) as [ok m']. destruct H as [Hok Hl]. simpl.
  rewrite Hl. case_goal; [|done]. bool_norm. subst.
  destruct (proj1 Hok eq_refl p) as [E|E]; [done|congruence|congruence].
Qed.

Lemma exec_lease owner m op p :
  owner <> "" -> op <> OpRelease owner -> leaseOf m p = owner -> leaseOf (exec m op) p = owner.
Proof.
  intros Hne Hop Hp. destruct op; simpl; try done.
  - unfold CreateDefinition. repeat case_goal; done.
  - unfold SetEnabled. repeat case_goal; done.
  - unfold ArchiveDefinition. repeat case_goal; done.
  - destruct (ApplyObservation _ _ _) as [[r m']|] eqn:E; [|done].
    apply ApplyObservation_appends in E as (?&?&?&El&_). unfold leaseOf. by rewrite El.
  - by rewrite commit_split.
  - unfold MarkPublished. by destruct (markFirst _ _).
  - by apply acquire_keeps.
  - by apply acquire_keeps.
  - rewrite release_lookup, Hp. rewrite eqb_neq_false; [done|]. congruence.
Qed.

(** ** Definitions by hash *)

(** The identifier of a definition is a function of its hash, as the service
    that creates definitions computes it. *)
Section DefinitionIndex.
Context (idOf : string -> string) `{!Inj eq eq idOf}.

Definition createsOk (op : Op) : Prop :=
  match op with
  | OpCreate d => d.(AlertDefinition.ID) = idOf d.(AlertDefinition.DefinitionHash)
  | _ => True
  end.

(** Definitions and their index by hash are two views of one set. *)
Definition indexOk (m : Memory) : Prop :=
  (forall id d, m.(definitions) !! id = Some d ->
     d.(AlertDefinition.ID) = id /\ id = idOf d.(AlertDefinition.DefinitionHash)
     /\ m.(byHash) !! d.(AlertDefinition.DefinitionHash) = Some id) /\
  (forall h id, m.(byHash) !! h = Some id ->
     exists d, m.(definitions) !! id = Some d /\ d.(AlertDefinition.DefinitionHash) = h) /\
  (forall id b, m.(archived) !! id = Some b -> is_Some (m.(definitions) !! id)).

(** Replacing a stored definition by one with its identifier and hash. *)
Lemma indexOk_replace m id d d' arch :
  indexOk m -> m.(definitions) !! id = Some d ->
  d'.(AlertDefinition.ID) = d.(AlertDefinition.ID) ->
  d'.(AlertDefinition.DefinitionHash) = d.(AlertDefinition.DefinitionHash) ->
  (forall i b, arch !! i = Some b -> i = id \/ is_Some (m.(archived) !! i)) ->
  indexOk (with_archived (with_definitions m (<[id := d']> m.(definitions))) arch).
Proof.
  intros (H1 & H2 & H3) Hd Hid Hh Ha. split; [|split]; simpl.
  - intros i e [[<- <-]|[Hne He]]%lookup_insert_Some; [rewrite Hh, Hid|]; auto.
  - intros h i Hi. destruct (H2 h i Hi) as (e & He & Hhe).
    destruct (decide (id = i)) as [->|Hne].
    + exists d'. rewrite lookup_insert_eq. simplify_eq. split; congruence.
    + exists e. by rewrite lookup_insert_ne.
  - intros i b Hi. apply lookup_insert_is_Some'. destruct (Ha i b Hi) as [->|[c Hc]]; [by left|].
    right. by eapply H3.
Qed.

Lemma indexOk_create m d : indexOk m -> createsOk (OpCreate d) -> indexOk (CreateDefinition d m).2.
Proof.
  intros (H1 & H2 & H3) Hd. simpl in Hd. unfold CreateDefinition.
  destruct (m.(byHash) !! d.(AlertDefinition.DefinitionHash)) as [id|] eqn:E.
  - destruct (isArchived m id); [|by repeat split_and].
    destruct (H2 _ _ E) as (e & He & Hh). destruct (H1 _ _ He) as (He1 & He2 & _).
    eapply indexOk_replace; [by repeat split_and|done|by rewrite He1, Hd, He2, Hh|done|].
    intros i b [_ Hi]%lookup_delete_Some. right. eauto.
  - split; [|split]; simpl.
    + intros i e [[<- <-]|[Hne He]]%lookup_insert_Some.
      * repeat split; [done|]. by rewrite lookup_insert_eq.
      * destruct (H1 _ _ He) as (? & ? & ?). repeat split; try done.
        rewrite lookup_insert_ne; [done|]. congruence.
    + intros h i [[<- <-]|[Hne Hi]]%lookup_insert_Some.
      * exists d. by rewrite lookup_insert_eq.
      * destruct (H2 _ _ Hi) as (e & He & Hh). destruct (H1 _ _ He) as (_ & Hid & _).
        exists e. rewrite lookup_insert_ne; [done|]. subst i h. rewrite Hd.
        by intros ?%(inj idOf).
    + intros i b Hi. apply lookup_insert_is_Some'. right. by eapply H3.
Qed.

Lemma indexOk_same m m' :
  m'.(definitions) = m.(definitions) -> m'.(byHash) = m.(byHash) -> m'.(archived) = m.(archived) ->
  indexOk m -> indexOk m'.
Proof. unfold indexOk. by intros -> -> ->. Qed.

Lemma exec_index m op : createsOk op -> indexOk m -> indexOk (exec m op).
Proof.
  intros Hop H. destruct op; simpl; try done.
  - by apply indexOk_create.
  - unfold SetEnabled. destruct (m.(definitions) !! id) as [d|] eqn:E; [|done].
    case_goal; [done|]. simpl.
    apply (indexOk_same (with_archived (with_definitions m _) m.(archived))
             (with_definitions m _) eq_refl eq_refl eq_refl).
    eapply indexOk_replace; [done..|]. right. eauto.
  - unfold ArchiveDefinition. destruct (m.(definitions) !! id) as [d|] eqn:E; [|done].
    simpl. eapply indexOk_replace; [done..|].
    intros i b [[<- _]|[_ Hi]]%lookup_insert_Some; [by left|right; eauto].
  - destruct (ApplyObservation _ _ _) as [[r m']|] eqn:E; [|done].
    apply ApplyObservation_appends in E as (?&?&?&?&_). by eapply indexOk_same.
  - by rewrite commit_split.
  - unfold MarkPublished. by destruct (markFirst _ _).
  - unfold AcquirePartitions. by case_goal.
  - unfold RenewPartitions, AcquirePartitions. by case_goal.
Qed.

Lemma execAll_index ops : Forall createsOk ops -> indexOk (execAll NewMemory ops).
Proof.
  intros H. apply execAll_inv; [|by repeat split_and].
  rewrite Forall_forall in H. intros. apply exec_index; auto.
Qed.
End DefinitionIndex.

(** ** Pending alerts *)

Definition pending (m : Memory) : list Alert :=
  filter (fun a => a.(Alert.PublishStatus) = "pending") m.(alerts).

Lemma filter_eqb_pending (l : list Alert) :
  filter (fun a => (a.(Alert.PublishStatus) == "pending") = true) l
  = filter (fun a => a.(Alert.PublishStatus) = "pending") l.
Proof. apply list_filter_iff. intros a. apply String.eqb_eq. Qed.

(** Replacing the one alert with an identifier by a published one. *)
Lemma pending_mark (l : list Alert) i a :
  idsDistinct l -> l !! i = Some a ->
  filter (fun b => b.(Alert.PublishStatus) = "pending") (<[i := Alert.with_PublishStatus a "published"]> l)
  = filter (fun b => b.(Alert.ID) <> a.(Alert.ID)) (filter (fun b => b.(Alert.PublishStatus) = "pending") l).
Proof.
  revert i. induction l as [|b l IH]; intros i Hd Hi; [done|].
  apply NoDup_cons in Hd as [Hb Hd]. destruct i as [|i]; simpl in Hi; simplify_eq/=.
  - rewrite filter_cons, decide_False by done.
    assert (filter (fun b => b.(Alert.ID) <> a.(Alert.ID))
              (filter (fun b => b.(Alert.PublishStatus) = "pending") l)
            = filter (fun b => b.(Alert.PublishStatus) = "pending") l) as Hsame.
    { apply filter_keeps, Forall_forall. intros c [_ Hc]%list_elem_of_filter Heq.
      apply Hb. rewrite <- Heq. by apply list_elem_of_fmap_2. }
    rewrite (filter_cons _ a l). case_decide; [|done].
    rewrite filter_cons, decide_False by tauto. done.
  - rewrite !(filter_cons _ b). rewrite IH by done. case_decide; [|done].
    rewrite filter_cons, decide_True; [done|]. intros Heq. apply Hb. rewrite Heq.
    apply list_elem_of_fmap_2. by eapply list_elem_of_lookup_2.
Qed.

Lemma ClaimPending_take (m : Memory) (limit : Z) :
  (1 <= limit)%Z -> ClaimPending limit m = take (Z.to_nat limit) (pending m).
Proof.
  intros Hl. unfold ClaimPending. rewrite takeMatching_app by (simpl; lia).
  simpl. by rewrite filter_eqb_pending, Nat.sub_0_r.
Qed.

(** Marking is by identifier, so what a pending alert's identifier marks is
    that alert. *)
Lemma markFirst_known (l : list Alert) a :
  a ∈ l -> exists j b, l !! j = Some b /\ b.(Alert.ID) = a.(Alert.ID) /\
    markFirst a.(Alert.ID) l = Some (<[j := Alert.with_PublishStatus b "published"]> l).
Proof.
  intros [i Hi]%list_elem_of_lookup_1. destruct (markFirst a.(Alert.ID) l) as [l'|] eqn:E.
  - apply markFirst_Some in E as (j & b & Hj & Hb & -> & _). eauto.
  - exfalso. revert i Hi. induction l as [|c l IH]; [done|]. simpl in E.
    destruct (String.eqb_spec (Alert.ID c) (Alert.ID a)); [done|].
    intros [|i] Hi; simpl in Hi; [congruence|]. destruct (markFirst _ l); [done|]. by eapply IH.
Qed.

Lemma MarkPublished_pending (m : Memory) (a : Alert) :
  idsDistinct m.(alerts) -> a ∈ pending m ->
  exists m', MarkPublished a.(Alert.ID) m = (None, m') /\
    pending m' = filter (fun b => b.(Alert.ID) <> a.(Alert.ID)) (pending m) /\
    idsDistinct m'.(alerts).
Proof.
  intros Hids [_ Ha]%list_elem_of_filter. destruct (markFirst_known _ _ Ha) as (j & b & Hj & Hb & Hm).
  unfold MarkPublished. rewrite Hm. eexists; split; [done|]. split.
  - unfold pending at 1. simpl. rewrite (pending_mark _ _ b) by done. by rewrite Hb.
  - unfold idsDistinct in *. simpl. rewrite list_fmap_insert. simpl. rewrite list_insert_id; [done|].
    by rewrite list_lookup_fmap, Hj.
Qed.

(** ** Properties *)

(** A partition lease has one owner. From the moment [owner] holds the
    lease of [p], and until [owner] itself releases, no sequence of calls
    takes it away, and every attempt of another worker to acquire a set of
    partitions with [p] in it fails and changes nothing. *)
Theorem lease_exclusive (m : Memory) (ops : list Op) (owner : string) (p : Z) :
  owner <> "" -> leaseOf m p = owner -> OpRelease owner ∉ ops ->
  leaseOf (execAll m ops) p = owner /\
  forall other ps ttl, other <> owner -> p ∈ ps ->
    AcquirePartitions other ps ttl (execAll m ops) = (false, execAll m ops).
Proof.
  intros Hne Hp Hops.
  assert (leaseOf (execAll m ops) p = owner) as Hl.
  { apply (execAll_inv (fun m => leaseOf m p = owner)); [|done].
    intros m' op Hop H. apply exec_lease; [done| |done]. by intros ->. }
  split; [done|]. intros other ps ttl Ho Hps.
  pose proof (AcquirePartitions_spec other ps ttl (execAll m ops)) as H.
  unfold AcquirePartitions in *. case_goal; [done|]. destruct H as [H _].
  destruct (proj1 H eq_refl p Hps); congruence.
Qed.

Lemma lease_exclusive_witness :
  AcquirePartitions "b" [3; 7]%Z Minute (execAll (AcquirePartitions "a" [7]%Z Minute NewMemory).2 [OpRelease "b"])
  = (false, execAll (AcquirePartitions "a" [7]%Z Minute NewMemory).2 [OpRelease "b"]).
Proof.
  apply (lease_exclusive (AcquirePartitions "a" [7]%Z Minute NewMemory).2 [OpRelease "b"] "a" 7);
    [intros H; discriminate H | reflexivity
    | intros H; apply list_elem_of_singleton in H; discriminate H
    | intros H; discriminate H | apply list_elem_of_further, list_elem_of_here ].
Defined.

(** The log of alerts is sound after any sequence of calls: cursors are
    the positions 1, 2, 3, ... in order; and identifiers are distinct as long
    as alerts come from committed batches. *)
Theorem alert_log_sound (ops : list Op) :
  cursorsOk (execAll NewMemory ops).(alerts) /\
  ((forall env o, OpApply env o ∉ ops) -> idsDistinct (execAll NewMemory ops).(alerts)).
Proof.
  split; [apply execAll_cursors|]. intros Hops.
  apply (execAll_inv (fun m => idsDistinct m.(alerts))); [|constructor].
  intros m op Hop H. destruct op; simpl; try done.
  - unfold CreateDefinition. repeat case_goal; done.
  - unfold SetEnabled. repeat case_goal; done.
  - unfold ArchiveDefinition. repeat case_goal; done.
  - by destruct (Hops env o).
  - unfold commitRuntimeBatch. simpl.
    assert (forall l acc, idsDistinct acc.1 -> idsDistinct (foldl storeAlert acc l).1) as Hf.
    { induction l as [|a l IH]; intros [st cr] Ha; simpl; [done|]. apply IH.
      unfold storeAlert. destruct (existsb _ _) eqn:E; [done|]. unfold idsDistinct in *. simpl.
      rewrite fmap_app. apply NoDup_app. repeat split; [done| |apply NoDup_singleton].
      intros x Hx ->%list_elem_of_singleton. apply knownID_spec in Hx. simpl in Hx. congruence. }
    specialize (Hf batch.(RuntimeBatch.Alerts) (m.(alerts), []) H).
    by destruct (foldl storeAlert _ _).
  - unfold MarkPublished. destruct (markFirst _ _) as [l|] eqn:E; [|done]. simpl.
    apply markFirst_Some in E as (i & a & Hi & _ & -> & _). unfold idsDistinct.
    rewrite list_fmap_insert. simpl. rewrite list_insert_id; [done|].
    by rewrite list_lookup_fmap, Hi.
  - unfold AcquirePartitions. by case_goal.
  - unfold RenewPartitions, AcquirePartitions. by case_goal.
Qed.

Lemma alert_log_sound_witness : idsDistinct (execAll NewMemory []).(alerts).
Proof. apply (alert_log_sound []). intros env o H. apply elem_of_nil in H. exact H. Defined.

(** A batch is committed once. Committing it again, as a worker does
    whose first attempt succeeded unseen, creates no alert and leaves the
    whole store as it is. *)
Theorem commit_idempotent (b : RuntimeBatch) (m : Memory) :
  let m' := (commitRuntimeBatch b m).2 in commitRuntimeBatch b m' = ([], m').
Proof.
  intros m'. subst m'. rewrite (commit_split b m). cbn [snd]. rewrite commit_split. simpl.
  rewrite (fresh_known _ (Alert.ID <$> m.(alerts) ++ numbered _ _)).
  2:{ intros a Ha. rewrite fmap_app, numbered_IDs, elem_of_app. by apply fresh_covers. }
  simpl. rewrite app_nil_r. f_equal. f_equal.
  - apply map_eq. intros k. rewrite !lookup_union. by destruct (_ !! k), (_ !! k).
  - apply map_eq. intros k. rewrite !lookup_union, !dropAllSeries_lookup, lookup_union, dropAllSeries_lookup.
    case_decide; [done|]. by destruct (_ !! k), (_ !! k).
  - set_solver.
Qed.

(** Paging is complete and exact. A client that asks [ListAlerts] for
    what follows the last cursor it has, with any positive page size, until a
    page is empty, receives every alert once, in order. *)
Theorem ListAlerts_pages (ops : list Op) (limit : Z) (fuel : nat) :
  let m := execAll NewMemory ops in
  (1 <= limit)%Z -> length m.(alerts) < fuel -> pages fuel 0 limit m = m.(alerts).
Proof.
  intros m Hl Hf. change 0%Z with (Z.of_nat 0). rewrite pages_from; try done; [|lia].
  apply execAll_cursors.
Qed.

(** An alert with a given identifier and status, for the witnesses. *)
Definition someAlert (id status : string) : Alert :=
  Alert.mk "io.ytstack.alert.triggered.v1" id "d" 1 "h" "n" "e" "c" btc start start [] [] noAlgorithm
    1 "confirmed" None status 0.

Definition someBatch (alerts : list Alert) : RuntimeBatch := RuntimeBatch.mk 0 [] ∅ ∅ [] alerts.

Definition threeAlerts : list Op :=
  [OpCommit (someBatch [someAlert "a" "pending"; someAlert "b" "pending"; someAlert "a" "pending"]);
   OpCommit (someBatch [someAlert "b" "pending"; someAlert "c" "pending"])].

Lemma ListAlerts_pages_witness :
  pages 4 0 2 (execAll NewMemory threeAlerts) = (execAll NewMemory threeAlerts).(alerts)
  /\ Alert.ID <$> (execAll NewMemory threeAlerts).(alerts) = ["a"; "b"; "c"].
Proof.
  split; [|vm_compute; reflexivity].
  apply (ListAlerts_pages threeAlerts 2 4); [lia|]. vm_compute. lia.
Defined.

(** A definition exists once per hash. In any store built by calls that
    give each definition the identifier of its hash, [CreateDefinition] reports
    "created" exactly when no definition has the hash; the definition it
    returns is the stored one; creating one with the same hash again returns
    that definition and changes nothing; and definitions and hashes stay in
    one-to-one correspondence. *)
Theorem CreateDefinition_once (idOf : string -> string) (ops : list Op) (d d' : AlertDefinition) :
  Inj eq eq idOf -> Forall (createsOk idOf) (OpCreate d :: ops) ->
  d'.(AlertDefinition.DefinitionHash) = d.(AlertDefinition.DefinitionHash) ->
  let m := execAll NewMemory ops in
  let '(stored, created, m1) := CreateDefinition d m in
  (created = true <-> forall id e, m.(definitions) !! id = Some e ->
                        e.(AlertDefinition.DefinitionHash) <> d.(AlertDefinition.DefinitionHash)) /\
  m1.(definitions) !! (idOf d.(AlertDefinition.DefinitionHash)) = Some stored /\
  CreateDefinition d' m1 = (stored, false, m1) /\ indexOk idOf m1.
Proof.
  intros Hinj [Hd Hops]%Forall_cons Hh m. pose proof (execAll_index idOf ops Hops) as Hm. fold m in Hm.
  pose proof (indexOk_create idOf m d Hm Hd) as Hm1. simpl in Hd. destruct Hm as (H1 & H2 & H3).
  unfold CreateDefinition in Hm1 |- * at 1.
  destruct (m.(byHash) !! d.(AlertDefinition.DefinitionHash)) as [id|] eqn:E.
  - destruct (H2 _ _ E) as (e & He & Hhe). destruct (H1 _ _ He) as (Hei & Hid & _).
    rewrite <- Hhe, <- Hid.
    destruct (isArchived m id) eqn:Ea; simpl in Hm1 |- *; (split; [split; [done|by intros H; destruct (H id e)]|]).
    + rewrite lookup_insert_eq. repeat split_and; [done| |done].
      unfold CreateDefinition, isArchived. simpl.
      by rewrite Hh, E, lookup_delete_eq, lookup_insert_eq.
    + rewrite He. repeat split_and; [done| |done].
      unfold CreateDefinition. by rewrite Hh, E, Ea, He.
  - simpl in Hm1 |- *. rewrite <- Hd, lookup_insert_eq. split; [|repeat split_and; [done| |done]].
    + split; [|done]. intros _ id e He Heq. destruct (H1 _ _ He) as (_ & _ & Hb). congruence.
    + unfold CreateDefinition, isArchived. simpl. rewrite Hh, !lookup_insert_eq. simpl.
      destruct (m.(archived) !! AlertDefinition.ID d) as [b|] eqn:Ea; [|done].
      destruct (H3 _ _ Ea) as [e He]. destruct (H1 _ _ He) as (_ & Hid & Hb).
      rewrite Hd in Hid. apply (inj idOf) in Hid. congruence.
Qed.

Definition someDefinition (hash : string) : AlertDefinition :=
  AlertDefinition.mk hash 1 hash hash true btc threeRed "confirmed_close" "on_occurrence" 0 start start start.

Lemma CreateDefinition_once_witness :
  let m := execAll NewMemory [OpCreate (someDefinition "a"); OpArchive "a" (minutes 1)] in
  let m1 := (CreateDefinition (someDefinition "a") m).2 in
  CreateDefinition (someDefinition "a") m1 = (someDefinition "a", false, m1).
Proof.
  intros m m1.
  apply (CreateDefinition_once (fun h => h) [OpCreate (someDefinition "a"); OpArchive "a" (minutes 1)]
           (someDefinition "a") (someDefinition "a"));
    [intros x y H; exact H | repeat constructor | reflexivity].
Defined.

(** The outbox. [ClaimPending] returns the oldest pending alerts; and
    marking one of them published removes exactly that alert from what is
    pending, so that a publisher that marks what it claimed makes progress
    and repeats nothing. *)
Theorem outbox_progress (m : Memory) (limit : Z) (a : Alert) :
  logOk m.(alerts) -> (1 <= limit)%Z ->
  ClaimPending limit m = take (Z.to_nat limit) (pending m) /\
  (a ∈ ClaimPending limit m ->
   exists m', MarkPublished a.(Alert.ID) m = (None, m') /\
     pending m' = filter (fun b => b.(Alert.ID) <> a.(Alert.ID)) (pending m) /\
     length (pending m') < length (pending m)).
Proof.
  intros [_ Hids] Hl. pose proof (ClaimPending_take m limit Hl) as Hc. split; [done|].
  rewrite Hc. intros (k & Ha & _)%elem_of_take. apply list_elem_of_lookup_2 in Ha.
  destruct (MarkPublished_pending m a Hids Ha) as (m' & Hm & Hp & _).
  exists m'. split; [done|]. rewrite Hp. split; [done|]. apply (length_filter_lt _ _ a); [done|]. tauto.
Qed.

Lemma outbox_progress_witness :
  exists m', MarkPublished "b" (execAll NewMemory threeAlerts) = (None, m') /\ Alert.ID <$> pending m' = ["a"; "c"].
Proof.
  destruct (outbox_progress (execAll NewMemory threeAlerts) 2
              (Alert.with_Cursor (someAlert "b" "pending") 2)) as [_ H].
  - split.
    + intros i a H. do 3 (destruct i as [|i]; [injection H as <-; reflexivity|]). discriminate H.
    + apply (bool_decide_unpack _). vm_compute. exact I.
  - lia.
  - destruct H as (m' & Hm & Hp & _).
    + apply list_elem_of_further, list_elem_of_here.
    + exists m'. split; [exact Hm|]. rewrite Hp. vm_compute. reflexivity.
Defined.
