(* ===== verification/Engine.v ===== *)
(** * internal/runtime/engine.go: the alert engine

    The compiled definition index, the partitions with the state of the
    series and definitions they own, and [EvaluateBatch], the step the whole
    program exists for: evaluate a batch of observations of one partition,
    commit the outcome to the repository, then make it the state in memory.

    [EvaluateBatch] holds the partition's mutex for its whole body and the
    counters are atomic, so it is one step from an engine and a repository to
    an engine and a repository. [now] is what [time.Now] returns. A range over
    a Go map that deletes keys is a filter of the map, one that writes keys a
    union. The in-place updates of the indicator map by [Advance] reach only
    maps the batch itself cloned, and are overwritten by its result. *)

From stdpp Require Import base gmap strings list numbers sorting.
From Stdlib Require Import Ascii.
From S2P Require Import Prelude GoFloat GoBase GoHash GoTime Model Rules Store.

Module compiledDefinition.
Record compiledDefinition := mk { definition : AlertDefinition; rule : Compiled }.
End compiledDefinition.
Abbreviation compiledDefinition := compiledDefinition.compiledDefinition.

Module partitionRuntime.
Record partitionRuntime := mk {
  series : gmap string SeriesEvaluationState;
  definitions : gmap string DefinitionEvaluationState }.
End partitionRuntime.
Abbreviation partitionRuntime := partitionRuntime.partitionRuntime.

(** The index of the compiled definitions: route to definitions. *)
Abbreviation Routes := (gmap string (list compiledDefinition)).

Module Engine.
Record Engine := mk {
  partitions : list partitionRuntime;
  byRoute : Routes;
  refreshedAt : Z;       (* atomic.Int64: Unix nanoseconds *)
  workerIndex : Z;
  workerCount : Z;
  staleEvents : Z;       (* atomic.Uint64 *)
  resetEvents : Z;
  ruleEvals : Z }.

Definition with_partitions (e : Engine) ps : Engine :=
  mk ps e.(byRoute) e.(refreshedAt) e.(workerIndex) e.(workerCount) e.(staleEvents) e.(resetEvents) e.(ruleEvals).
Definition with_byRoute (e : Engine) r : Engine :=
  mk e.(partitions) r e.(refreshedAt) e.(workerIndex) e.(workerCount) e.(staleEvents) e.(resetEvents) e.(ruleEvals).
Definition with_refreshedAt (e : Engine) t : Engine :=
  mk e.(partitions) e.(byRoute) t e.(workerIndex) e.(workerCount) e.(staleEvents) e.(resetEvents) e.(ruleEvals).
Definition with_counters (e : Engine) s r v : Engine :=
  mk e.(partitions) e.(byRoute) e.(refreshedAt) e.(workerIndex) e.(workerCount) s r v.
End Engine.
Abbreviation Engine := Engine.Engine.
Import Engine.

Inductive EngineError :=
| ErrPartitionRange (p : Z)
| ErrNotOwned (p : Z)
| ErrWrongPartition (key : string)
| ErrCompile (id : string) (e : RuleError)
| ErrRepository (e : StoreError).

Definition DefaultPartitions : Z := 256%Z.

(** ** Construction *)

Definition NewWithOwnership (partitionCount index count : Z) : Engine :=
  let partitionCount := if (partitionCount <? 1)%Z then 1%Z else partitionCount in
  let count := if (count <? 1)%Z then 1%Z else count in
  Engine.mk (replicate (Z.to_nat partitionCount) (partitionRuntime.mk ∅ ∅)) ∅ 0 index count 0 0 0.

Definition New (partitionCount : Z) : Engine := NewWithOwnership partitionCount 0 1.

(** ** Keys and partitions *)

Definition routeKey (series : Series) : string :=
  series.(Series.Dataset) +:+ nul +:+ series.(Series.Symbol) +:+ nul +:+ series.(Series.Timeframe).

Definition partitionCountOf (e : Engine) : Z := Z.of_nat (length e.(partitions)).

(** [int(hash.Sum32() % uint32(len(e.partitions)))]. *)
Definition partitionOfHash (e : Engine) (text : string) : Z :=
  (fnv32a text mod wrapU 32 (partitionCountOf e))%Z.

Definition Partition (e : Engine) (series : Series) : Z := partitionOfHash e (routeKey series).

Definition PartitionForKey (e : Engine) (key : string) : Z :=
  match splitN "/"%char 3 key with
  | [a; b; c] => Partition e (Series.mk a b c)
  | _ => partitionOfHash e key
  end.

(** The engine's own [definitionSeriesKey]: the loop over the bytes. *)
Fixpoint definitionSeriesKeyFrom (whole key : string) : string :=
  match key with
  | EmptyString => whole
  | String c rest => if Ascii.eqb c "|"%char then rest else definitionSeriesKeyFrom whole rest
  end.
Definition definitionSeriesKey (key : string) : string := definitionSeriesKeyFrom key key.

(** [for partition := range e.partitions { if partition%count == index }]. Go's
    [%] truncates. *)
Definition owns (e : Engine) (p : Z) : bool := (Z.rem p e.(workerCount) =? e.(workerIndex))%Z.

Definition ownedPartitions (e : Engine) : list Z :=
  filter (fun p => owns e p = true) (Z.of_nat <$> seq 0 (length e.(partitions))).

(** ** The definition index *)

Definition idLe (a b : compiledDefinition) : Prop :=
  String.le a.(compiledDefinition.definition).(AlertDefinition.ID)
            b.(compiledDefinition.definition).(AlertDefinition.ID).
#[export] Instance idLe_dec a b : Decision (idLe a b).
Proof. unfold idLe. apply _. Defined.

(** [sort.Slice] by identifier. The identifiers of one route are distinct
    (EngineIndex.v), so the order is determined. *)
Definition sortByID (l : list compiledDefinition) : list compiledDefinition := merge_sort idLe l.

(** [routes[key]] of a map that may lack the key. *)
Definition routeList (routes : Routes) (key : string) : list compiledDefinition :=
  default [] (routes !! key).

(** The loop of [ReplaceDefinitions] that compiles and groups. *)
Fixpoint groupDefinitions (routes : Routes) (l : list AlertDefinition) : Res EngineError Routes :=
  match l with
  | [] => Ok routes
  | d :: rest =>
      match Compile d.(AlertDefinition.Rule) with
      | Ok compiled =>
          let key := routeKey d.(AlertDefinition.Series) in
          groupDefinitions (<[key := routeList routes key ++ [compiledDefinition.mk d compiled]]> routes) rest
      | Err e => Err (ErrCompile d.(AlertDefinition.ID) e)
      | Panic => Panic
      end
  end.

Definition ReplaceDefinitions (nowNanos : Z) (definitions : list AlertDefinition) (e : Engine)
  : Res EngineError unit * Engine :=
  match groupDefinitions ∅ definitions with
  | Ok routes => (Ok (), with_refreshedAt (with_byRoute e (sortByID <$> routes)) nowNanos)
  | Err err => (Err err, e)
  | Panic => (Panic, e)
  end.

(** [time.Since(time.Unix(0, refreshedAt))], from the Unix time now. *)
Definition sinceRefresh (nowNanos : Z) (e : Engine) : Duration := Sub nowNanos e.(refreshedAt).

Definition DefinitionsFresh (nowNanos : Z) (maxAge : Duration) (e : Engine) : bool :=
  if (maxAge <=? 0)%Z then true
  else (e.(refreshedAt) >? 0)%Z && (sinceRefresh nowNanos e <=? maxAge)%Z.

Definition DefinitionCacheAge (nowNanos : Z) (e : Engine) : Duration :=
  if (e.(refreshedAt) =? 0)%Z then 0%Z else sinceRefresh nowNanos e.

(** [definitions[index] = new] at the first index with the identifier. *)
Fixpoint replaceFirst (id : string) (new : compiledDefinition) (l : list compiledDefinition)
  : option (list compiledDefinition) :=
  match l with
  | [] => None
  | c :: rest =>
      if c.(compiledDefinition.definition).(AlertDefinition.ID) == id then Some (new :: rest)
      else (fun l => c :: l) <$> replaceFirst id new rest
  end.

Definition UpsertDefinition (definition : AlertDefinition) (e : Engine) : Res EngineError unit * Engine :=
  match Compile definition.(AlertDefinition.Rule) with
  | Err err => (Err (ErrCompile definition.(AlertDefinition.ID) err), e)
  | Panic => (Panic, e)
  | Ok compiled =>
      let key := routeKey definition.(AlertDefinition.Series) in
      let definitions := routeList e.(byRoute) key in
      let new := compiledDefinition.mk definition compiled in
      match replaceFirst definition.(AlertDefinition.ID) new definitions with
      | Some l => (Ok (), with_byRoute e (<[key := l]> e.(byRoute)))
      | None => (Ok (), with_byRoute e (<[key := sortByID (definitions ++ [new])]> e.(byRoute)))
      end
  end.

Definition RemoveDefinition (id : string) (e : Engine) : Engine :=
  with_byRoute e
    (omap (fun definitions =>
       let filtered := filter (fun c => c.(compiledDefinition.definition).(AlertDefinition.ID) <> id) definitions in
       match filtered with [] => None | _ => Some filtered end) e.(byRoute)).

Definition definitionsFor (e : Engine) (series : Series) : list compiledDefinition :=
  routeList e.(byRoute) (routeKey series)
  ++ (if series.(Series.Dataset) != ""
      then routeList e.(byRoute) (routeKey (Series.mk "" series.(Series.Symbol) series.(Series.Timeframe)))
      else []).

(** ** When a definition applies *)

Definition effectiveAt (definition : AlertDefinition) : Time :=
  if negb (IsZero definition.(AlertDefinition.EffectiveAt)) then definition.(AlertDefinition.EffectiveAt)
  else definition.(AlertDefinition.CreatedAt).

Definition definitionEnabledAt (definition : AlertDefinition) (eventTime : Time) : bool :=
  let effective := effectiveAt definition in
  if definition.(AlertDefinition.Enabled) then negb (Before eventTime effective)
  else Before eventTime effective.

Definition acceptsMode (mode status : string) : bool :=
  if mode == "confirmed_close" then status == "confirmed"
  else if mode == "intrabar" then status == "provisional"
  else (status == "confirmed") || (status == "provisional").

Definition statusRank (status : string) : Z := if status == "confirmed" then 2 else 1.

Definition stale (observation : Observation) (state : SeriesEvaluationState) : bool :=
  let openTime := observation.(Observation.Candle).(Candle.OpenTime) in
  if IsZero state.(SeriesEvaluationState.LastOpenTime) then false
  else if Before openTime state.(SeriesEvaluationState.LastOpenTime) then true
  else if After openTime state.(SeriesEvaluationState.LastOpenTime) then false
  else if (observation.(Observation.Revision) <? state.(SeriesEvaluationState.LastRevision))%Z then true
  else if (observation.(Observation.Revision) >? state.(SeriesEvaluationState.LastRevision))%Z then false
  else (statusRank observation.(Observation.Status) <=? statusRank state.(SeriesEvaluationState.LastStatus))%Z.

Definition shouldTrigger (mode : string) (truth pulse : bool) (observation : Observation)
  (state : DefinitionEvaluationState) (lastTruth : bool) : bool :=
  if negb truth then false
  else if mode == "every_match" then true
  else if mode == "once_per_bar" then
    IsZero state.(DefinitionEvaluationState.LastAlertBar)
    || negb (Equal state.(DefinitionEvaluationState.LastAlertBar) observation.(Observation.Candle).(Candle.OpenTime))
  else pulse || negb lastTruth.

(** ** Copies

    [cloneFeatureState] allocates the new indicator map before it ranges over
    it: [state.Indicators] is the new, empty map by then, and nothing is
    copied. *)
Definition cloneIndicators (m : option (gmap string float64)) : option (gmap string float64) :=
  match m with
  | None => None
  | Some _ =>
      let fresh : gmap string float64 := ∅ in
      (* state.Indicators = fresh; for key, value := range state.Indicators *)
      Some (map_fold (fun key value copied => <[key := value]> copied) fresh fresh)
  end.

Definition cloneFeatureState (state : FeatureState) : FeatureState :=
  FeatureState.mk state.(FeatureState.LastClose) (cloneIndicators state.(FeatureState.Indicators))
    state.(FeatureState.Candles) state.(FeatureState.CandleColors)
    state.(FeatureState.FormingBar) state.(FeatureState.FormingColor).

Definition cloneSeriesState (state : SeriesEvaluationState) : SeriesEvaluationState :=
  SeriesEvaluationState.mk state.(SeriesEvaluationState.LastOpenTime)
    state.(SeriesEvaluationState.LastRevision) state.(SeriesEvaluationState.LastStatus)
    state.(SeriesEvaluationState.LastResetID) state.(SeriesEvaluationState.LastResetAt)
    (cloneFeatureState state.(SeriesEvaluationState.Confirmed))
    (cloneFeatureState state.(SeriesEvaluationState.Intrabar))
    state.(SeriesEvaluationState.ActiveZones).

Definition deterministicID (parts : list string) : string :=
  uuidShape (hexEncode (take 16 (sha256 (mjoin ((fun part => bytesOf part ++ [0%Z]) <$> parts))))).

(** ** Evaluation of a batch *)

(** The locals of [EvaluateBatch] and the counters, which the early returns do
    not take back. *)
Module Batch.
Record Batch := mk {
  seriesStates : gmap string SeriesEvaluationState;
  definitionStates : gmap string DefinitionEvaluationState;
  resetSeries : gset string;
  accepted : list Observation;
  alerts : list Alert;
  staleCount : Z;
  resetCount : Z;
  evalCount : Z }.

Definition start (e : Engine) : Batch :=
  mk ∅ ∅ ∅ [] [] e.(staleEvents) e.(resetEvents) e.(ruleEvals).

(** [e.staleEvents.Add(1)] and the other counters. *)
Definition countStale (b : Batch) : Batch :=
  mk b.(seriesStates) b.(definitionStates) b.(resetSeries) b.(accepted) b.(alerts)
     (uint64 (b.(staleCount) + 1)) b.(resetCount) b.(evalCount).

(** [e.ruleEvals.Add(1)] and [definitionStates[stateKey] = definitionState]. *)
Definition evaluated (b : Batch) (stateKey : string) (st : DefinitionEvaluationState) (new : list Alert) : Batch :=
  mk b.(seriesStates) (<[stateKey := st]> b.(definitionStates)) b.(resetSeries) b.(accepted)
     (b.(alerts) ++ new) b.(staleCount) b.(resetCount) (uint64 (b.(evalCount) + 1)).

(** [resetEvents.Add(1)], the key marked as reset and its definition states
    of this batch deleted. *)
Definition startReset (b : Batch) (seriesKey : string) : Batch :=
  mk b.(seriesStates) (dropSeries definitionSeriesKey seriesKey b.(definitionStates))
     ({[seriesKey]} ∪ b.(resetSeries)) b.(accepted) b.(alerts)
     b.(staleCount) (uint64 (b.(resetCount) + 1)) b.(evalCount).

(** [seriesStates[seriesKey] = seriesState] and the observation accepted. *)
Definition accept (b : Batch) (seriesKey : string) (st : SeriesEvaluationState) (o : Observation) : Batch :=
  mk (<[seriesKey := st]> b.(seriesStates)) b.(definitionStates) b.(resetSeries) (b.(accepted) ++ [o])
     b.(alerts) b.(staleCount) b.(resetCount) b.(evalCount).
End Batch.
Abbreviation Batch := Batch.Batch.

Section EvaluateBatch.
Context (e : Engine) (partitionID : Z) (partition : partitionRuntime) (now : Time).

(** The copy of the series' state this batch works on. *)
Definition seriesStateOf (b : Batch) (seriesKey : string) : SeriesEvaluationState :=
  match b.(Batch.seriesStates) !! seriesKey with
  | Some st => st
  | None => cloneSeriesState
              (default SeriesEvaluationState.zero (partition.(partitionRuntime.series) !! seriesKey))
  end.

(** *** Authoritative resets *)

(** [model.Observation{Status: "confirmed", Candle: bar}]. *)
Definition barObservation (bar : Candle) : Observation :=
  Observation.mk "" "" "" zeroTime "confirmed" 0 false [] (Series.mk "" "" "") bar [] [] [] []
    (AlgorithmRef.mk "" "" "").

Definition rebuild (bars : list Candle) : FeatureState :=
  foldl (fun feature bar => Advance feature (barObservation bar)) FeatureState.zero bars.

(** A reset that was seen before, or is not later than the last one. *)
Definition staleReset (input : Observation) (seriesState : SeriesEvaluationState) : bool :=
  (input.(Observation.SourceEventID) == seriesState.(SeriesEvaluationState.LastResetID))
  || (negb (IsZero seriesState.(SeriesEvaluationState.LastResetAt))
      && negb (After input.(Observation.OccurredAt) seriesState.(SeriesEvaluationState.LastResetAt))).

(** The body of the loop over the definitions in a reset. *)
Definition resetDefinition (input : Observation) (feature : FeatureState) (seriesKey : string)
  (b : Batch) (compiled : compiledDefinition) : option Batch :=
  let definition := compiled.(compiledDefinition.definition) in
  if negb (acceptsMode definition.(AlertDefinition.EvaluationMode) "confirmed") then Some b else
  let stateKey := DefinitionStateKey definition.(AlertDefinition.ID) seriesKey in
  let definitionState :=
    default DefinitionEvaluationState.zero (partition.(partitionRuntime.definitions) !! stateKey) in
  '(truth, _, _) ← EvaluateDetailed compiled.(compiledDefinition.rule) input feature;
  Some (Batch.evaluated b stateKey
    (DefinitionEvaluationState.mk truth false
       definitionState.(DefinitionEvaluationState.LastTriggerAt)
       definitionState.(DefinitionEvaluationState.LastAlertBar)) []).

(** The state of the series after a reset. *)
Definition resetSeriesState (input : Observation) : SeriesEvaluationState :=
  let confirmed := Advance (rebuild input.(Observation.History)) input in
  SeriesEvaluationState.mk
    (UTC input.(Observation.Candle).(Candle.OpenTime)) input.(Observation.Revision)
    input.(Observation.Status) input.(Observation.SourceEventID) (UTC input.(Observation.OccurredAt))
    confirmed (cloneFeatureState confirmed) input.(Observation.ActiveZones).

Definition evaluateReset (b : Batch) (input : Observation) (seriesKey : string) : option Batch :=
  b' ← loopM (resetDefinition input (rebuild input.(Observation.History)) seriesKey)
         (Batch.startReset b seriesKey) (definitionsFor e input.(Observation.Series));
  Some (Batch.accept b' seriesKey (resetSeriesState input) input).

(** *** Ordinary observations *)

Definition isProvisional (o : Observation) : bool := o.(Observation.Status) == "provisional".

(** A provisional observation without zones is given the cached ones. *)
Definition withZones (input : Observation) (seriesState : SeriesEvaluationState) : Observation :=
  if isProvisional input && (length input.(Observation.ActiveZones) =? 0)%nat
  then Observation.with_ActiveZones input seriesState.(SeriesEvaluationState.ActiveZones)
  else input.

(** The feature state the rules are evaluated on. *)
Definition featureFor (o : Observation) (seriesState : SeriesEvaluationState) : FeatureState :=
  if isProvisional o then
    let feature := seriesState.(SeriesEvaluationState.Intrabar) in
    match feature.(FeatureState.LastClose),
          seriesState.(SeriesEvaluationState.Confirmed).(FeatureState.LastClose) with
    | None, Some _ => cloneFeatureState seriesState.(SeriesEvaluationState.Confirmed)
    | _, _ => feature
    end
  else seriesState.(SeriesEvaluationState.Confirmed).

(** The definition's state: of this batch, else the partition's unless the
    series was reset in this batch. *)
Definition definitionStateOf (b : Batch) (stateKey seriesKey : string) : DefinitionEvaluationState :=
  match b.(Batch.definitionStates) !! stateKey with
  | Some st => st
  | None =>
      if bool_decide (seriesKey ∈ b.(Batch.resetSeries)) then DefinitionEvaluationState.zero
      else default DefinitionEvaluationState.zero (partition.(partitionRuntime.definitions) !! stateKey)
  end.

(** The guards at the head of the loop. *)
Definition applies (compiled : compiledDefinition) (o : Observation) : bool :=
  let definition := compiled.(compiledDefinition.definition) in
  negb (isProvisional o
        && (Z.land compiled.(compiledDefinition.rule).(Compiled.Dependencies)
              (Z.lor DependencyCandle DependencyIndicator) =? 0)%Z)
  && definitionEnabledAt definition o.(Observation.OccurredAt)
  && acceptsMode definition.(AlertDefinition.EvaluationMode) o.(Observation.Status).

(** Still cooling down: [observation.OccurredAt.Sub(LastTriggerAt) <
    time.Duration(CooldownSeconds)*time.Second]. *)
Definition coolingDown (definition : AlertDefinition) (st : DefinitionEvaluationState) (o : Observation) : bool :=
  (definition.(AlertDefinition.CooldownSeconds) >? 0)%Z
  && negb (IsZero st.(DefinitionEvaluationState.LastTriggerAt))
  && (Sub o.(Observation.OccurredAt) st.(DefinitionEvaluationState.LastTriggerAt)
      <? mulDur definition.(AlertDefinition.CooldownSeconds) Second)%Z.

(** Truth of this observation, on the definition's state: does it trigger? *)
Definition triggers (definition : AlertDefinition) (truth : bool) (o : Observation)
  (st : DefinitionEvaluationState) : bool :=
  let lastTruth := if isProvisional o then st.(DefinitionEvaluationState.LastTruthIntrabar)
                   else st.(DefinitionEvaluationState.LastTruthConfirmed) in
  shouldTrigger definition.(AlertDefinition.TriggerMode) truth (Pulse definition.(AlertDefinition.Rule)) o st lastTruth
  && negb (coolingDown definition st o).

(** The definition's state after the observation. *)
Definition nextState (st : DefinitionEvaluationState) (o : Observation) (truth trigger : bool)
  : DefinitionEvaluationState :=
  DefinitionEvaluationState.mk
    (if isProvisional o then st.(DefinitionEvaluationState.LastTruthConfirmed) else truth)
    (if isProvisional o then truth else st.(DefinitionEvaluationState.LastTruthIntrabar))
    (if trigger then UTC o.(Observation.OccurredAt) else st.(DefinitionEvaluationState.LastTriggerAt))
    (if trigger then UTC o.(Observation.Candle).(Candle.OpenTime) else st.(DefinitionEvaluationState.LastAlertBar)).

Definition alertOf (definition : AlertDefinition) (o : Observation) (reasons : list string)
  (facts : list FactReference) : Alert :=
  Alert.mk "io.ytstack.alert.triggered.v1"
    (deterministicID [definition.(AlertDefinition.ID); o.(Observation.SourceEventID)])
    definition.(AlertDefinition.ID) definition.(AlertDefinition.Version)
    definition.(AlertDefinition.DefinitionHash) definition.(AlertDefinition.Name)
    o.(Observation.SourceEventID) o.(Observation.CorrelationID) o.(Observation.Series)
    (UTC o.(Observation.OccurredAt)) now reasons facts o.(Observation.FeatureAlgorithm)
    o.(Observation.Revision) o.(Observation.Status) (marshalObservation o) "pending" 0.

(** The body of the loop over the definitions. *)
Definition evaluateDefinition (o : Observation) (feature : FeatureState) (seriesKey : string)
  (b : Batch) (compiled : compiledDefinition) : option Batch :=
  let definition := compiled.(compiledDefinition.definition) in
  if negb (applies compiled o) then Some b else
  let stateKey := DefinitionStateKey definition.(AlertDefinition.ID) seriesKey in
  let definitionState := definitionStateOf b stateKey seriesKey in
  '(truth, reasons, facts) ← EvaluateDetailed compiled.(compiledDefinition.rule) o feature;
  let trigger := triggers definition truth o definitionState in
  Some (Batch.evaluated b stateKey (nextState definitionState o truth trigger)
          (if trigger then [alertOf definition o reasons facts] else [])).

(** The series' state after the observation. *)
Definition nextSeriesState (seriesState : SeriesEvaluationState) (feature : FeatureState) (o : Observation)
  : SeriesEvaluationState :=
  let isConfirmed := o.(Observation.Status) == "confirmed" in
  let confirmed := if isConfirmed then Advance seriesState.(SeriesEvaluationState.Confirmed) o
                   else seriesState.(SeriesEvaluationState.Confirmed) in
  let intrabar := if isConfirmed then cloneFeatureState confirmed else Advance feature o in
  SeriesEvaluationState.mk (UTC o.(Observation.Candle).(Candle.OpenTime)) o.(Observation.Revision)
    o.(Observation.Status) seriesState.(SeriesEvaluationState.LastResetID)
    seriesState.(SeriesEvaluationState.LastResetAt) confirmed intrabar
    (if (0 <? length o.(Observation.ActiveZones))%nat then o.(Observation.ActiveZones)
     else seriesState.(SeriesEvaluationState.ActiveZones)).

Definition evaluateOrdinary (b : Batch) (input : Observation) (seriesKey : string)
  (seriesState : SeriesEvaluationState) : option Batch :=
  let observation := withZones input seriesState in
  let feature := featureFor observation seriesState in
  b' ← loopM (evaluateDefinition observation feature seriesKey) b
         (definitionsFor e observation.(Observation.Series));
  Some (Batch.accept b' seriesKey (nextSeriesState seriesState feature observation) observation).

(** *** The loop over the observations *)

(** The body returns from the function, or goes on. *)
Inductive Step :=
| Continue (b : Batch)
| Return (err : EngineError) (b : Batch).

Definition evaluateObservation (b : Batch) (input : Observation) : option Step :=
  let seriesKey := Series.Key input.(Observation.Series) in
  if negb (Partition e input.(Observation.Series) =? partitionID)%Z
  then Some (Return (ErrWrongPartition seriesKey) b) else
  let seriesState := seriesStateOf b seriesKey in
  if input.(Observation.IsReset) && staleReset input seriesState then Some (Continue (Batch.countStale b))
  else if negb input.(Observation.IsReset) && stale input seriesState then Some (Continue (Batch.countStale b))
  else if input.(Observation.IsReset) then Continue <$> evaluateReset b input seriesKey
  else Continue <$> evaluateOrdinary b input seriesKey seriesState.

Fixpoint evaluateAll (b : Batch) (observations : list Observation) : option Step :=
  match observations with
  | [] => Some (Continue b)
  | input :: rest =>
      match evaluateObservation b input with
      | Some (Continue b') => evaluateAll b' rest
      | other => other
      end
  end.
End EvaluateBatch.

(** [resetKeys] is sorted by [sort.Strings]. *)
Definition batchOf (partitionID : Z) (b : Batch) : RuntimeBatch :=
  RuntimeBatch.mk partitionID b.(Batch.accepted) b.(Batch.seriesStates) b.(Batch.definitionStates)
    (merge_sort String.le (elements b.(Batch.resetSeries))) b.(Batch.alerts).

Definition withCounters (e : Engine) (b : Batch) : Engine :=
  with_counters e b.(Batch.staleCount) b.(Batch.resetCount) b.(Batch.evalCount).

(** The partition after the commit. *)
Definition advancePartition (partition : partitionRuntime) (batch : RuntimeBatch) : partitionRuntime :=
  partitionRuntime.mk
    ((cloneSeriesState <$> batch.(RuntimeBatch.SeriesStates)) ∪ partition.(partitionRuntime.series))
    (batch.(RuntimeBatch.DefinitionStates)
       ∪ dropAllSeries definitionSeriesKey batch.(RuntimeBatch.ResetSeriesKeys)
           partition.(partitionRuntime.definitions)).

Definition EvaluateBatch {R} `{Repository R} (now : Time) (partitionID : Z) (observations : list Observation)
  (e : Engine) (repository : R) : Res EngineError (list Alert) * Engine * R :=
  if ((partitionID <? 0) || (partitionID >=? partitionCountOf e))%Z
  then (Err (ErrPartitionRange partitionID), e, repository)
  else if negb (owns e partitionID) then (Err (ErrNotOwned partitionID), e, repository)
  else
  match e.(partitions) !! Z.to_nat partitionID with
  | None => (Panic, e, repository)
  | Some partition =>
    match evaluateAll e partitionID partition (UTC now) (Batch.start e) observations with
    | None => (Panic, e, repository)
    | Some (Return err b) => (Err err, withCounters e b, repository)
    | Some (Continue b) =>
        let e1 := withCounters e b in
        if (length b.(Batch.accepted) =? 0)%nat then (Ok [], e1, repository) else
        let batch := batchOf partitionID b in
        match CommitRuntimeBatch batch repository with
        | (Err err, repository') => (Err (ErrRepository err), e1, repository')
        | (Panic, repository') => (Panic, e1, repository')
        | (Ok committed, repository') =>
            (Ok committed,
             with_partitions e1 (<[Z.to_nat partitionID := advancePartition partition batch]> e1.(partitions)),
             repository')
        end
    end
  end.

(** ** Start-up *)

(** The two loops of [Initialize] over the snapshot: each checkpoint goes to
    the partition of its key, if this worker owns it. *)
Definition loadSeries (e : Engine) (snapshot : RuntimeSnapshot) (p : Z) (partition : partitionRuntime)
  : partitionRuntime :=
  let mine (key : string) := (PartitionForKey e key =? p)%Z && owns e p in
  partitionRuntime.mk
    ((cloneSeriesState <$> filter (fun kv => mine kv.1 = true) snapshot.(RuntimeSnapshot.Series))
       ∪ partition.(partitionRuntime.series))
    (filter (fun kv => mine (definitionSeriesKey kv.1) = true) snapshot.(RuntimeSnapshot.Definitions)
       ∪ partition.(partitionRuntime.definitions)).

Definition Initialize {R} `{Repository R} (env : Env) (nowNanos : Z) (e : Engine) (repository : R)
  : Res EngineError unit * Engine :=
  match ListDefinitions env repository with
  | Err err => (Err (ErrRepository err), e)
  | Panic => (Panic, e)
  | Ok definitions =>
    match ReplaceDefinitions nowNanos definitions e with
    | (Err err, e1) => (Err err, e1)
    | (Panic, e1) => (Panic, e1)
    | (Ok _, e1) =>
      match LoadRuntimeStates (ownedPartitions e1) repository with
      | Err err => (Err (ErrRepository err), e1)
      | Panic => (Panic, e1)
      | Ok snapshot =>
          (Ok (), with_partitions e1
             (imap (fun p partition => loadSeries e1 snapshot (Z.of_nat p) partition) e1.(partitions)))
      end
    end
  end.

Module Metrics.
Record Metrics := mk { StaleEvents : Z; ResetEvents : Z; RuleEvals : Z }.
End Metrics.
Definition metricsOf (e : Engine) : Metrics.Metrics :=
  Metrics.mk e.(staleEvents) e.(resetEvents) e.(ruleEvals).
