(* ===== verification/EngineIndex.v ===== *)
(** * The engine's definition index

    The index maps a route to the compiled definitions of that route, ordered
    by identifier. Its specification is a collection of compiled definitions
    with distinct identifiers: [represents r cs]. Every operation of the index
    implements the obvious operation on the collection, and [definitionsFor]
    finds exactly the definitions whose series selector matches. *)

From stdpp Require Import base gmap strings list numbers sorting.
From Stdlib Require Import Ascii.
From S2P Require Import Prelude GoFloat GoBase GoTime Model Rules Store Memory Fixtures Engine.
Import Engine.

Definition cid (c : compiledDefinition) : string :=
  c.(compiledDefinition.definition).(AlertDefinition.ID).
Definition croute (c : compiledDefinition) : string :=
  routeKey c.(compiledDefinition.definition).(AlertDefinition.Series).

Definition onRoute (key : string) (cs : list compiledDefinition) : list compiledDefinition :=
  filter (fun c => croute c = key) cs.

(** The compiled part of each definition is its own rule's. *)
Definition compiledOk (c : compiledDefinition) : Prop :=
  Compile c.(compiledDefinition.definition).(AlertDefinition.Rule) = Ok c.(compiledDefinition.rule).

(** Index [r] holds the collection [cs]. *)
Definition represents (r : Routes) (cs : list compiledDefinition) : Prop :=
  NoDup (cid <$> cs) /\ Forall compiledOk cs /\
  forall key, routeList r key = sortByID (onRoute key cs).

(** ** Sorting by identifier *)

#[export] Instance idLe_total : Total idLe.
Proof. intros a b. unfold idLe. apply total, _. Qed.
#[export] Instance idLe_trans : Transitive idLe.
Proof. intros a b c. unfold idLe. apply transitivity. Qed.

Lemma NoDup_fmap_inj {A B} (f : A -> B) (l : list A) x y :
  NoDup (f <$> l) -> x ∈ l -> y ∈ l -> f x = f y -> x = y.
Proof.
  induction l as [|z l IH]; [by intros _ ?%elem_of_nil|].
  intros [Hz Hd]%NoDup_cons [->|Hx]%elem_of_cons [->|Hy]%elem_of_cons E; [done| | |by apply IH].
  - destruct Hz. rewrite E. by apply list_elem_of_fmap_2.
  - destruct Hz. rewrite <- E. by apply list_elem_of_fmap_2.
Qed.

(** Two sorted arrangements of definitions with distinct identifiers agree. *)
Lemma sorted_unique l l' :
  NoDup (cid <$> l) -> StronglySorted idLe l -> StronglySorted idLe l' -> l ≡ₚ l' -> l = l'.
Proof.
  intros Hd Hs Hs' Hp. apply (StronglySorted_unique_strong idLe); try done.
  intros x y Hx Hy H1 H2. rewrite <- Hp in Hy. apply (NoDup_fmap_inj cid l); try done.
  unfold idLe in *. by apply (anti_symm String.le).
Qed.

Lemma sortByID_perm l : sortByID l ≡ₚ l.
Proof. apply merge_sort_Permutation. Qed.

Lemma sortByID_sorted l : StronglySorted idLe (sortByID l).
Proof. apply StronglySorted_merge_sort; apply _. Qed.

Lemma NoDup_filter_fmap {A B} (f : A -> B) (P : A -> Prop) `{!forall x, Decision (P x)} (l : list A) :
  NoDup (f <$> l) -> NoDup (f <$> filter P l).
Proof.
  induction l as [|x l IH]; [done|]. intros [Hx Hd]%NoDup_cons.
  rewrite filter_cons. case_decide; [|by apply IH]. rewrite fmap_cons. constructor; [|by apply IH].
  intros (y & Hy & [_ Hin]%list_elem_of_filter)%list_elem_of_fmap.
  apply Hx. rewrite Hy. by apply list_elem_of_fmap_2.
Qed.

(** The order in which definitions arrive does not matter. *)
Lemma sortByID_proper l l' : NoDup (cid <$> l) -> l ≡ₚ l' -> sortByID l = sortByID l'.
Proof.
  intros Hd Hp. apply sorted_unique; try apply sortByID_sorted.
  - by rewrite sortByID_perm.
  - by rewrite !sortByID_perm.
Qed.

Lemma represents_perm r cs cs' : represents r cs -> cs ≡ₚ cs' -> represents r cs'.
Proof.
  intros (Hd & Hok & Hr) Hp. repeat split; [by rewrite <- Hp|by rewrite <- Hp|].
  intros key. rewrite Hr. apply sortByID_proper; [by apply NoDup_filter_fmap|].
  unfold onRoute. by rewrite Hp.
Qed.

(** ** Building the index *)

Definition compileDefinition (d : AlertDefinition) : option compiledDefinition :=
  match Compile d.(AlertDefinition.Rule) with Ok c => Some (compiledDefinition.mk d c) | _ => None end.

Lemma compileDefinition_Some d c :
  compileDefinition d = Some c -> c.(compiledDefinition.definition) = d /\ compiledOk c.
Proof.
  unfold compileDefinition, compiledOk. destruct (Compile _) eqn:E; [|done..].
  by intros [= <-].
Qed.

Lemma routeList_insert (r : Routes) key key' l :
  routeList (<[key := l]> r) key' = if decide (key = key') then l else routeList r key'.
Proof.
  unfold routeList. case_decide as E; [subst; by rewrite lookup_insert_eq|by rewrite lookup_insert_ne].
Qed.

Lemma group_spec l : forall r r',
  groupDefinitions r l = Ok r' <->
  exists cs, mapM compileDefinition l = Some cs /\
    r' = foldl (fun r c => <[croute c := routeList r (croute c) ++ [c]]> r) r cs.
Proof.
  induction l as [|d l IH]; intros r r'; simpl.
  { split; [intros [= <-]; by exists []|]. by intros (cs & [= <-] & ->). }
  destruct (compileDefinition d) as [c|] eqn:Ed; unfold compileDefinition in Ed;
    destruct (Compile _) as [rule| |]; simplify_eq; simpl; [|by split; [done|intros (? & [=] & _)]..].
  rewrite IH. split.
  - intros (cs & -> & ->). simpl. eexists. by split.
  - intros (cs & Hcs & ->). destruct (mapM compileDefinition l) as [cs'|]; simpl in Hcs; [|done].
    injection Hcs as <-. by exists cs'.
Qed.

Lemma group_routeList cs : forall r key,
  routeList (foldl (fun r c => <[croute c := routeList r (croute c) ++ [c]]> r) r cs) key
  = routeList r key ++ onRoute key cs.
Proof.
  unfold onRoute. induction cs as [|c cs IH]; intros r key; simpl.
  { by rewrite filter_nil, app_nil_r. }
  rewrite IH, routeList_insert, filter_cons.
  case_decide as E; [subst; by rewrite <- app_assoc|done].
Qed.

Lemma mapM_compile l cs :
  mapM compileDefinition l = Some cs ->
  compiledDefinition.definition <$> cs = l /\ Forall compiledOk cs.
Proof.
  intros H%mapM_Some. induction H as [|d c l cs Hd _ [IH1 IH2]]; [done|].
  apply compileDefinition_Some in Hd as [<- ?]. simpl. split; [by f_equal|by constructor].
Qed.

Lemma ReplaceDefinitions_represents now defs e e' :
  NoDup (AlertDefinition.ID <$> defs) ->
  ReplaceDefinitions now defs e = (Ok (), e') ->
  exists cs, compiledDefinition.definition <$> cs = defs /\ represents e'.(byRoute) cs.
Proof.
  unfold ReplaceDefinitions. intros Hd. destruct (groupDefinitions _ _) as [r| |] eqn:E; [|done..].
  intros [= <-]. apply group_spec in E as (cs & Hcs & ->). apply mapM_compile in Hcs as [<- Hok].
  exists cs. split; [done|]. split.
  - by rewrite <- list_fmap_compose in Hd.
  - split; [done|]. intros key. simpl. pose proof (group_routeList cs ∅ key) as H.
    unfold routeList in H |- *. rewrite lookup_fmap, lookup_empty in *. simpl in H.
    rewrite <- H. by destruct (foldl _ _ _ !! key).
Qed.

(** ** Updating the index *)

Lemma replaceFirst_Some id new l l' :
  replaceFirst id new l = Some l' ->
  exists l1 old l2, l = l1 ++ old :: l2 /\ cid old = id /\ l' = l1 ++ new :: l2.
Proof.
  revert l'. induction l as [|c l IH]; intros l'; simpl; [done|].
  destruct (String.eqb_spec (cid c) id) as [Hc|Hc]; unfold cid in *.
  - rewrite Hc, eqb_refl_true. intros [= <-]. by exists [], c, l.
  - rewrite eqb_neq_false by done. destruct (replaceFirst id new l) as [l0|]; simpl; [|done].
    intros [= <-]. destruct (IH _ eq_refl) as (l1 & old & l2 & -> & ? & ->).
    by exists (c :: l1), old, l2.
Qed.

Lemma replaceFirst_None id new l : replaceFirst id new l = None -> id ∉ cid <$> l.
Proof.
  induction l as [|c l IH]; simpl; [intros _; apply not_elem_of_nil|].
  destruct (String.eqb_spec c.(compiledDefinition.definition).(AlertDefinition.ID) id); [done|].
  destruct (replaceFirst id new l); [done|]. intros _. apply not_elem_of_cons.
  split; [|by apply IH]. unfold cid. congruence.
Qed.

(** A list stays sorted when an element is replaced by one with its key. *)
Lemma sorted_replace l1 old new l2 :
  cid old = cid new -> StronglySorted idLe (l1 ++ old :: l2) -> StronglySorted idLe (l1 ++ new :: l2).
Proof.
  intros E. rewrite !StronglySorted_app, !StronglySorted_cons.
  assert (forall c, (idLe c old <-> idLe c new) /\ (idLe old c <-> idLe new c)) as Hk.
  { intros c. unfold idLe. unfold cid in E. by rewrite E. }
  intros (H & ? & Hf & ?). split; [|split; [done|split; [|done]]].
  - intros x1 x2 Hx1 [->|Hx2]%elem_of_cons; [apply Hk, H; [done|left]|apply H; [done|by right]].
  - eapply Forall_impl; [done|]. intros c. apply Hk.
Qed.

Lemma filter_fmap_not_elem (id : string) (l : list compiledDefinition) :
  id ∉ cid <$> l -> filter (fun x => cid x <> id) l = l.
Proof.
  intros H. apply filter_keeps, Forall_forall. intros x Hx <-. by apply H, list_elem_of_fmap_2.
Qed.

Lemma UpsertDefinition_represents e cs d :
  represents e.(byRoute) cs ->
  (forall c, c ∈ cs -> cid c = d.(AlertDefinition.ID) -> croute c = routeKey d.(AlertDefinition.Series)) ->
  match Compile d.(AlertDefinition.Rule) with
  | Ok rule =>
      exists e', UpsertDefinition d e = (Ok (), e') /\
        represents e'.(byRoute)
          (filter (fun c => cid c <> d.(AlertDefinition.ID)) cs ++ [compiledDefinition.mk d rule])
  | _ => exists err, UpsertDefinition d e = (Err err, e)
  end.
Proof.
  intros (Hd & Hok & Hr) Hroute. unfold UpsertDefinition.
  destruct (Compile d.(AlertDefinition.Rule)) as [rule|err|] eqn:Ec;
    [|by eexists|unfold Compile in Ec; by destruct (Validate _)].
  set (new := compiledDefinition.mk d rule). set (key := routeKey _). set (id := AlertDefinition.ID d).
  set (others := filter (fun c => cid c <> id) cs).
  assert (NoDup (cid <$> others ++ [new])) as Hnd.
  { rewrite fmap_app. apply NoDup_app. split; [by apply NoDup_filter_fmap|].
    split; [|apply NoDup_singleton].
    intros x (c & -> & [Hc _]%list_elem_of_filter)%list_elem_of_fmap E%list_elem_of_singleton. by apply Hc. }
  assert (Forall compiledOk (others ++ [new])) as Hok'.
  { apply Forall_app; split; [by apply Forall_filter|]. by constructor. }
  assert (forall key', onRoute key' (others ++ [new]) =
            filter (fun c => cid c <> id) (onRoute key' cs) ++ (if decide (key = key') then [new] else [])) as Hon.
  { intros key'. unfold onRoute. rewrite filter_app, filter_cons, filter_nil. unfold others.
    rewrite !list_filter_filter. f_equal. apply list_filter_iff; tauto. }
  assert (forall key', key <> key' ->
    sortByID (onRoute key' (others ++ [new])) = sortByID (onRoute key' cs)) as Hother.
  { intros key' Hne. rewrite Hon, decide_False, app_nil_r by done. f_equal.
    apply filter_fmap_not_elem. intros (c & Hc & [Hk Hin]%list_elem_of_filter)%list_elem_of_fmap.
    apply Hne. rewrite <- Hk. symmetry. by apply Hroute. }
  assert (forall l, StronglySorted idLe l -> l ≡ₚ onRoute key (others ++ [new]) ->
            represents (<[key := l]> e.(byRoute)) (others ++ [new])) as Hfin.
  { intros l Hs Hp. split; [done|]. split; [done|]. intros key'. rewrite routeList_insert.
    case_decide as E.
    - subst key'. apply sorted_unique; [|done|apply sortByID_sorted|by rewrite sortByID_perm].
      rewrite Hp. by apply NoDup_filter_fmap.
    - rewrite Hr. symmetry. by apply Hother. }
  rewrite Hr. destruct (replaceFirst id new _) as [l|] eqn:E.
  - eexists; split; [done|]. apply Hfin.
    + apply replaceFirst_Some in E as (l1 & old & l2 & Hl & Ho & ->).
      eapply sorted_replace; [exact Ho|]. rewrite <- Hl. apply sortByID_sorted.
    + apply replaceFirst_Some in E as (l1 & old & l2 & Hl & Ho & ->).
      rewrite Hon, decide_True by done.
      rewrite <- (sortByID_perm (onRoute key cs)), Hl.
      assert (NoDup (cid <$> l1 ++ old :: l2)) as Hn.
      { rewrite <- Hl, sortByID_perm. by apply NoDup_filter_fmap. }
      rewrite fmap_app, fmap_cons in Hn. apply NoDup_app in Hn as (_ & Hx & [Hy _]%NoDup_cons).
      rewrite filter_app, filter_cons, decide_False by tauto.
      rewrite !filter_fmap_not_elem; [|by rewrite <- Ho|].
      * rewrite <- Permutation_middle. symmetry. apply (Permutation_app_comm _ [new]).
      * intros Hin. eapply Hx; [done|]. rewrite Ho. left.
  - eexists; split; [done|]. apply Hfin; [apply sortByID_sorted|].
    apply replaceFirst_None in E. rewrite !sortByID_perm in E |- *.
    rewrite Hon, decide_True by done. by rewrite filter_fmap_not_elem, sortByID_perm.
Qed.

Lemma RemoveDefinition_represents e cs id :
  represents e.(byRoute) cs ->
  represents (RemoveDefinition id e).(byRoute) (filter (fun c => cid c <> id) cs).
Proof.
  intros (Hd & Hok & Hr). split; [by apply NoDup_filter_fmap|]. split; [by apply Forall_filter|].
  intros key. specialize (Hr key). unfold RemoveDefinition. simpl.
  assert (onRoute key (filter (fun c => cid c <> id) cs) = filter (fun c => cid c <> id) (onRoute key cs)) as ->.
  { unfold onRoute. rewrite !list_filter_filter. apply list_filter_iff; tauto. }
  unfold routeList in *. rewrite lookup_omap.
  assert (filter (fun c => cid c <> id) (sortByID (onRoute key cs))
          = sortByID (filter (fun c => cid c <> id) (onRoute key cs))) as Hf.
  { apply sorted_unique.
    - apply NoDup_filter_fmap. rewrite sortByID_perm. by apply NoDup_filter_fmap.
    - assert (forall l, StronglySorted idLe l -> StronglySorted idLe (filter (fun c => cid c <> id) l)) as Hs.
      { induction 1 as [|x l Hl IH Hx]; [constructor|]. rewrite filter_cons. case_decide; [|done].
        constructor; [done|]. by apply Forall_filter. }
      apply Hs, sortByID_sorted.
    - apply sortByID_sorted.
    - by rewrite !sortByID_perm. }
  rewrite <- Hf, <- Hr. unfold cid. destruct (byRoute e !! key) as [l|]; simpl; [|done].
  by destruct (filter _ l).
Qed.

(** ** Looking up *)

(** A name without the separator of [routeKey]. *)
Definition noNul (s : string) : bool := absent Ascii.zero s.
Definition seriesNoNul (s : Series) : Prop :=
  noNul s.(Series.Dataset) = true /\ noNul s.(Series.Symbol) = true.

Lemma routeKey_inj s s' : seriesNoNul s -> seriesNoNul s' -> routeKey s = routeKey s' -> s = s'.
Proof.
  destruct s as [d y t], s' as [d' y' t']. intros [Hd Hy] [Hd' Hy'] E.
  unfold routeKey in E. simpl in *.
  pose proof (cut_absent Ascii.zero d (y +:+ nul +:+ t) Hd) as C1.
  pose proof (cut_absent Ascii.zero d' (y' +:+ nul +:+ t') Hd') as C1'.
  pose proof (cut_absent Ascii.zero y t Hy) as C2. pose proof (cut_absent Ascii.zero y' t' Hy') as C2'.
  unfold nul in *. rewrite E, C1' in C1. simplify_eq.
  match goal with H : y' +:+ _ = y +:+ _ |- _ => rewrite <- H, C2' in C2 end.
  by simplify_eq.
Qed.

Definition wildcard (s : Series) : Series := Series.mk "" s.(Series.Symbol) s.(Series.Timeframe).

Lemma matchSeries_spec sel s :
  matchSeries sel s = true <-> sel = s \/ sel = wildcard s.
Proof.
  destruct sel as [d y t], s as [d' y' t']. unfold matchSeries, wildcard. simpl.
  rewrite !andb_true_iff, orb_true_iff, !String.eqb_eq. intuition congruence.
Qed.

Section Lookup.
Context (e : Engine) (cs : list compiledDefinition).
Hypothesis Hrep : represents e.(byRoute) cs.

Lemma elem_routeList key c : c ∈ routeList e.(byRoute) key <-> c ∈ cs /\ croute c = key.
Proof.
  destruct Hrep as (_ & _ & Hr). rewrite Hr, sortByID_perm. unfold onRoute.
  rewrite list_elem_of_filter. tauto.
Qed.

Lemma definitionsFor_compiled s : Forall compiledOk (definitionsFor e s).
Proof.
  destruct Hrep as (_ & Hok & _). rewrite Forall_forall in Hok. apply Forall_forall. intros c.
  unfold definitionsFor. rewrite elem_of_app. case_goal; rewrite ?elem_routeList, ?elem_of_nil; intuition auto.
Qed.

(** The same definition is not looked up twice. *)
Lemma definitionsFor_NoDup s : seriesNoNul s -> NoDup (cid <$> definitionsFor e s).
Proof.
  intros Hs. destruct Hrep as (Hd & _ & Hr). unfold definitionsFor. rewrite fmap_app. apply NoDup_app.
  rewrite !Hr. split; [rewrite sortByID_perm; by apply NoDup_filter_fmap|]. split.
  - intros x (c & -> & Hc)%list_elem_of_fmap (c' & Hid & Hc')%list_elem_of_fmap.
    case_hyp Hc'; [|by apply elem_of_nil in Hc'].
    rewrite sortByID_perm in Hc. unfold onRoute in Hc. apply list_elem_of_filter in Hc as [Hc Hin].
    apply (elem_routeList) in Hc' as [Hin' Hc'] || (rewrite sortByID_perm in Hc';
      unfold onRoute in Hc'; apply list_elem_of_filter in Hc' as [Hc' Hin']).
    assert (c = c') by (by apply (NoDup_fmap_inj cid cs)). subst c'. rewrite Hc in Hc'.
    apply routeKey_inj in Hc'; [|done|by destruct Hs; split].
    by destruct s; simplify_eq/=.
  - case_goal; [|constructor]. rewrite ?Hr, sortByID_perm. by apply NoDup_filter_fmap.
Qed.

Lemma definitionsFor_match s c :
  seriesNoNul s -> Forall (fun c => seriesNoNul c.(compiledDefinition.definition).(AlertDefinition.Series)) cs ->
  c ∈ definitionsFor e s <->
  c ∈ cs /\ matchSeries c.(compiledDefinition.definition).(AlertDefinition.Series) s = true.
Proof.
  intros Hs Hcs. rewrite Forall_forall in Hcs. unfold definitionsFor.
  rewrite elem_of_app, elem_routeList, matchSeries_spec. split.
  - intros [[Hin Hc]|Hc].
    + split; [done|]. left. apply routeKey_inj; auto.
    + case_hyp Hc; [|by apply elem_of_nil in Hc]. apply elem_routeList in Hc as [Hin Hc].
      split; [done|]. right. apply routeKey_inj; auto. by destruct Hs.
  - intros [Hin [Hm|Hm]]; [left; split; [done|]; unfold croute; by rewrite Hm|].
    destruct (String.eqb_spec s.(Series.Dataset) "") as [Ed|Ed].
    + left. split; [done|]. unfold croute. rewrite Hm. destruct s; simpl in *; by subst.
    + right. simpl. rewrite elem_routeList. split; [done|]. unfold croute. by rewrite Hm.
Qed.
End Lookup.

(** ** Histories of the index *)

Inductive IndexOp :=
| IxReplace (now : Z) (defs : list AlertDefinition)
| IxUpsert (d : AlertDefinition)
| IxRemove (id : string).

(** What the engine does. *)
Definition execIndex (e : Engine) (op : IndexOp) : Engine :=
  match op with
  | IxReplace now defs => (ReplaceDefinitions now defs e).2
  | IxUpsert d => (UpsertDefinition d e).2
  | IxRemove id => RemoveDefinition id e
  end.

(** What the collection of definitions becomes: a call with a rule that does
    not compile is refused as a whole. *)
Definition specIndex (cs : list compiledDefinition) (op : IndexOp) : list compiledDefinition :=
  match op with
  | IxReplace _ defs => default cs (mapM compileDefinition defs)
  | IxUpsert d => match compileDefinition d with
                  | Some c => filter (fun c' => cid c' <> d.(AlertDefinition.ID)) cs ++ [c]
                  | None => cs
                  end
  | IxRemove id => filter (fun c => cid c <> id) cs
  end.

(** An identifier determines its series (the service derives it from a hash
    that covers the series), and a list given to [ReplaceDefinitions] has each
    identifier once (it is the primary key of the table). *)
Definition indexOpOk (seriesOf : string -> Series) (op : IndexOp) : Prop :=
  match op with
  | IxReplace _ defs => NoDup (AlertDefinition.ID <$> defs) /\
      Forall (fun d => d.(AlertDefinition.Series) = seriesOf d.(AlertDefinition.ID)) defs
  | IxUpsert d => d.(AlertDefinition.Series) = seriesOf d.(AlertDefinition.ID)
  | IxRemove _ => True
  end.

Definition hasSeries (seriesOf : string -> Series) (c : compiledDefinition) : Prop :=
  c.(compiledDefinition.definition).(AlertDefinition.Series) = seriesOf (cid c).

Lemma execIndex_refines seriesOf e cs op :
  indexOpOk seriesOf op -> represents e.(byRoute) cs -> Forall (hasSeries seriesOf) cs ->
  represents (execIndex e op).(byRoute) (specIndex cs op) /\ Forall (hasSeries seriesOf) (specIndex cs op).
Proof.
  intros Hop Hr Hs. destruct op as [now defs|d|id]; simpl in *.
  - destruct Hop as [Hd Hser]. unfold ReplaceDefinitions.
    destruct (mapM compileDefinition defs) as [cs'|] eqn:Em; simpl.
    + assert (groupDefinitions ∅ defs = Ok _) as Hg by (apply group_spec; eauto).
      pose proof (ReplaceDefinitions_represents now defs e) as H. unfold ReplaceDefinitions in H.
      rewrite Hg in H |- *. edestruct H as (cs2 & Hcs2 & Hr2); [done|done|].
      assert (cs2 = cs') as ->.
      { destruct Hr2 as (_ & Hok2 & _). apply mapM_compile in Em as [Em Hok'].
        rewrite <- Em in Hcs2. clear -Hcs2 Hok2 Hok'. revert cs' Hcs2 Hok'.
        induction cs2 as [|c cs2 IH]; intros [|c' cs'] E Hok'; try done. simpl in E.
        apply Forall_cons in Hok2 as [H1 H2]. apply Forall_cons in Hok' as [H3 H4].
        injection E as Ec E. rewrite (IH H2 cs' E H4). f_equal.
        unfold compiledOk in *. destruct c, c'; simpl in *. subst. congruence. }
      split; [done|]. apply mapM_compile in Em as [<- _]. apply Forall_fmap in Hser. done.
    + destruct (groupDefinitions ∅ defs) as [r| |] eqn:Hg; try done.
      apply group_spec in Hg as (? & ? & _). congruence.
  - pose proof (UpsertDefinition_represents e cs d Hr) as H. unfold compileDefinition.
    destruct (Compile d.(AlertDefinition.Rule)) as [rule| |] eqn:Ec.
    + destruct H as (e' & -> & Hr').
      { intros c Hc Hid. rewrite Forall_forall in Hs. specialize (Hs c Hc). unfold hasSeries, croute in *.
        by rewrite Hs, Hop, Hid. }
      split; [done|]. apply Forall_app; split; [by apply Forall_filter|]. by constructor.
    + unfold UpsertDefinition. by rewrite Ec.
    + unfold UpsertDefinition. by rewrite Ec.
  - split; [by apply RemoveDefinition_represents|by apply Forall_filter].
Qed.

Definition execIndexAll (e : Engine) (ops : list IndexOp) : Engine := foldl execIndex e ops.
Definition specIndexAll (ops : list IndexOp) : list compiledDefinition := foldl specIndex [] ops.

Lemma represents_empty e : e.(byRoute) = ∅ -> represents e.(byRoute) [].
Proof. intros ->. split; [apply NoDup_nil_2|]. split; [by apply Forall_nil|]. by intros key. Qed.

Lemma execIndexAll_refines seriesOf e ops :
  e.(byRoute) = ∅ -> Forall (indexOpOk seriesOf) ops ->
  represents (execIndexAll e ops).(byRoute) (specIndexAll ops) /\
  Forall (hasSeries seriesOf) (specIndexAll ops).
Proof.
  intros He Hops. unfold execIndexAll, specIndexAll.
  assert (represents e.(byRoute) [] /\ Forall (hasSeries seriesOf) []) as H
    by (split; [by apply represents_empty|constructor]).
  revert H. generalize (@nil compiledDefinition) as cs. clear He. revert e.
  induction Hops as [|op ops Hop _ IH]; intros e cs [Hr Hs]; simpl; [done|].
  apply IH. by apply execIndex_refines.
Qed.

(** ** Properties *)

(** The index implements the collection of definitions. After any
    sequence of replacements, upserts and removals on a new engine, the index
    holds exactly the collection the same sequence yields: each definition
    once, with the compilation of its own rule, on the route of its series,
    and ordered by identifier; a call whose rule does not compile changes
    nothing. *)
Theorem index_refines (seriesOf : string -> Series) (n index count : Z) (ops : list IndexOp) :
  Forall (indexOpOk seriesOf) ops ->
  represents (execIndexAll (NewWithOwnership n index count) ops).(byRoute) (specIndexAll ops).
Proof. intros H. by apply (execIndexAll_refines seriesOf). Qed.

Definition someDef (id : string) (r : Rule) : AlertDefinition :=
  AlertDefinition.mk id 1 id id true btc r "confirmed_close" "on_occurrence" 0 start start start.

Definition someOps : list IndexOp :=
  [IxReplace 1 [someDef "b" threeRed; someDef "a" redColor]; IxUpsert (someDef "c" redColor);
   IxUpsert (someDef "b" redColor); IxRemove "a"].

Lemma index_refines_witness :
  represents (execIndexAll (New 256) someOps).(byRoute) (specIndexAll someOps) /\
  cid <$> definitionsFor (execIndexAll (New 256) someOps) btc = ["b"; "c"].
Proof.
  split; [|vm_compute; reflexivity].
  apply (index_refines (fun _ => btc) 256 0 1 someOps).
  repeat constructor; intros H; repeat (apply elem_of_cons in H as [H|H]; [discriminate H|]);
    by apply elem_of_nil in H.
Defined.

(** An observation meets exactly the definitions that select its series.
    [definitionsFor] returns, each once, the indexed definitions whose symbol
    and time frame are the series' and whose data set is the series' or empty. *)
Theorem definitionsFor_exact (seriesOf : string -> Series) (n index count : Z) (ops : list IndexOp)
  (s : Series) :
  Forall (indexOpOk seriesOf) ops -> (forall id, seriesNoNul (seriesOf id)) -> seriesNoNul s ->
  let found := definitionsFor (execIndexAll (NewWithOwnership n index count) ops) s in
  NoDup (cid <$> found) /\
  forall c, c ∈ found <->
    c ∈ specIndexAll ops /\ matchSeries c.(compiledDefinition.definition).(AlertDefinition.Series) s = true.
Proof.
  intros Hops Hser Hs. destruct (execIndexAll_refines seriesOf (NewWithOwnership n index count) ops) as [Hr Hf];
    [done|done|].
  split; [by eapply definitionsFor_NoDup|]. intros c. apply definitionsFor_match; [done|done|].
  eapply Forall_impl; [exact Hf|]. intros c' ->. apply Hser.
Qed.

Lemma definitionsFor_exact_witness :
  NoDup (cid <$> definitionsFor (execIndexAll (New 256) someOps) btc).
Proof.
  apply (definitionsFor_exact (fun _ => btc) 256 0 1 someOps btc).
  - repeat constructor; intros H; repeat (apply elem_of_cons in H as [H|H]; [discriminate H|]);
      by apply elem_of_nil in H.
  - intros _. split; reflexivity.
  - split; reflexivity.
Defined.
