(* ===== verification/EngineBatch.v ===== *)
(** * EvaluateBatch: totality, staleness, replay, atomicity

    What holds of [EvaluateBatch] for the batch as a whole: it never panics on
    an index of compiled definitions, the observations it accepts advance the
    position of their series strictly, a batch delivered again is ignored, and
    a commit that fails leaves the memory as it was. *)

From stdpp Require Import base gmap strings list numbers sorting.
From Stdlib Require Import Ascii.
From S2P Require Import Prelude GoFloat GoBase GoHash GoTime Model Rules RulesValid RulesHistory Store.
From S2P Require Import Memory MemoryProps Fixtures Engine EngineIndex.
Import Engine.

(** ** Keys *)

Lemma cut_absent_found c s : absent c s = true -> (cut c s).2 = false.
Proof.
  induction s as [|d s IH]; simpl; [done|]. intros [Hd Hs]%andb_true_iff.
  apply negb_true_iff in Hd. rewrite Hd. destruct (cut c s) as [[b a] f]. by apply IH.
Qed.

(** The engine and the store agree on the series of a state key. *)
Lemma definitionSeriesKey_agree key : Engine.definitionSeriesKey key = Store.definitionSeriesKey key.
Proof.
  unfold Engine.definitionSeriesKey, Store.definitionSeriesKey.
  generalize key at 1 4 as whole. induction key as [|c key IH]; intros whole; simpl; [done|].
  destruct (Ascii.eqb c "|"); [done|]. rewrite IH. by destruct (cut "|" key) as [[b a] f].
Qed.

(** ** The position of a series *)

(** What orders the observations of a series: open time, revision, rank. *)
Definition position (o : Observation) : Z * Z * Z :=
  (o.(Observation.Candle).(Candle.OpenTime), o.(Observation.Revision), statusRank o.(Observation.Status)).
Definition lastPosition (st : SeriesEvaluationState) : Z * Z * Z :=
  (st.(SeriesEvaluationState.LastOpenTime), st.(SeriesEvaluationState.LastRevision),
   statusRank st.(SeriesEvaluationState.LastStatus)).

(** Lexicographic order. *)
Definition posLt (p q : Z * Z * Z) : Prop :=
  let '(a, b, c) := p in let '(a', b', c') := q in
  (a < a' \/ (a = a' /\ (b < b' \/ (b = b' /\ c < c'))))%Z.

Arguments posLt : simpl never.

Lemma posLt_trans p q r : posLt p q -> posLt q r -> posLt p r.
Proof. destruct p as [[??]?], q as [[??]?], r as [[??]?]. unfold posLt. lia. Qed.
#[export] Instance posLt_dec p q : Decision (posLt p q).
Proof. destruct p as [[??]?], q as [[??]?]. unfold posLt. apply _. Defined.
Lemma posLt_irrefl p : ~ posLt p p.
Proof. destruct p as [[??]?]. unfold posLt. lia. Qed.

Lemma stale_spec o st :
  stale o st = true <->
  st.(SeriesEvaluationState.LastOpenTime) <> 0%Z /\ ~ posLt (lastPosition st) (position o).
Proof.
  unfold stale, IsZero, Before, After, posLt, position, lastPosition.
  repeat case_goal; crush_bool; try (split; [done|lia]); try (split; [intros _; lia|done]).
Qed.

Lemma not_stale_lt o st :
  stale o st = false -> st.(SeriesEvaluationState.LastOpenTime) <> 0%Z -> posLt (lastPosition st) (position o).
Proof.
  intros Hs Hz. destruct (decide (posLt (lastPosition st) (position o))) as [H|H]; [done|].
  assert (stale o st = true) by (by apply stale_spec). congruence.
Qed.

Lemma stale_clone o st : stale o (cloneSeriesState st) = stale o st.
Proof. done. Qed.

(** ** The states a batch leaves *)
Section Batch.
Context (e : Engine) (pid : Z) (partition : partitionRuntime) (now : Time).

Abbreviation seriesStateOf := (seriesStateOf partition).

(** What the loops over the definitions leave alone. *)
Definition sameSeries (b b' : Batch) : Prop :=
  b'.(Batch.seriesStates) = b.(Batch.seriesStates) /\ b'.(Batch.resetSeries) = b.(Batch.resetSeries)
  /\ b'.(Batch.accepted) = b.(Batch.accepted) /\ b'.(Batch.staleCount) = b.(Batch.staleCount).

Lemma resetDefinition_frame input f k b c b' :
  resetDefinition partition input f k b c = Some b' ->
  sameSeries b b' /\ b'.(Batch.alerts) = b.(Batch.alerts).
Proof.
  unfold resetDefinition. case_goal; [by intros [= <-]|].
  destruct (EvaluateDetailed _ _ _) as [[[t rs] fs]|]; simpl; [|done]. intros [= <-]. simpl.
  split; [done|]. by rewrite app_nil_r.
Qed.

Lemma evaluateDefinition_frame o f k b c b' :
  evaluateDefinition partition now o f k b c = Some b' -> sameSeries b b'.
Proof.
  unfold evaluateDefinition. case_goal; [by intros [= <-]|].
  destruct (EvaluateDetailed _ _ _) as [[[t rs] fs]|]; simpl; [|done]. by intros [= <-].
Qed.

Lemma sameSeries_trans b1 b2 b3 : sameSeries b1 b2 -> sameSeries b2 b3 -> sameSeries b1 b3.
Proof. intros (?&?&?&?) (?&?&?&?). repeat split; congruence. Qed.

Lemma resetLoop_frame input f k b l b' :
  loopM (resetDefinition partition input f k) b l = Some b' ->
  sameSeries b b' /\ b'.(Batch.alerts) = b.(Batch.alerts).
Proof.
  intros H. apply (loopM_inv (fun b' => sameSeries b b' /\ b'.(Batch.alerts) = b.(Batch.alerts))) in H;
    [exact H|done|].
  intros b1 c b2 [? ?] _ Hf. apply resetDefinition_frame in Hf as [? ?].
  split; [by eapply sameSeries_trans|congruence].
Qed.

Lemma evaluateLoop_frame o f k b l b' :
  loopM (evaluateDefinition partition now o f k) b l = Some b' -> sameSeries b b'.
Proof.
  intros H. apply (loopM_inv (fun b' => sameSeries b b')) in H; [exact H|done|].
  intros b1 c b2 ? _ Hf. apply evaluateDefinition_frame in Hf. by eapply sameSeries_trans.
Qed.

Lemma seriesStateOf_accept b k st o k' :
  seriesStateOf (Batch.accept b k st o) k' = if decide (k = k') then st else seriesStateOf b k'.
Proof.
  unfold Engine.seriesStateOf. simpl. case_decide as E.
  - subst. by rewrite lookup_insert_eq.
  - by rewrite lookup_insert_ne.
Qed.

Lemma seriesStateOf_same b b' k :
  b'.(Batch.seriesStates) = b.(Batch.seriesStates) -> seriesStateOf b' k = seriesStateOf b k.
Proof. unfold Engine.seriesStateOf. by intros ->. Qed.

(** ** One observation *)

(** The ways an observation is processed without an error. *)
Inductive processed (b : Batch) (input : Observation) : Batch -> Prop :=
| processed_stale_reset :
    input.(Observation.IsReset) = true ->
    staleReset input (seriesStateOf b (Series.Key input.(Observation.Series))) = true ->
    processed b input (Batch.countStale b)
| processed_stale :
    input.(Observation.IsReset) = false ->
    stale input (seriesStateOf b (Series.Key input.(Observation.Series))) = true ->
    processed b input (Batch.countStale b)
| processed_reset b1 :
    input.(Observation.IsReset) = true ->
    staleReset input (seriesStateOf b (Series.Key input.(Observation.Series))) = false ->
    loopM (resetDefinition partition input (rebuild input.(Observation.History)) (Series.Key input.(Observation.Series)))
      (Batch.startReset b (Series.Key input.(Observation.Series))) (definitionsFor e input.(Observation.Series)) = Some b1 ->
    processed b input (Batch.accept b1 (Series.Key input.(Observation.Series)) (resetSeriesState input) input)
| processed_ordinary st o b1 :
    input.(Observation.IsReset) = false ->
    st = seriesStateOf b (Series.Key input.(Observation.Series)) ->
    stale input st = false ->
    o = withZones input st ->
    loopM (evaluateDefinition partition now o (featureFor o st) (Series.Key input.(Observation.Series)))
      b (definitionsFor e input.(Observation.Series)) = Some b1 ->
    processed b input (Batch.accept b1 (Series.Key input.(Observation.Series)) (nextSeriesState st (featureFor o st) o) o).

Lemma withZones_fields input st :
  (withZones input st).(Observation.Series) = input.(Observation.Series)
  /\ (withZones input st).(Observation.Candle) = input.(Observation.Candle)
  /\ (withZones input st).(Observation.Revision) = input.(Observation.Revision)
  /\ (withZones input st).(Observation.Status) = input.(Observation.Status)
  /\ (withZones input st).(Observation.OccurredAt) = input.(Observation.OccurredAt)
  /\ (withZones input st).(Observation.SourceEventID) = input.(Observation.SourceEventID)
  /\ (withZones input st).(Observation.IsReset) = input.(Observation.IsReset).
Proof. unfold withZones. by case_goal. Qed.

Lemma evaluateObservation_processed b input b' :
  evaluateObservation e pid partition now b input = Some (Continue b') ->
  Partition e input.(Observation.Series) = pid /\ processed b input b'.
Proof.
  unfold evaluateObservation. destruct (Z.eqb_spec (Partition e input.(Observation.Series)) pid) as [Hp|Hp];
    simpl; [|done]. intros H. split; [done|]. revert H.
  destruct (Observation.IsReset input) eqn:Er; simpl.
  - case_goal; [intros [= <-]; by constructor|].
    unfold evaluateReset. destruct (loopM _ _ _) as [b1|] eqn:E; simpl; [|done].
    intros [= <-]. by apply processed_reset.
  - case_goal; [intros [= <-]; by apply processed_stale|].
    unfold evaluateOrdinary.
    destruct (withZones_fields input (seriesStateOf b (Series.Key input.(Observation.Series)))) as [-> _].
    destruct (loopM _ _ _) as [b1|] eqn:E; simpl; [|done].
    intros [= <-]. by eapply processed_ordinary.
Qed.

(** What it does to the states of the series. *)
Lemma processed_series b input b' k :
  processed b input b' ->
  let k0 := Series.Key input.(Observation.Series) in
  seriesStateOf b' k =
    if decide (k0 = k) then
      let st := seriesStateOf b k0 in
      if input.(Observation.IsReset) then
        if staleReset input st then st else resetSeriesState input
      else if stale input st then st
           else nextSeriesState st (featureFor (withZones input st) st) (withZones input st)
    else seriesStateOf b k.
Proof.
  intros H. cbn zeta. destruct H as [Hr Hs|Hr Hs|b1 Hr Hs Hl|st o b1 Hr -> Hs -> Hl]; rewrite Hr, Hs.
  - case_decide as E; [by rewrite E|done].
  - case_decide as E; [by rewrite E|done].
  - rewrite seriesStateOf_accept. case_decide; [done|].
    apply resetLoop_frame in Hl as [[Hl _] _]. by apply seriesStateOf_same.
  - rewrite seriesStateOf_accept. case_decide; [done|].
    apply evaluateLoop_frame in Hl as [Hl _]. by apply seriesStateOf_same.
Qed.

(** An induction principle: an invariant of the batch, over the observations
    that were processed. *)
Lemma evaluateAll_inv (P : list Observation -> Batch -> Prop) b0 obs b' :
  evaluateAll e pid partition now b0 obs = Some (Continue b') ->
  P [] b0 ->
  (forall done b input b', input ∈ obs -> Partition e input.(Observation.Series) = pid ->
     P done b -> processed b input b' -> P (done ++ [input]) b') ->
  P obs b'.
Proof.
  intros H H0 Hstep.
  cut (forall rest seen b, evaluateAll e pid partition now b rest = Some (Continue b') ->
        (forall x, x ∈ rest -> x ∈ obs) -> P seen b -> P (seen ++ rest) b').
  { intros Hc. by apply (Hc obs [] b0). }
  induction rest as [|o rest IH]; intros seen b Hb Hin Hp; simpl in Hb.
  - simplify_eq. by rewrite app_nil_r.
  - destruct (evaluateObservation _ _ _ _ _ _) as [[b1|]|] eqn:Eo; try done.
    apply evaluateObservation_processed in Eo as [? ?].
    change (o :: rest) with ([o] ++ rest). rewrite app_assoc.
    apply (IH _ b1); [done|set_solver|]. eapply Hstep; [set_solver|done..].
Qed.

(** ** Positions advance *)

Lemma stale_next o input st :
  o.(Observation.Candle).(Candle.OpenTime) <> 0%Z ->
  input.(Observation.Candle).(Candle.OpenTime) <> 0%Z ->
  (stale o st = true \/ o = input) -> stale input st = false ->
  stale o (nextSeriesState st (featureFor (withZones input st) st) (withZones input st)) = true.
Proof.
  intros Ho Hi Hs Hn. apply stale_spec.
  assert (lastPosition (nextSeriesState st (featureFor (withZones input st) st) (withZones input st))
          = position input) as Hp.
  { unfold lastPosition, nextSeriesState, position. simpl.
    by destruct (withZones_fields input st) as (_ & -> & -> & -> & _). }
  rewrite Hp. split.
  { unfold nextSeriesState. simpl. by destruct (withZones_fields input st) as (_ & -> & _). }
  destruct Hs as [Hs| ->]; [|apply posLt_irrefl]. apply stale_spec in Hs as [Hz Hs].
  intros Hlt. apply Hs. eapply posLt_trans; [by apply not_stale_lt|done].
Qed.

(** Once processed, an ordinary observation stays stale. *)
Lemma processed_keeps_stale b input b' o :
  processed b input b' ->
  o.(Observation.Candle).(Candle.OpenTime) <> 0%Z ->
  input.(Observation.Candle).(Candle.OpenTime) <> 0%Z ->
  input.(Observation.IsReset) = false ->
  (o = input \/ stale o (seriesStateOf b (Series.Key o.(Observation.Series))) = true) ->
  stale o (seriesStateOf b' (Series.Key o.(Observation.Series))) = true.
Proof.
  intros Hp Ho Hi Hr Hs. rewrite (processed_series _ _ _ _ Hp), Hr. cbn zeta.
  case_decide as Hk; [|by destruct Hs as [-> |Hs]]. rewrite <- Hk in *.
  destruct (stale input _) eqn:E; [by destruct Hs as [-> |Hs]|].
  apply stale_next; try done. destruct Hs as [-> |Hs]; [by right|by left].
Qed.
End Batch.

(** ** From a batch to the partition *)

Lemma cloneSeriesState_idem st : cloneSeriesState (cloneSeriesState st) = cloneSeriesState st.
Proof. destruct st as [? ? ? ? ? [? [m|] ? ? ? ?] [? [m'|] ? ? ? ?] ?]; done. Qed.

(** Nothing accepted, nothing changed. *)
Definition untouched (b : Batch) : Prop :=
  b.(Batch.seriesStates) = ∅ /\ b.(Batch.definitionStates) = ∅ /\ b.(Batch.resetSeries) = ∅
  /\ b.(Batch.alerts) = [].

Lemma evaluateAll_untouched e pid partition now obs b :
  evaluateAll e pid partition now (Batch.start e) obs = Some (Continue b) ->
  b.(Batch.accepted) = [] -> untouched b.
Proof.
  intros H.
  refine (evaluateAll_inv _ _ _ _ (fun _ b => b.(Batch.accepted) = [] -> untouched b) _ _ _ H _ _); [done|].
  intros seen b0 input b1 _ _ IH Hp.
  destruct Hp as [? ?|? ?|? ? ? ?|? ? ? ? ? ? ?]; [exact IH|exact IH| |];
    simpl; intros Ha; by apply app_eq_nil in Ha as [_ ?].
Qed.

(** The state the next batch starts from. *)
Lemma advancePartition_series partition pid b k :
  seriesStateOf (advancePartition partition (batchOf pid b)) (Batch.start (New 1)) k
  = cloneSeriesState (seriesStateOf partition b k).
Proof.
  unfold seriesStateOf, advancePartition. simpl. rewrite lookup_empty, lookup_union, lookup_fmap.
  destruct (b.(Batch.seriesStates) !! k) as [st|]; simpl.
  - destruct (_ !! k); simpl; by rewrite cloneSeriesState_idem.
  - rewrite (left_id_L None _). by rewrite cloneSeriesState_idem.
Qed.

Lemma seriesStateOf_start partition e e' k :
  seriesStateOf partition (Batch.start e) k = seriesStateOf partition (Batch.start e') k.
Proof. done. Qed.

Definition inRange (e : Engine) (pid : Z) : Prop := (0 <= pid < partitionCountOf e)%Z.

Section Repo.
Context {R : Type} `{RepositoryLaws R}.

(** The partition a successful batch leaves, in both of its outcomes. *)
Definition afterBatch (pid : Z) (partition : partitionRuntime) (b : Batch) : partitionRuntime :=
  if (length b.(Batch.accepted) =? 0)%nat then partition else advancePartition partition (batchOf pid b).

Lemma EvaluateBatch_Ok now pid obs (e e' : Engine) (r r' : R) alerts :
  EvaluateBatch now pid obs e r = (Ok alerts, e', r') ->
  exists partition b,
    inRange e pid /\ owns e pid = true /\ e.(partitions) !! Z.to_nat pid = Some partition /\
    evaluateAll e pid partition now (Batch.start e) obs = Some (Continue b) /\
    e' = with_partitions (withCounters e b) (<[Z.to_nat pid := afterBatch pid partition b]> e.(partitions)) /\
    if (length b.(Batch.accepted) =? 0)%nat then alerts = [] /\ r' = r
    else CommitRuntimeBatch (batchOf pid b) r = (Ok alerts, r').
Proof.
  unfold EvaluateBatch. destruct (_ || _) eqn:Erange; [done|].
  destruct (owns e pid) eqn:Eo; simpl; [|done].
  destruct (e.(partitions) !! Z.to_nat pid) as [partition|] eqn:Ep; [|done].
  destruct (evaluateAll _ _ _ _ _ _) as [[b|]|] eqn:Ea; try done.
  assert (inRange e pid) as Hr by (unfold inRange; crush_bool; lia).
  destruct (length _ =? 0)%nat eqn:El.
  - intros [= <- <- <-]. exists partition, b. unfold afterBatch. rewrite El, list_insert_id by done.
    repeat split; try done; try apply Hr.
  - destruct (CommitRuntimeBatch _ _) as [[al| |] r1] eqn:Ec; try done. intros [= <- <- <-].
    exists partition, b. unfold afterBatch. rewrite El. repeat split; try done; apply Hr.
Qed.

(** What it leaves alone, whatever the outcome. *)
Lemma EvaluateBatch_index now pid obs (e e' : Engine) (r r' : R) res :
  EvaluateBatch now pid obs e r = (res, e', r') ->
  e'.(byRoute) = e.(byRoute) /\ length e'.(partitions) = length e.(partitions)
  /\ e'.(workerIndex) = e.(workerIndex) /\ e'.(workerCount) = e.(workerCount).
Proof.
  unfold EvaluateBatch. repeat case_goal; intros [= <- <- <-]; simpl; rewrite ?length_insert; done.
Qed.

(** ** Deliveries that are already in the state *)

Definition ignored (partition : partitionRuntime) (b : Batch) (o : Observation) : Prop :=
  let st := seriesStateOf partition b (Series.Key o.(Observation.Series)) in
  (if o.(Observation.IsReset) then staleReset o st else stale o st) = true.

Lemma evaluateAll_ignored e pid partition now obs b :
  Forall (fun o => Partition e o.(Observation.Series) = pid /\ ignored partition b o) obs ->
  evaluateAll e pid partition now b obs = Some (Continue (Nat.iter (length obs) Batch.countStale b)).
Proof.
  revert b. induction obs as [|o obs IH]; intros b; [done|].
  cbn [length evaluateAll]. rewrite Nat.iter_succ_r.
  intros [[Hp Hi] Hrest]%Forall_cons. unfold evaluateObservation. rewrite Hp, Z.eqb_refl. simpl.
  unfold ignored in Hi. destruct (Observation.IsReset o) eqn:Er; simpl; rewrite Hi.
  - by rewrite IH.
  - by rewrite IH.
Qed.

Lemma EvaluateBatch_ignored now pid obs (e : Engine) (r : R) partition :
  inRange e pid -> owns e pid = true -> e.(partitions) !! Z.to_nat pid = Some partition ->
  Forall (fun o => Partition e o.(Observation.Series) = pid /\ ignored partition (Batch.start e) o) obs ->
  EvaluateBatch now pid obs e r =
    (Ok [], withCounters e (Nat.iter (length obs) Batch.countStale (Batch.start e)), r).
Proof.
  intros Hr Ho Hp Hi. unfold EvaluateBatch. unfold inRange in Hr.
  replace ((pid <? 0) || (pid >=? partitionCountOf e))%Z with false by lia.
  rewrite Ho, Hp. simpl. rewrite evaluateAll_ignored by done.
  assert ((Nat.iter (length obs) Batch.countStale (Batch.start e)).(Batch.accepted) = []) as ->; [|done].
  induction (length obs); simpl; done.
Qed.
End Repo.

(** ** Totality *)

(** Every definition of the index carries the compilation of its rule. *)
Definition indexCompiled (e : Engine) : Prop := forall s, Forall compiledOk (definitionsFor e s).

Lemma indexCompiled_represents e cs : represents e.(byRoute) cs -> indexCompiled e.
Proof. intros H s. by eapply definitionsFor_compiled. Qed.

Lemma evaluates c o f : compiledOk c ->
  exists truth rs fs, EvaluateDetailed c.(compiledDefinition.rule) o f = Some (truth, rs, fs).
Proof. intros H. by apply (Compile_evaluates _ _ o f) in H as [_ ?]. Qed.

Section Total.
Context (e : Engine) (pid : Z) (partition : partitionRuntime) (now : Time).
Hypothesis Hok : indexCompiled e.

Lemma evaluateObservation_total b input :
  exists step, evaluateObservation e pid partition now b input = Some step.
Proof.
  unfold evaluateObservation. case_goal; [eauto|].
  pose proof (Hok input.(Observation.Series)) as Hc. rewrite Forall_forall in Hc.
  case_goal; [eauto|]. case_goal; [eauto|]. case_goal.
  - unfold evaluateReset.
    edestruct (loopM_is_Some (resetDefinition partition input (rebuild input.(Observation.History))
                (Series.Key input.(Observation.Series))) (Batch.startReset b (Series.Key input.(Observation.Series))))
      as [b1 ->]; [|simpl; eauto].
    intros b0 c Hin. unfold resetDefinition. case_goal; [eauto|].
    destruct (evaluates c input (rebuild input.(Observation.History)) (Hc c Hin)) as (?&?&?& ->). simpl. eauto.
  - unfold evaluateOrdinary. rewrite (proj1 (withZones_fields _ _)).
    set (st := seriesStateOf _ _ _). set (o := withZones _ _).
    edestruct (loopM_is_Some (evaluateDefinition partition now o (featureFor o st)
                (Series.Key input.(Observation.Series))) b) as [b1 ->]; [|simpl; eauto].
    intros b0 c Hin. unfold evaluateDefinition. case_goal; [eauto|].
    destruct (evaluates c o (featureFor o st) (Hc c Hin)) as (?&?&?& ->). simpl. eauto.
Qed.

Lemma evaluateAll_total b obs : exists step, evaluateAll e pid partition now b obs = Some step.
Proof.
  revert b. induction obs as [|o obs IH]; intros b; simpl; [eauto|].
  destruct (evaluateObservation_total b o) as [[b1|err b1] ->]; eauto.
Qed.
End Total.

(** ** Properties *)

Section Properties.
Context {R : Type} `{RepositoryLaws R}.

(** A call that is refused changes nothing. *)
Lemma EvaluateBatch_refused (now : Time) (pid : Z) (obs : list Observation) (e : Engine) (r : R) :
  (~ inRange e pid -> EvaluateBatch now pid obs e r = (Err (ErrPartitionRange pid), e, r)) /\
  (inRange e pid -> owns e pid = false -> EvaluateBatch now pid obs e r = (Err (ErrNotOwned pid), e, r)).
Proof.
  unfold EvaluateBatch, inRange. split.
  - intros Hr. by replace ((pid <? 0) || (pid >=? partitionCountOf e))%Z with true by lia.
  - intros Hr Ho. replace ((pid <? 0) || (pid >=? partitionCountOf e))%Z with false by lia. by rewrite Ho.
Qed.

(** A call that is not refused returns, and an error left no trace. *)
Lemma EvaluateBatch_outcome (cs : list compiledDefinition) (now : Time) (pid : Z)
  (obs : list Observation) (e : Engine) (r : R) :
  represents e.(byRoute) cs ->
  let '(res, e', r') := EvaluateBatch now pid obs e r in
  res <> Panic /\
  (forall err, res = Err err ->
     e'.(partitions) = e.(partitions) /\ e'.(byRoute) = e.(byRoute) /\ runtimeOf r' = runtimeOf r).
Proof.
  intros Hrep%indexCompiled_represents. destruct (EvaluateBatch_refused now pid obs e r) as [Hrange Hown].
  destruct (decide (inRange e pid)) as [Hr|Hr]; [|by rewrite Hrange].
  destruct (owns e pid) eqn:Eo; [|by rewrite Hown]. clear Hrange Hown.
  destruct (lookup_lt_is_Some_2 e.(partitions) (Z.to_nat pid)) as [partition Ep].
  { unfold inRange, partitionCountOf in Hr. lia. }
  unfold EvaluateBatch. replace ((pid <? 0) || (pid >=? partitionCountOf e))%Z with false
    by (unfold inRange in Hr; lia).
  rewrite Eo, Ep. simpl negb. cbn iota.
  destruct (evaluateAll_total e pid partition (UTC now) Hrep (Batch.start e) obs) as [[b|err b] ->]; [|done].
  case_goal; [done|]. pose proof (commit_no_panic (batchOf pid b) r) as Hnp.
  destruct (CommitRuntimeBatch (batchOf pid b) r) as [[al|err|] r1] eqn:Ec; [done| |done].
  split; [done|]. intros _ _. repeat split. by apply commit_err in Ec as [? _].
Qed.

(** C3: [EvaluateBatch] is total and atomic. On an index of compiled
    definitions it never panics, whatever the observations; a partition out of
    range or not owned by the worker is refused with nothing changed; and
    whenever it returns an error (a misrouted observation, a failed commit)
    neither the partitions in memory nor the checkpoint have advanced. *)
Theorem EvaluateBatch_atomic (cs : list compiledDefinition) (now : Time) (pid : Z)
  (obs : list Observation) (e : Engine) (r : R) :
  represents e.(byRoute) cs ->
  let '(res, e', r') := EvaluateBatch now pid obs e r in
  res <> Panic /\
  (~ inRange e pid -> res = Err (ErrPartitionRange pid) /\ e' = e /\ r' = r) /\
  (inRange e pid -> owns e pid = false -> res = Err (ErrNotOwned pid) /\ e' = e /\ r' = r) /\
  (forall err, res = Err err ->
     e'.(partitions) = e.(partitions) /\ e'.(byRoute) = e.(byRoute) /\ runtimeOf r' = runtimeOf r).
Proof.
  intros Hrep. pose proof (EvaluateBatch_outcome cs now pid obs e r Hrep) as Hout.
  destruct (EvaluateBatch_refused now pid obs e r) as [Hrange Hown].
  destruct (EvaluateBatch now pid obs e r) as [[res e'] r']. destruct Hout as [Hnp Herr].
  split; [done|]. split; [|split; [|done]].
  - intros Hr. by specialize (Hrange Hr) as [= -> -> ->].
  - intros Hr Ho. by specialize (Hown Hr Ho) as [= -> -> ->].
Qed.

(** The worker owns the partition, and its state is ahead of the observations:
    none of them would be evaluated. *)
Definition ahead (e : Engine) (pid : Z) (obs : list Observation) : Prop :=
  inRange e pid /\ owns e pid = true /\ exists partition, e.(partitions) !! Z.to_nat pid = Some partition /\
    Forall (fun o => Partition e o.(Observation.Series) = pid /\ ignored partition (Batch.start e) o) obs.

(** It stays so, whatever of them is evaluated. *)
Lemma ahead_ignores (now : Time) (pid : Z) (obs obs' : list Observation) (e : Engine) (r : R) :
  ahead e pid obs -> Forall (fun o => o ∈ obs) obs' ->
  EvaluateBatch now pid obs' e r = (Ok [], withCounters e (Nat.iter (length obs') Batch.countStale (Batch.start e)), r) /\
  ahead (withCounters e (Nat.iter (length obs') Batch.countStale (Batch.start e))) pid obs.
Proof.
  intros (Hr & Ho & partition & Hp & Hi) Hsub. split.
  - apply (EvaluateBatch_ignored _ _ _ _ _ partition); [done..|]. rewrite Forall_forall in Hi, Hsub |- *. auto.
  - split; [done|]. split; [done|]. by exists partition.
Qed.

(** A batch of ordinary observations that succeeded leaves its engine ahead of
    them. *)
Lemma EvaluateBatch_ahead (now : Time) (pid : Z) (obs : list Observation) (e e' : Engine) (r r' : R) (alerts : list Alert) :
  EvaluateBatch now pid obs e r = (Ok alerts, e', r') ->
  Forall (fun o => o.(Observation.IsReset) = false /\ o.(Observation.Candle).(Candle.OpenTime) <> 0%Z) obs ->
  ahead e' pid obs.
Proof.
  intros Hok Hobs. apply EvaluateBatch_Ok in Hok as (partition & b & Hr & Ho & Hp & Ha & -> & _).
  rewrite Forall_forall in Hobs. set (part' := afterBatch pid partition b). set (e1 := with_partitions _ _).
  assert (length e1.(partitions) = length e.(partitions)) as Hlen by (unfold e1; simpl; apply length_insert).
  assert (forall o, o ∈ obs -> Partition e o.(Observation.Series) = pid
            /\ stale o (seriesStateOf partition b (Series.Key o.(Observation.Series))) = true) as Hst.
  { intros o Hin.
    pose proof (evaluateAll_inv e pid partition now (fun seen b => forall o, o ∈ seen ->
        Partition e o.(Observation.Series) = pid /\
        stale o (seriesStateOf partition b (Series.Key o.(Observation.Series))) = true
        /\ o.(Observation.Candle).(Candle.OpenTime) <> 0%Z) _ _ _ Ha) as Hinv.
    destruct (Hinv) with (o := o) as (? & ? & ?); [by intros ? ?%elem_of_nil| |done|done].
    intros seen b0 input b1 Hi Hpi IH Hproc o1 [Ho1| ->%list_elem_of_singleton]%elem_of_app.
    - destruct (IH o1 Ho1) as (? & ? & ?). split; [done|]. split; [|done].
      eapply processed_keeps_stale; [done|done|by apply Hobs|by apply Hobs|by right].
    - split; [done|]. destruct (Hobs input Hi). split; [|done].
      eapply processed_keeps_stale; try done. by left. }
  split; [unfold inRange, partitionCountOf; rewrite Hlen; exact Hr|]. split; [exact Ho|]. exists part'. split.
  { unfold e1. simpl. apply list_lookup_insert_eq. apply lookup_lt_Some in Hp. lia. }
  apply Forall_forall. intros o Hin. destruct (Hst o Hin) as [Hpo Hso]. split.
  - unfold Partition, partitionOfHash, partitionCountOf. rewrite Hlen. exact Hpo.
  - unfold ignored. destruct (Hobs o Hin) as [-> _]. unfold part', afterBatch.
    destruct (length _ =? 0)%nat eqn:El.
    + apply Nat.eqb_eq, nil_length_inv in El. apply evaluateAll_untouched in Ha as (Hs & _); [|done].
      unfold seriesStateOf in Hso |- *. rewrite Hs in Hso. exact Hso.
    + rewrite (seriesStateOf_start _ _ (New 1)), advancePartition_series. exact Hso.
Qed.

(** A delivery that was processed is ignored when it comes again. After
    a batch of ordinary observations succeeded, evaluating any of them again,
    in any order and number, returns no alert, evaluates no rule and changes
    neither the memory nor the repository: only the count of stale events. *)
Theorem EvaluateBatch_replay (now now' : Time) (pid : Z) (obs obs' : list Observation)
  (e e' : Engine) (r r' : R) (alerts : list Alert) :
  EvaluateBatch now pid obs e r = (Ok alerts, e', r') ->
  Forall (fun o => o.(Observation.IsReset) = false /\ o.(Observation.Candle).(Candle.OpenTime) <> 0%Z) obs ->
  Forall (fun o => o ∈ obs) obs' ->
  exists e'', EvaluateBatch now' pid obs' e' r' = (Ok [], e'', r') /\
    e''.(partitions) = e'.(partitions) /\ e''.(byRoute) = e'.(byRoute) /\
    e''.(ruleEvals) = e'.(ruleEvals) /\ e''.(resetEvents) = e'.(resetEvents) /\
    e''.(staleEvents) = Nat.iter (length obs') (fun n => uint64 (n + 1)) e'.(staleEvents).
Proof.
  intros Hok Hobs Hsub. pose proof (EvaluateBatch_ahead _ _ _ _ _ _ _ _ Hok Hobs) as Ha.
  destruct (ahead_ignores now' pid obs obs' e' r' Ha Hsub) as [He _]. eexists. split; [exact He|]. clear He.
  repeat split; simpl; (induction (length obs') as [|n IH]; simpl; [done|first [done|by rewrite IH]]).
Qed.
End Properties.

(** *** Concrete engines for the witnesses *)

Definition mkDef (id : string) (r : Rule) (evaluationMode triggerMode : string) (cooldown : Z) : AlertDefinition :=
  AlertDefinition.mk id 1 id id true btc r evaluationMode triggerMode cooldown
    (minutes (-60)) (minutes (-60)) (minutes (-60)).

Definition engineWith (defs : list AlertDefinition) : Engine := (ReplaceDefinitions 1 defs (New 256)).2.

Definition colorEngine : Engine :=
  engineWith [mkDef "red" redColor "confirmed_close" "every_match" 0].

Lemma colorEngine_represents :
  exists cs, compiledDefinition.definition <$> cs = [mkDef "red" redColor "confirmed_close" "every_match" 0]
    /\ represents colorEngine.(byRoute) cs.
Proof.
  apply (ReplaceDefinitions_represents 1 _ (New 256)); [|reflexivity].
  apply NoDup_singleton.
Qed.

(** A repository whose commits fail, as in engine_test.go. *)
Record FailingMemory := Failing { inner : Memory }.
Definition injected : StoreError := ErrBackend "injected checkpoint failure".

#[export] Instance failing_repository : Repository FailingMemory := {
  ListDefinitions env m := Ok (listDefinitions env m.(inner));
  LoadRuntimeStates _ m := Ok (loadRuntimeStates m.(inner));
  CommitRuntimeBatch _ m := (Err injected, m) }.

#[export] Program Instance failing_laws : RepositoryLaws FailingMemory := {
  runtimeOf m := loadRuntimeStates m.(inner);
  home _ _ _ := True;
  homeDefinition _ _ _ := True }.
Next Obligation. done. Qed.
Next Obligation. intros b m e m'. simpl. by intros [= _ <-]. Qed.
Next Obligation. done. Qed.
Next Obligation. done. Qed.
Next Obligation. done. Qed.
Next Obligation. intros ps m s. simpl. intros [= <-]. repeat split; done. Qed.

Lemma EvaluateBatch_atomic_witness :
  let '(res, e', r') := EvaluateBatch start 142 [redBar] colorEngine (Failing NewMemory) in
  res = Err (ErrRepository injected) /\ e'.(partitions) = colorEngine.(partitions).
Proof.
  destruct colorEngine_represents as (cs & _ & Hcs).
  pose proof (EvaluateBatch_atomic cs start 142 [redBar] colorEngine (Failing NewMemory) Hcs) as H.
  assert ((EvaluateBatch start 142 [redBar] colorEngine (Failing NewMemory)).1.1
          = Err (ErrRepository injected)) as E by (vm_compute; reflexivity).
  destruct (EvaluateBatch _ _ _ _ _) as [[res e'] r']. simpl in E. subst res.
  destruct H as (_ & _ & _ & H). split; [reflexivity|]. exact (proj1 (H _ eq_refl)).
Defined.

Lemma EvaluateBatch_replay_witness :
  let out := EvaluateBatch start 142 [redBar] colorEngine NewMemory in
  length out.2.(Memory.alerts) = 1 /\
  exists e'', EvaluateBatch start 142 [redBar; redBar] out.1.2 out.2 = (Ok [], e'', out.2)
    /\ e''.(partitions) = out.1.2.(partitions).
Proof.
  intros out. split; [vm_compute; reflexivity|].
  assert (exists al, out = (Ok al, out.1.2, out.2)) as [al Hout].
  { assert (match out.1.1 with Ok _ => true | _ => false end = true) as E by (vm_compute; reflexivity).
    destruct out as [[[al|err|] e'] r']; [exists al; reflexivity|discriminate E|discriminate E]. }
  destruct (EvaluateBatch_replay start start 142 [redBar] [redBar; redBar] colorEngine out.1.2 NewMemory out.2 al Hout)
    as (e'' & He & Hp & _).
  - constructor; [|constructor]. split; [reflexivity|]. vm_compute. intros H; discriminate H.
  - repeat constructor; apply list_elem_of_here.
  - exists e''. split; [exact He|exact Hp].
Defined.

(** ** Authoritative resets *)

Lemma rebuild_history bars : rebuild bars = RulesHistory.history (barObservation <$> bars).
Proof.
  unfold rebuild, RulesHistory.history. generalize FeatureState.zero as f.
  induction bars as [|bar bars IH]; intros f; simpl; [done|]. apply IH.
Qed.

(** C14: a reset is authoritative, silent and applied once. When a reset is
    accepted, the series starts over from the snapshot alone: whatever the
    partition held before, its confirmed history is the one the snapshot's
    closed bars and candle lead to, and the intrabar state a copy of it; no
    alert is emitted; and the same reset delivered again is ignored, as is
    any reset that is not later. *)
Theorem reset_authoritative (e : Engine) (pid : Z) (partition : partitionRuntime) (now : Time)
  (input input' : Observation) (b : Batch) :
  input.(Observation.IsReset) = true ->
  staleReset input (seriesStateOf partition (Batch.start e) (Series.Key input.(Observation.Series))) = false ->
  evaluateAll e pid partition now (Batch.start e) [input] = Some (Continue b) ->
  let st := seriesStateOf partition b (Series.Key input.(Observation.Series)) in
  b.(Batch.alerts) = [] /\
  st.(SeriesEvaluationState.Confirmed)
    = RulesHistory.history ((barObservation <$> input.(Observation.History)) ++ [input]) /\
  st.(SeriesEvaluationState.Intrabar) = cloneFeatureState st.(SeriesEvaluationState.Confirmed) /\
  st.(SeriesEvaluationState.ActiveZones) = input.(Observation.ActiveZones) /\
  lastPosition st = position input /\
  staleReset input st = true /\
  (input.(Observation.OccurredAt) <> 0%Z ->
   (input'.(Observation.OccurredAt) <= input.(Observation.OccurredAt))%Z -> staleReset input' st = true).
Proof.
  intros Hr Hs Ha st. cbn [evaluateAll] in Ha.
  destruct (evaluateObservation _ _ _ _ _ _) as [[b1|]|] eqn:Eo; try done. injection Ha as ->.
  apply evaluateObservation_processed in Eo as [_ Hp].
  assert (st = resetSeriesState input) as Hst.
  { pose proof (processed_series _ _ _ _ _ _ (Series.Key input.(Observation.Series)) Hp) as Hst.
    cbn zeta in Hst. rewrite decide_True, Hr, Hs in Hst by done. exact Hst. }
  assert (b.(Batch.alerts) = []) as Hal.
  { destruct Hp as [? ?|? ?|b1 ? ? Hl|? ? ? ? ? ? ? ?]; [done|done| |congruence].
    apply resetLoop_frame in Hl as [_ Hl]. exact Hl. }
  rewrite Hst. split; [done|]. split; [|split; [done|split; [done|split; [done|split]]]].
  - simpl. by rewrite RulesHistory.history_snoc, rebuild_history.
  - unfold staleReset. simpl. by rewrite eqb_refl_true.
  - intros Hz Hle. unfold staleReset, resetSeriesState, IsZero, After, UTC. simpl. apply orb_true_iff. right. lia.
Qed.

Definition resetBar : Observation :=
  Observation.mk "alerts.observation.v1" "reset" "reset" (minutes 2) "confirmed" 1 true
    [bar start 99 101] btc (bar (minutes 1) 100 101) [] [] [] [] noAlgorithm.

Lemma reset_authoritative_witness :
  exists b, evaluateAll colorEngine 142 (partitionRuntime.mk ∅ ∅) start (Batch.start colorEngine) [resetBar]
            = Some (Continue b) /\ b.(Batch.alerts) = [] /\
    staleReset resetBar (seriesStateOf (partitionRuntime.mk ∅ ∅) b (Series.Key btc)) = true.
Proof.
  destruct (evaluateAll colorEngine 142 (partitionRuntime.mk ∅ ∅) start (Batch.start colorEngine) [resetBar])
    as [[b|err b]|] eqn:E.
  - destruct (reset_authoritative colorEngine 142 (partitionRuntime.mk ∅ ∅) start resetBar resetBar b)
      as (H1 & _ & _ & _ & _ & H2 & _); [reflexivity|vm_compute; reflexivity|exact E|].
    exists b. split; [reflexivity|]. split; [exact H1|exact H2].
  - exfalso. assert (match evaluateAll colorEngine 142 (partitionRuntime.mk ∅ ∅) start (Batch.start colorEngine) [resetBar]
      with Some (Return _ _) => false | _ => true end = true) as H by (vm_compute; reflexivity).
    rewrite E in H. discriminate H.
  - exfalso. assert (match evaluateAll colorEngine 142 (partitionRuntime.mk ∅ ∅) start (Batch.start colorEngine) [resetBar]
      with None => false | _ => true end = true) as H by (vm_compute; reflexivity).
    rewrite E in H. discriminate H.
Defined.
