(* ===== verification/EngineTrack.v ===== *)
(** * One definition on one series: the specification of the engine

    [EvaluateBatch] interleaves the series of a partition and the definitions
    of each series over maps it copies on demand. Its specification is a
    machine for one definition on one series: [observe] takes one observation
    at a time, with no map, no batch and no other definition. The refinement
    theorem says that the engine, looked at from any definition and series,
    is that machine. The properties of alerts are proved on the machine. *)

From stdpp Require Import base gmap strings list numbers sorting.
From S2P Require Import Prelude GoFloat GoBase GoTime Model Rules RulesValid Store Memory MemoryProps.
From S2P Require Import Fixtures Engine EngineIndex EngineBatch.
Import Engine.

Module Track.
Record Track := mk {
  series : SeriesEvaluationState;
  state : DefinitionEvaluationState;
  alerts : list Alert }.
End Track.
Abbreviation Track := Track.Track.

(** One ordinary observation, not stale. *)
Definition observeOrdinary (now : Time) (c : compiledDefinition) (t : Track) (input : Observation) : option Track :=
  let o := withZones input t.(Track.series) in
  let feature := featureFor o t.(Track.series) in
  let series' := nextSeriesState t.(Track.series) feature o in
  if negb (applies c o) then Some (Track.mk series' t.(Track.state) t.(Track.alerts)) else
  '(truth, reasons, facts) ← EvaluateDetailed c.(compiledDefinition.rule) o feature;
  let trigger := triggers c.(compiledDefinition.definition) truth o t.(Track.state) in
  Some (Track.mk series' (nextState t.(Track.state) o truth trigger)
    (t.(Track.alerts) ++
     (if trigger then [alertOf now c.(compiledDefinition.definition) o reasons facts] else []))).

(** An authoritative reset. [base] is the definition's state at the start of
    the batch: the reset keeps its trigger times, not those of the batch. *)
Definition observeReset (c : compiledDefinition) (base : DefinitionEvaluationState) (t : Track)
  (input : Observation) : option Track :=
  if negb (acceptsMode c.(compiledDefinition.definition).(AlertDefinition.EvaluationMode) "confirmed")
  then Some (Track.mk (resetSeriesState input) DefinitionEvaluationState.zero t.(Track.alerts)) else
  '(truth, _, _) ← EvaluateDetailed c.(compiledDefinition.rule) input (rebuild input.(Observation.History));
  Some (Track.mk (resetSeriesState input)
    (DefinitionEvaluationState.mk truth false base.(DefinitionEvaluationState.LastTriggerAt)
       base.(DefinitionEvaluationState.LastAlertBar)) t.(Track.alerts)).

Definition observe (now : Time) (c : compiledDefinition) (base : DefinitionEvaluationState) (t : Track)
  (input : Observation) : option Track :=
  if input.(Observation.IsReset) then
    if staleReset input t.(Track.series) then Some t else observeReset c base t input
  else if stale input t.(Track.series) then Some t
  else observeOrdinary now c t input.

(** ** The view of a batch *)
Section View.
Context (partition : partitionRuntime) (c : compiledDefinition) (s : Series).

Definition stateKeyOf : string := DefinitionStateKey (cid c) (Series.Key s).

(** The alerts of this definition. *)
Definition mine (a : Alert) : Prop := a.(Alert.DefinitionID) = cid c /\ a.(Alert.Series) = s.
#[export] Instance mine_dec a : Decision (mine a).
Proof. unfold mine. apply _. Defined.

Definition trackOf (b : Batch) : Track :=
  Track.mk (seriesStateOf partition b (Series.Key s))
    (definitionStateOf partition b stateKeyOf (Series.Key s))
    (filter mine b.(Batch.alerts)).
End View.
#[export] Existing Instance mine_dec.

(** A view that only one element of a list changes. *)
Lemma loopM_view {A T V} (view : A -> V) (f : A -> T -> option A) (l : list T) (x : T) (P : T -> Prop) b b' :
  loopM f b l = Some b' ->
  (exists l1 l2, l = l1 ++ x :: l2 /\ Forall (fun y => ~ P y) l1 /\ Forall (fun y => ~ P y) l2) ->
  (forall b b' y, y ∈ l -> ~ P y -> f b y = Some b' -> view b' = view b) ->
  exists b1 b2, view b1 = view b /\ f b1 x = Some b2 /\ view b' = view b2.
Proof.
  intros H (l1 & l2 & -> & H1 & H2) Hf. rewrite Forall_forall in H1, H2.
  rewrite loopM_app in H. destruct (loopM f b l1) as [b1|] eqn:E1; simpl in H; [|done].
  destruct (f b1 x) as [b2|] eqn:E2; simpl in H; [|done].
  exists b1, b2. split; [|split; [done|]].
  - apply (loopM_inv (fun b' => view b' = view b)) in E1; [done|done|].
    intros ? y ? Hv Hy Hs. rewrite <- Hv. eapply Hf; [|by apply H1|done]. set_solver.
  - apply (loopM_inv (fun b' => view b' = view b2)) in H; [done|done|].
    intros ? y ? Hv Hy Hs. rewrite <- Hv. eapply Hf; [|by apply H2|done]. set_solver.
Qed.

Lemma NoDup_split {A B} (f : A -> B) (l : list A) x :
  NoDup (f <$> l) -> x ∈ l ->
  exists l1 l2, l = l1 ++ x :: l2 /\ Forall (fun y => ~ f y = f x) l1 /\ Forall (fun y => ~ f y = f x) l2.
Proof.
  intros Hd Hx. apply list_elem_of_split in Hx as (l1 & l2 & ->). exists l1, l2. split; [done|].
  rewrite fmap_app, fmap_cons in Hd. apply NoDup_app in Hd as (_ & H1 & [H2 _]%NoDup_cons).
  split; apply Forall_forall; intros y Hy E.
  - apply (H1 (f y)); [by apply list_elem_of_fmap_2|]. rewrite E. left.
  - apply H2. rewrite <- E. by apply list_elem_of_fmap_2.
Qed.

(** ** Refinement *)

(** A series whose key says which series it is. *)
Definition seriesKeyOk (s : Series) : Prop :=
  noSlash s.(Series.Dataset) = true /\ noSlash s.(Series.Symbol) = true.

Lemma seriesKey_inj s s' : seriesKeyOk s -> seriesKeyOk s' -> Series.Key s = Series.Key s' -> s = s'.
Proof. intros [? ?] [? ?]. by apply Key_inj. Qed.

Section Refinement.
Context (e : Engine) (partition : partitionRuntime) (now : Time) (c : compiledDefinition) (s : Series).
Hypothesis Hs : seriesKeyOk s.
Hypothesis Hbars : forall s' d, d ∈ definitionsFor e s' -> noBar (cid d) = true.
Hypothesis Hin : c ∈ definitionsFor e s.
Hypothesis Hnd : NoDup (cid <$> definitionsFor e s).

Abbreviation key := (Series.Key s).
Abbreviation stateKey := (stateKeyOf c s).
Abbreviation trackOf := (trackOf partition c s).

Definition viewD (b : Batch) : DefinitionEvaluationState * list Alert :=
  (definitionStateOf partition b stateKey key, filter (mine c s) b.(Batch.alerts)).

Lemma trackOf_view b :
  trackOf b = Track.mk (seriesStateOf partition b key) (viewD b).1 (viewD b).2.
Proof. done. Qed.

Lemma evaluated_view b sk st new :
  viewD (Batch.evaluated b sk st new) =
  (if decide (sk = stateKey) then st else (viewD b).1, (viewD b).2 ++ filter (mine c s) new).
Proof.
  unfold viewD, definitionStateOf. simpl. rewrite filter_app. f_equal.
  case_decide as E; [subst; by rewrite lookup_insert_eq|by rewrite lookup_insert_ne].
Qed.

Lemma stateKey_iff s' d :
  seriesKeyOk s' -> d ∈ definitionsFor e s' ->
  DefinitionStateKey (cid d) (Series.Key s') = stateKey <-> cid d = cid c /\ s' = s.
Proof.
  intros Hs' Hd. unfold stateKeyOf. split.
  - intros [? ?]%DefinitionStateKey_inj; [|by eapply Hbars..]. split; [done|by apply seriesKey_inj].
  - by intros [-> ->].
Qed.

Lemma alertOf_mine s' d o rs fs :
  o.(Observation.Series) = s' ->
  mine c s (alertOf now d.(compiledDefinition.definition) o rs fs) <-> cid d = cid c /\ s' = s.
Proof. intros <-. done. Qed.

(** Definitions other than [c], and other series, do not show in the view. *)
Lemma evaluateDefinition_other s' o f b d b' :
  seriesKeyOk s' -> o.(Observation.Series) = s' -> d ∈ definitionsFor e s' ->
  ~ (cid d = cid c /\ s' = s) ->
  evaluateDefinition partition now o f (Series.Key s') b d = Some b' -> viewD b' = viewD b.
Proof.
  intros Hk Ho Hd Hne. unfold evaluateDefinition. case_goal; [by intros [= <-]|].
  destruct (EvaluateDetailed _ _ _) as [[[truth rs] fs]|]; simpl; [|done]. intros [= <-].
  rewrite evaluated_view, decide_False by (intros E; by apply (stateKey_iff s' d) in E).
  rewrite filter_drops, app_nil_r; [done|].
  case_goal; [|constructor]. constructor; [|constructor]. by rewrite (alertOf_mine s' d).
Qed.

Lemma resetDefinition_other s' input f b d b' :
  seriesKeyOk s' -> d ∈ definitionsFor e s' -> ~ (cid d = cid c /\ s' = s) ->
  resetDefinition partition input f (Series.Key s') b d = Some b' -> viewD b' = viewD b.
Proof.
  intros Hk Hd Hne. unfold resetDefinition. case_goal; [by intros [= <-]|].
  destruct (EvaluateDetailed _ _ _) as [[[truth rs] fs]|]; simpl; [|done]. intros [= <-].
  rewrite evaluated_view, decide_False by (intros E; by apply (stateKey_iff s' d) in E). by rewrite app_nil_r.
Qed.

Lemma stateKey_series : Engine.definitionSeriesKey stateKey = key.
Proof. rewrite definitionSeriesKey_agree. apply definitionSeriesKey_of. by eapply Hbars. Qed.

Lemma startReset_other b k : k <> key -> viewD (Batch.startReset b k) = viewD b.
Proof.
  intros Hk. unfold viewD, definitionStateOf. simpl. rewrite dropSeries_lookup.
  rewrite stateKey_series.
  rewrite decide_False by done. case_goal; [done|]. f_equal.
  assert (bool_decide (key ∈ {[k]} ∪ b.(Batch.resetSeries)) = bool_decide (key ∈ b.(Batch.resetSeries))) as ->;
    [|done]. apply bool_decide_ext. set_solver.
Qed.

Lemma startReset_same b :
  viewD (Batch.startReset b key) = (DefinitionEvaluationState.zero, (viewD b).2).
Proof.
  unfold viewD, definitionStateOf. simpl. rewrite dropSeries_lookup.
  rewrite stateKey_series.
  rewrite decide_True by done. rewrite bool_decide_eq_true_2 by set_solver. done.
Qed.

Lemma accept_view b k st o : viewD (Batch.accept b k st o) = viewD b.
Proof. done. Qed.

Lemma countStale_track b : trackOf (Batch.countStale b) = trackOf b.
Proof. done. Qed.

(** Observations of other series do not show. *)
Lemma processed_other b input b' :
  seriesKeyOk input.(Observation.Series) -> input.(Observation.Series) <> s ->
  processed e partition now b input b' -> trackOf b' = trackOf b.
Proof.
  intros Hk Hne Hp. rewrite !trackOf_view.
  assert (Series.Key input.(Observation.Series) <> key) as Hkey.
  { intros E. by apply seriesKey_inj in E. }
  rewrite (processed_series _ _ _ _ _ _ key Hp), decide_False by done.
  assert (viewD b' = viewD b) as ->; [|done].
  destruct Hp as [? ?|? ?|b1 ? ? Hl|st o b1 ? -> ? -> Hl]; [done|done|..]; rewrite accept_view.
  - rewrite <- (startReset_other b _ Hkey).
    apply (loopM_inv (fun b' => viewD b' = viewD (Batch.startReset b (Series.Key input.(Observation.Series))))) in Hl;
      [done|done|].
    intros b2 d b3 <- Hd Hf. eapply resetDefinition_other; [..|exact Hf]; [done..|tauto].
  - apply (loopM_inv (fun b' => viewD b' = viewD b)) in Hl; [done|done|].
    intros b2 d b3 <- Hd Hf.
    eapply evaluateDefinition_other; [..|exact Hf]; [done| |done|tauto].
    by destruct (withZones_fields input (seriesStateOf partition b (Series.Key input.(Observation.Series)))).
Qed.

Definition baseState : DefinitionEvaluationState :=
  default DefinitionEvaluationState.zero (partition.(partitionRuntime.definitions) !! stateKey).

(** Observations of the series move the track as the machine says. *)
Lemma processed_same b input b' :
  input.(Observation.Series) = s -> processed e partition now b input b' ->
  observe now c baseState (trackOf b) input = Some (trackOf b').
Proof.
  intros His Hp. rewrite (trackOf_view b').
  rewrite (processed_series _ _ _ _ _ _ key Hp), His, decide_True by done.
  unfold observe. cbn [Track.series EngineTrack.trackOf].
  destruct Hp as [Hr Ht|Hr Ht|b1 Hr Ht Hl|st o b1 Hr -> Ht -> Hl];
    rewrite His in *; rewrite Hr, Ht; [done|done|..]; rewrite accept_view.
  - apply (loopM_view viewD _ _ c (fun d => cid d = cid c)) in Hl as (b2 & b3 & Hv & Hf & ->);
      [|by apply NoDup_split|].
    2:{ intros ? ? d Hd Hne Hf. eapply (resetDefinition_other s); [..|exact Hf]; [done..|tauto]. }
    rewrite startReset_same in Hv. unfold observeReset. unfold resetDefinition in Hf. case_hyp Hf.
    + injection Hf as <-. by rewrite Hv.
    + destruct (EvaluateDetailed _ _ _) as [[[truth rs] fs]|]; cbn [mbind option_bind] in Hf |- *; [|done].
      injection Hf as <-. rewrite evaluated_view, decide_True by done. cbn [fst snd].
      by rewrite Hv, filter_nil, app_nil_r.
  - set (st := seriesStateOf partition b key) in *. set (o := withZones input st) in *.
    assert (o.(Observation.Series) = s) as Ho by (by rewrite <- His; apply withZones_fields).
    apply (loopM_view viewD _ _ c (fun d => cid d = cid c)) in Hl as (b2 & b3 & Hv & Hf & ->);
      [|by apply NoDup_split|].
    2:{ intros ? ? d Hd Hne Hf. eapply (evaluateDefinition_other s); [..|exact Hf]; [done..|tauto]. }
    unfold observeOrdinary. cbn [Track.series Track.state Track.alerts EngineTrack.trackOf].
    fold st. fold o. unfold evaluateDefinition in Hf. case_hyp Hf.
    + injection Hf as <-. by rewrite Hv.
    + destruct (EvaluateDetailed _ _ _) as [[[truth rs] fs]|]; cbn [mbind option_bind] in Hf |- *; [|done].
      injection Hf as <-. rewrite evaluated_view, decide_True by done. cbn [fst snd].
      assert (definitionStateOf partition b2 (DefinitionStateKey (cid c) key) key
              = definitionStateOf partition b (DefinitionStateKey (cid c) key) key) as Hst
        by exact (f_equal fst Hv).
      unfold cid in Hst. rewrite Hst, Hv. simpl.
      destruct (triggers _ _ _ _) eqn:Etr.
      * rewrite (filter_keeps _ [_]); [done|]. constructor; [|constructor]. by apply (alertOf_mine s c).
      * by rewrite filter_nil.
Qed.

(** The observations of a list that belong to the series. *)
Definition ofSeries (obs : list Observation) : list Observation :=
  filter (fun o => o.(Observation.Series) = s) obs.

(** The engine, seen from the definition and the series, is the machine. *)
Lemma evaluateAll_track pid b0 obs b' :
  evaluateAll e pid partition now b0 obs = Some (Continue b') ->
  Forall (fun o => seriesKeyOk o.(Observation.Series)) obs ->
  loopM (observe now c baseState) (trackOf b0) (ofSeries obs) = Some (trackOf b').
Proof.
  intros H Hk. rewrite Forall_forall in Hk.
  refine (evaluateAll_inv e pid partition now (fun seen b =>
    loopM (observe now c baseState) (trackOf b0) (ofSeries seen) = Some (trackOf b)) b0 obs b' H _ _); [done|].
  intros seen b input b1 Hi _ IH Hp. unfold ofSeries in *. rewrite filter_app, loopM_app, IH.
  cbn [mbind option_bind]. rewrite filter_cons, filter_nil.
  destruct (decide (input.(Observation.Series) = s)) as [E|E].
  - simpl. by rewrite (processed_same b input b1).
  - simpl. by rewrite (processed_other b input b1 (Hk _ Hi) E Hp).
Qed.
End Refinement.
