(* ===== verification/EngineTrace.v ===== *)
(** * Runs of the engine

    A run evaluates batch after batch on a partition, some of which may fail.
    The refinement of EngineTrack.v is carried over the commits between the
    batches, and the alerts a run returns are shown to be right: where they
    come from, how far apart a cool-down keeps them, one per bar, one per
    rising edge. *)

From stdpp Require Import base gmap strings list numbers sorting pretty.
From S2P Require Import Prelude GoFloat GoBase GoTime Model Rules RulesValid Store Memory MemoryProps.
From S2P Require Import Fixtures Engine EngineIndex EngineBatch EngineTrack.
Import Engine.

(** ** From batch to batch *)

(** What a definition and a series start a batch from. *)
Definition startTrack (partition : partitionRuntime) (c : compiledDefinition) (s : Series) : Track :=
  trackOf partition c s (Batch.start (New 1)).

(** A track between two batches: the indicator maps are emptied by the copy,
    and the alerts are the repository's. *)
Definition settle (t : Track) : Track :=
  Track.mk (cloneSeriesState t.(Track.series)) t.(Track.state) [].

Lemma settle_start partition c s : settle (startTrack partition c s) = startTrack partition c s.
Proof.
  unfold settle, startTrack, trackOf, seriesStateOf. simpl. rewrite lookup_empty.
  by rewrite cloneSeriesState_idem.
Qed.

Lemma startTrack_base partition c s :
  (startTrack partition c s).(Track.state) = baseState partition c s.
Proof.
  unfold startTrack, trackOf, definitionStateOf, baseState. simpl. rewrite lookup_empty.
  by rewrite bool_decide_eq_false_2 by set_solver.
Qed.

(** After a successful batch, the next one starts where the track ended. *)
Lemma afterBatch_start pid partition b c s :
  noBar (cid c) = true -> (b.(Batch.accepted) = [] -> untouched b) ->
  startTrack (afterBatch pid partition b) c s = settle (trackOf partition c s b).
Proof.
  intros Hbar Hu. unfold afterBatch. destruct (length _ =? 0)%nat eqn:El.
  - apply Nat.eqb_eq, nil_length_inv in El. destruct (Hu El) as (H1 & H2 & H3 & H4).
    rewrite <- settle_start. unfold settle, startTrack, trackOf, seriesStateOf, definitionStateOf. simpl.
    by rewrite H1, H2, H3, !lookup_empty, !bool_decide_eq_false_2 by set_solver.
  - unfold startTrack, settle, trackOf. simpl. rewrite advancePartition_series. f_equal.
    unfold definitionStateOf. simpl. rewrite lookup_empty, bool_decide_eq_false_2 by set_solver.
    rewrite lookup_union. destruct (_ !! stateKeyOf c s) as [st|]; [by destruct (dropAllSeries _ _ _ !! _)|].
    rewrite (left_id_L None _), dropAllSeries_lookup.
    assert (Engine.definitionSeriesKey (stateKeyOf c s) = Series.Key s) as ->
      by (rewrite definitionSeriesKey_agree; by apply definitionSeriesKey_of).
    assert (Series.Key s ∈ merge_sort String.le (elements b.(Batch.resetSeries))
            <-> Series.Key s ∈ b.(Batch.resetSeries)) as Hiff
      by (by rewrite merge_sort_Permutation, elem_of_elements).
    destruct (decide (Series.Key s ∈ merge_sort _ _)) as [Hr|Hr].
    + rewrite bool_decide_eq_true_2 by (by apply Hiff). done.
    + rewrite bool_decide_eq_false_2 by (by rewrite <- Hiff). done.
Qed.

(** ** One call *)

(** What is assumed of the index and of the names: a definition's identifier
    has no bar and occurs once among the definitions of a series, which
    EngineIndex.v shows of every index built from identifiers that are keys. *)
Record indexOk (e : Engine) : Prop := {
  index_compiled : indexCompiled e;
  index_bars s d : d ∈ definitionsFor e s -> noBar (cid d) = true;
  index_distinct s : seriesNoNul s -> NoDup (cid <$> definitionsFor e s) }.

Lemma definitionsFor_byRoute e e' s : e'.(byRoute) = e.(byRoute) -> definitionsFor e' s = definitionsFor e s.
Proof. unfold definitionsFor, routeList. by intros ->. Qed.

Lemma indexOk_byRoute e e' : e'.(byRoute) = e.(byRoute) -> indexOk e -> indexOk e'.
Proof.
  intros E [H1 H2 H3]. split.
  - intros s. rewrite (definitionsFor_byRoute _ _ _ E). apply H1.
  - intros s d. rewrite (definitionsFor_byRoute _ _ _ E). apply H2.
  - intros s. rewrite (definitionsFor_byRoute _ _ _ E). apply H3.
Qed.

Definition seriesOk (s : Series) : Prop := seriesKeyOk s /\ seriesNoNul s.

Definition partitionOf (e : Engine) (pid : Z) : partitionRuntime :=
  default (partitionRuntime.mk ∅ ∅) (e.(partitions) !! Z.to_nat pid).

Section Runs.
Context {R : Type} `{RepositoryLaws R}.

(** One successful call: the machine takes the observations of the series
    one by one, the next call starts where it ended, and the alerts returned
    for the definition and the series are the machine's. *)
Lemma EvaluateBatch_track now pid obs (e e' : Engine) (r r' : R) alerts c s :
  indexOk e -> seriesOk s -> c ∈ definitionsFor e s ->
  Forall (fun o => seriesKeyOk o.(Observation.Series)) obs ->
  EvaluateBatch now pid obs e r = (Ok alerts, e', r') ->
  let t0 := startTrack (partitionOf e pid) c s in
  exists t1,
    loopM (observe now c t0.(Track.state)) t0 (ofSeries s obs) = Some t1 /\
    startTrack (partitionOf e' pid) c s = settle t1 /\
    committedFrom t1.(Track.alerts) (filter (mine c s) alerts) /\
    e'.(byRoute) = e.(byRoute).
Proof.
  intros Hi [Hsk Hsn] Hc Hobs Hev t0. pose proof Hev as Hev'.
  apply EvaluateBatch_Ok in Hev as (partition & b & Hr & Ho & Hp & Ha & -> & Hcommit).
  unfold t0, partitionOf. rewrite Hp. cbn [default from_option partitions with_partitions].
  rewrite list_lookup_insert_eq by (apply lookup_lt_Some in Hp; lia). cbn [default from_option].
  exists (trackOf partition c s b). split; [|split; [|split; [|done]]].
  - rewrite startTrack_base.
    exact (evaluateAll_track e partition now c s Hsk (index_bars e Hi) Hc (index_distinct e Hi s Hsn)
             pid (Batch.start e) obs b Ha Hobs).
  - apply afterBatch_start; [by eapply (index_bars e Hi)|]. by eapply evaluateAll_untouched.
  - simpl. destruct (length _ =? 0)%nat.
    + destruct Hcommit as [-> _]. exists []. split; [apply sublist_nil_l|constructor].
    + apply commit_alerts in Hcommit as (chosen & Hsub & Hf). simpl in Hsub.
      exists (filter (mine c s) chosen). split; [by apply filter_sublist_mono|].
      clear -Hf. induction Hf as [|a a0 l l0 Ha Hl IH]; [constructor|].
      rewrite !filter_cons. assert (mine c s a <-> mine c s a0) as Hm by (by rewrite Ha).
      destruct (decide (mine c s a)), (decide (mine c s a0)); try tauto. by constructor.
Qed.

(** ** Runs *)

(** Call after call on a partition: the alerts the successful calls returned.
    A call that returns an error is delivered again later, or never. *)
Fixpoint runBatches (pid : Z) (calls : list (Time * list Observation)) (e : Engine) (r : R)
  : option (list Alert * Engine * R) :=
  match calls with
  | [] => Some ([], e, r)
  | (now, obs) :: rest =>
      match EvaluateBatch now pid obs e r with
      | (Panic, _, _) => None
      | (Err _, e1, r1) => runBatches pid rest e1 r1
      | (Ok alerts, e1, r1) =>
          '(more, e2, r2) ← runBatches pid rest e1 r1; Some (alerts ++ more, e2, r2)
      end
  end.

(** An invariant of the machine over the alerts emitted so far lifts to the
    alerts that runs of the engine return. *)
Section Lift.
Context (c : compiledDefinition) (s : Series) (pid : Z).
Context (V : Observation -> Prop) (Good : SeriesEvaluationState -> DefinitionEvaluationState -> list Alert -> Prop).

Hypothesis Good_clone : forall ss ds al, Good ss ds al -> Good (cloneSeriesState ss) ds al.
Hypothesis Good_committed : forall ss ds al emitted committed,
  Good ss ds (al ++ emitted) -> committedFrom emitted committed -> Good ss ds (al ++ committed).
Hypothesis Good_observe : forall now base al t o t',
  V o -> o.(Observation.Series) = s ->
  Good t.(Track.series) t.(Track.state) (al ++ t.(Track.alerts)) ->
  observe now c base t o = Some t' ->
  Good t'.(Track.series) t'.(Track.state) (al ++ t'.(Track.alerts)).

Lemma observe_loop_Good now base al t obs t' :
  Forall V obs -> loopM (observe now c base) t (ofSeries s obs) = Some t' ->
  Good t.(Track.series) t.(Track.state) (al ++ t.(Track.alerts)) ->
  Good t'.(Track.series) t'.(Track.state) (al ++ t'.(Track.alerts)).
Proof.
  intros HV Hl Hg. rewrite Forall_forall in HV.
  apply (loopM_inv (fun t => Good t.(Track.series) t.(Track.state) (al ++ t.(Track.alerts)))) in Hl; [done|done|].
  intros t1 o t2 Hg1 [Hos Ho]%list_elem_of_filter Hobs. eapply Good_observe; eauto.
Qed.

Lemma run_Good calls : forall al (e e' : Engine) (r r' : R) alerts,
  indexOk e -> seriesOk s -> c ∈ definitionsFor e s ->
  Forall (fun call => Forall (fun o => seriesKeyOk o.(Observation.Series) /\ V o) call.2) calls ->
  runBatches pid calls e r = Some (alerts, e', r') ->
  (let t0 := startTrack (partitionOf e pid) c s in Good t0.(Track.series) t0.(Track.state) al) ->
  let t1 := startTrack (partitionOf e' pid) c s in
  Good t1.(Track.series) t1.(Track.state) (al ++ filter (mine c s) alerts).
Proof.
  induction calls as [|[now obs] calls IH]; intros al e e' r r' alerts Hi Hs Hc Hv Hrun Hg; simpl in Hrun.
  { simplify_eq. by rewrite filter_nil, app_nil_r. }
  apply Forall_cons in Hv as [Hv1 Hv].
  destruct (EvaluateBatch now pid obs e r) as [[[al1|err|] e1] r1] eqn:Ev; [| |done].
  - destruct (runBatches pid calls e1 r1) as [[[more e2] r2]|] eqn:Er; simpl in Hrun; [|done].
    simplify_eq. rewrite filter_app, app_assoc.
    pose proof Ev as Ev2. apply EvaluateBatch_index in Ev2 as (Hbr & _).
    eapply (EvaluateBatch_track now pid obs e e1 r r1 al1 c s) in Ev as (t1 & Hl & Hst & Hcom & _);
      [|done|done|done|by eapply Forall_impl; [exact Hv1|by intros ? [? ?]]].
    eapply (IH _ e1 e' r1 r'); [by eapply indexOk_byRoute|done|by rewrite (definitionsFor_byRoute _ _ _ Hbr)|done|exact Er|].
    rewrite Hst. simpl. apply Good_clone. eapply Good_committed; [|exact Hcom].
    eapply observe_loop_Good; [|exact Hl|].
    + eapply Forall_impl; [exact Hv1|by intros ? [? ?]].
    + simpl. by rewrite app_nil_r.
  - pose proof Ev as Ev2. apply EvaluateBatch_index in Ev2 as (Hbr & _).
    eapply (IH _ e1 e' r1 r'); [by eapply indexOk_byRoute|done|by rewrite (definitionsFor_byRoute _ _ _ Hbr)|done|exact Hrun|].
    assert (e1.(partitions) = e.(partitions)) as Hpp; [|unfold partitionOf; by rewrite Hpp].
    clear -Ev. unfold EvaluateBatch in Ev. repeat case_hyp Ev; by simplify_eq/=.
Qed.
End Lift.
End Runs.

(** ** Invariants of the machine *)

(** The reasons a track moves. *)
Lemma observe_cases now c base t o t' :
  observe now c base t o = Some t' -> o.(Observation.IsReset) = false ->
  (stale o t.(Track.series) = true /\ t' = t) \/
  (stale o t.(Track.series) = false /\
   let o' := withZones o t.(Track.series) in
   let f := featureFor o' t.(Track.series) in
   let d := c.(compiledDefinition.definition) in
   (applies c o' = false /\
      t' = Track.mk (nextSeriesState t.(Track.series) f o') t.(Track.state) t.(Track.alerts) \/
    exists truth reasons facts,
      applies c o' = true /\
      EvaluateDetailed c.(compiledDefinition.rule) o' f = Some (truth, reasons, facts) /\
      t' = Track.mk (nextSeriesState t.(Track.series) f o')
             (nextState t.(Track.state) o' truth (triggers d truth o' t.(Track.state)))
             (t.(Track.alerts) ++
              (if triggers d truth o' t.(Track.state) then [alertOf now d o' reasons facts] else [])))).
Proof.
  unfold observe. intros H Hr. rewrite Hr in H. destruct (stale o _) eqn:Es; [left; split; congruence|right]. split; [done|].
  unfold observeOrdinary in H. cbn zeta in H |- *.
  destruct (applies c (withZones o t.(Track.series))) eqn:Ea; simpl in H; [|left; split; congruence].
  right. destruct (EvaluateDetailed _ _ _) as [[[truth rs] fs]|]; cbn [mbind option_bind] in H; [|done].
  exists truth, rs, fs. split; [done|]. split; [done|]. congruence.
Qed.

(** *** Cool-down *)

Definition spaced (d : Duration) (a b : Alert) : Prop :=
  (a.(Alert.TriggeredAt) + d <= b.(Alert.TriggeredAt))%Z.

(** Every alert so far is not later than the last trigger. *)
Definition cooldownGood (d : Duration) (_ : SeriesEvaluationState) (st : DefinitionEvaluationState)
  (al : list Alert) : Prop :=
  StronglySorted (spaced d) al /\
  Forall (fun a => (a.(Alert.TriggeredAt) <= st.(DefinitionEvaluationState.LastTriggerAt))%Z
                   /\ st.(DefinitionEvaluationState.LastTriggerAt) <> 0%Z) al.

Lemma StronglySorted_sublist {A} (Rel : A -> A -> Prop) (l l' : list A) :
  l `sublist_of` l' -> StronglySorted Rel l' -> StronglySorted Rel l.
Proof.
  induction 1 as [|x l l' Hs IH|x l l' Hs IH]; intros Hl; [constructor|..];
    apply StronglySorted_cons in Hl as [Hx Hl]; [constructor; [by apply IH|]|by apply IH].
  by eapply sublist_Forall.
Qed.

Lemma StronglySorted_snoc {A} (Rel : A -> A -> Prop) (l : list A) x :
  StronglySorted Rel l -> Forall (fun y => Rel y x) l -> StronglySorted Rel (l ++ [x]).
Proof.
  intros Hl Hx. apply StronglySorted_app_2; [|done|by repeat constructor].
  rewrite Forall_forall in Hx. intros y z Hy ->%list_elem_of_singleton. by apply Hx.
Qed.

(** What does not look at cursors survives the commit. *)
Definition sameButCursor (a a0 : Alert) : Prop := a = Alert.with_Cursor a0 a.(Alert.Cursor).

Lemma sameButCursor_refl a : sameButCursor a a.
Proof. by destruct a. Qed.

Lemma committedFrom_extends al emitted committed :
  committedFrom emitted committed ->
  exists chosen, chosen `sublist_of` al ++ emitted /\ Forall2 sameButCursor (al ++ committed) chosen.
Proof.
  intros (chosen & Hsub & Hf). exists (al ++ chosen). split; [by apply sublist_app|].
  apply Forall2_app; [|done]. clear. induction al; constructor; [apply sameButCursor_refl|done].
Qed.

Lemma StronglySorted_committed (Rel : Alert -> Alert -> Prop) al emitted committed :
  (forall a a0 b b0, sameButCursor a a0 -> sameButCursor b b0 -> Rel a0 b0 -> Rel a b) ->
  committedFrom emitted committed ->
  StronglySorted Rel (al ++ emitted) -> StronglySorted Rel (al ++ committed).
Proof.
  intros HR Hc Hs. destruct (committedFrom_extends al _ _ Hc) as (chosen & Hsub & Hf).
  apply (StronglySorted_sublist _ _ _ Hsub) in Hs. clear Hsub Hc. revert Hs.
  induction Hf as [|a a0 l l0 Ha Hl IH]; [constructor|].
  intros [Hx Hs]%StronglySorted_cons. constructor; [by apply IH|].
  clear IH Hs. induction Hl as [|b b0 l l0 Hb Hl IH]; constructor; apply Forall_cons in Hx as [Hx1 Hx2];
    [by eapply HR|by apply IH].
Qed.

Lemma Forall_committed (Q : Alert -> Prop) al emitted committed :
  (forall a a0, sameButCursor a a0 -> Q a0 -> Q a) ->
  committedFrom emitted committed -> Forall Q (al ++ emitted) -> Forall Q (al ++ committed).
Proof.
  intros HQ Hc Hs. destruct (committedFrom_extends al _ _ Hc) as (chosen & Hsub & Hf).
  apply (sublist_Forall _ _ _ Hsub) in Hs. clear Hsub Hc. revert Hs.
  induction Hf as [|a a0 l l0 Ha Hl IH]; [constructor|].
  intros [Hx Hs]%Forall_cons. constructor; [by eapply HQ|by apply IH].
Qed.

(** Ordinary observations the service lets in: not a reset, with times set. *)
Definition ordinary (o : Observation) : Prop :=
  o.(Observation.IsReset) = false /\ o.(Observation.OccurredAt) <> 0%Z
  /\ o.(Observation.Candle).(Candle.OpenTime) <> 0%Z.

(** A trigger is at least the cool-down after the previous one. *)
Lemma triggers_cooldown d truth o st :
  let cd := d.(AlertDefinition.CooldownSeconds) in
  triggers d truth o st = true -> (0 < cd)%Z -> (cd * Second <= maxInt64)%Z ->
  st.(DefinitionEvaluationState.LastTriggerAt) <> 0%Z ->
  (st.(DefinitionEvaluationState.LastTriggerAt) + cd * Second <= o.(Observation.OccurredAt))%Z.
Proof.
  intros cd Ht Hcd Hmax Hz. unfold triggers in Ht. apply andb_true_iff in Ht as [_ Ht].
  unfold coolingDown, IsZero, mulDur in Ht. fold cd in Ht.
  assert (int64 (cd * Second) = (cd * Second)%Z) as E
    by (apply int64_id; unfold minInt64, Second in *; lia).
  rewrite E in Ht.
  assert ((cd * Second <= Sub o.(Observation.OccurredAt) st.(DefinitionEvaluationState.LastTriggerAt))%Z) as Hge
    by lia.
  apply Sub_ge in Hge; [lia|]. unfold Second in *. lia.
Qed.

Section Cooldown.
Context (c : compiledDefinition) (s : Series).
Let cd : Z := c.(compiledDefinition.definition).(AlertDefinition.CooldownSeconds).
Let gap : Duration := (cd * Second)%Z.
Hypothesis Hcd : (0 < cd)%Z.
Hypothesis Hgap : (gap <= maxInt64)%Z.

Lemma cooldown_observe now base al t o t' :
  ordinary o ->
  cooldownGood gap t.(Track.series) t.(Track.state) (al ++ t.(Track.alerts)) ->
  observe now c base t o = Some t' ->
  cooldownGood gap t'.(Track.series) t'.(Track.state) (al ++ t'.(Track.alerts)).
Proof.
  intros (Hr & Ho & _) [Hs Hl] [[_ ->]|(_ & Hcase)]%observe_cases; [by split| |done].
  destruct (withZones_fields o t.(Track.series)) as (_ & _ & _ & _ & Hoz & _).
  destruct Hcase as [[_ ->]|(truth & rs & fs & _ & _ & ->)]; simpl; [by split|].
  destruct (triggers _ _ _ _) eqn:Et; [|by rewrite app_nil_r; split].
  rewrite app_assoc. unfold cooldownGood. simpl. unfold UTC. rewrite Hoz.
  assert (Forall (fun a => (a.(Alert.TriggeredAt) + gap <= o.(Observation.OccurredAt))%Z) (al ++ t.(Track.alerts))) as Hall.
  { eapply Forall_impl; [exact Hl|]. intros a [Ha Hz].
    pose proof (triggers_cooldown _ _ _ _ Et Hcd Hgap Hz) as Hc. rewrite Hoz in Hc. fold cd gap in Hc. lia. }
  split.
  - apply StronglySorted_snoc; [done|]. eapply Forall_impl; [exact Hall|].
    intros a Ha. unfold spaced, alertOf, UTC. simpl. by rewrite Hoz.
  - apply Forall_app. split; [|constructor; [|constructor]].
    + eapply Forall_impl; [exact Hall|]. intros a Ha. split; [|done].
      assert (0 <= gap)%Z by (pose proof Hcd; unfold gap, cd, Second in *; lia). cbn beta in Ha. lia.
    + unfold alertOf, UTC. simpl. rewrite Hoz. split; [lia|done].
Qed.
End Cooldown.

(** *** Once per bar *)

(** The bar of the observation an alert carries. *)
Definition barOf (a : Alert) : option Time :=
  (fun o => o.(Observation.Candle).(Candle.OpenTime)) <$> a.(Alert.Payload).

Definition laterBar (a b : Alert) : Prop :=
  forall t u, barOf a = Some t -> barOf b = Some u -> (t < u)%Z.

Definition barGood (ss : SeriesEvaluationState) (st : DefinitionEvaluationState) (al : list Alert) : Prop :=
  StronglySorted laterBar al /\
  Forall (fun a => forall t, barOf a = Some t ->
    (t <= st.(DefinitionEvaluationState.LastAlertBar))%Z /\
    st.(DefinitionEvaluationState.LastAlertBar) <> 0%Z /\
    (st.(DefinitionEvaluationState.LastAlertBar) <= ss.(SeriesEvaluationState.LastOpenTime))%Z /\
    ss.(SeriesEvaluationState.LastOpenTime) <> 0%Z) al.

Lemma barOf_alertOf now d o rs fs t :
  barOf (alertOf now d o rs fs) = Some t -> t = o.(Observation.Candle).(Candle.OpenTime).
Proof. unfold barOf, alertOf, marshalObservation. simpl. case_goal; simpl; congruence. Qed.

Lemma not_stale_time o st :
  stale o st = false -> st.(SeriesEvaluationState.LastOpenTime) <> 0%Z ->
  (st.(SeriesEvaluationState.LastOpenTime) <= o.(Observation.Candle).(Candle.OpenTime))%Z.
Proof.
  intros Hs Hz. pose proof (not_stale_lt o st Hs Hz) as H. unfold posLt, lastPosition, position in H. lia.
Qed.

Lemma bar_observe c now base al t o t' :
  c.(compiledDefinition.definition).(AlertDefinition.TriggerMode) = "once_per_bar" ->
  ordinary o ->
  barGood t.(Track.series) t.(Track.state) (al ++ t.(Track.alerts)) ->
  observe now c base t o = Some t' ->
  barGood t'.(Track.series) t'.(Track.state) (al ++ t'.(Track.alerts)).
Proof.
  intros Hmode (Hr & _ & Ho) [Hs Hl] [[_ ->]|(Hst & Hcase)]%observe_cases; [by split| |done].
  destruct (withZones_fields o t.(Track.series)) as (_ & Hoz & _).
  assert (forall a u, a ∈ al ++ t.(Track.alerts) -> barOf a = Some u ->
    (u <= t.(Track.state).(DefinitionEvaluationState.LastAlertBar))%Z /\
    t.(Track.state).(DefinitionEvaluationState.LastAlertBar) <> 0%Z /\
    (t.(Track.state).(DefinitionEvaluationState.LastAlertBar) <= o.(Observation.Candle).(Candle.OpenTime))%Z) as Hold.
  { rewrite Forall_forall in Hl. intros a u Ha Hu. destruct (Hl a Ha u Hu) as (? & ? & ? & Hz).
    pose proof (not_stale_time _ _ Hst Hz). repeat split; lia || done. }
  assert (forall st, st = t.(Track.state).(DefinitionEvaluationState.LastAlertBar) ->
    Forall (fun a => forall u, barOf a = Some u -> (u <= st)%Z /\ st <> 0%Z /\
       (st <= o.(Observation.Candle).(Candle.OpenTime))%Z /\ o.(Observation.Candle).(Candle.OpenTime) <> 0%Z)
      (al ++ t.(Track.alerts))) as Hkeep.
  { intros st ->. apply Forall_forall. intros a Ha u Hu. destruct (Hold a u Ha Hu) as (? & ? & ?). done. }
  destruct Hcase as [[_ ->]|(truth & rs & fs & _ & _ & ->)]; unfold barGood; simpl; unfold UTC; rewrite Hoz.
  { split; [done|]. by apply Hkeep. }
  destruct (triggers _ _ _ _) eqn:Et.
  2:{ rewrite app_nil_r. split; [done|]. by apply Hkeep. }
  rewrite app_assoc.
  assert (Forall (fun a => forall u, barOf a = Some u -> (u < o.(Observation.Candle).(Candle.OpenTime))%Z)
            (al ++ t.(Track.alerts))) as Hlt.
  { apply Forall_forall. intros a Ha u Hu. destruct (Hold a u Ha Hu) as (H1 & H2 & H3).
    unfold triggers, shouldTrigger in Et. rewrite Hmode in Et. simpl in Et.
    apply andb_true_iff in Et as [Et _]. destruct truth; simpl in Et; [|done].
    unfold IsZero, Equal in Et. rewrite Hoz in Et. lia. }
  split.
  - apply StronglySorted_snoc; [done|]. eapply Forall_impl; [exact Hlt|].
    intros a Ha u v Hu Hv. apply barOf_alertOf in Hv. rewrite Hoz in Hv. subst v. by apply Ha.
  - apply Forall_app. split; [|constructor; [|constructor]].
    + eapply Forall_impl; [exact Hlt|]. intros a Ha u Hu. specialize (Ha u Hu). repeat split; lia || done.
    + intros u Hu. apply barOf_alertOf in Hu. rewrite Hoz in Hu. subst u. repeat split; lia || done.
Qed.

(** *** Rising edges *)

(** The truth an observation evaluates to, if it is evaluated at all. *)
Definition truthOn (c : compiledDefinition) (t : Track) (input : Observation) : option bool :=
  if stale input t.(Track.series) then None else
  let o := withZones input t.(Track.series) in
  if applies c o then
    (fun out => out.1.1) <$> EvaluateDetailed c.(compiledDefinition.rule) o (featureFor o t.(Track.series))
  else None.

(** The truths of a sequence of observations, in order. *)
Fixpoint truthTrace (now : Time) (c : compiledDefinition) (base : DefinitionEvaluationState) (t : Track)
  (obs : list Observation) : list bool :=
  match obs with
  | [] => []
  | o :: rest =>
      option_list (truthOn c t o) ++
      match observe now c base t o with
      | Some t' => truthTrace now c base t' rest
      | None => []
      end
  end.

(** How often a sequence of truths goes from false to true. *)
Fixpoint edges (previous : bool) (truths : list bool) : nat :=
  match truths with
  | [] => 0
  | b :: rest => (if b && negb previous then 1 else 0) + edges b rest
  end.

(** A definition that fires on the edges of its rule at the close of bars. *)
Definition onEdges (d : AlertDefinition) : Prop :=
  d.(AlertDefinition.TriggerMode) = "on_occurrence" /\ d.(AlertDefinition.EvaluationMode) = "confirmed_close"
  /\ d.(AlertDefinition.CooldownSeconds) = 0%Z /\ Pulse d.(AlertDefinition.Rule) = false.

Lemma onEdges_step d truth o st :
  onEdges d -> acceptsMode d.(AlertDefinition.EvaluationMode) o.(Observation.Status) = true ->
  triggers d truth o st = truth && negb st.(DefinitionEvaluationState.LastTruthConfirmed) /\
  (nextState st o truth (triggers d truth o st)).(DefinitionEvaluationState.LastTruthConfirmed) = truth.
Proof.
  intros (Ht & He & Hc & Hp). rewrite He. unfold acceptsMode. rewrite eqb_refl_true. intros Hst%String.eqb_eq.
  assert (isProvisional o = false) as Hpr by (unfold isProvisional; by rewrite Hst).
  unfold triggers, nextState, shouldTrigger, coolingDown. rewrite Ht, Hc, Hp, Hpr. simpl.
  split; [|done]. by destruct truth, (DefinitionEvaluationState.LastTruthConfirmed st).
Qed.

Lemma machine_edges now c base obs : forall t t',
  onEdges c.(compiledDefinition.definition) ->
  Forall (fun o => o.(Observation.IsReset) = false) obs ->
  loopM (observe now c base) t obs = Some t' ->
  length t'.(Track.alerts) = length t.(Track.alerts)
    + edges t.(Track.state).(DefinitionEvaluationState.LastTruthConfirmed) (truthTrace now c base t obs).
Proof.
  induction obs as [|o obs IH]; intros t t' He Hobs Hl; simpl in Hl.
  { simplify_eq. simpl. lia. }
  apply Forall_cons in Hobs as [Hr Hobs]. destruct (observe now c base t o) as [t1|] eqn:E; simpl in Hl; [|done].
  cbn [truthTrace]. rewrite E. specialize (IH t1 t' He Hobs Hl). rewrite IH. clear IH Hl. pose proof E as E'.
  apply observe_cases in E as [[Hst ->]|(Hst & Hcase)]; [..|done]; unfold truthOn; rewrite Hst;
    [simpl; lia|].
  cbn zeta in Hcase. destruct Hcase as [[-> ->]|(truth & rs & fs & Ha & Hev & ->)]; [simpl; lia|].
  rewrite Ha, Hev. cbn [fmap option_fmap option_map option_list app edges fst Track.state Track.alerts].
  assert (acceptsMode c.(compiledDefinition.definition).(AlertDefinition.EvaluationMode)
            (withZones o t.(Track.series)).(Observation.Status) = true) as Hm.
  { unfold applies in Ha. by apply andb_true_iff in Ha as [_ ?]. }
  destruct (onEdges_step _ truth _ t.(Track.state) He Hm) as [Htr Hnx].
  rewrite Hnx, Htr, length_app.
  match goal with |- context [option_list (Some truth) ++ ?l] => change (option_list (Some truth) ++ l) with (truth :: l) end.
  cbn [edges]. destruct (truth && _); cbn [length]; lia.
Qed.

(** ** Where alerts come from *)

(** An alert of a batch comes from one of its ordinary observations and one
    of the definitions of that observation's series. *)
Definition provenance (e : Engine) (now : Time) (obs : list Observation) (a : Alert) : Prop :=
  exists input st c reasons facts,
    let o := withZones input st in
    let d := c.(compiledDefinition.definition) in
    input ∈ obs /\ input.(Observation.IsReset) = false /\
    c ∈ definitionsFor e input.(Observation.Series) /\
    definitionEnabledAt d input.(Observation.OccurredAt) = true /\
    acceptsMode d.(AlertDefinition.EvaluationMode) input.(Observation.Status) = true /\
    EvaluateDetailed c.(compiledDefinition.rule) o (featureFor o st) = Some (true, reasons, facts) /\
    sameButCursor a (alertOf now d o reasons facts).

Lemma evaluateAll_provenance e pid partition now obs b :
  evaluateAll e pid partition now (Batch.start e) obs = Some (Continue b) ->
  Forall (provenance e now obs) b.(Batch.alerts).
Proof.
  intros H.
  refine (evaluateAll_inv e pid partition now (fun _ b => Forall (provenance e now obs) b.(Batch.alerts))
            _ obs b H _ _); [constructor|].
  intros seen b0 input b1 Hi _ IH Hp. destruct Hp as [? ?|? ?|b2 ? ? Hl|st o b2 Hr -> ? -> Hl]; [done|done|..]; simpl.
  - apply resetLoop_frame in Hl as [_ ->]. done.
  - set (st := seriesStateOf _ _ _) in *.
    apply (loopM_inv (fun b => Forall (provenance e now obs) b.(Batch.alerts))) in Hl; [done|done|].
    intros b3 c b4 Hb3 Hc Hf. unfold evaluateDefinition in Hf.
    destruct (applies c (withZones input st)) eqn:Happ; cbn [negb] in Hf; [|by injection Hf as <-].
    destruct (EvaluateDetailed _ _ _) as [[[truth rs] fs]|] eqn:Ev; cbn [mbind option_bind] in Hf; [|done].
    injection Hf as <-. simpl. apply Forall_app. split; [done|].
    destruct (triggers _ _ _ _) eqn:Et; [|constructor]. constructor; [|constructor].
    exists input, st, c, rs, fs. cbn zeta.
    unfold applies in Happ. apply andb_true_iff in Happ as [[_ He]%andb_true_iff Hm].
    destruct (withZones_fields input st) as (_ & _ & _ & Hst & Ho & _). rewrite Ho in He. rewrite Hst in Hm.
    assert (truth = true) as -> by (unfold triggers, shouldTrigger in Et; by destruct truth).
    repeat split; done.
Qed.

Lemma provenance_cursor e now obs a a0 : sameButCursor a a0 -> provenance e now obs a0 -> provenance e now obs a.
Proof.
  intros Ha (input & st & c & rs & fs & H1 & H2 & H3 & H4 & H5 & H6 & H7).
  exists input, st, c, rs, fs. repeat split; try done. unfold sameButCursor in *.
  rewrite Ha at 1. by rewrite H7.
Qed.

(** ** Indexes that satisfy the assumptions *)

Lemma indexOk_represents e cs :
  represents e.(byRoute) cs -> Forall (fun c => noBar (cid c) = true) cs -> indexOk e.
Proof.
  intros Hr Hb. rewrite Forall_forall in Hb. split.
  - by eapply indexCompiled_represents.
  - intros s d Hd. apply Hb. unfold definitionsFor in Hd.
    rewrite elem_of_app, (elem_routeList e cs Hr) in Hd. destruct Hd as [[? _]|Hd]; [done|].
    case_hyp Hd; [|by apply elem_of_nil in Hd]. by apply (elem_routeList e cs Hr) in Hd as [? _].
  - intros s. by eapply definitionsFor_NoDup.
Qed.

(** ** Properties *)

Section Properties.
Context {R : Type} `{RepositoryLaws R}.

(** C1: the engine refines the machine for one definition on one series.
    When [EvaluateBatch] succeeds, then for every series and every definition
    found for it, the machine [observe], fed the observations of that series
    in order from what the partition held, ends in the state the partition
    holds now (its indicator maps emptied by the copy), and the alerts
    returned for them are, in order, alerts of the machine. No other series,
    definition or interleaving matters. Series are those whose keys tell them
    apart: no data set or symbol holds a slash, and the series looked at has no
    NUL. *)
Theorem EvaluateBatch_refines (now : Time) (pid : Z) (obs : list Observation) (e e' : Engine) (r r' : R)
  (alerts : list Alert) (c : compiledDefinition) (s : Series) :
  indexOk e -> seriesOk s -> c ∈ definitionsFor e s ->
  Forall (fun o => seriesKeyOk o.(Observation.Series)) obs ->
  EvaluateBatch now pid obs e r = (Ok alerts, e', r') ->
  let t0 := startTrack (partitionOf e pid) c s in
  exists t1,
    loopM (observe now c t0.(Track.state)) t0 (ofSeries s obs) = Some t1 /\
    startTrack (partitionOf e' pid) c s = settle t1 /\
    committedFrom t1.(Track.alerts) (filter (mine c s) alerts) /\
    e'.(byRoute) = e.(byRoute).
Proof. intros. by eapply EvaluateBatch_track. Qed.

(** C10: an alert is always owed to an observation and a definition. Every
    alert that [EvaluateBatch] returns belongs to an ordinary observation of
    the batch (never to a reset) and to a definition of the observation's
    series that is in effect at the time of the event and accepts its status;
    its rule was evaluated and true; and the alert carries that definition's
    and observation's data, with the identifier both determine. *)
Theorem EvaluateBatch_provenance (now : Time) (pid : Z) (obs : list Observation) (e e' : Engine) (r r' : R)
  (alerts : list Alert) :
  EvaluateBatch now pid obs e r = (Ok alerts, e', r') -> Forall (provenance e now obs) alerts.
Proof.
  intros Hev. apply EvaluateBatch_Ok in Hev as (partition & b & _ & _ & _ & Ha & _ & Hc).
  apply evaluateAll_provenance in Ha. destruct (length _ =? 0)%nat; [by destruct Hc as [-> _]; constructor|].
  apply commit_alerts in Hc. simpl in Hc.
  apply (Forall_committed (provenance e now obs) [] b.(Batch.alerts)); [|done|done].
  intros a a0. apply provenance_cursor.
Qed.

(** C11: the cool-down is kept. In any run without resets, for a definition
    with a cool-down of [cd] seconds (at most 2^63 nanoseconds), the alerts
    the run returns for a series are at least [cd] seconds apart, whatever
    the batches, the failures in between and the order of the event times. No
    data set or symbol holds a slash. *)
Theorem cooldown_respected (c : compiledDefinition) (s : Series) (pid : Z)
  (calls : list (Time * list Observation)) (e e' : Engine) (r r' : R) (alerts : list Alert) :
  let cd := c.(compiledDefinition.definition).(AlertDefinition.CooldownSeconds) in
  (0 < cd)%Z -> (cd * Second <= maxInt64)%Z ->
  indexOk e -> seriesOk s -> c ∈ definitionsFor e s ->
  Forall (fun call => Forall (fun o => seriesKeyOk o.(Observation.Series) /\ ordinary o) call.2) calls ->
  runBatches pid calls e r = Some (alerts, e', r') ->
  StronglySorted (spaced (cd * Second)) (filter (mine c s) alerts).
Proof.
  intros cd Hcd Hgap Hi Hs Hc Hv Hrun.
  apply (run_Good c s pid ordinary (cooldownGood (cd * Second)%Z)) with (al := []) in Hrun as [Hsorted _];
    [exact Hsorted|done| | |done|done|done|done|by split; constructor].
  - intros ss ds al em cm [Hg1 Hg2] Hcom. split.
    + eapply StronglySorted_committed; [|exact Hcom|exact Hg1]. intros a a0 b b0 -> ->. done.
    + eapply Forall_committed; [|exact Hcom|exact Hg2]. intros a a0 ->. done.
  - intros now base al t o t' Ho _ Hg Hobs. by eapply cooldown_observe.
Qed.

(** C12: at most one alert per bar. In any run without resets, the alerts the
    run returns for a "once_per_bar" definition on a series are of strictly
    later and later bars. No data set or symbol holds a slash. *)
Theorem once_per_bar_respected (c : compiledDefinition) (s : Series) (pid : Z)
  (calls : list (Time * list Observation)) (e e' : Engine) (r r' : R) (alerts : list Alert) :
  c.(compiledDefinition.definition).(AlertDefinition.TriggerMode) = "once_per_bar" ->
  indexOk e -> seriesOk s -> c ∈ definitionsFor e s ->
  Forall (fun call => Forall (fun o => seriesKeyOk o.(Observation.Series) /\ ordinary o) call.2) calls ->
  runBatches pid calls e r = Some (alerts, e', r') ->
  StronglySorted laterBar (filter (mine c s) alerts).
Proof.
  intros Hm Hi Hs Hc Hv Hrun.
  apply (run_Good c s pid ordinary barGood) with (al := []) in Hrun as [Hsorted _];
    [exact Hsorted|done| | |done|done|done|done|by split; constructor].
  - intros ss ds al em cm [Hg1 Hg2] Hcom. split.
    + eapply StronglySorted_committed; [|exact Hcom|exact Hg1]. intros a a0 b b0 -> ->. done.
    + eapply Forall_committed; [|exact Hcom|exact Hg2]. intros a a0 ->. done.
  - intros now base al t o t' Ho _ Hg Hobs. by eapply bar_observe.
Qed.
End Properties.

(** C13: an alert per rising edge. For a definition that fires on occurrences
    at the close of bars, without a cool-down and with a rule that is a state
    rather than an event, the alerts a batch emits are as many as the times
    its truth went from false to true over the observations of the batch,
    starting from the truth remembered from before. No data set or symbol
    holds a slash. *)
Theorem rising_edges (e : Engine) (pid : Z) (partition : partitionRuntime) (now : Time)
  (c : compiledDefinition) (s : Series) (obs : list Observation) (b : Batch) :
  indexOk e -> seriesOk s -> c ∈ definitionsFor e s -> onEdges c.(compiledDefinition.definition) ->
  Forall (fun o => seriesKeyOk o.(Observation.Series) /\ o.(Observation.IsReset) = false) obs ->
  evaluateAll e pid partition now (Batch.start e) obs = Some (Continue b) ->
  let t0 := startTrack partition c s in
  length (filter (mine c s) b.(Batch.alerts))
  = edges t0.(Track.state).(DefinitionEvaluationState.LastTruthConfirmed)
      (truthTrace now c t0.(Track.state) t0 (ofSeries s obs)).
Proof.
  intros Hi [Hsk Hsn] Hc He Hobs Ha t0.
  assert (Forall (fun o => seriesKeyOk o.(Observation.Series)) obs) as Hk by (eapply Forall_impl; [exact Hobs|by intros ? []]).
  pose proof (evaluateAll_track e partition now c s Hsk (index_bars e Hi) Hc (index_distinct e Hi s Hsn)
                pid (Batch.start e) obs b Ha Hk) as Hl.
  apply machine_edges in Hl; [|done|apply Forall_filter; eapply Forall_impl; [exact Hobs|by intros ? []]].
  rewrite <- startTrack_base in Hl. exact Hl.
Qed.

(** *** Concrete runs *)

Definition compiledOf (d : AlertDefinition) : compiledDefinition :=
  compiledDefinition.mk d (Compiled.mk d.(AlertDefinition.Rule) (dependencies d.(AlertDefinition.Rule))).

Lemma engineWith_one d :
  Validate d.(AlertDefinition.Rule) = None -> noBar d.(AlertDefinition.ID) = true ->
  indexOk (engineWith [d]).
Proof.
  intros Hv Hb. assert (ReplaceDefinitions 1 [d] (New 256) = (Ok (), engineWith [d])) as E.
  { unfold engineWith, ReplaceDefinitions. simpl. unfold Compile. by rewrite Hv. }
  apply ReplaceDefinitions_represents in E as (cs & Hcs & Hr); [|apply NoDup_singleton].
  eapply indexOk_represents; [exact Hr|]. apply Forall_forall. intros c Hc.
  assert (c.(compiledDefinition.definition) ∈ [d]) as Hd by (rewrite <- Hcs; by apply list_elem_of_fmap_2).
  apply list_elem_of_singleton in Hd. unfold cid. by rewrite Hd.
Qed.

Lemma btc_ok : seriesOk btc.
Proof. by repeat split. Qed.

(** Bars one minute apart, all red. *)
Definition redBars (n : nat) : list Observation :=
  (fun i => confirmedBar ("bar" +:+ pretty i) btc (minutes (Z.of_nat i)) 101 99) <$> seq 0 n.

Lemma redBars_ok n : Forall (fun o => seriesKeyOk o.(Observation.Series) /\ ordinary o) (redBars n).
Proof.
  apply Forall_forall. intros o (i & -> & _)%list_elem_of_fmap.
  split; [by split|]. unfold ordinary, confirmedBar, minutes, start, Minute, Second. simpl.
  repeat split; lia.
Qed.

(** Evaluating the bars on an engine with one definition. *)
Definition runOf (d : AlertDefinition) (calls : list (Time * list Observation)) :=
  default ([], engineWith [d], NewMemory) (runBatches 142 calls (engineWith [d]) NewMemory).

Definition cooling : AlertDefinition := mkDef "red" redColor "confirmed_close" "every_match" 120.
Definition perBar : AlertDefinition := mkDef "red" redColor "confirmed_close" "once_per_bar" 0.
Definition thirdRed : AlertDefinition := mkDef "red" threeRed "confirmed_close" "every_match" 0.
Definition redEdge : AlertDefinition := mkDef "red" redColor "confirmed_close" "on_occurrence" 0.

Lemma cooldown_respected_witness :
  let out := runOf cooling [(start, redBars 3); (start, redBars 4)] in
  StronglySorted (spaced (120 * Second)) (filter (mine (compiledOf cooling) btc) out.1.1) /\
  length out.1.1 = 2.
Proof.
  intros out. split; [|vm_compute; reflexivity].
  apply (cooldown_respected (compiledOf cooling) btc 142 [(start, redBars 3); (start, redBars 4)]
           (engineWith [cooling]) out.1.2 NewMemory out.2 out.1.1).
  - reflexivity.
  - vm_compute. intros H; discriminate H.
  - apply engineWith_one; reflexivity.
  - exact btc_ok.
  - replace (definitionsFor (engineWith [cooling]) btc) with [compiledOf cooling] by (vm_compute; reflexivity).
    apply list_elem_of_here.
  - constructor; [apply redBars_ok|constructor; [apply redBars_ok|constructor]].
  - vm_compute. reflexivity.
Defined.

Lemma once_per_bar_respected_witness :
  let out := runOf perBar [(start, redBars 2); (start, redBars 3)] in
  StronglySorted laterBar (filter (mine (compiledOf perBar) btc) out.1.1) /\ length out.1.1 = 3.
Proof.
  intros out. split; [|vm_compute; reflexivity].
  apply (once_per_bar_respected (compiledOf perBar) btc 142 [(start, redBars 2); (start, redBars 3)]
           (engineWith [perBar]) out.1.2 NewMemory out.2 out.1.1).
  - reflexivity.
  - apply engineWith_one; reflexivity.
  - exact btc_ok.
  - replace (definitionsFor (engineWith [perBar]) btc) with [compiledOf perBar] by (vm_compute; reflexivity).
    apply list_elem_of_here.
  - constructor; [apply redBars_ok|constructor; [apply redBars_ok|constructor]].
  - vm_compute. reflexivity.
Defined.

(** The result of evaluating bars in one call. *)
Definition callOf (d : AlertDefinition) (obs : list Observation) :=
  EvaluateBatch start 142 obs (engineWith [d]) NewMemory.

Lemma EvaluateBatch_refines_witness :
  let out := callOf cooling (redBars 3) in
  let t0 := startTrack (partitionOf (engineWith [cooling]) 142) (compiledOf cooling) btc in
  exists t1, loopM (observe start (compiledOf cooling) t0.(Track.state)) t0 (ofSeries btc (redBars 3)) = Some t1 /\
    startTrack (partitionOf out.1.2 142) (compiledOf cooling) btc = settle t1.
Proof.
  intros out t0.
  destruct (EvaluateBatch_refines start 142 (redBars 3) (engineWith [cooling]) out.1.2 NewMemory out.2
              (match out.1.1 with Ok al => al | _ => [] end) (compiledOf cooling) btc) as (t1 & H1 & H2 & _).
  - apply engineWith_one; reflexivity.
  - exact btc_ok.
  - replace (definitionsFor (engineWith [cooling]) btc) with [compiledOf cooling] by (vm_compute; reflexivity).
    apply list_elem_of_here.
  - eapply Forall_impl; [exact (redBars_ok 3)|]. intros o [H _]. exact H.
  - vm_compute. reflexivity.
  - exists t1. split; [exact H1|exact H2].
Defined.

Lemma EvaluateBatch_provenance_witness :
  let out := callOf perBar (redBars 2) in
  let alerts := match out.1.1 with Ok al => al | _ => [] end in
  Forall (provenance (engineWith [perBar]) start (redBars 2)) alerts /\ length alerts = 2.
Proof.
  intros out alerts. split; [|vm_compute; reflexivity].
  apply (EvaluateBatch_provenance start 142 (redBars 2) (engineWith [perBar]) out.1.2 NewMemory out.2 alerts).
  vm_compute. reflexivity.
Defined.

Lemma rising_edges_witness :
  exists b, evaluateAll (engineWith [redEdge]) 142 (partitionOf (engineWith [redEdge]) 142) start
              (Batch.start (engineWith [redEdge])) (redBars 4) = Some (Continue b) /\
    length (filter (mine (compiledOf redEdge) btc) b.(Batch.alerts))
    = edges false [true; true; true; true].
Proof.
  destruct (evaluateAll (engineWith [redEdge]) 142 (partitionOf (engineWith [redEdge]) 142) start
              (Batch.start (engineWith [redEdge])) (redBars 4)) as [[b|err b]|] eqn:E.
  - exists b. split; [reflexivity|].
    rewrite (rising_edges (engineWith [redEdge]) 142 (partitionOf (engineWith [redEdge]) 142) start
               (compiledOf redEdge) btc (redBars 4) b).
    + vm_compute. reflexivity.
    + apply engineWith_one; reflexivity.
    + exact btc_ok.
    + replace (definitionsFor (engineWith [redEdge]) btc) with [compiledOf redEdge] by (vm_compute; reflexivity).
      apply list_elem_of_here.
    + repeat split; reflexivity.
    + eapply Forall_impl; [exact (redBars_ok 4)|]. intros o [H [Hr _]]. split; [exact H|exact Hr].
    + exact E.
  - exfalso. assert (match evaluateAll (engineWith [redEdge]) 142 (partitionOf (engineWith [redEdge]) 142) start
              (Batch.start (engineWith [redEdge])) (redBars 4) with Some (Return _ _) => false | _ => true end = true) as H
      by (vm_compute; reflexivity).
    rewrite E in H. discriminate H.
  - exfalso. assert (match evaluateAll (engineWith [redEdge]) 142 (partitionOf (engineWith [redEdge]) 142) start
              (Batch.start (engineWith [redEdge])) (redBars 4) with None => false | _ => true end = true) as H
      by (vm_compute; reflexivity).
    rewrite E in H. discriminate H.
Defined.
