(* ===== verification/EngineRecovery.v ===== *)
(** * Start-up, crash and recovery

    The memory of an engine is a copy of the repository's checkpoint: the
    partitions hold, for the keys that hash to them, the checkpointed states
    ([synced]). [Initialize] establishes this, and [EvaluateBatch] keeps it,
    on success and on failure; so an engine that replaces a crashed one
    resumes with the same partitions. The partitions of the workers of a
    cluster are disjoint and cover the hash range. *)

From stdpp Require Import base gmap strings list numbers sorting.
From Stdlib Require Import Ascii.
From S2P Require Import Prelude GoFloat GoBase GoTime Model Rules Store Memory MemoryProps Fixtures.
From S2P Require Import Engine EngineIndex EngineBatch EngineTrack EngineTrace.
Import Engine.

(** ** Partitions *)

Lemma PartitionForKey_length e e' k :
  length e'.(partitions) = length e.(partitions) -> PartitionForKey e' k = PartitionForKey e k.
Proof.
  intros E. unfold PartitionForKey, Partition, partitionOfHash, partitionCountOf. by rewrite E.
Qed.

(** A checkpoint is found in the partition that evaluates its series. *)
Lemma PartitionForKey_Key e s : seriesKeyOk s -> PartitionForKey e (Series.Key s) = Partition e s.
Proof. intros [Hd Hy]. unfold PartitionForKey. rewrite Key_split by done. by destruct s. Qed.

Lemma Partition_inRange e s :
  (0 < partitionCountOf e < 2 ^ 32)%Z -> inRange e (Partition e s).
Proof.
  intros H. unfold inRange, Partition, partitionOfHash, wrapU.
  rewrite (Z.mod_small (partitionCountOf e)) by lia. apply Z.mod_pos_bound. lia.
Qed.

Lemma elem_ownedPartitions e p :
  p ∈ ownedPartitions e <-> inRange e p /\ owns e p = true.
Proof.
  unfold ownedPartitions, inRange, partitionCountOf. rewrite list_elem_of_filter, list_elem_of_fmap.
  split.
  - intros [Ho (i & -> & Hi%elem_of_seq)]. split; [lia|done].
  - intros [Hr Ho]. split; [done|]. exists (Z.to_nat p). split; [lia|]. apply elem_of_seq. lia.
Qed.

(** ** The copy of the checkpoint *)

(** The key of a series, and of a definition state, that hashes to [p]. *)
Definition homeOf (e : Engine) (p : Z) (key : string) : bool :=
  (PartitionForKey e key =? p)%Z && owns e p.

Lemma loadSeries_lookup e snap p k :
  (loadSeries e snap p (partitionRuntime.mk ∅ ∅)).(partitionRuntime.series) !! k =
  (if homeOf e p k then cloneSeriesState <$> snap.(RuntimeSnapshot.Series) !! k else None).
Proof.
  unfold loadSeries. simpl. rewrite (right_id_L ∅ _), lookup_fmap, map_lookup_filter. fold (homeOf e p k).
  destruct (snap.(RuntimeSnapshot.Series) !! k) as [st|] eqn:E; simpl; [|by case_goal].
  destruct (homeOf e p k) eqn:Eh; unfold homeOf in Eh.
  - case_guard; [done|]. simpl in *. congruence.
  - case_guard; [|done]. simpl in *. congruence.
Qed.

Lemma loadDefinitions_lookup e snap p k :
  (loadSeries e snap p (partitionRuntime.mk ∅ ∅)).(partitionRuntime.definitions) !! k =
  (if homeOf e p (Engine.definitionSeriesKey k) then snap.(RuntimeSnapshot.Definitions) !! k else None).
Proof.
  unfold loadSeries. simpl. rewrite (right_id_L ∅ _), map_lookup_filter.
  destruct (snap.(RuntimeSnapshot.Definitions) !! k) as [st|] eqn:E; simpl; [|by case_goal].
  destruct (homeOf e p (Engine.definitionSeriesKey k)) eqn:Eh; unfold homeOf in Eh.
  - case_guard; [done|]. simpl in *. congruence.
  - case_guard; [|done]. simpl in *. congruence.
Qed.

Lemma loadSeries_ext e e' snap p part :
  length e'.(partitions) = length e.(partitions) -> e'.(workerIndex) = e.(workerIndex) ->
  e'.(workerCount) = e.(workerCount) -> loadSeries e' snap p part = loadSeries e snap p part.
Proof.
  intros H1 H2 H3. unfold loadSeries. f_equal; f_equal; [f_equal|]; apply map_filter_ext; intros k x _;
    unfold owns; by rewrite (PartitionForKey_length _ _ _ H1), H2, H3.
Qed.

Lemma partitionRuntime_eq p q :
  p.(partitionRuntime.series) = q.(partitionRuntime.series) ->
  p.(partitionRuntime.definitions) = q.(partitionRuntime.definitions) -> p = q.
Proof. destruct p, q; simpl; congruence. Qed.

(** Partitions whose series are equivalent. *)
#[export] Instance partition_equiv : Equiv partitionRuntime := fun p q =>
  p.(partitionRuntime.series) ≡ q.(partitionRuntime.series) /\
  p.(partitionRuntime.definitions) = q.(partitionRuntime.definitions).
#[export] Instance partition_equivalence : Equivalence (≡@{partitionRuntime}).
Proof.
  split.
  - intros p. by split.
  - intros p q [H H']. by split.
  - intros p q r [H H'] [K K']. split; [by etrans|congruence].
Qed.

(** A clone has no indicators, so it is read back without the map. *)
Lemma readFeature_clone f :
  readFeature (cloneFeatureState f) =
  FeatureState.mk f.(FeatureState.LastClose) None f.(FeatureState.Candles) f.(FeatureState.CandleColors)
    f.(FeatureState.FormingBar) f.(FeatureState.FormingColor).
Proof.
  destruct f as [c [m|] cs cols b col]; [|done]. unfold readFeature, cloneFeatureState, cloneIndicators. simpl.
  by rewrite map_fold_empty, decide_True.
Qed.

#[export] Instance cloneFeatureState_proper : Proper ((≡) ==> (≡)) cloneFeatureState.
Proof.
  intros f g H. unfold equiv, feature_equiv in *. rewrite !readFeature_clone.
  destruct f, g. unfold readFeature in H. simpl in *. by simplify_eq.
Qed.

#[export] Instance cloneSeriesState_proper : Proper ((≡) ==> (≡)) cloneSeriesState.
Proof.
  intros st st' (? & ? & ? & ? & ? & Hc & Hi & ?)%series_equiv_iff. apply series_equiv_iff. simpl.
  repeat split; try done; by f_equiv.
Qed.

Lemma equiv_is_Some {A} `{Equiv A} (x y : option A) : x ≡ y -> is_Some x <-> is_Some y.
Proof. intros []; split; intros [? ?]; eauto; done. Qed.

(** What is loaded from equivalent checkpoints is equivalent. *)
Lemma loadSeries_equiv e p snap snap' :
  snap ≡ snap' ->
  loadSeries e snap p (partitionRuntime.mk ∅ ∅) ≡ loadSeries e snap' p (partitionRuntime.mk ∅ ∅).
Proof.
  intros [Hs Hd]. split.
  - intros k. rewrite !loadSeries_lookup. destruct (homeOf e p k); [|done]. by rewrite (Hs k).
  - apply map_eq. intros k. by rewrite !loadDefinitions_lookup, Hd.
Qed.

(** Lookups in what a batch makes of the partition and of the checkpoint. *)
Lemma advance_series partition b k :
  (advancePartition partition b).(partitionRuntime.series) !! k =
  match b.(RuntimeBatch.SeriesStates) !! k with
  | Some st => Some (cloneSeriesState st)
  | None => partition.(partitionRuntime.series) !! k
  end.
Proof.
  unfold advancePartition. cbn [partitionRuntime.series]. rewrite lookup_union, lookup_fmap.
  destruct (_ !! k); simpl; [by destruct (_ !! k)|]. by rewrite (left_id_L None _).
Qed.

Lemma advance_definitions partition b k :
  (advancePartition partition b).(partitionRuntime.definitions) !! k =
  match b.(RuntimeBatch.DefinitionStates) !! k with
  | Some st => Some st
  | None => if decide (Engine.definitionSeriesKey k ∈ b.(RuntimeBatch.ResetSeriesKeys)) then None
            else partition.(partitionRuntime.definitions) !! k
  end.
Proof.
  unfold advancePartition. cbn [partitionRuntime.definitions]. rewrite lookup_union, dropAllSeries_lookup.
  destruct (RuntimeBatch.DefinitionStates b !! k); [by case_decide; [|destruct (_ !! k)]|].
  by rewrite (left_id_L None _).
Qed.

Lemma commit_series b rt k :
  (commitRuntime b rt).(RuntimeSnapshot.Series) !! k =
  match b.(RuntimeBatch.SeriesStates) !! k with
  | Some st => Some st
  | None => rt.(RuntimeSnapshot.Series) !! k
  end.
Proof.
  unfold commitRuntime. cbn [RuntimeSnapshot.Series]. rewrite lookup_union.
  destruct (_ !! k); [by destruct (_ !! k)|]. by rewrite (left_id_L None _).
Qed.

Lemma commit_definitions b rt k :
  (commitRuntime b rt).(RuntimeSnapshot.Definitions) !! k =
  match b.(RuntimeBatch.DefinitionStates) !! k with
  | Some st => Some st
  | None => if decide (Engine.definitionSeriesKey k ∈ b.(RuntimeBatch.ResetSeriesKeys)) then None
            else rt.(RuntimeSnapshot.Definitions) !! k
  end.
Proof.
  unfold commitRuntime. cbn [RuntimeSnapshot.Definitions].
  rewrite lookup_union, dropAllSeries_lookup, definitionSeriesKey_agree.
  destruct (RuntimeBatch.DefinitionStates b !! k); [by case_decide; [|destruct (_ !! k)]|].
  by rewrite (left_id_L None _).
Qed.

Lemma resetKeys_elem pid b k :
  k ∈ (batchOf pid b).(RuntimeBatch.ResetSeriesKeys) <-> k ∈ b.(Batch.resetSeries).
Proof. simpl. by rewrite merge_sort_Permutation, elem_of_elements. Qed.

(** ** What a batch writes belongs to its partition *)
Definition batchHome (e : Engine) (pid : Z) (b : Batch) : Prop :=
  (forall k, is_Some (b.(Batch.seriesStates) !! k) -> PartitionForKey e k = pid) /\
  (forall k, is_Some (b.(Batch.definitionStates) !! k) ->
     PartitionForKey e (Engine.definitionSeriesKey k) = pid) /\
  (forall k, k ∈ b.(Batch.resetSeries) -> PartitionForKey e k = pid).

Lemma evaluated_home e pid b id s st new :
  noBar id = true -> PartitionForKey e (Series.Key s) = pid ->
  batchHome e pid b -> batchHome e pid (Batch.evaluated b (DefinitionStateKey id (Series.Key s)) st new).
Proof.
  intros Hb Hp (H1 & H2 & H3). split; [done|]. split; [|done]. simpl.
  intros k [E|?]%lookup_insert_is_Some'; [|by apply H2]. subst k.
  by rewrite definitionSeriesKey_agree, definitionSeriesKey_of.
Qed.

Lemma evaluateAll_home e pid partition now obs b :
  indexOk e -> Forall (fun o => seriesKeyOk o.(Observation.Series)) obs ->
  evaluateAll e pid partition now (Batch.start e) obs = Some (Continue b) -> batchHome e pid b.
Proof.
  intros Hi Hk Ha. rewrite Forall_forall in Hk.
  refine (evaluateAll_inv e pid partition now (fun _ b => batchHome e pid b) _ obs b Ha _ _).
  { repeat split; simpl; intros k; rewrite ?lookup_empty; [by intros []|by intros []|set_solver]. }
  intros seen b0 input b1 Hin Hpid IH Hp.
  assert (PartitionForKey e (Series.Key input.(Observation.Series)) = pid) as Hkey
    by (rewrite PartitionForKey_Key; auto).
  assert (forall b st o, batchHome e pid b ->
    batchHome e pid (Batch.accept b (Series.Key input.(Observation.Series)) st o)) as Hacc.
  { intros b' st o (H1 & H2 & H3). split; [|done]. simpl.
    intros k [E|?]%lookup_insert_is_Some'; [by subst|by apply H1]. }
  destruct Hp as [? ?|? ?|b2 ? ? Hl|st o b2 Hr -> ? -> Hl]; [done|done|apply Hacc..].
  - apply (loopM_inv (batchHome e pid)) in Hl; [done| |].
    + destruct IH as (H1 & H2 & H3). split; [done|]. split; simpl.
      * intros k. rewrite dropSeries_lookup. case_decide; [by intros []|by apply H2].
      * intros k. set_solver.
    + intros b3 c b4 Hb3 Hc Hf. unfold resetDefinition in Hf. case_hyp Hf; [by injection Hf as <-|].
      destruct (EvaluateDetailed _ _ _) as [[[? ?] ?]|]; simpl in Hf; [|done]. injection Hf as <-.
      apply evaluated_home; [by eapply (index_bars e Hi)|done|done].
  - apply (loopM_inv (batchHome e pid)) in Hl; [done|done|].
    intros b3 c b4 Hb3 Hc Hf. unfold evaluateDefinition in Hf.
    destruct (applies c _); cbn [negb] in Hf; [|by injection Hf as <-].
    destruct (EvaluateDetailed _ _ _) as [[[? ?] ?]|]; simpl in Hf; [|done]. injection Hf as <-.
    apply evaluated_home; [by eapply (index_bars e Hi)|done|done].
Qed.

Section Recovery.
Context {R : Type} `{RepositoryLaws R}.

(** The partitions of [e] are the checkpoint of [r], and the repository would
    load for each owned partition every checkpoint that hashes to it. *)
Record synced (e : Engine) (r : R) : Prop := {
  synced_partitions p partition :
    e.(partitions) !! p = Some partition ->
    partition ≡ loadSeries e (runtimeOf r) (Z.of_nat p) (partitionRuntime.mk ∅ ∅);
  synced_home k : owns e (PartitionForKey e k) = true ->
    is_Some ((runtimeOf r).(RuntimeSnapshot.Series) !! k) -> home r (PartitionForKey e k) k;
  synced_homeDefinition k :
    let p := PartitionForKey e (Engine.definitionSeriesKey k) in
    owns e p = true ->
    is_Some ((runtimeOf r).(RuntimeSnapshot.Definitions) !! k) -> homeDefinition r p k }.

(** Same names, same checkpoint, same homes. *)
Lemma synced_transfer e e' r r' :
  e'.(partitions) = e.(partitions) -> e'.(workerIndex) = e.(workerIndex) ->
  e'.(workerCount) = e.(workerCount) -> runtimeOf r' = runtimeOf r ->
  (forall p k, home r p k -> home r' p k) -> (forall p k, homeDefinition r p k -> homeDefinition r' p k) ->
  synced e r -> synced e' r'.
Proof.
  intros Hp Hi Hc Hr Hh Hd [S1 S2 S3].
  assert (forall k, PartitionForKey e' k = PartitionForKey e k) as HP
    by (intros k; apply PartitionForKey_length; by rewrite Hp).
  split.
  - intros p partition. rewrite Hp, Hr. intros E. rewrite (loadSeries_ext e); [|by rewrite Hp|done|done].
    by apply S1.
  - intros k. unfold owns. rewrite HP, Hi, Hc, Hr. intros ? ?. apply Hh. by apply S2.
  - intros k p. subst p. unfold owns. rewrite HP, Hi, Hc, Hr. intros ? ?. apply Hd. by apply S3.
Qed.

(** The checkpoint of a committed batch, seen from a partition. *)
Lemma advance_equiv p q b : p ≡ q -> advancePartition p b ≡ advancePartition q b.
Proof.
  intros [Hs Hd]. split.
  - intros k. rewrite !advance_series. by destruct (_ !! k).
  - apply map_eq. intros k. by rewrite !advance_definitions, Hd.
Qed.

Lemma advance_synced e (r : R) pid partition b :
  batchHome e pid b -> owns e pid = true ->
  partition ≡ loadSeries e (runtimeOf r) pid (partitionRuntime.mk ∅ ∅) ->
  advancePartition partition (batchOf pid b)
  ≡ loadSeries e (commitRuntime (batchOf pid b) (runtimeOf r)) pid (partitionRuntime.mk ∅ ∅).
Proof.
  intros (H1 & H2 & H3) Ho Heq. rewrite (advance_equiv _ _ _ Heq). apply reflexive_eq, partitionRuntime_eq; apply map_eq; intros k.
  - rewrite advance_series, !loadSeries_lookup, commit_series. cbn [RuntimeBatch.SeriesStates batchOf].
    destruct (b.(Batch.seriesStates) !! k) as [st|] eqn:E; [|done].
    unfold homeOf. by rewrite (H1 k), Z.eqb_refl, Ho by eauto.
  - rewrite advance_definitions, !loadDefinitions_lookup, commit_definitions.
    cbn [RuntimeBatch.DefinitionStates batchOf].
    destruct (b.(Batch.definitionStates) !! k) as [st|] eqn:E.
    + unfold homeOf. by rewrite (H2 k), Z.eqb_refl, Ho by eauto.
    + case_decide; [by case_goal|done].
Qed.

Lemma others_synced e (r : R) pid p b :
  batchHome e pid b -> p <> pid ->
  loadSeries e (runtimeOf r) p (partitionRuntime.mk ∅ ∅)
  = loadSeries e (commitRuntime (batchOf pid b) (runtimeOf r)) p (partitionRuntime.mk ∅ ∅).
Proof.
  intros (H1 & H2 & H3) Hne. apply partitionRuntime_eq; apply map_eq; intros k.
  - rewrite !loadSeries_lookup, commit_series. cbn [RuntimeBatch.SeriesStates batchOf].
    destruct (b.(Batch.seriesStates) !! k) as [st|] eqn:E; [|done].
    unfold homeOf. rewrite (H1 k) by eauto. by replace (pid =? p)%Z with false by lia.
  - rewrite !loadDefinitions_lookup, commit_definitions. cbn [RuntimeBatch.DefinitionStates batchOf].
    destruct (homeOf e p (Engine.definitionSeriesKey k)) eqn:Eh; [|done].
    unfold homeOf in Eh. apply andb_true_iff in Eh as [Eh _].
    destruct (b.(Batch.definitionStates) !! k) as [st|] eqn:E.
    + rewrite (H2 k) in Eh by eauto. lia.
    + rewrite decide_False; [done|]. rewrite (resetKeys_elem pid).
      intros Hin. rewrite (H3 _ Hin) in Eh. lia.
Qed.

(** What a call does to the partitions and the repository: nothing, or it
    commits a batch of its partition and advances the memory by it. *)
Lemma EvaluateBatch_effect now pid obs (e e' : Engine) (r r' : R) res :
  indexOk e -> Forall (fun o => seriesKeyOk o.(Observation.Series)) obs ->
  EvaluateBatch now pid obs e r = (res, e', r') -> res <> Panic ->
  (e'.(partitions) = e.(partitions) /\ runtimeOf r' = runtimeOf r /\
   (forall p k, home r p k -> home r' p k) /\ (forall p k, homeDefinition r p k -> homeDefinition r' p k)) \/
  exists partition b alerts,
    inRange e pid /\ owns e pid = true /\ e.(partitions) !! Z.to_nat pid = Some partition /\ batchHome e pid b /\
    e'.(partitions) = <[Z.to_nat pid := advancePartition partition (batchOf pid b)]> e.(partitions) /\
    CommitRuntimeBatch (batchOf pid b) r = (Ok alerts, r').
Proof.
  intros Hi Hk Hev Hnp. destruct res as [alerts|err|]; [| |done].
  - apply EvaluateBatch_Ok in Hev as (partition & b & Hr & Ho & Hp & Ha & -> & Hc).
    pose proof (evaluateAll_home _ _ _ _ _ _ Hi Hk Ha) as Hb. unfold afterBatch. destruct (length _ =? 0)%nat.
    + left. destruct Hc as [_ ->]. split_and!; try done. simpl. by apply list_insert_id.
    + right. by exists partition, b, alerts.
  - left. unfold EvaluateBatch in Hev. repeat case_hyp Hev; simplify_eq/=; try done.
    match goal with Hc : CommitRuntimeBatch _ _ = (Err _, _) |- _ => apply commit_err in Hc as (? & ? & ?) end.
    done.
Qed.

Lemma EvaluateBatch_synced now pid obs (e e' : Engine) (r r' : R) res :
  indexOk e -> Forall (fun o => seriesKeyOk o.(Observation.Series)) obs ->
  EvaluateBatch now pid obs e r = (res, e', r') -> res <> Panic -> synced e r -> synced e' r'.
Proof.
  intros Hi Hk Hev Hnp Hs. pose proof Hev as (_ & Hlen & Hwi & Hwc)%EvaluateBatch_index.
  destruct (EvaluateBatch_effect _ _ _ _ _ _ _ _ Hi Hk Hev Hnp)
    as [(Hpp & Hrt & Hh & Hd)|(partition & b & alerts & Hr & Ho & Hp & Hb & Hpp & Hc)];
    [eapply synced_transfer; [..|exact Hs]; done|].
  pose proof (commit_ok _ _ _ _ Hc) as Hrt. pose proof (commit_home _ _ _ _ Hc) as (C1 & C2 & C3 & C4).
  assert (forall k, PartitionForKey e' k = PartitionForKey e k) as HP by (intros k; by apply PartitionForKey_length).
  destruct Hs as [S1 S2 S3]. unfold inRange in Hr. split.
  - intros p part Hlk. rewrite Hpp in Hlk. rewrite (loadSeries_ext e), (loadSeries_equiv _ _ _ _ Hrt) by done.
    destruct (decide (p = Z.to_nat pid)) as [->|Hne].
    + rewrite list_lookup_insert_eq in Hlk by (by eapply lookup_lt_Some). injection Hlk as <-.
      rewrite Z2Nat.id by lia. apply advance_synced; [done|done|].
      pose proof (S1 _ _ Hp) as Heq. by rewrite Z2Nat.id in Heq by lia.
    + rewrite list_lookup_insert_ne in Hlk by done. rewrite (S1 _ _ Hlk).
      apply reflexive_eq, others_synced; [done|lia].
  - intros k. unfold owns. rewrite HP, Hwi, Hwc. intros Ho' Hk'.
    rewrite (equiv_is_Some _ _ (proj1 Hrt k)), commit_series in Hk'. cbn [RuntimeBatch.SeriesStates batchOf] in Hk'.
    destruct (b.(Batch.seriesStates) !! k) as [st|] eqn:E.
    + destruct Hb as (Hb1 & _ & _). rewrite (Hb1 k) by eauto. apply C1. simpl. rewrite E. eauto.
    + apply C2; [by apply S2|done].
  - intros k p. subst p. unfold owns. rewrite HP, Hwi, Hwc. intros Ho' Hk'.
    rewrite (proj2 Hrt), commit_definitions in Hk'. cbn [RuntimeBatch.DefinitionStates batchOf] in Hk'.
    destruct (b.(Batch.definitionStates) !! k) as [st|] eqn:E.
    + destruct Hb as (_ & Hb2 & _). rewrite (Hb2 k) by eauto. apply C3. simpl. rewrite E. eauto.
    + apply C4; [|done]. apply S3; [done|]. case_decide; [by destruct Hk'|done].
Qed.

(** ** Start-up *)

(** What a repository must have ready for a new engine: it would load for
    each owned partition every checkpoint that hashes to it. *)
Definition loadable (e : Engine) (r : R) : Prop :=
  (forall k, owns e (PartitionForKey e k) = true ->
     is_Some ((runtimeOf r).(RuntimeSnapshot.Series) !! k) -> home r (PartitionForKey e k) k) /\
  (forall k, let p := PartitionForKey e (Engine.definitionSeriesKey k) in owns e p = true ->
     is_Some ((runtimeOf r).(RuntimeSnapshot.Definitions) !! k) -> homeDefinition r p k).

Lemma snapshot_lookup {A} (small big : gmap string A) k (P : Prop) :
  small ⊆ big -> (is_Some (big !! k) -> small !! k = big !! k) -> small !! k = big !! k.
Proof.
  intros Hsub Hh. destruct (big !! k) as [x|] eqn:E; [apply Hh; eauto|].
  destruct (small !! k) as [y|] eqn:E2; [|done].
  assert (big !! k = Some y) by (by eapply lookup_weaken). congruence.
Qed.

Lemma loaded_partition (e : Engine) (r : R) snap p :
  loadable e r -> LoadRuntimeStates (ownedPartitions e) r = Ok snap -> inRange e p ->
  loadSeries e snap p (partitionRuntime.mk ∅ ∅) = loadSeries e (runtimeOf r) p (partitionRuntime.mk ∅ ∅).
Proof.
  intros [L1 L2] Hl Hr. apply load_ok in Hl as (Hs & Hd & Hhs & Hhd).
  apply partitionRuntime_eq; apply map_eq; intros k.
  - rewrite !loadSeries_lookup. unfold homeOf. destruct (_ && _) eqn:E; [|done]. f_equal.
    apply andb_true_iff in E as [E%Z.eqb_eq Ho]. subst p.
    apply snapshot_lookup; [exact True|done|]. intros Hk.
    apply (Hhs (PartitionForKey e k)); [by apply elem_ownedPartitions|]. by apply L1.
  - rewrite !loadDefinitions_lookup. unfold homeOf. destruct (_ && _) eqn:E; [|done].
    apply andb_true_iff in E as [E%Z.eqb_eq Ho]. subst p.
    apply snapshot_lookup; [exact True|done|]. intros Hk.
    apply (Hhd (PartitionForKey e (Engine.definitionSeriesKey k))); [by apply elem_ownedPartitions|]. by apply L2.
Qed.

Lemma Initialize_Ok env nanos (e e' : Engine) (r : R) :
  Initialize env nanos e r = (Ok (), e') ->
  exists snap,
    LoadRuntimeStates (ownedPartitions e) r = Ok snap /\
    e'.(partitions) = imap (fun p part => loadSeries e snap (Z.of_nat p) part) e.(partitions) /\
    e'.(workerIndex) = e.(workerIndex) /\ e'.(workerCount) = e.(workerCount).
Proof.
  unfold Initialize. destruct (ListDefinitions env r) as [defs| |]; [|done..].
  unfold ReplaceDefinitions. destruct (groupDefinitions _ _) as [routes| |]; [|done..].
  set (e1 := with_refreshedAt _ _).
  destruct (LoadRuntimeStates (ownedPartitions e1) r) as [snap| |] eqn:El; [|done..].
  intros [= <-]. exists snap. done.
Qed.

(** A new engine: nothing in its partitions. *)
Definition fresh (e : Engine) : Prop := Forall (fun p => p = partitionRuntime.mk ∅ ∅) e.(partitions).

Lemma new_fresh n index count : fresh (NewWithOwnership n index count).
Proof. unfold fresh, NewWithOwnership. cbn [partitions]. by apply Forall_replicate. Qed.

Lemma Initialize_partitions env nanos (e e' : Engine) (r : R) :
  fresh e -> loadable e r -> Initialize env nanos e r = (Ok (), e') ->
  e'.(partitions) = (fun p => loadSeries e (runtimeOf r) (Z.of_nat p) (partitionRuntime.mk ∅ ∅))
                      <$> seq 0 (length e.(partitions)).
Proof.
  intros Hf Hl (snap & Hs & -> & _)%Initialize_Ok. unfold fresh in Hf. rewrite Forall_lookup in Hf.
  apply list_eq. intros p. rewrite list_lookup_imap, list_lookup_fmap.
  destruct (e.(partitions) !! p) as [part|] eqn:E; simpl.
  - rewrite (Hf _ _ E). apply lookup_lt_Some in E as Hlt. rewrite lookup_seq_lt by done. simpl. f_equal.
    apply loaded_partition; [done|done|]. unfold inRange, partitionCountOf. lia.
  - apply lookup_ge_None in E. by rewrite lookup_seq_ge.
Qed.

Lemma Initialize_synced env nanos (e e' : Engine) (r : R) :
  fresh e -> loadable e r -> Initialize env nanos e r = (Ok (), e') -> synced e' r.
Proof.
  intros Hf Hl Hin. pose proof (Initialize_partitions _ _ _ _ _ Hf Hl Hin) as Hp.
  apply Initialize_Ok in Hin as (snap & _ & _ & Hi & Hc).
  assert (length e'.(partitions) = length e.(partitions)) as Hlen by (by rewrite Hp, length_fmap, length_seq).
  destruct Hl as [L1 L2]. split.
  - intros p part Hlk. rewrite Hp, list_lookup_fmap in Hlk.
    destruct (seq 0 _ !! p) as [q|] eqn:E; [|done]. apply lookup_seq in E as [-> _].
    simpl in Hlk. injection Hlk as <-. symmetry. apply reflexive_eq. by apply loadSeries_ext.
  - intros k. unfold owns. rewrite (PartitionForKey_length _ _ k Hlen), Hi, Hc. apply L1.
  - intros k p. subst p. unfold owns. rewrite (PartitionForKey_length _ _ _ Hlen), Hi, Hc. apply L2.
Qed.

(** Calls on any partitions, some of which may fail. *)
Fixpoint runAll (calls : list (Z * Time * list Observation)) (e : Engine) (r : R) : option (Engine * R) :=
  match calls with
  | [] => Some (e, r)
  | (pid, now, obs) :: rest =>
      match EvaluateBatch now pid obs e r with
      | (Panic, _, _) => None
      | (_, e1, r1) => runAll rest e1 r1
      end
  end.

Lemma runAll_synced calls : forall (e e' : Engine) (r r' : R),
  indexOk e -> Forall (fun call => Forall (fun o => seriesKeyOk o.(Observation.Series)) call.2) calls ->
  runAll calls e r = Some (e', r') -> synced e r ->
  synced e' r' /\ length e'.(partitions) = length e.(partitions)
  /\ e'.(workerIndex) = e.(workerIndex) /\ e'.(workerCount) = e.(workerCount).
Proof.
  induction calls as [|[[pid now] obs] calls IH]; intros e e' r r' Hi Hk Hrun Hs; simpl in Hrun.
  { by simplify_eq. }
  apply Forall_cons in Hk as [Hk1 Hk].
  destruct (EvaluateBatch now pid obs e r) as [[res e1] r1] eqn:Ev.
  assert (res <> Panic /\ runAll calls e1 r1 = Some (e', r')) as [Hnp Hrun'] by (by destruct res).
  pose proof (EvaluateBatch_synced _ _ _ _ _ _ _ _ Hi Hk1 Ev Hnp Hs) as Hs1.
  apply EvaluateBatch_index in Ev as (Hb & Hlen & Hwi & Hwc).
  destruct (IH e1 e' r1 r') as (? & ? & ? & ?); [by eapply indexOk_byRoute|done|done|done|].
  split; [done|]. repeat split; congruence.
Qed.
End Recovery.

(** ** Properties *)

Section Properties.
Context {R : Type} `{RepositoryLaws R}.

(** An engine that agrees with the repository can be replaced. *)
Lemma recovered env nanos (e0 e e' : Engine) (r : R) :
  fresh e0 -> synced e r -> length e.(partitions) = length e0.(partitions) ->
  e.(workerIndex) = e0.(workerIndex) -> e.(workerCount) = e0.(workerCount) ->
  Initialize env nanos e0 r = (Ok (), e') -> e'.(partitions) ≡ e.(partitions).
Proof.
  intros Hf [S1 S2 S3] Hlen Hwi Hwc Hin. assert (loadable e0 r) as Hl.
  { assert (forall k, PartitionForKey e k = PartitionForKey e0 k) as HP by (intros k; by apply PartitionForKey_length).
    split.
    - intros k Ho Hk. rewrite <- HP. apply S2; [|done]. unfold owns in *. by rewrite HP, Hwc, Hwi.
    - intros k p Ho Hk. subst p. rewrite <- HP. apply S3; [|done]. unfold owns in *. by rewrite HP, Hwc, Hwi. }
  rewrite (Initialize_partitions _ _ _ _ _ Hf Hl Hin).
  apply list_equiv_lookup. intros p. rewrite list_lookup_fmap.
  destruct (e.(partitions) !! p) as [part|] eqn:E.
  - apply lookup_lt_Some in E as Hlt. rewrite lookup_seq_lt by congruence. simpl. constructor.
    rewrite (S1 _ _ E). symmetry. by apply reflexive_eq, loadSeries_ext.
  - apply lookup_ge_None in E. by rewrite lookup_seq_ge by congruence.
Qed.

(** C5: crash recovery, for series whose data set and symbol hold no slash.
    An engine started on a repository, after any calls, successful or failed,
    on any partitions and with any observations of such series, can be
    replaced: a new engine with the same partitions and worker index, started
    on the repository as the first one left it, has the partitions the first
    one had in memory, up to what a checkpoint in JSON does not tell apart, a
    nil map of indicators from an empty one. Nothing that was evaluated for
    these series is lost. The condition is needed: a symbol such as BTC/USDT,
    which the code accepts, is loaded into another partition and does lose its
    state ([slashed_symbol_loses_state]). *)
Theorem crash_recovery (n index count : Z) (env0 env1 : Env) (t0 t1 : Z)
  (e1 e2 e3 : Engine) (r0 r2 : R) (calls : list (Z * Time * list Observation)) :
  let e0 := NewWithOwnership n index count in
  loadable e0 r0 ->
  Initialize env0 t0 e0 r0 = (Ok (), e1) ->
  indexOk e1 ->
  Forall (fun call => Forall (fun o => seriesKeyOk o.(Observation.Series)) call.2) calls ->
  runAll calls e1 r0 = Some (e2, r2) ->
  Initialize env1 t1 e0 r2 = (Ok (), e3) ->
  e3.(partitions) ≡ e2.(partitions).
Proof.
  intros e0 Hl Hi1 Hidx Hk Hrun Hi3.
  assert (fresh e0) as Hf by apply new_fresh.
  pose proof (Initialize_synced _ _ _ _ _ Hf Hl Hi1) as Hs1.
  apply Initialize_Ok in Hi1 as (snap & _ & Hp1 & Hwi & Hwc).
  assert (length e1.(partitions) = length e0.(partitions)) as Hlen1 by (by rewrite Hp1, length_imap).
  destruct (runAll_synced calls e1 e2 r0 r2 Hidx Hk Hrun Hs1) as (Hs2 & Hlen2 & Hwi2 & Hwc2).
  eapply (recovered env1 t1 e0 e2 e3 r2); [done|done|congruence..|done].
Qed.
End Properties.

(** The partitions of a cluster. With [count] workers numbered from 0,
    the partition of a series is in range and is owned by exactly one worker,
    which lists it among its owned partitions; and the checkpoint of a series
    whose data set and symbol hold no "/" is looked up in that partition. *)
Theorem partition_ownership (n count : Z) (s : Series) :
  (0 < n < 2 ^ 32)%Z -> (0 < count)%Z ->
  let worker index := NewWithOwnership n index count in
  let p := Partition (worker 0%Z) s in
  (0 <= p < n)%Z /\
  (forall index, Partition (worker index) s = p) /\
  (forall index, p ∈ ownedPartitions (worker index) <-> index = (p mod count)%Z) /\
  (seriesKeyOk s -> PartitionForKey (worker 0%Z) (Series.Key s) = p).
Proof.
  intros Hn Hc worker p.
  assert (forall index, partitionCountOf (worker index) = n) as Hlen.
  { intros index. unfold partitionCountOf, worker, NewWithOwnership. simpl. rewrite length_replicate.
    case_goal; lia. }
  assert (inRange (worker 0%Z) p) as Hr by (apply Partition_inRange; rewrite Hlen; lia).
  unfold inRange in Hr. rewrite Hlen in Hr. split; [done|]. split; [|split].
  - intros index. unfold p, Partition, partitionOfHash. by rewrite !Hlen.
  - intros index. rewrite elem_ownedPartitions. unfold inRange. rewrite Hlen. unfold owns, worker. simpl.
    replace (count <? 1)%Z with false by lia. rewrite Z.eqb_eq, Z.rem_mod_nonneg by lia. intuition congruence.
  - apply PartitionForKey_Key.
Qed.

Lemma partition_ownership_witness :
  Partition (NewWithOwnership 256 0 4) btc = 142%Z /\
  (142%Z ∈ ownedPartitions (NewWithOwnership 256 2 4)).
Proof.
  split; [vm_compute; reflexivity|].
  destruct (partition_ownership 256 4 btc) as (_ & _ & H & _); [lia|lia|].
  replace 142%Z with (Partition (NewWithOwnership 256 0 4) btc) by (vm_compute; reflexivity).
  apply H. vm_compute. reflexivity.
Defined.

(** The environment of a call on a store with one definition. *)
Definition oneEnv : Env := Env.mk start ["red"].
Definition oneStore : Memory := (CreateDefinition thirdRed NewMemory).2.
Definition firstEngine : Engine := (Initialize oneEnv 1 (NewWithOwnership 256 0 1) oneStore).2.
Definition laterState : Engine * Memory :=
  default (firstEngine, oneStore) (runAll [(142%Z, start, redBars 2); (3%Z, start, redBars 1)] firstEngine oneStore).

Lemma Initialize_eq {R} `{Repository R} env nanos e (r : R) :
  (Initialize env nanos e r).1 = Ok () -> Initialize env nanos e r = (Ok (), (Initialize env nanos e r).2).
Proof. destruct (Initialize env nanos e r) as [res e']. by intros [= ->]. Qed.

Lemma laterState_eq :
  runAll [(142%Z, start, redBars 2); (3%Z, start, redBars 1)] firstEngine oneStore = Some (laterState.1, laterState.2).
Proof.
  assert (match runAll [(142%Z, start, redBars 2); (3%Z, start, redBars 1)] firstEngine oneStore with
          | Some _ => true | None => false end = true) as Hs by (vm_compute; reflexivity).
  unfold laterState. by destruct (runAll _ _ _) as [[e r]|].
Qed.

Lemma crash_recovery_witness :
  (Initialize oneEnv 2 (NewWithOwnership 256 0 1) laterState.2).2.(partitions) ≡ laterState.1.(partitions)
  /\ size (partitionOf laterState.1 142).(partitionRuntime.series) = 1.
Proof.
  split; [|vm_compute; reflexivity].
  apply (crash_recovery 256 0 1 oneEnv oneEnv 1 2 firstEngine laterState.1 _ oneStore laterState.2
           [(142%Z, start, redBars 2); (3%Z, start, redBars 1)]).
  - split; intros; exact I.
  - apply Initialize_eq. vm_compute. reflexivity.
  - apply (indexOk_byRoute (engineWith [thirdRed])); [vm_compute; reflexivity|].
    apply engineWith_one; reflexivity.
  - constructor; [|constructor; [|constructor]];
      (eapply Forall_impl; [apply redBars_ok|intros o [Ho _]; exact Ho]).
  - exact laterState_eq.
  - apply Initialize_eq. vm_compute. reflexivity.
Defined.
