(* ===== verification/EngineEquiv.v ===== *)
(** * Equivalent states are evaluated alike

    A repository that keeps states as JSON may bring back a nil indicator map
    for an empty one (Store.v, [readSeries]). This file shows that the engine
    cannot tell: evaluation, advance and a whole batch give the same results
    on equivalent partitions. *)

From stdpp Require Import base gmap strings list numbers sorting.
From Stdlib Require Import Ascii.
From S2P Require Import Prelude GoFloat GoBase GoTime Model Rules RulesValid RulesSpec Store Memory Fixtures.
From S2P Require Import Engine EngineIndex EngineBatch EngineTrack EngineTrace EngineRecovery.
Import Engine.

(** ** Features *)

Lemma feature_equiv_iff f g :
  f ≡ g <->
  f.(FeatureState.LastClose) = g.(FeatureState.LastClose) /\
  default ∅ f.(FeatureState.Indicators) = default ∅ g.(FeatureState.Indicators) /\
  f.(FeatureState.Candles) = g.(FeatureState.Candles) /\
  f.(FeatureState.CandleColors) = g.(FeatureState.CandleColors) /\
  f.(FeatureState.FormingBar) = g.(FeatureState.FormingBar) /\
  f.(FeatureState.FormingColor) = g.(FeatureState.FormingColor).
Proof.
  destruct f as [c i cs cols b col], g as [c' i' cs' cols' b' col'].
  unfold equiv, feature_equiv, readFeature. simpl.
  assert ((i ≫= (fun m => if decide (m = ∅) then None else Some m)) =
          (i' ≫= (fun m => if decide (m = ∅) then None else Some m))
          <-> default ∅ i = default ∅ i') as Hi.
  { destruct i as [m|], i' as [m'|]; simpl; repeat case_decide; naive_solver. }
  rewrite <- Hi. split; [intros [= -> H -> -> -> ->]; done|intros (-> & -> & -> & -> & -> & ->); done].
Qed.

Lemma indicatorAt_equiv f g key : f ≡ g -> indicatorAt f key = indicatorAt g key.
Proof.
  intros (_ & H & _)%feature_equiv_iff. unfold indicatorAt.
  destruct f as [? [m|] ? ? ? ?], g as [? [m'|] ? ? ? ?]; simpl in *; subst; done.
Qed.

Lemma Advance_equiv f g o : f ≡ g -> Advance f o = Advance g o.
Proof.
  intros (H1 & H2 & H3 & H4 & H5 & H6)%feature_equiv_iff. unfold Advance. by rewrite H2, H3, H4, H5, H6.
Qed.

Lemma evaluate_equiv r o f g : f ≡ g -> evaluate r o f = evaluate r o g.
Proof.
  intros Hfg. pose proof Hfg as (H1 & _ & _ & H4 & H5 & H6)%feature_equiv_iff.
  pose proof (fun k => indicatorAt_equiv f g k Hfg) as Hi.
  induction r as [r IHc IHn] using Rule_ind'. rewrite Forall_forall in IHc.
  rewrite !evaluate_unfold. unfold evaluateStreak, evaluateFlip, evaluateCross.
  rewrite H1, H4, H5, H6. rewrite ?Hi.
  destruct (typeOf r); try done.
  - apply loopM_ext. intros s c Hc. by rewrite IHc.
  - apply loopM_ext. intros s c Hc. by rewrite IHc.
  - destruct (Rule.Negated r) as [n|]; [|done]. by rewrite (IHn n).
Qed.

Lemma EvaluateDetailed_equiv c o f g : f ≡ g -> EvaluateDetailed c o f = EvaluateDetailed c o g.
Proof. intros H. unfold EvaluateDetailed. by rewrite (evaluate_equiv _ _ f g H). Qed.

(** ** Series *)

#[export] Instance stale_equiv o : Proper ((≡) ==> (=)) (stale o).
Proof. intros st st' (H1 & H2 & H3 & _)%series_equiv_iff. unfold stale. by rewrite H1, H2, H3. Qed.

#[export] Instance staleReset_equiv o : Proper ((≡) ==> (=)) (staleReset o).
Proof. intros st st' (_ & _ & _ & H4 & H5 & _)%series_equiv_iff. unfold staleReset. by rewrite H4, H5. Qed.

#[export] Instance withZones_equiv o : Proper ((≡) ==> (=)) (withZones o).
Proof.
  intros st st' (_ & _ & _ & _ & _ & _ & _ & H)%series_equiv_iff. unfold withZones. by rewrite H.
Qed.

#[export] Instance featureFor_equiv o : Proper ((≡) ==> (≡)) (featureFor o).
Proof.
  intros st st' (_ & _ & _ & _ & _ & Hc & Hi & _)%series_equiv_iff. unfold featureFor. case_goal; [|done].
  pose proof Hc as (-> & _)%feature_equiv_iff. pose proof Hi as (-> & _)%feature_equiv_iff.
  repeat case_goal; [done|by f_equiv|done].
Qed.

Lemma nextSeriesState_equiv st st' f g o :
  st ≡ st' -> f ≡ g -> nextSeriesState st f o ≡ nextSeriesState st' g o.
Proof.
  intros (_ & _ & _ & H4 & H5 & Hc & Hi & H8)%series_equiv_iff Hf. apply series_equiv_iff. simpl.
  rewrite H4, H5, H8, (Advance_equiv _ _ o Hc), (Advance_equiv _ _ o Hf).
  repeat split; try done; by case_goal.
Qed.

(** ** Batches *)

Definition batchEquiv (b b' : Batch) : Prop :=
  b.(Batch.seriesStates) ≡ b'.(Batch.seriesStates) /\
  b.(Batch.definitionStates) = b'.(Batch.definitionStates) /\
  b.(Batch.resetSeries) = b'.(Batch.resetSeries) /\
  b.(Batch.accepted) = b'.(Batch.accepted) /\ b.(Batch.alerts) = b'.(Batch.alerts) /\
  b.(Batch.staleCount) = b'.(Batch.staleCount) /\ b.(Batch.resetCount) = b'.(Batch.resetCount) /\
  b.(Batch.evalCount) = b'.(Batch.evalCount).

Inductive stepEquiv : Step -> Step -> Prop :=
| step_continue b b' : batchEquiv b b' -> stepEquiv (Continue b) (Continue b')
| step_return err b b' : batchEquiv b b' -> stepEquiv (Return err b) (Return err b').

Lemma batchEquiv_evaluated b b' k st new :
  batchEquiv b b' -> batchEquiv (Batch.evaluated b k st new) (Batch.evaluated b' k st new).
Proof. intros (? & ? & ? & ? & ? & ? & ? & ?). unfold Batch.evaluated. repeat split; simpl; congruence || done. Qed.

Lemma batchEquiv_accept b b' k st st' o :
  batchEquiv b b' -> st ≡ st' -> batchEquiv (Batch.accept b k st o) (Batch.accept b' k st' o).
Proof.
  intros (? & ? & ? & ? & ? & ? & ? & ?) Hst. unfold Batch.accept. repeat split; simpl; try congruence.
  by apply insert_proper.
Qed.

Section Evaluation.
Context (e : Engine) (pid : Z) (p q : partitionRuntime) (now : Time) (Hpq : p ≡ q).

Lemma seriesStateOf_equiv b b' k : batchEquiv b b' -> seriesStateOf p b k ≡ seriesStateOf q b' k.
Proof.
  intros (Hs & _). unfold seriesStateOf. destruct (Hs k) as [st st' Hst|]; [done|].
  apply cloneSeriesState_proper. destruct Hpq as [Hp _]. by destruct (Hp k) as [st st' Hst|].
Qed.

Lemma resetDefinition_equiv input f k b b' c :
  batchEquiv b b' ->
  option_Forall2 batchEquiv (resetDefinition p input f k b c) (resetDefinition q input f k b' c).
Proof.
  intros Hb. unfold resetDefinition. case_goal; [by constructor|]. destruct Hpq as [_ ->].
  destruct (EvaluateDetailed _ _ _) as [[[truth rs] fs]|]; simpl; constructor. by apply batchEquiv_evaluated.
Qed.

Lemma evaluateDefinition_equiv o f g k b b' c :
  f ≡ g -> batchEquiv b b' ->
  option_Forall2 batchEquiv (evaluateDefinition p now o f k b c) (evaluateDefinition q now o g k b' c).
Proof.
  intros Hfg Hb. unfold evaluateDefinition. case_goal; [by constructor|].
  rewrite (EvaluateDetailed_equiv _ _ f g Hfg).
  assert (forall stateKey, definitionStateOf p b stateKey k = definitionStateOf q b' stateKey k) as Hd.
  { intros stateKey. unfold definitionStateOf. destruct Hb as (_ & -> & -> & _), Hpq as [_ ->]. done. }
  destruct (EvaluateDetailed _ _ _) as [[[truth rs] fs]|]; simpl; constructor.
  rewrite Hd. by apply batchEquiv_evaluated.
Qed.

Lemma evaluateObservation_equiv b b' input :
  batchEquiv b b' ->
  option_Forall2 stepEquiv (evaluateObservation e pid p now b input) (evaluateObservation e pid q now b' input).
Proof.
  intros Hb. unfold evaluateObservation. case_goal; [by do 2 constructor|].
  set (k := Series.Key input.(Observation.Series)).
  pose proof (seriesStateOf_equiv b b' k Hb) as Hst.
  assert (batchEquiv (Batch.countStale b) (Batch.countStale b')) as Hcount.
  { destruct Hb as (? & ? & ? & ? & ? & ? & ? & ?). unfold Batch.countStale. repeat split; simpl; congruence || done. }
  rewrite (staleReset_equiv input _ _ Hst), (stale_equiv input _ _ Hst).
  case_goal; [by do 2 constructor|]. case_goal; [by do 2 constructor|]. case_goal.
  - unfold evaluateReset.
    destruct (loopM_rel batchEquiv (resetDefinition p input (rebuild input.(Observation.History)) k)
      (resetDefinition q input (rebuild input.(Observation.History)) k)
      (definitionsFor e input.(Observation.Series))
      (fun s t x Hst _ => resetDefinition_equiv _ _ _ s t x Hst)
      (Batch.startReset b k) (Batch.startReset b' k)) as [b1 b1' Hb1|]; simpl.
    + destruct Hb as (? & ? & ? & ? & ? & ? & ? & ?). unfold Batch.startReset. repeat split; simpl; congruence || done.
    + do 2 constructor. by apply batchEquiv_accept.
    + constructor.
  - unfold evaluateOrdinary. rewrite (withZones_equiv input _ _ Hst).
    set (o := withZones input (seriesStateOf q b' k)).
    pose proof (featureFor_equiv o _ _ Hst) as Hf.
    destruct (loopM_rel batchEquiv (evaluateDefinition p now o (featureFor o (seriesStateOf p b k)) k)
      (evaluateDefinition q now o (featureFor o (seriesStateOf q b' k)) k)
      (definitionsFor e o.(Observation.Series))
      (fun s t x Hs _ => evaluateDefinition_equiv _ _ _ _ s t x Hf Hs)
      b b' Hb) as [b1 b1' Hb1|]; simpl; [|constructor].
    do 2 constructor. by apply batchEquiv_accept, nextSeriesState_equiv.
Qed.

Lemma evaluateAll_related obs : forall b b',
  batchEquiv b b' ->
  option_Forall2 stepEquiv (evaluateAll e pid p now b obs) (evaluateAll e pid q now b' obs).
Proof.
  induction obs as [|input obs IH]; intros b b' Hb; simpl; [by do 2 constructor|].
  destruct (evaluateObservation_equiv b b' input Hb) as [? ? [b1 b1' Hb1|]|]; [by apply IH|by do 2 constructor|constructor].
Qed.
End Evaluation.

Lemma advance_related p q pid b b' :
  p ≡ q -> batchEquiv b b' ->
  advancePartition p (batchOf pid b) ≡ advancePartition q (batchOf pid b').
Proof.
  intros [Hp Hd] (Hs & Hds & Hr & _). split.
  - intros k. rewrite !advance_series. simpl.
    destruct (Hs k) as [st st' Hst|]; [|done]. constructor. by f_equiv.
  - apply map_eq. intros k. rewrite !advance_definitions. simpl. by rewrite Hds, Hr, Hd.
Qed.

(** C15: a restart is not observable. Two partitions whose series differ only
    in what JSON does not tell apart evaluate a batch alike: both panic, or
    both refuse it with the same error, or both accept the same observations,
    raise the same alerts, write the same definition states and are again
    equivalent afterwards. With crash recovery: a worker that resumed from a
    JSON checkpoint behaves as the crashed one would have. *)
Theorem evaluateAll_equiv (e : Engine) (pid : Z) (p q : partitionRuntime) (now : Time) (obs : list Observation) :
  p ≡ q ->
  match evaluateAll e pid p now (Batch.start e) obs, evaluateAll e pid q now (Batch.start e) obs with
  | None, None => True
  | Some (Return err _), Some (Return err' _) => err = err'
  | Some (Continue b), Some (Continue b') =>
      b.(Batch.accepted) = b'.(Batch.accepted) /\ b.(Batch.alerts) = b'.(Batch.alerts) /\
      b.(Batch.definitionStates) = b'.(Batch.definitionStates) /\
      advancePartition p (batchOf pid b) ≡ advancePartition q (batchOf pid b')
  | _, _ => False
  end.
Proof.
  intros Hpq.
  destruct (evaluateAll_related e pid p q now Hpq obs (Batch.start e) (Batch.start e))
    as [? ? [b b' Hb|err b b' Hb]|]; [by repeat split| |done|done].
  pose proof (advance_related p q pid b b' Hpq Hb) as Hadv.
  by destruct Hb as (_ & ? & _ & ? & ? & _).
Qed.

(** A partition that has seen two bars, and the same one read back. *)
Definition seenPartition : partitionRuntime :=
  partitionOf laterState.1 142.
Definition rereadPartition : partitionRuntime :=
  partitionRuntime.mk (readSeries <$> seenPartition.(partitionRuntime.series))
    seenPartition.(partitionRuntime.definitions).

Lemma evaluateAll_equiv_witness :
  seenPartition.(partitionRuntime.series) !! Series.Key btc
    <> rereadPartition.(partitionRuntime.series) !! Series.Key btc /\
  match evaluateAll laterState.1 142 seenPartition start (Batch.start laterState.1) [confirmedBar "later" btc (minutes 9) 101 99],
        evaluateAll laterState.1 142 rereadPartition start (Batch.start laterState.1) [confirmedBar "later" btc (minutes 9) 101 99] with
  | Some (Continue b), Some (Continue b') => b.(Batch.alerts) = b'.(Batch.alerts) /\ length b.(Batch.alerts) = 1
  | _, _ => False
  end.
Proof.
  split; [vm_compute; intros H; discriminate H|].
  assert (seenPartition ≡ rereadPartition) as Heq.
  { split; [|reflexivity]. intros k. simpl. rewrite lookup_fmap.
    destruct (_ !! k) as [st|]; constructor. symmetry. apply readSeries_equiv. }
  pose proof (evaluateAll_equiv laterState.1 142 seenPartition rereadPartition start
                [confirmedBar "later" btc (minutes 9) 101 99] Heq) as H.
  destruct (evaluateAll laterState.1 142 seenPartition start (Batch.start laterState.1)
              [confirmedBar "later" btc (minutes 9) 101 99]) as [[b|err b]|] eqn:E;
    [|vm_compute in E; discriminate E|vm_compute in E; discriminate E].
  destruct (evaluateAll laterState.1 142 rereadPartition start (Batch.start laterState.1)
              [confirmedBar "later" btc (minutes 9) 101 99]) as [[b'|err b']|]; [|destruct H|destruct H].
  destruct H as (_ & H & _). split; [exact H|].
  vm_compute in E. injection E as <-. reflexivity.
Defined.
