(* ===== verification/Divergences.v ===== *)
(** * Where the code does not do what it means to

    Each theorem states what the definitions, hence the code, do; the comment
    says what a reader of the code, its comments or its tests would expect. *)

From stdpp Require Import base gmap strings list numbers sorting pretty.
From S2P Require Import Prelude GoFloat GoBase GoTime Model Rules RulesValid RulesSpec RulesHistory.
From S2P Require Import Store StoreEvaluate Memory MemoryProps Fixtures Engine EngineIndex EngineBatch.
From S2P Require Import EngineTrack EngineTrace EngineRecovery.
From S2P Require Import Tables Postgres PostgresProps PostgresInvariant PostgresCommit.
From S2P Require Import Memory Store Engine.
Import Database Postgres Engine.

(** ** The indicator map is not cloned *)

Lemma cloneIndicators_empty m : cloneIndicators m = (fun _ => ∅) <$> m.
Proof. by destruct m. Qed.

Lemma clone_indicatorAt st key : indicatorAt (cloneFeatureState st) key = None.
Proof.
  unfold indicatorAt, cloneFeatureState. simpl. rewrite cloneIndicators_empty.
  by destruct (FeatureState.Indicators st).
Qed.

(** C40: the crossing rule never fires on the first observation of a series in
    a batch. [cloneFeatureState] replaces the indicator map by a new one before
    it copies from it, so the state a batch starts from has no indicator
    values, whatever the series has seen: the rule is unknown there. A worker
    that evaluates observations one at a time never reports a crossing. *)
Theorem cross_lost_between_batches (r : Rule) (e : Engine) (partition : partitionRuntime) (k : string)
  (o : Observation) :
  typeOf r = TPriceCrossesIndicator ->
  exists res, evaluate r o (featureFor o (seriesStateOf partition (Batch.start e) k)) = Some res /\
    truth res = false /\ res.(known) = false.
Proof.
  intros Ht. rewrite evaluate_unfold, Ht. eexists; split; [done|].
  assert (indicatorAt (featureFor o (seriesStateOf partition (Batch.start e) k))
            (indicatorKey r.(Rule.Name) r.(Rule.Period)) = None) as Hnone.
  { unfold seriesStateOf. simpl. rewrite lookup_empty.
    set (st := default _ _). destruct st as [? ? ? ? ? confirmed intrabar ?]. unfold featureFor. simpl.
    repeat case_goal; apply clone_indicatorAt || (rewrite <- (clone_indicatorAt (cloneFeatureState confirmed)); done). }
  unfold evaluateCross. rewrite Hnone. by destruct (FeatureState.LastClose _).
Qed.

(** The two bars of [cross_exact]'s witness, which cross: evaluated in two
    batches they raise no alert, in one batch they do. *)
Definition crossing : AlertDefinition := mkDef "cross" crossAbove "confirmed_close" "every_match" 0.
Definition crossBars : list Observation :=
  [withEma 100 redBar; withEma 100 (confirmedBar "two" btc (minutes 1) 99 102)].

Lemma cross_lost_between_batches_witness :
  (exists res, evaluate crossAbove (withEma 100 redBar)
     (featureFor (withEma 100 redBar) (seriesStateOf (partitionRuntime.mk ∅ ∅) (Batch.start (New 256)) (Series.Key btc)))
     = Some res /\ truth res = false) /\
  length (runOf crossing [(start, crossBars)]).1.1 = 1 /\
  length (runOf crossing ((fun o => (start, [o])) <$> crossBars)).1.1 = 0.
Proof.
  split; [|split; vm_compute; reflexivity].
  destruct (cross_lost_between_batches crossAbove (New 256) (partitionRuntime.mk ∅ ∅) (Series.Key btc)
              (withEma 100 redBar) eq_refl) as (res & H1 & H2 & _).
  exists res. split; [exact H1|exact H2].
Defined.

(** ** Series keys with a "/" *)

Definition slashed : Series := Series.mk "live" "BTC/USDT" "1m".

(** A store, an engine started on it, and the engine after two bars of a
    series, and the engine that replaces it. *)
Definition slashedBars : list Observation :=
  [confirmedBar "one" slashed start 101 99; confirmedBar "two" slashed (minutes 1) 101 99].
Definition slashedState : Engine * Memory :=
  default (firstEngine, oneStore)
    (runAll [(Partition firstEngine slashed, start, slashedBars)] firstEngine oneStore).
Definition slashedRestart : Engine := (Initialize oneEnv 2 (NewWithOwnership 256 0 1) slashedState.2).2.

(** A checkpoint of a series with a "/" in its symbol is lost at restart.
    The partition is computed from the fields of the series but looked up, at
    start-up, from its key split at "/": for "BTC/USDT" the two differ. After
    two bars and a restart, the partition that evaluates the series no longer
    has its state, although the repository does. *)
Theorem slashed_symbol_loses_state :
  PartitionForKey firstEngine (Series.Key slashed) <> Partition firstEngine slashed /\
  (exists st, (partitionOf slashedState.1 (Partition firstEngine slashed)).(partitionRuntime.series)
              !! Series.Key slashed = Some st) /\
  (exists st, slashedState.2.(Memory.seriesRuntime) !! Series.Key slashed = Some st) /\
  (partitionOf slashedRestart (Partition firstEngine slashed)).(partitionRuntime.series)
    !! Series.Key slashed = None.
Proof.
  split; [vm_compute; intros H; discriminate H|].
  split; [eexists; vm_compute; reflexivity|].
  split; [eexists; vm_compute; reflexivity|vm_compute; reflexivity].
Qed.

(** ** Cool-downs that are not kept *)

(** 9223372037 seconds, some 292 years, do not fit in a [time.Duration]. *)
Definition longCooldown : AlertDefinition := mkDef "red" redColor "confirmed_close" "every_match" 9223372037.

(** A long cool-down is no cool-down. [time.Duration(CooldownSeconds) *
    time.Second] wraps to a negative duration, so a definition that asks for
    292 years between alerts raises one a minute, although nothing refuses it. *)
Theorem long_cooldown_ignored :
  mulDur longCooldown.(AlertDefinition.CooldownSeconds) Second = (-9223372036709551616)%Z /\
  Alert.TriggeredAt <$> (runOf longCooldown [(start, redBars 3)]).1.1 = [minutes 1; minutes 2; minutes 3].
Proof. split; vm_compute; reflexivity. Qed.

(** A red bar, an authoritative reset, a red bar. *)
Definition aroundReset : list Observation :=
  [redBar; resetBar; confirmedBar "after" btc (minutes 2) 101 99].

(** Ten minutes between alerts. *)
Definition slowCooldown : AlertDefinition := mkDef "red" redColor "confirmed_close" "every_match" 600.

(** A reset forgets the alerts of its own batch. The state a definition
    restarts from has the trigger times the partition held when the batch
    began, not those of the batch: with a cool-down of ten minutes, alerts
    before and after a reset are two minutes apart when the three events come
    in one batch; evaluated one by one, the cool-down is kept. *)
Theorem reset_forgets_batch_cooldown :
  Alert.TriggeredAt <$> (runOf slowCooldown [(start, aroundReset)]).1.1 = [minutes 1; minutes 3] /\
  Alert.TriggeredAt <$> (runOf slowCooldown ((fun o => (start, [o])) <$> aroundReset)).1.1 = [minutes 1].
Proof. split; vm_compute; reflexivity. Qed.

(** ** The first-generation evaluator does not remember the truth *)

Lemma apply_LastTruth d o st now st' al ok :
  StoreEvaluate.apply d o st now = Some (st', al, ok) ->
  st'.(EvaluationState.LastTruth) = st.(EvaluationState.LastTruth).
Proof.
  unfold StoreEvaluate.apply. case_goal; [by intros [= <- _ _]|].
  destruct (Compile _) as [c|err|]; [|by intros [= <- _ _]|done].
  destruct (EvaluateDetailed _ _ _) as [[[truth rs] fs]|]; cbn [mbind option_bind]; [|done].
  cbn zeta.
  match goal with |- (if ?b then _ else _) = _ -> _ => destruct b end; intros H; injection H; by intros _ _ <-.
Qed.

(** In the first-generation evaluator "on_occurrence" means every match.
    [apply] reads [LastTruth] but never writes it, so from the initial state
    on, whatever was evaluated before, an "on_occurrence" definition without a
    cool-down raises an alert on every observation on which its rule is true,
    not only when it becomes true as in the engine. *)
Theorem apply_on_occurrence_repeats (d : AlertDefinition) (o : Observation) (now : Time)
  (history : list (Observation * Time)) (st st' : EvaluationState) (al : option Alert) :
  d.(AlertDefinition.TriggerMode) = "on_occurrence" -> (d.(AlertDefinition.CooldownSeconds) <= 0)%Z ->
  loopM (fun st call => (fun out => out.1.1) <$> StoreEvaluate.apply d call.1 st call.2)
    EvaluationState.zero history = Some st ->
  StoreEvaluate.apply d o st now = Some (st', al, true) ->
  exists c truth rs fs, Compile d.(AlertDefinition.Rule) = Ok c /\
    EvaluateDetailed c o (featureOf st) = Some (truth, rs, fs) /\
    (is_Some al <-> truth = true).
Proof.
  intros Hmode Hcd Hhist Happ.
  assert (st.(EvaluationState.LastTruth) = false) as Hlt.
  { apply (loopM_inv (fun st => st.(EvaluationState.LastTruth) = false)) in Hhist; [done|done|].
    intros s0 [o0 t0] s1 Hs0 _ Hf. simpl in Hf.
    destruct (StoreEvaluate.apply d o0 s0 t0) as [[[s2 al2] ok2]|] eqn:E; simpl in Hf; [|done].
    injection Hf as <-. apply apply_LastTruth in E. congruence. }
  unfold StoreEvaluate.apply in Happ. case_hyp Happ; [done|].
  destruct (Compile _) as [c|err|]; [|done..].
  destruct (EvaluateDetailed c o (featureOf st)) as [[[truth rs] fs]|] eqn:Ev; cbn [mbind option_bind] in Happ; [|done].
  exists c, truth, rs, fs. split; [done|]. split; [done|].
  unfold StoreEvaluate.shouldTrigger in Happ. rewrite Hmode, Hlt in Happ.
  replace (d.(AlertDefinition.CooldownSeconds) >? 0)%Z with false in Happ by lia.
  rewrite !andb_false_r in Happ. simpl in Happ. rewrite orb_true_r in Happ.
  destruct truth; simpl in Happ; injection Happ as <- <-; split; try done; eauto.
Qed.

Lemma apply_on_occurrence_repeats_witness :
  exists st st' al,
    loopM (fun st call => (fun out => out.1.1) <$> StoreEvaluate.apply redEdge call.1 st call.2)
      EvaluationState.zero [(redBar, start)] = Some st /\
    StoreEvaluate.apply redEdge (confirmedBar "two" btc (minutes 1) 101 99) st start = Some (st', al, true) /\
    is_Some al.
Proof.
  eexists _, _, _. split; [vm_compute; reflexivity|]. split; [vm_compute; reflexivity|].
  match goal with |- is_Some ?al =>
    destruct (apply_on_occurrence_repeats redEdge (confirmedBar "two" btc (minutes 1) 101 99) start [(redBar, start)]
                _ _ al eq_refl ltac:(vm_compute; intros H; discriminate H) eq_refl eq_refl)
      as (c & truth & rs & fs & Hc & Hev & Hiff) end.
  apply Hiff. injection Hc as <-. vm_compute in Hev. injection Hev as <- _ _. reflexivity.
Defined.

(** ** A reason that is not one *)

Definition notCrossed : Rule := notRule (leafRule "price_crosses_indicator" "" "" "ema" 200 "above" 0 (fl 0) (fl 0)).

(** The alert for "not crossed" says "crossed". The crossing rule gives
    its reason whether or not it matched, and [not] keeps the reasons of what
    it negates: an alert raised because the price did not cross carries the
    reason "price crossed above ema(200)". *)
Theorem negated_cross_reason :
  Validate notCrossed = None /\
  EvaluateDetailed (Compiled.mk notCrossed (dependencies notCrossed))
    (withEma 100 (confirmedBar "two" btc (minutes 1) 99 98)) (Advance FeatureState.zero (withEma 100 redBar))
  = Some (true, ["price crossed above ema(200)"], []).
Proof. split; vm_compute; reflexivity. Qed.

(** ** Alerts that PostgreSQL refuses *)

Lemma insertAlerts_explained l srv d out d' :
  insertAlerts l srv d = (inr out, d') -> rowsOk (alert_events d) (alert_events_cursor_seq d) ->
  forall a, a ∈ l -> a.(Alert.Reasons) <> [].
Proof.
  unfold insertAlerts. destruct (forallb numbersOk l); [|done]. cbn [negb]. unfold insertEvents.
  destruct (foldl _ _ _) as [[[rows seq] out0]|[m seq]] eqn:E; [|done]. intros _ Hok a Ha Hr.
  apply insertEvent_fold_once in E as [Hacc _]; [|done|constructor|constructor].
  rewrite Forall_forall in Hacc. destruct (Hacc (batchEvent a)) as [_ Hn]; [apply list_elem_of_fmap; eauto|].
  unfold batchEvent in Hn. simpl in Hn. by rewrite Hr in Hn.
Qed.

(** A batch with an alert that has no reasons is not committed. *)
Lemma unexplained_refused b p p' res a :
  coreOk p.(db) -> run (Postgres.CommitRuntimeBatch b) p = (res, p') ->
  a ∈ b.(RuntimeBatch.Alerts) -> a.(Alert.Reasons) = [] ->
  exists e, res = Err e /\ p'.(db) = Database.rollback p.(db) p'.(db).
Proof.
  intros Hc [_ [Herr|(created & n1 & Hbody & _)]]%run_cases Ha Hr; [done|exfalso].
  apply commitBody_Ok in Hbody as (_ & l & states & dstates & _ & n2 & d0 & n3 & Hal & He & _ & _ & _ & Hes & _).
  destruct (core_events _ Hc) as [Hi Hk Hcu _ _].
  apply commitAlerts_Ok in Hal as [(Hnil & _)|(_ & out & dm & _ & H1 & _)]; [rewrite Hnil in Ha; set_solver|].
  apply (insertAlerts_explained _ _ _ _ _ H1) in Ha; [done|]. unfold rowsOk. by rewrite He, Hes.
Qed.

(** An alert without reasons blocks its partition. What [not] makes of a
    rule that gives no reason when it does not match (a streak, a zone, a
    pattern, a flip) is an alert whose reasons are a nil slice, so JSON null,
    so SQL NULL, which the column [alert_events.reasons] refuses: the commit
    of the whole batch fails on any PostgreSQL, with nothing stored and no
    memory advanced. Delivered again, the batch fails again, until its
    deliveries are used up and all of it goes to the dead letters. The memory
    repository, which the tests use, accepts it. *)
Theorem unexplained_alert_blocks (e : Engine) (r : Deployment) (now : Time) (pid : Z) (obs : list Observation)
  (partition : partitionRuntime) (b : Batch) (a : Alert) :
  coreOk r.(pg).(db) -> (0 <= pid < partitionCountOf e)%Z -> owns e pid = true ->
  e.(partitions) !! Z.to_nat pid = Some partition ->
  evaluateAll e pid partition (UTC now) (Batch.start e) obs = Some (Continue b) ->
  b.(Batch.accepted) <> [] -> a ∈ b.(Batch.alerts) -> a.(Alert.Reasons) = [] ->
  exists err e' r', EvaluateBatch now pid obs e r = (Err (ErrRepository err), e', r') /\
    e'.(partitions) = e.(partitions) /\ r'.(pg).(db) = Database.rollback r.(pg).(db) r'.(pg).(db).
Proof.
  intros Hc Hpid Hown Hp Hb Hne Ha Hr. unfold EvaluateBatch.
  replace ((pid <? 0) || (pid >=? partitionCountOf e))%Z with false by lia. rewrite Hown, Hp, Hb. cbn [negb].
  destruct (Nat.eqb_spec (length b.(Batch.accepted)) 0) as [H0|_]; [by apply nil_length_inv in H0|].
  destruct (CommitRuntimeBatch (batchOf pid b) r) as [res r'] eqn:E.
  assert (run (Postgres.CommitRuntimeBatch (batchOf pid b)) r.(pg) = (res, r'.(pg))) as Hrun.
  { unfold CommitRuntimeBatch, postgres_repository, call in E. injection E as <- <-. apply surjective_pairing. }
  eapply unexplained_refused in Hrun as (err & -> & Hd); [|done|exact Ha|done]. by eexists _, _, _.
Qed.

(** "Not three red bars in a row", on a database and on the memory store. *)
Definition notStreak : AlertDefinition :=
  AlertDefinition.mk pgID 1 "sha256:integration" "not red" true btc (notRule threeRed) "confirmed_close"
    "every_match" 0 (minutes (-60)) (minutes (-60)) (minutes (-60)).
Definition notStreakEngine : Engine := engineWith [notStreak].

Lemma notStreak_kept : kept (history [(working, CallCreate notStreak)]).
Proof. split; [vm_compute; reflexivity|]. intros k x Hx. vm_compute in Hx. discriminate Hx. Qed.
Definition notStreakStore : Deployment :=
  {| pg := Postgres.mk (history [(working, CallCreate notStreak)]) working;
     pg_reliable := working_reliable; pg_kept := notStreak_kept |}.

Lemma unexplained_alert_blocks_witness :
  Validate notStreak.(AlertDefinition.Rule) = None /\
  (exists alerts m, (EvaluateBatch start 142 [redBar] notStreakEngine (CreateDefinition notStreak NewMemory).2).1.1 = Ok alerts
     /\ length alerts = m /\ m = 1) /\
  exists err e' r', EvaluateBatch start 142 [redBar] notStreakEngine notStreakStore = (Err (ErrRepository err), e', r').
Proof.
  split; [vm_compute; reflexivity|]. split; [eexists _, _; split; [vm_compute; reflexivity|split; reflexivity]|].
  destruct (evaluateAll notStreakEngine 142 (partitionOf notStreakEngine 142) (UTC start) (Batch.start notStreakEngine)
              [redBar]) as [[b|err b]|] eqn:E; [|vm_compute in E; discriminate E..].
  assert (exists a, Batch.alerts b = [a] /\ Alert.Reasons a = [] /\ length (Batch.accepted b) = 1) as (a & Ha & Hr & Hacc).
  { vm_compute in E. injection E as <-. eexists. repeat split; reflexivity. }
  destruct (unexplained_alert_blocks notStreakEngine notStreakStore start 142 [redBar]
    (partitionOf notStreakEngine 142) b a) as (err & e' & r' & H & _).
  - apply history_ok.
  - vm_compute. split; [intros H; discriminate H|reflexivity].
  - vm_compute. reflexivity.
  - vm_compute. reflexivity.
  - exact E.
  - intros H. rewrite H in Hacc. discriminate Hacc.
  - rewrite Ha. left.
  - exact Hr.
  - exists err, e', r'. exact H.
Defined.

Lemma each_Ok {A S} (P : S -> Prop) (f : S -> A -> Session S) srv l :
  (forall s x c s' c', f s x srv c = (Ok s', c') -> P s -> P s') ->
  forall s c s' c', each f s l srv c = (Ok s', c') -> P s -> P s'.
Proof.
  intros Hf. induction l as [|x l IH]; intros s c s' c' H HP; simpl in H; [by injection H as <- _|].
  apply bind_Ok in H as (s1 & c1 & H1 & H2). eapply IH; [exact H2|]. by eapply Hf.
Qed.

(** The first generation raises no alert on PostgreSQL. The row it inserts
    leaves [evaluated_at] NULL, which migration 004 forbids without giving a
    default: on a migrated database [ApplyObservation] never returns an alert,
    it returns none or fails. An alert that is due fails the call, and rolls
    back the observation with it, every time it is tried. *)
Theorem ApplyObservation_never_alerts (now : Time) (o : Observation) (p p' : Postgres) (alerts : list Alert) :
  run (Postgres.ApplyObservation now o) p = (Ok alerts, p') -> alerts = [].
Proof.
  unfold run. destruct (Postgres.ApplyObservation _ _ _ _) as [res [n d]] eqn:E. intros [= -> _].
  unfold Postgres.ApplyObservation in E. case_hyp E; [|done].
  apply transaction_Ok in E as (commits & n1 & d1 & Hbody & _).
  apply bind_Ok in Hbody as (k & c1 & _ & Hbody). case_hyp Hbody; [by injection Hbody as <- _ _|].
  apply bind_Ok in Hbody as (ds & c2 & _ & Hbody). apply bind_Ok in Hbody as (created & c3 & H & Hret).
  injection Hret as <- _ _. eapply (each_Ok (fun l => l = [])); [|exact H|done]. clear.
  intros s d c s' c' H ->. unfold Postgres.applyDefinition in H. case_hyp H; [by injection H as <- _|].
  apply bind_Ok in H as (st & c1 & _ & H).
  destruct (StoreEvaluate.apply d o st now) as [[[st' al] []]|]; cbn [negb] in H; [|by injection H as <- _|done].
  apply bind_Ok in H as (u & c2 & _ & H). destruct al as [al|]; [|by injection H as <- _].
  apply bind_Ok in H as (out & [n3 d3] & H & _). destruct c2 as [n2 d2]. apply exec_Ok in H.
  destruct (insertEvents_legacy d (Series.Key (Observation.Series o)) (Alert.with_Payload al (Some o)) (server p) d2)
    as (m & Hm & _). by rewrite H in Hm.
Qed.

(** An observation on which the only definition has nothing to say. *)
Lemma ApplyObservation_never_alerts_witness :
  exists alerts, (run (Postgres.ApplyObservation start (confirmedBar "green" btc start 99 101))
                    (Postgres.mk pgStart working)).1 = Ok alerts /\ alerts = [].
Proof.
  destruct (run (Postgres.ApplyObservation start (confirmedBar "green" btc start 99 101)) (Postgres.mk pgStart working))
    as [[alerts|err|] p'] eqn:E; [|vm_compute in E; discriminate E..].
  exists alerts. split; [reflexivity|]. exact (ApplyObservation_never_alerts _ _ _ _ _ E).
Defined.

(** ** Importing again *)

(** Importing a manifest again switches its disabled definitions on for a
    while, on PostgreSQL. [import] creates every definition and then sets its
    state. The INSERT of a definition that is stored but disabled enables it
    again, and so the import disables it anew, at a new boundary: up to that
    boundary the definition counts as enabled, though it had been off. The
    in-memory repository returns what it has ([reimport_in_memory]), which
    needs no second step. *)
Theorem reimport_reactivates (d stored disabled : AlertDefinition) (created : bool) (t tm : Time) (p p1 p2 : Postgres)
  (row : DefinitionRow) :
  rowWithHash d.(AlertDefinition.DefinitionHash) (alert_definitions p.(db)) = Some row ->
  row.(DefinitionRow.enabled) = false ->
  run (Postgres.CreateDefinition d) p = (Ok (stored, created), p1) ->
  run (Postgres.SetEnabled stored.(AlertDefinition.ID) false t) p1 = (Ok disabled, p2) ->
  (0 < row.(DefinitionRow.effective_at) <= tm)%Z -> (tm < timestamptz t)%Z ->
  definitionEnabledAt (scanDefinition row) tm = false /\
  created = false /\ stored.(AlertDefinition.Enabled) = true /\
  disabled.(AlertDefinition.Enabled) = false /\ definitionEnabledAt disabled tm = true.
Proof.
  intros Hrow Hoff H1 H2 [Hpos Hle] Hlt. unfold run in H1, H2.
  destruct (Postgres.CreateDefinition _ _ _) as [r1 [n1 d1]] eqn:E1. injection H1 as -> _.
  destruct (Postgres.SetEnabled _ _ _ _ _) as [r2 [n2 d2]] eqn:E2. injection H2 as -> _.
  unfold Postgres.CreateDefinition in E1. case_hyp E1; [|done]. apply exec_Ok in E1. unfold upsertDefinition in E1.
  case_hyp E1; [done|]. rewrite Hrow in E1. injection E1 as <- <- _.
  unfold Postgres.SetEnabled in E2. apply exec_Ok in E2. cbv beta in E2. destruct (unarchived _ _) as [|[row1|]]; [done| |done].
  injection E2 as <- _. unfold definitionEnabledAt, effectiveAt, IsZero, Before. simpl. rewrite Hoff.
  replace (DefinitionRow.effective_at row =? 0)%Z with false by lia. replace (timestamptz t =? 0)%Z with false by lia.
  simpl. split; [lia|]. split; [done|]. split; [done|]. split; [done|]. lia.
Qed.

Lemma reimport_in_memory (d : AlertDefinition) (m : Memory) (id : string) :
  m.(Memory.byHash) !! d.(AlertDefinition.DefinitionHash) = Some id -> isArchived m id = false ->
  (Memory.CreateDefinition d m).2 = m.
Proof. intros Hh Ha. unfold Memory.CreateDefinition. by rewrite Hh, Ha. Qed.

(** The definition of the tables, disabled at minute 10; imported again at
    minute 20. *)
Definition switchedOff : Postgres := (run (Postgres.SetEnabled pgID false (minutes 10)) (Postgres.mk pgStart working)).2.
Definition reimported : Res StoreError (AlertDefinition * bool) * Postgres := run (Postgres.CreateDefinition pgDefinition) switchedOff.
Definition switchedOffAgain : Res StoreError AlertDefinition * Postgres :=
  run (Postgres.SetEnabled pgID false (minutes 22)) reimported.2.

Lemma reimport_reactivates_witness :
  exists row disabled, rowWithHash pgDefinition.(AlertDefinition.DefinitionHash) (alert_definitions switchedOff.(db)) = Some row /\
    switchedOffAgain.1 = Ok disabled /\
    definitionEnabledAt (scanDefinition row) (minutes 21) = false /\ definitionEnabledAt disabled (minutes 21) = true.
Proof.
  destruct (rowWithHash pgDefinition.(AlertDefinition.DefinitionHash) (alert_definitions switchedOff.(db))) as [row|] eqn:Er;
    [|vm_compute in Er; discriminate Er].
  destruct reimported as [[[stored created]| |] p1] eqn:E1; [|vm_compute in E1; discriminate E1..].
  destruct switchedOffAgain as [[disabled| |] p2] eqn:E2; [|vm_compute in E2; discriminate E2..].
  exists row, disabled. split; [reflexivity|]. split; [reflexivity|].
  assert (stored.(AlertDefinition.ID) = pgID) as Hid by (vm_compute in E1; injection E1 as <- _ _; reflexivity).
  assert (row.(DefinitionRow.enabled) = false /\ row.(DefinitionRow.effective_at) = minutes 10) as [Hoff Heff]
    by (vm_compute in Er; injection Er as <-; split; vm_compute; reflexivity).
  destruct (reimport_reactivates pgDefinition stored disabled created (minutes 22) (minutes 21) switchedOff p1 p2 row
              Er Hoff E1) as (H1 & _ & _ & _ & H2).
  - rewrite Hid. unfold switchedOffAgain in E2. rewrite E1 in E2. exact E2.
  - rewrite Heff. split; vm_compute; [reflexivity|intros H; discriminate H].
  - vm_compute. reflexivity.
  - split; [exact H1|exact H2].
Defined.
