(* ===== verification/Service.v ===== *)
(** * internal/service/service.go: the alert service

    The service validates what comes in, keeps the repository and the engine's
    definition index in step, and publishes the outbox. Its state is the
    repository, the engine, the one-slot [wake] channel and the counters. A
    method is a function of what it reads from its environment: the clock
    ([Clock], [Env]), and, for the publisher loop, the publisher itself, a
    function on a world of its own. The tickers and the cancellation of the
    loops are not modelled: [RunPublisher], [RunDefinitionRefresh] and
    [RunMaintenance] are the step each takes when it wakes. *)

From stdpp Require Import base gmap strings list numbers.
From S2P Require Import Prelude GoFloat GoBase GoHash GoTime Model Json Rules Store Engine.

(** ** Publishers *)

(** An error message, or success; [W] is the world of the publisher. *)
Definition Publisher (W : Type) : Type := Alert -> W -> option string * W.

Fixpoint MultiPublisher {W} (publishers : list (Publisher W)) : Publisher W := fun alert w =>
  match publishers with
  | [] => (None, w)
  | publisher :: rest =>
      match publisher alert w with
      | (Some err, w') => (Some err, w')
      | (None, w') => MultiPublisher rest alert w'
      end
  end.

(** The lines of the log, as the alerts they report. *)
Definition LogPublisher : Publisher (list Alert) := fun alert log => (None, log ++ [alert]).

(** ** State *)

Module ServiceMetrics.
Record ServiceMetrics := mk {
  Observations : Z; Alerts : Z; Published : Z; PublishFails : Z; Batches : Z; IngestFails : Z;
  EvalNanos : Z; RefreshFails : Z; InboxDeleted : Z; AlertsDeleted : Z; MaintenanceFails : Z;
  EvalBuckets : list Z }.
Definition zero : ServiceMetrics := mk 0 0 0 0 0 0 0 0 0 0 0 (replicate 9 0%Z).
End ServiceMetrics.
Abbreviation ServiceMetrics := ServiceMetrics.ServiceMetrics.
Import ServiceMetrics.

Definition evaluationBucketBounds : list Duration :=
  [Millisecond; 5 * Millisecond; 10 * Millisecond; 25 * Millisecond; 50 * Millisecond;
   100 * Millisecond; 250 * Millisecond; 500 * Millisecond; Second]%Z.
Definition EvaluationBucketBounds : list Duration := evaluationBucketBounds.

Module Service.
Record Service {R : Type} := mk {
  repo : R;
  runtime : Engine;
  wake : bool;             (* the channel of capacity 1 holds a value *)
  metrics : ServiceMetrics;
  activationDelay : Duration;
  definitionMaxStaleness : Duration }.
Arguments Service : clear implicits.

Definition with_repo {R} (s : Service R) r : Service R :=
  mk R r s.(runtime) s.(wake) s.(metrics) s.(activationDelay) s.(definitionMaxStaleness).
Definition with_runtime {R} (s : Service R) e : Service R :=
  mk R s.(repo) e s.(wake) s.(metrics) s.(activationDelay) s.(definitionMaxStaleness).
Definition with_wake {R} (s : Service R) w : Service R :=
  mk R s.(repo) s.(runtime) w s.(metrics) s.(activationDelay) s.(definitionMaxStaleness).
Definition with_metrics {R} (s : Service R) m : Service R :=
  mk R s.(repo) s.(runtime) s.(wake) m s.(activationDelay) s.(definitionMaxStaleness).
End Service.
Abbreviation Service := Service.Service.
Import Service.

Module Options.
Record Options := mk {
  ActivationDelay : Duration; DefinitionMaxStaleness : Duration; WorkerIndex : Z; WorkerCount : Z }.
Definition zero : Options := mk 0 0 0 0.
End Options.
Abbreviation Options := Options.Options.

Definition NewWithOptions {R} (repo : R) (options : Options) : Service R :=
  Service.mk R repo
    (NewWithOwnership DefaultPartitions options.(Options.WorkerIndex) options.(Options.WorkerCount))
    false ServiceMetrics.zero options.(Options.ActivationDelay) options.(Options.DefinitionMaxStaleness).

Definition NewService {R} (repo : R) : Service R := NewWithOptions repo Options.zero.

(** What a call reads of the clock: [time.Now] as an instant and as Unix
    nanoseconds, and the time the evaluation takes. *)
Module Clock.
Record Clock := mk { now : Time; unixNanos : Z; elapsed : Duration }.
End Clock.
Abbreviation Clock := Clock.Clock.

Inductive ServiceError :=
| ErrRequired
| ErrCooldown
| ErrEvaluationMode
| ErrTriggerMode
| ErrRule (e : RuleError)
| ErrRequiresIntrabar
| ErrStore (e : StoreError)
| ErrEngine (e : EngineError)
| ErrStaleCache
| ErrEnvelope
| ErrStatus
| ErrResetStatus
| ErrPrices
| ErrNotFinite           (* which price is reported depends on the map order *)
| ErrIndicatorValue
| ErrHistory.

(** [errors.Is(err, store.ErrNotFound)]. *)
Definition IsNotFound (err : ServiceError) : bool :=
  match err with ErrStore ErrNotFound | ErrEngine (ErrRepository ErrNotFound) => true | _ => false end.

(** ** Validation of observations *)

(** The comparisons of the two price checks. *)
Definition pricesInvalid (c : Candle) : bool :=
  (c.(Candle.High) <f c.(Candle.Low)) || (c.(Candle.High) <f c.(Candle.Open))
  || (c.(Candle.High) <f c.(Candle.Close)) || (c.(Candle.Low) >f c.(Candle.Open))
  || (c.(Candle.Low) >f c.(Candle.Close)).

Definition indicatorInvalid (i : Indicator) : bool :=
  (i.(Indicator.Name) == "") || (i.(Indicator.Period) <? 1)%Z
  || isNaN i.(Indicator.Value) || isInf i.(Indicator.Value).

Definition validateObservation (o : Observation) : option ServiceError :=
  let c := o.(Observation.Candle) in
  if (o.(Observation.Schema) != "alerts.observation.v1") || (o.(Observation.SourceEventID) == "")
     || (o.(Observation.CorrelationID) == "") || (o.(Observation.Series).(Series.Symbol) == "")
     || (o.(Observation.Series).(Series.Timeframe) == "") || IsZero c.(Candle.OpenTime)
     || IsZero o.(Observation.OccurredAt)
  then Some ErrEnvelope
  else if (o.(Observation.Status) != "confirmed") && (o.(Observation.Status) != "provisional")
  then Some ErrStatus
  else if o.(Observation.IsReset) && (o.(Observation.Status) != "confirmed")
  then Some ErrResetStatus
  else if pricesInvalid c then Some ErrPrices
  else if existsb (fun v => isNaN v || isInf v)
            [c.(Candle.Open); c.(Candle.High); c.(Candle.Low); c.(Candle.Close)]
  then Some ErrNotFinite
  else if existsb indicatorInvalid o.(Observation.Indicators) then Some ErrIndicatorValue
  else if existsb (fun bar => IsZero bar.(Candle.OpenTime) || pricesInvalid bar) o.(Observation.History)
  then Some ErrHistory
  else None.

(** ** Counters *)

Definition addTo (n k : Z) : Z := uint64 (n + k).

(** One batch evaluated in [duration]. *)
Definition countBatch (duration : Duration) (m : ServiceMetrics) : ServiceMetrics :=
  ServiceMetrics.mk m.(Observations) m.(Alerts) m.(Published) m.(PublishFails) (addTo m.(Batches) 1)
    m.(IngestFails) (addTo m.(EvalNanos) (uint64 duration)) m.(RefreshFails) m.(InboxDeleted)
    m.(AlertsDeleted) m.(MaintenanceFails)
    (zip_with (fun (bound : Duration) n => if (duration <=? bound)%Z then addTo n 1 else n)
       evaluationBucketBounds m.(EvalBuckets)).
Definition countIngested (observations alerts : nat) (m : ServiceMetrics) : ServiceMetrics :=
  ServiceMetrics.mk (addTo m.(Observations) (Z.of_nat observations)) (addTo m.(Alerts) (Z.of_nat alerts))
    m.(Published) m.(PublishFails) m.(Batches) m.(IngestFails) m.(EvalNanos) m.(RefreshFails)
    m.(InboxDeleted) m.(AlertsDeleted) m.(MaintenanceFails) m.(EvalBuckets).
Definition countIngestFail (m : ServiceMetrics) : ServiceMetrics :=
  ServiceMetrics.mk m.(Observations) m.(Alerts) m.(Published) m.(PublishFails) m.(Batches)
    (addTo m.(IngestFails) 1) m.(EvalNanos) m.(RefreshFails) m.(InboxDeleted) m.(AlertsDeleted)
    m.(MaintenanceFails) m.(EvalBuckets).
Definition countPublish (published failed : Z) (m : ServiceMetrics) : ServiceMetrics :=
  ServiceMetrics.mk m.(Observations) m.(Alerts) (addTo m.(Published) published)
    (addTo m.(PublishFails) failed) m.(Batches) m.(IngestFails) m.(EvalNanos) m.(RefreshFails)
    m.(InboxDeleted) m.(AlertsDeleted) m.(MaintenanceFails) m.(EvalBuckets).
Definition countRefreshFail (m : ServiceMetrics) : ServiceMetrics :=
  ServiceMetrics.mk m.(Observations) m.(Alerts) m.(Published) m.(PublishFails) m.(Batches)
    m.(IngestFails) m.(EvalNanos) (addTo m.(RefreshFails) 1) m.(InboxDeleted) m.(AlertsDeleted)
    m.(MaintenanceFails) m.(EvalBuckets).
Definition countMaintained (inbox alerts failed : Z) (m : ServiceMetrics) : ServiceMetrics :=
  ServiceMetrics.mk m.(Observations) m.(Alerts) m.(Published) m.(PublishFails) m.(Batches)
    m.(IngestFails) m.(EvalNanos) m.(RefreshFails) (addTo m.(InboxDeleted) (uint64 inbox))
    (addTo m.(AlertsDeleted) (uint64 alerts)) (addTo m.(MaintenanceFails) failed) m.(EvalBuckets).

Section Operations.
Context {R : Type} `{ControlRepository R}.

(** ** Definitions *)

(** The errors of the engine and the repository as errors of the service. *)
Definition fromEngine {A} (res : Res EngineError A) : Res ServiceError A :=
  match res with Ok v => Ok v | Err e => Err (ErrEngine e) | Panic => Panic end.
Definition fromStore {A} (res : Res StoreError A) : Res ServiceError A :=
  match res with Ok v => Ok v | Err e => Err (ErrStore e) | Panic => Panic end.

Definition InitializeService (env : Env) (nowNanos : Z) (s : Service R) : Res ServiceError unit * Service R :=
  let '(res, e) := Initialize env nowNanos s.(runtime) s.(repo) in (fromEngine res, with_runtime s e).

Definition RefreshDefinitions (env : Env) (nowNanos : Z) (s : Service R) : Res ServiceError unit * Service R :=
  match ListDefinitions env s.(repo) with
  | Err err => (Err (ErrStore err), s)
  | Panic => (Panic, s)
  | Ok definitions =>
      let '(res, e) := ReplaceDefinitions nowNanos definitions s.(runtime) in
      (fromEngine res, with_runtime s e)
  end.

(** The period of [RunDefinitionRefresh]. *)
Definition refreshInterval (interval : Duration) : Duration :=
  if (interval <=? 0)%Z then Second else interval.

(** A tick of [RunDefinitionRefresh]; [None] when it panics. *)
Definition refreshTick (env : Env) (nowNanos : Z) (s : Service R) : option (Service R) :=
  match RefreshDefinitions env nowNanos s with
  | (Ok _, s') => Some s'
  | (Err _, s') => Some (with_metrics s' (countRefreshFail s'.(metrics)))
  | (Panic, _) => None
  end.

(** The text whose hash identifies a definition; an error of [json.Marshal]
    is ignored and leaves no text. *)
Definition canonical (series : Series) (rule : Rule) (evaluationMode triggerMode : string) (cooldown : Z)
  : list Z :=
  default [] (r ← encodeRule rule;
    Some (encodeObject [field "series" (encodeSeries series); field "rule" r;
      field "evaluation_mode" (quote evaluationMode); field "trigger_mode" (quote triggerMode);
      field "cooldown_seconds" (encodeInt cooldown)])).

Definition uuidFrom (raw : list Z) : string := uuidShape (hexEncode raw).

(** The checks of [Create], with the modes it defaults. *)
Definition checkCreate (name : string) (series : Series) (rule : Rule) (evaluationMode triggerMode : string)
  (cooldown : Z) : Res ServiceError (string * string) :=
  if (name == "") || (series.(Series.Symbol) == "") || (series.(Series.Timeframe) == "")
  then Err ErrRequired
  else if (cooldown <? 0)%Z then Err ErrCooldown else
  let evaluationMode := if evaluationMode == "" then "confirmed_close" else evaluationMode in
  if (evaluationMode != "confirmed_close") && (evaluationMode != "intrabar") && (evaluationMode != "both")
  then Err ErrEvaluationMode else
  let triggerMode := if triggerMode == "" then "on_occurrence" else triggerMode in
  if (triggerMode != "on_occurrence") && (triggerMode != "once_per_bar") && (triggerMode != "every_match")
  then Err ErrTriggerMode
  else match Validate rule with
  | Some e => Err (ErrRule e)
  | None => if RequiresIntrabar rule && (evaluationMode == "confirmed_close") then Err ErrRequiresIntrabar
            else Ok (evaluationMode, triggerMode)
  end.

(** The definition [Create] builds at time [now]. *)
Definition newDefinition (delay : Duration) (now : Time) (name : string) (series : Series) (rule : Rule)
  (evaluationMode triggerMode : string) (cooldown : Z) : AlertDefinition :=
  let sum := sha256 (canonical series rule evaluationMode triggerMode cooldown) in
  AlertDefinition.mk (uuidFrom (take 16 sum)) 1 ("sha256:" +:+ hexEncode sum) name true series rule
    evaluationMode triggerMode cooldown now now (Add now delay).

(** The repository's answer indexed: [err = s.runtime.UpsertDefinition(d)]. *)
Definition indexDefinition (d : AlertDefinition) (s : Service R) : Res ServiceError unit * Service R :=
  let '(res, e) := UpsertDefinition d s.(runtime) in (fromEngine res, with_runtime s e).

(** The definition, whether it was created, and the error; no reply at all
    when it panics. A failed call of the repository returns the zero value. *)
Definition Create (clock : Clock) (name : string) (series : Series) (rule : Rule)
  (evaluationMode triggerMode : string) (cooldown : Z) (s : Service R)
  : option (AlertDefinition * bool * option ServiceError) * Service R :=
  match checkCreate name series rule evaluationMode triggerMode cooldown with
  | Err e => (Some (AlertDefinition.zero, false, Some e), s)
  | Panic => (None, s)
  | Ok (evaluationMode, triggerMode) =>
      let d := newDefinition s.(activationDelay) (UTC clock.(Clock.now)) name series rule
                 evaluationMode triggerMode cooldown in
      match StoreCreateDefinition d s.(repo) with
      | (Err e, r) => (Some (AlertDefinition.zero, false, Some (ErrStore e)), with_repo s r)
      | (Panic, r) => (None, with_repo s r)
      | (Ok (createdDefinition, created), r) =>
          match indexDefinition createdDefinition (with_repo s r) with
          | (Ok _, s') => (Some (createdDefinition, created, None), s')
          | (Err e, s') => (Some (createdDefinition, created, Some e), s')
          | (Panic, s') => (None, s')
          end
      end
  end.

Definition ServiceListDefinitions (env : Env) (s : Service R) : Res ServiceError (list AlertDefinition) :=
  fromStore (ListDefinitions env s.(repo)).

(** [s.now().UTC().Add(s.activationDelay)]. *)
Definition boundary (clock : Clock) (s : Service R) : Time :=
  Add (UTC clock.(Clock.now)) s.(activationDelay).

Definition SetEnabled (env : Env) (clock : Clock) (id : string) (enabled : bool) (s : Service R)
  : option (AlertDefinition * option ServiceError) * Service R :=
  match StoreSetEnabled env id enabled (boundary clock s) s.(repo) with
  | (Err e, r) => (Some (AlertDefinition.zero, Some (ErrStore e)), with_repo s r)
  | (Panic, r) => (None, with_repo s r)
  | (Ok definition, r) =>
      match indexDefinition definition (with_repo s r) with
      | (Ok _, s') => (Some (definition, None), s')
      | (Err e, s') => (Some (definition, Some e), s')
      | (Panic, s') => (None, s')
      end
  end.

Definition Delete (env : Env) (clock : Clock) (id : string) (s : Service R)
  : Res ServiceError unit * Service R :=
  match StoreArchiveDefinition env id (boundary clock s) s.(repo) with
  | (Some e, r) => (Err (ErrStore e), with_repo s r)
  | (None, r) => RefreshDefinitions env clock.(Clock.unixNanos) (with_repo s r)
  end.

Definition ServiceListAlerts (after limit : Z) (s : Service R) : Res ServiceError (list Alert) :=
  let limit := if (limit <=? 0)%Z then 100%Z else limit in
  let limit := if (1000 <? limit)%Z then 1000%Z else limit in
  fromStore (StoreListAlerts after limit s.(repo)).

(** ** Ingestion *)

Fixpoint validateAll (observations : list Observation) : option ServiceError :=
  match observations with
  | [] => None
  | o :: rest => match validateObservation o with Some e => Some e | None => validateAll rest end
  end.

(** What follows the evaluation: the counters, and a nudge of the publisher
    that is lost if one is waiting. *)
Definition afterEvaluation (clock : Clock) (observations : list Observation)
  (res : Res EngineError (list Alert)) (s : Service R) : Service R :=
  let m := countBatch clock.(Clock.elapsed) s.(metrics) in
  match res with
  | Ok alerts =>
      let s' := with_metrics s (countIngested (length observations) (length alerts) m) in
      if (0 <? length alerts)%nat then with_wake s' true else s'
  | _ => with_metrics s (countIngestFail m)
  end.

Definition IngestBatch (clock : Clock) (partition : Z) (observations : list Observation) (s : Service R)
  : Res ServiceError (list Alert) * Service R :=
  if negb (DefinitionsFresh clock.(Clock.unixNanos) s.(definitionMaxStaleness) s.(runtime))
  then (Err ErrStaleCache, s)
  else match validateAll observations with
  | Some e => (Err e, s)
  | None =>
      let '(res, e, r) := EvaluateBatch clock.(Clock.now) partition observations s.(runtime) s.(repo) in
      (fromEngine res, afterEvaluation clock observations res (with_runtime (with_repo s r) e))
  end.

Definition Ingest (clock : Clock) (o : Observation) (s : Service R)
  : Res ServiceError (list Alert) * Service R :=
  match validateObservation o with
  | Some e => (Err e, s)
  | None => IngestBatch clock (Partition s.(runtime) o.(Observation.Series)) [o] s
  end.

(** ** Maintenance *)

(** The period of [RunMaintenance]. *)
Definition maintenanceInterval (interval : Duration) : Duration :=
  if (interval <=? 0)%Z then Hour else interval.

(** A tick of [RunMaintenance]. *)
Definition maintenanceTick (env : Env) (policy : RetentionPolicy.RetentionPolicy) (s : Service R)
  : Service R :=
  match StoreMaintain env policy s.(repo) with
  | (Ok result, r) =>
      let s' := with_repo s r in
      with_metrics s' (countMaintained result.(MaintenanceResult.InboxDeleted)
                         result.(MaintenanceResult.AlertsDeleted) 0 s'.(metrics))
  | (_, r) => let s' := with_repo s r in with_metrics s' (countMaintained 0 0 1 s'.(metrics))
  end.

(** ** The outbox *)

(** The body of the loop over the claimed events. *)
Definition publishOne {W} (publish : Publisher W) (env : Env) (sw : Service R * W) (event : Alert)
  : Service R * W :=
  let '(s, w) := sw in
  match publish event w with
  | (Some message, w') =>
      let '(_, r) := StoreMarkPublishFailed env event.(Alert.ID) message s.(repo) in
      (with_metrics (with_repo s r) (countPublish 0 1 s.(metrics)), w')
  | (None, w') =>
      match StoreMarkPublished env event.(Alert.ID) s.(repo) with
      | (Some _, r) => (with_repo s r, w')
      | (None, r) => (with_metrics (with_repo s r) (countPublish 1 0 s.(metrics)), w')
      end
  end.

(** The inner loop of [RunPublisher]: claim a page, publish it, go on while
    the page was full. [None] when the fuel, a bound on the pages, runs out. *)
Fixpoint drain {W} (publish : Publisher W) (env : Env) (fuel : nat) (s : Service R) (w : W)
  : option (Service R * W) :=
  match fuel with
  | 0 => None
  | S fuel' =>
      match StoreClaimPending env 100 s.(repo) with
      | (Ok events, r) =>
          let s := with_repo s r in
          if (length events =? 0)%nat then Some (s, w) else
          let '(s', w') := foldl (publishOne publish env) (s, w) events in
          if (length events <? 100)%nat then Some (s', w') else drain publish env fuel' s' w'
      | (_, r) => Some (with_repo s r, w)
      end
  end.

(** A wake-up of [RunPublisher]: by [wake], which it empties, or by the ticker. *)
Definition publisherTick {W} (publish : Publisher W) (env : Env) (woken : bool) (fuel : nat)
  (s : Service R) (w : W) : option (Service R * W) :=
  drain publish env fuel (if woken then with_wake s false else s) w.

(** ** Health *)

Definition Ready (nowNanos : Z) (readiness : list bool) (s : Service R) : bool :=
  match StorePing s.(repo) with
  | Some _ => false
  | None => DefinitionsFresh nowNanos s.(definitionMaxStaleness) s.(runtime) && forallb id readiness
  end.

End Operations.

Module MetricSnapshot.
Record MetricSnapshot := mk {
  service : ServiceMetrics;
  StaleEvents : Z; ResetEvents : Z; RuleEvaluations : Z;
  PendingOutbox : Z;
  DefinitionCacheAgeSeconds : float64;
  OldestOutboxAgeSeconds : float64 }.
End MetricSnapshot.

(** The service's own counters are kept as one field. *)
Definition ServiceMetricsOf {R} `{ControlRepository R} (env : Env) (nowNanos : Z) (s : Service R)
  : MetricSnapshot.MetricSnapshot :=
  let m := metricsOf s.(runtime) in
  let stats := match StoreOperationalStats env s.(repo) with
               | Ok st => st
               | _ => OperationalStats.mk 0 0
               end in
  MetricSnapshot.mk s.(metrics) m.(Metrics.StaleEvents) m.(Metrics.ResetEvents) m.(Metrics.RuleEvals)
    stats.(OperationalStats.PendingOutbox) (Seconds (DefinitionCacheAge nowNanos s.(runtime)))
    (Seconds stats.(OperationalStats.OldestOutboxAge)).
