(* ===== verification/ServiceProps.v ===== *)
(** * The alert service keeps its promises

    What [validateObservation] admits, what ingestion does with it and with
    everything else, that [Create] can be repeated, what a scheduled disable
    means, and how the publisher empties the outbox. The theorems on
    ingestion hold for every repository with the laws of Store.v, those on
    definitions and the outbox for the in-memory repository, the instance at
    the top. *)

From Stdlib Require Import SpecFloat.
From stdpp Require Import base gmap strings list numbers sorting pretty.
From S2P Require Import Prelude GoFloat GoBase GoHash GoTime Model Json Rules Fixtures RulesValid Store.
From S2P Require Import Memory MemoryProps Engine EngineIndex EngineBatch EngineRecovery Service.
Import Engine ServiceMetrics Service.

#[export] Instance memory_control : ControlRepository Memory := {
  StoreCreateDefinition d m := let '(d', created, m') := CreateDefinition d m in (Ok (d', created), m');
  StoreSetEnabled env id enabled at_ m := Memory.SetEnabled env id enabled at_ m;
  StoreArchiveDefinition _ id at_ m := ArchiveDefinition id at_ m;
  StoreListAlerts after limit m := Ok (ListAlerts after limit m);
  StoreClaimPending _ limit m := (Ok (ClaimPending limit m), m);
  StoreMarkPublished _ id m := MarkPublished id m;
  StoreMarkPublishFailed _ id message m := MarkPublishFailed id message m;
  StoreMaintain _ policy m := Maintain policy m;
  StoreOperationalStats _ m := Ok (statsOf m);
  StorePing _ := None }.

(** ** What validation admits *)

(** [a] is not above [b]; a NaN is not above anything. *)
Definition atMost (a b : float64) : Prop := isNaN a = true \/ isNaN b = true \/ (a <=f b) = true.

(** The low is the least and the high the greatest price. *)
Definition orderedPrices (c : Candle) : Prop :=
  atMost c.(Candle.Low) c.(Candle.High) /\
  atMost c.(Candle.Open) c.(Candle.High) /\ atMost c.(Candle.Close) c.(Candle.High) /\
  atMost c.(Candle.Low) c.(Candle.Open) /\ atMost c.(Candle.Low) c.(Candle.Close).

Definition finitePrices (c : Candle) : Prop :=
  Forall (fun v => isFinite v = true)
    [c.(Candle.Open); c.(Candle.High); c.(Candle.Low); c.(Candle.Close)].

Record admissible (o : Observation) : Prop := {
  adm_envelope :
    o.(Observation.Schema) = "alerts.observation.v1" /\ o.(Observation.SourceEventID) <> "" /\
    o.(Observation.CorrelationID) <> "" /\ o.(Observation.Series).(Series.Symbol) <> "" /\
    o.(Observation.Series).(Series.Timeframe) <> "" /\
    o.(Observation.Candle).(Candle.OpenTime) <> zeroTime /\ o.(Observation.OccurredAt) <> zeroTime;
  adm_status : o.(Observation.Status) = "confirmed" \/
               o.(Observation.Status) = "provisional" /\ o.(Observation.IsReset) = false;
  adm_prices : finitePrices o.(Observation.Candle) /\ orderedPrices o.(Observation.Candle);
  adm_indicators : Forall (fun i => i.(Indicator.Name) <> "" /\ (1 <= i.(Indicator.Period))%Z /\
                                    isFinite i.(Indicator.Value) = true) o.(Observation.Indicators);
  adm_history : Forall (fun bar => bar.(Candle.OpenTime) <> zeroTime /\ orderedPrices bar)
                  o.(Observation.History) }.

Lemma atMost_spec (a b : float64) : (b <f a) = false <-> atMost a b.
Proof.
  unfold atMost. split.
  - intros Hlt. destruct (isNaN a) eqn:Ea; [by left|]. destruct (isNaN b) eqn:Eb; [by right; left|].
    right; right. destruct (fltb_trichotomy a b Ea Eb) as [H|[H|H]]; [by apply fltb_fleb|congruence|].
    unfold feqb, fleb, SFeqb, SFleb in *. by destruct (SFcompare a b) as [[]|].
  - intros [Ha|[Hb|Hle]]; [by destruct a, b|by destruct a, b|by apply fleb_not_fltb].
Qed.

Lemma pricesInvalid_spec (c : Candle) : pricesInvalid c = false <-> orderedPrices c.
Proof.
  unfold pricesInvalid, orderedPrices, fgtb.
  rewrite !orb_false_iff, !atMost_spec. tauto.
Qed.

Lemma existsb_Forall {A} (f : A -> bool) (l : list A) : existsb f l = false <-> Forall (fun x => f x = false) l.
Proof.
  induction l as [|x l IH]; cbn [existsb]; [by split|].
  split.
  - intros [Hx Hl]%orb_false_iff. constructor; [done|]. by apply IH.
  - intros [Hx Hl]%Forall_cons. apply orb_false_iff. split; [done|]. by apply IH.
Qed.

Lemma not_finite_spec (v : float64) : isNaN v || isInf v = false <-> isFinite v = true.
Proof. unfold isFinite. by rewrite negb_true_iff. Qed.

Lemma indicatorInvalid_spec (i : Indicator) :
  indicatorInvalid i = false <->
  i.(Indicator.Name) <> "" /\ (1 <= i.(Indicator.Period))%Z /\ isFinite i.(Indicator.Value) = true.
Proof.
  unfold indicatorInvalid, isFinite.
  rewrite negb_true_iff, !orb_false_iff, String.eqb_neq, Z.ltb_ge. tauto.
Qed.

Lemma negb_eqb_false (s t : string) : (s != t) = false <-> s = t.
Proof. by rewrite negb_false_iff, String.eqb_eq. Qed.

(** One step of a chain of checks. *)
Lemma check_None {E} (b : bool) (e : E) (rest : option E) :
  (if b then Some e else rest) = None <-> b = false /\ rest = None.
Proof. destruct b; [by split; [|intros []]|]. by split; [|intros []]. Qed.

Lemma validateAll_None (obs : list Observation) :
  validateAll obs = None <-> Forall (fun o => validateObservation o = None) obs.
Proof.
  induction obs as [|o obs IH]; simpl; [by split|]. rewrite Forall_cons.
  destruct (validateObservation o); [by split; [|intros []]|]. rewrite IH. tauto.
Qed.

Lemma envelope_spec (o : Observation) :
  (o.(Observation.Schema) != "alerts.observation.v1") || (o.(Observation.SourceEventID) == "")
  || (o.(Observation.CorrelationID) == "") || (o.(Observation.Series).(Series.Symbol) == "")
  || (o.(Observation.Series).(Series.Timeframe) == "") || IsZero o.(Observation.Candle).(Candle.OpenTime)
  || IsZero o.(Observation.OccurredAt) = false <->
  o.(Observation.Schema) = "alerts.observation.v1" /\ o.(Observation.SourceEventID) <> "" /\
  o.(Observation.CorrelationID) <> "" /\ o.(Observation.Series).(Series.Symbol) <> "" /\
  o.(Observation.Series).(Series.Timeframe) <> "" /\
  o.(Observation.Candle).(Candle.OpenTime) <> zeroTime /\ o.(Observation.OccurredAt) <> zeroTime.
Proof. rewrite !orb_false_iff, negb_eqb_false, !String.eqb_neq. unfold IsZero. rewrite !Z.eqb_neq. tauto. Qed.

Lemma status_spec (o : Observation) :
  ((o.(Observation.Status) != "confirmed") && (o.(Observation.Status) != "provisional")) = false /\
  (o.(Observation.IsReset) && (o.(Observation.Status) != "confirmed")) = false <->
  o.(Observation.Status) = "confirmed" \/
  o.(Observation.Status) = "provisional" /\ o.(Observation.IsReset) = false.
Proof.
  rewrite !andb_false_iff, !negb_eqb_false. split.
  - intros [[H|H] [H'|H']]; auto.
  - intros [H|[H H']]; rewrite H; auto.
Qed.

Lemma finite_spec (c : Candle) :
  existsb (fun v => isNaN v || isInf v) [c.(Candle.Open); c.(Candle.High); c.(Candle.Low); c.(Candle.Close)] = false
  <-> finitePrices c.
Proof.
  rewrite existsb_Forall. unfold finitePrices. rewrite !Forall_cons, !not_finite_spec. by rewrite !Forall_nil.
Qed.

Lemma indicators_spec (l : list Indicator) :
  existsb indicatorInvalid l = false <->
  Forall (fun i => i.(Indicator.Name) <> "" /\ (1 <= i.(Indicator.Period))%Z /\
                   isFinite i.(Indicator.Value) = true) l.
Proof. rewrite existsb_Forall. apply Forall_iff. apply indicatorInvalid_spec. Qed.

Lemma history_spec (l : list Candle) :
  existsb (fun bar => IsZero bar.(Candle.OpenTime) || pricesInvalid bar) l = false <->
  Forall (fun bar => bar.(Candle.OpenTime) <> zeroTime /\ orderedPrices bar) l.
Proof.
  rewrite existsb_Forall. apply Forall_iff. intros bar.
  unfold IsZero. by rewrite orb_false_iff, Z.eqb_neq, pricesInvalid_spec.
Qed.

(** ** Ingestion *)

Section Ingestion.
Context {R : Type} `{RepositoryLaws R} `{!ControlRepository R}.

(** What no failed call may change. *)
Definition sameRuntime (s s' : Service R) : Prop :=
  s'.(runtime).(partitions) = s.(runtime).(partitions) /\
  s'.(runtime).(byRoute) = s.(runtime).(byRoute) /\
  runtimeOf s'.(repo) = runtimeOf s.(repo) /\ s'.(wake) = s.(wake).

Lemma afterEvaluation_fields clock obs res (s : Service R) :
  let s' := afterEvaluation clock obs res s in
  s'.(repo) = s.(repo) /\ s'.(runtime) = s.(runtime) /\
  s'.(wake) = match res with Ok alerts => s.(wake) || (0 <? length alerts)%nat | _ => s.(wake) end /\
  s'.(metrics).(Observations)
    = match res with Ok _ => addTo s.(metrics).(Observations) (Z.of_nat (length obs)) | _ => s.(metrics).(Observations) end.
Proof.
  unfold afterEvaluation. destruct res as [alerts| |]; simpl; [|done|done].
  destruct (0 <? length alerts)%nat; simpl; by rewrite ?orb_true_r, ?orb_false_r.
Qed.

(** An observation sent to the partition of its series is never misrouted. *)
Lemma evaluateAll_routed e partition now b o :
  match evaluateAll e (Partition e o.(Observation.Series)) partition now b [o] with
  | Some (Return _ _) => False
  | _ => True
  end.
Proof.
  simpl. unfold evaluateObservation. rewrite Z.eqb_refl. simpl.
  destruct (_ && _); [done|]. destruct (_ && _); [done|].
  destruct (Observation.IsReset o);
    [destruct (evaluateReset _ _ _ _ _)|destruct (evaluateOrdinary _ _ _ _ _ _ _)]; done.
Qed.

Lemma EvaluateBatch_routed now e r o err e' r' :
  let p := Partition e o.(Observation.Series) in
  inRange e p -> owns e p = true ->
  EvaluateBatch now p [o] e r = (Err err, e', r') -> exists se, err = ErrRepository se.
Proof.
  intros p Hr Ho. unfold EvaluateBatch.
  replace ((p <? 0) || (p >=? partitionCountOf e))%Z with false by (unfold inRange in Hr; lia).
  rewrite Ho. simpl negb. cbn iota. destruct (partitions e !! Z.to_nat p) as [partition|]; [|done].
  pose proof (evaluateAll_routed e partition (UTC now) (Batch.start e) o) as Hall. fold p in Hall.
  destruct (evaluateAll _ _ _ _ _ _) as [[b|]|]; [|done|done]. case_goal; [done|].
  destruct (CommitRuntimeBatch _ _) as [[| |] ?]; intros Heq; simplify_eq; eauto.
Qed.

Lemma IngestBatch_failed clock p obs (s : Service R) cs :
  represents s.(runtime).(byRoute) cs ->
  let '(res, s') := IngestBatch clock p obs s in
  res <> Panic /\ (forall err, res = Err err -> sameRuntime s s').
Proof.
  intros Hrep. unfold IngestBatch. case_goal; [done|]. destruct (validateAll obs) as [e|]; [done|].
  pose proof (EvaluateBatch_outcome cs clock.(Clock.now) p obs s.(runtime) s.(repo) Hrep) as Hout.
  destruct (EvaluateBatch _ _ _ _ _) as [[res e'] r']. destruct Hout as [Hnp Herr].
  destruct (afterEvaluation_fields clock obs res (with_runtime (with_repo s r') e')) as (Hr & Hrt & Hw & _).
  split; [by destruct res|]. unfold sameRuntime. rewrite Hr, Hrt, Hw. simpl.
  intros err Hres. destruct res as [|er|]; simplify_eq/=.
  by destruct (Herr er eq_refl) as (-> & -> & ->).
Qed.

Lemma InitializeService_Ok env nowNanos (s s' : Service R) :
  InitializeService env nowNanos s = (Ok (), s') ->
  exists e, Initialize env nowNanos s.(runtime) s.(repo) = (Ok (), e) /\ s' = with_runtime s e.
Proof.
  unfold InitializeService. destruct (Initialize _ _ _ _) as [[[]|err|] e]; intros [= <-]. eauto.
Qed.
End Ingestion.

(** ** Definitions *)

Lemma replaceFirst_again id (new : compiledDefinition) l l' :
  cid new = id -> replaceFirst id new l = Some l' -> replaceFirst id new l' = Some l'.
Proof.
  intros Hid. revert l'. induction l as [|c l IH]; intros l' Hl; simpl in Hl; [done|].
  destruct (_ == id) eqn:E.
  - injection Hl as <-. simpl. unfold cid in Hid. by rewrite Hid, eqb_refl_true.
  - destruct (replaceFirst id new l) as [l2|]; [|done]. injection Hl as <-. simpl. rewrite E.
    by rewrite (IH l2).
Qed.

Lemma replaceFirst_fixed id (new : compiledDefinition) l :
  new ∈ l -> cid new = id -> (forall c, c ∈ l -> cid c = id -> c = new) ->
  replaceFirst id new l = Some l.
Proof.
  intros Hin Hid Honly. induction l as [|c l IH]; [by apply elem_of_nil in Hin|]. simpl.
  destruct (String.eqb_spec (AlertDefinition.ID (compiledDefinition.definition c)) id) as [E|E].
  - by rewrite (Honly c (list_elem_of_here _ _) E).
  - apply elem_of_cons in Hin as [->|Hin]; [done|]. rewrite IH; [done|done|].
    intros c' Hc'. apply Honly. by right.
Qed.

(** Indexing a definition again changes nothing. *)
Lemma UpsertDefinition_again (d : AlertDefinition) (e e' : Engine) :
  UpsertDefinition d e = (Ok (), e') -> UpsertDefinition d e' = (Ok (), e').
Proof.
  unfold UpsertDefinition. destruct (Compile _) as [c| |]; [|done|done].
  set (key := routeKey _). set (new := compiledDefinition.mk d c). set (id := AlertDefinition.ID d).
  assert (forall l, replaceFirst id new l = Some l ->
    let e1 := with_byRoute e (<[key := l]> e.(byRoute)) in
    match replaceFirst id new (routeList e1.(byRoute) key) with
    | Some l => (Ok (), with_byRoute e1 (<[key := l]> e1.(byRoute)))
    | None => (Ok (), with_byRoute e1 (<[key := sortByID (routeList e1.(byRoute) key ++ [new])]> e1.(byRoute)))
    end = (Ok () : Res EngineError unit, e1)) as Hfix.
  { intros l Hl. simpl. unfold routeList. rewrite lookup_insert_eq. simpl. rewrite Hl.
    unfold with_byRoute. simpl. by rewrite insert_insert_eq. }
  destruct (replaceFirst id new (routeList _ key)) as [l|] eqn:E; intros [= <-]; apply Hfix.
  - by eapply replaceFirst_again.
  - assert (forall c', c' ∈ sortByID (routeList e.(byRoute) key ++ [new])
              <-> c' ∈ routeList e.(byRoute) key \/ c' = new) as Hmem.
    { intros c'. by rewrite sortByID_perm, elem_of_app, list_elem_of_singleton. }
    apply replaceFirst_fixed; [by apply Hmem; right|done|].
    intros c' [Hc'| ->]%Hmem Hid; [|done]. exfalso.
    apply (replaceFirst_None _ _ _ E). rewrite <- Hid. by apply list_elem_of_fmap_2.
Qed.

(** ** The outbox *)

(** Offering the alerts of a list to a publisher in order: those it refuses,
    and its world afterwards. *)
Fixpoint attempts {W} (publish : Publisher W) (l : list Alert) (w : W) : list Alert * W :=
  match l with
  | [] => ([], w)
  | a :: rest =>
      let '(err, w1) := publish a w in
      let '(failed, w') := attempts publish rest w1 in
      (match err with Some _ => a :: failed | None => failed end, w')
  end.

Lemma pending_IDs_NoDup (m : Memory) : idsDistinct m.(Memory.alerts) -> NoDup (Alert.ID <$> pending m).
Proof. apply NoDup_filter_fmap. Qed.

Lemma filter_other_IDs (l : list Alert) (x : string) :
  x ∉ Alert.ID <$> l -> filter (fun b => b.(Alert.ID) <> x) l = l.
Proof.
  intros Hx. apply filter_keeps, Forall_forall. intros b Hb Heq. apply Hx.
  rewrite <- Heq. by apply list_elem_of_fmap_2.
Qed.

(** One page of the loop: the refused alerts stay pending, the others go. *)
Lemma publish_page {W} (publish : Publisher W) (env : Env) (l : list Alert) :
  forall (s : Service Memory) (w : W) (kept rest : list Alert),
  idsDistinct s.(repo).(Memory.alerts) ->
  pending s.(repo) = kept ++ l ++ rest ->
  let '(s', w') := foldl (publishOne publish env) (s, w) l in
  let '(failed, wf) := attempts publish l w in
  w' = wf /\ pending s'.(repo) = kept ++ failed ++ rest /\ s'.(runtime) = s.(runtime) /\
  idsDistinct s'.(repo).(Memory.alerts).
Proof.
  induction l as [|a l IH]; intros s w kept rest Hids Hp; simpl; [by rewrite Hp|].
  destruct (publish a w) as [[message|] w1].
  - specialize (IH (with_metrics (with_repo s s.(repo)) (countPublish 0 1 s.(metrics))) w1 (kept ++ [a]) rest Hids).
    simpl in IH. rewrite <- app_assoc in IH. specialize (IH Hp).
    destruct (foldl _ _ l) as [s' w'], (attempts publish l w1) as [failed wf].
    destruct IH as (-> & -> & -> & ?). by rewrite <- app_assoc.
  - pose proof (pending_IDs_NoDup _ Hids) as Hnd. rewrite Hp, !fmap_app in Hnd.
    apply NoDup_app in Hnd as (_ & Hk & [Ha _]%NoDup_cons).
    destruct (MarkPublished_pending s.(repo) a Hids) as (m' & Hm & Hp' & Hids').
    { rewrite Hp. set_solver. }
    simpl. rewrite Hm. set (s1 := with_metrics (with_repo s m') (countPublish 1 0 s.(metrics))).
    specialize (IH s1 w1 kept rest Hids').
    destruct (foldl _ _ l) as [s' w'], (attempts publish l w1) as [failed wf]. apply IH. simpl.
    rewrite Hp', Hp, filter_app. change ((a :: l) ++ rest) with (a :: l ++ rest).
    rewrite filter_cons, decide_False by tauto.
    rewrite !filter_other_IDs; [done| |].
    + rewrite fmap_app. set_solver.
    + intros Hin. apply (Hk _ Hin). apply elem_of_cons. by left.
Qed.

Lemma attempts_success {W} (publish : Publisher W) (l : list Alert) (w : W) :
  (forall a w, (publish a w).1 = None) ->
  attempts publish l w = ([], foldl (fun w a => (publish a w).2) w l).
Proof.
  intros Hok. revert w. induction l as [|a l IH]; intros w; simpl; [done|].
  specialize (Hok a w). destruct (publish a w) as [err w1]. simpl in *. by rewrite IH, Hok.
Qed.

Lemma attempts_failure {W} (publish : Publisher W) (l : list Alert) (w : W) :
  (forall a w, (publish a w).1 <> None) -> (attempts publish l w).1 = l.
Proof.
  intros Hbad. revert w. induction l as [|a l IH]; intros w; simpl; [done|].
  specialize (Hbad a w). destruct (publish a w) as [[m|] w1]; [|done].
  specialize (IH w1). destruct (attempts publish l w1) as [failed w']. simpl in *. by rewrite IH.
Qed.

(** One turn of [drain] on the in-memory repository. *)
Lemma drain_turn {W} (publish : Publisher W) (env : Env) (fuel : nat) (s : Service Memory) (w : W) :
  idsDistinct s.(repo).(Memory.alerts) ->
  exists s' w',
    let page := take 100 (pending s.(repo)) in
    let '(failed, wf) := attempts publish page w in
    w' = wf /\ pending s'.(repo) = failed ++ drop 100 (pending s.(repo)) /\
    s'.(runtime) = s.(runtime) /\ idsDistinct s'.(repo).(Memory.alerts) /\
    drain publish env (S fuel) s w
      = if (length (pending s.(repo)) <? 100)%nat then Some (s', w') else drain publish env fuel s' w'.
Proof.
  intros Hids. set (page := take 100 (pending s.(repo))).
  pose proof (publish_page publish env page s w [] (drop 100 (pending s.(repo))) Hids) as Hpage.
  simpl in Hpage. unfold page in Hpage at 1. rewrite take_drop in Hpage. specialize (Hpage eq_refl).
  simpl. rewrite ClaimPending_take by done. change (Z.to_nat 100) with 100%nat. fold page.
  replace (with_repo s s.(repo)) with s by (by destruct s).
  destruct (foldl _ _ page) as [s' w'] eqn:Ef. exists s', w'.
  destruct (attempts publish page w) as [failed wf] eqn:Ea. destruct Hpage as (-> & Hp & Hrt & Hid).
  repeat split_and; try done.
  assert (length page = min 100 (length (pending s.(repo)))) as Hlen by apply length_take.
  destruct (length page =? 0)%nat eqn:E0.
  - apply Nat.eqb_eq in E0. rewrite E0 in Hlen. assert (length (pending s.(repo)) = 0) as Hz by lia.
    rewrite Hz. simpl. apply nil_length_inv in E0. rewrite E0 in Ef, Ea. simpl in Ef, Ea. by simplify_eq.
  - destruct (Nat.ltb_spec (length (pending s.(repo))) 100) as [Hl|Hl].
    + by replace (length page <? 100)%nat with true by (symmetry; apply Nat.ltb_lt; lia).
    + by replace (length page <? 100)%nat with false by (symmetry; apply Nat.ltb_ge; lia).
Qed.

(** The two extremes of the loop, from any wake-up. *)
Lemma drain_all {W} (publish : Publisher W) (env : Env) (fuel : nat) (s : Service Memory) (w : W) :
  idsDistinct s.(repo).(Memory.alerts) ->
  (forall a w, (publish a w).1 = None) ->
  length (pending s.(repo)) < fuel ->
  exists s', drain publish env fuel s w
             = Some (s', foldl (fun w a => (publish a w).2) w (pending s.(repo))) /\
    pending s'.(repo) = [] /\ s'.(runtime) = s.(runtime).
Proof.
  intros Hids Hok. revert s w Hids. induction fuel as [|fuel IH]; intros s w Hids Hfuel; [lia|].
  destruct (drain_turn publish env fuel s w Hids) as (s1 & w1 & Hturn). cbv zeta in Hturn.
  rewrite (attempts_success _ _ _ Hok) in Hturn. destruct Hturn as (-> & Hp & Hrt & Hid & ->). simpl in Hp.
  destruct (Nat.ltb_spec (length (pending s.(repo))) 100) as [Hl|Hl].
  - exists s1. rewrite Hp, take_ge, drop_ge by lia. done.
  - rewrite <- Hrt. edestruct (IH s1 (foldl (fun w a => (publish a w).2) w (take 100 (pending s.(repo)))) Hid)
      as (s2 & Hd & Hp2 & Hr2); [rewrite Hp, length_drop; lia|].
    exists s2. rewrite Hp, <- foldl_app, take_drop in Hd. done.
Qed.

Lemma drain_none {W} (publish : Publisher W) (env : Env) (fuel : nat) (s : Service Memory) (w : W) :
  idsDistinct s.(repo).(Memory.alerts) ->
  (forall a w, (publish a w).1 <> None) ->
  100 <= length (pending s.(repo)) ->
  drain publish env fuel s w = None.
Proof.
  intros Hids Hbad. revert s w Hids. induction fuel as [|fuel IH]; intros s w Hids Hlen; [done|].
  destruct (drain_turn publish env fuel s w Hids) as (s1 & w1 & Hturn). cbv zeta in Hturn.
  pose proof (attempts_failure publish (take 100 (pending s.(repo))) w Hbad) as Ha.
  destruct (attempts _ _ _) as [failed wf]. simpl in Ha. subst failed.
  destruct Hturn as (-> & Hp & _ & Hid & ->). rewrite take_drop in Hp.
  replace (length (pending s.(repo)) <? 100)%nat with false by (symmetry; apply Nat.ltb_ge; lia).
  apply IH; [done|]. by rewrite Hp.
Qed.

(** ** Properties *)

(** [validateObservation] accepts exactly the admissible observations: a
    complete envelope, a known status, resets only as confirmed, finite prices
    with the low least and the high greatest, finite indicators of a positive
    period, and history bars with a time and ordered prices (which, unlike the
    candle's, may be NaN). *)
Theorem validateObservation_correct (o : Observation) : validateObservation o = None <-> admissible o.
Proof.
  unfold validateObservation. cbv zeta.
  rewrite !check_None, envelope_spec, pricesInvalid_spec, finite_spec, indicators_spec, history_spec.
  pose proof (status_spec o). split.
  - intros H1. constructor; tauto.
  - intros [H1 H2 H3 H4 H5]. tauto.
Qed.

Section IngestionProperties.
Context {R : Type} `{RepositoryLaws R} `{!ControlRepository R}.

(** C24: ingestion is guarded. A batch is refused with the whole service
    unchanged when the definition cache is too old or any of its observations
    is not admissible; it never panics; when it fails later, the engine's
    states, the index and the checkpoint are as before and the publisher is
    not woken; and when it succeeds every observation was admissible and is
    counted, and the publisher is woken if there are alerts. *)
Theorem IngestBatch_guarded (clock : Clock) (p : Z) (obs : list Observation) (s : Service R)
  (cs : list compiledDefinition) :
  represents s.(runtime).(byRoute) cs ->
  let fresh := DefinitionsFresh clock.(Clock.unixNanos) s.(definitionMaxStaleness) s.(runtime) in
  let '(res, s') := IngestBatch clock p obs s in
  res <> Panic /\
  (fresh = false \/ ~ Forall (fun o => validateObservation o = None) obs ->
     (exists err, res = Err err) /\ s' = s) /\
  (forall err, res = Err err -> sameRuntime s s') /\
  (forall alerts, res = Ok alerts ->
     fresh = true /\ Forall (fun o => validateObservation o = None) obs /\
     s'.(metrics).(Observations) = addTo s.(metrics).(Observations) (Z.of_nat (length obs)) /\
     s'.(wake) = s.(wake) || (0 <? length alerts)%nat).
Proof.
  intros Hrep fresh. pose proof (IngestBatch_failed clock p obs s cs Hrep) as Hfail.
  pose proof (validateAll_None obs) as Hv. unfold IngestBatch in *. fold fresh in Hfail |- *.
  destruct fresh; simpl in *.
  2:{ repeat split; try done; eauto. }
  destruct (validateAll obs) as [e|].
  { repeat split; try done; eauto. }
  destruct (EvaluateBatch _ _ _ _ _) as [[res e'] r'].
  destruct (afterEvaluation_fields clock obs res (with_runtime (with_repo s r') e')) as (_ & _ & Hw & Ho).
  destruct Hfail as [Hnp Herr]. split; [done|]. split; [|split; [done|]].
  - intros [?|Hn]; [done|]. by destruct Hn; apply Hv.
  - intros alerts Hres. destruct res; simplify_eq/=. split; [done|]. split; [by apply Hv|done].
Qed.

(** A single observation is never misrouted. On a worker that owns the
    partition of its series, [Ingest] fails only for an observation that is
    not admissible, a definition cache that is too old, or a repository that
    failed; in each case the engine and the checkpoint are as before. *)
Theorem Ingest_errors (clock : Clock) (o : Observation) (s s' : Service R) (cs : list compiledDefinition)
  (err : ServiceError) :
  represents s.(runtime).(byRoute) cs ->
  inRange s.(runtime) (Partition s.(runtime) o.(Observation.Series)) ->
  owns s.(runtime) (Partition s.(runtime) o.(Observation.Series)) = true ->
  Ingest clock o s = (Err err, s') ->
  sameRuntime s s' /\
  (validateObservation o = Some err \/
   err = ErrStaleCache /\ DefinitionsFresh clock.(Clock.unixNanos) s.(definitionMaxStaleness) s.(runtime) = false \/
   exists se, err = ErrEngine (ErrRepository se)).
Proof.
  intros Hrep Hr Ho. unfold Ingest. destruct (validateObservation o) as [e|] eqn:Ev.
  { intros [= <- <-]. split; [done|by left]. }
  set (p := Partition s.(runtime) o.(Observation.Series)) in *. intros Hi.
  pose proof (IngestBatch_failed clock p [o] s cs Hrep) as Hfail. rewrite Hi in Hfail.
  split; [by destruct Hfail as [_ Hf]; apply (Hf err)|]. unfold IngestBatch in Hi. simpl in Hi. rewrite Ev in Hi.
  destruct (DefinitionsFresh _ _ _); simpl in Hi; [|right; left; by simplify_eq].
  destruct (EvaluateBatch _ _ _ _ _) as [[res e'] r'] eqn:Ee. destruct res as [|er|]; simplify_eq/=.
  apply EvaluateBatch_routed in Ee as [se ->]; [|done|done]. right; right. by exists se.
Qed.
End IngestionProperties.

(** C32: [Create] can be repeated. Asking again for the same series, rule,
    modes and cool-down, at any later time and under any name, answers with
    the definition that is there, creates nothing, and leaves the repository,
    the index and every other part of the service as they were: also when the
    first call revived an archived definition. (The hypothesis excludes that
    the 128 bits of the hash in the identifier collide with those of an
    archived definition.) *)
Theorem Create_idempotent (clock clock' : Clock) (name name' : string) (series : Series) (rule : Rule)
  (evaluationMode triggerMode : string) (cooldown : Z) (s s1 : Service Memory) (d : AlertDefinition)
  (created : bool) :
  Create clock name series rule evaluationMode triggerMode cooldown s = (Some (d, created, None), s1) ->
  name' <> "" ->
  (isArchived s.(repo) d.(AlertDefinition.ID) = true ->
   s.(repo).(Memory.byHash) !! d.(AlertDefinition.DefinitionHash) = Some d.(AlertDefinition.ID)) ->
  Create clock' name' series rule evaluationMode triggerMode cooldown s1 = (Some (d, false, None), s1).
Proof.
  intros Hc Hname Hcol. pose proof Hc as Hcheck. unfold Create in Hc, Hcheck |- *.
  replace (checkCreate name' series rule evaluationMode triggerMode cooldown)
    with (checkCreate name series rule evaluationMode triggerMode cooldown).
  2:{ unfold checkCreate in *. apply String.eqb_neq in Hname. rewrite Hname.
      destruct (name == ""); [done|]. done. }
  destruct (checkCreate name _ _ _ _ _) as [[em tm]|e|]; [|done|done]. clear Hcheck.
  set (new := newDefinition _ (UTC clock.(Clock.now)) _ _ _ _ _ _) in Hc.
  set (new' := newDefinition _ _ name' _ _ _ _ _).
  assert (new'.(AlertDefinition.DefinitionHash) = new.(AlertDefinition.DefinitionHash)) as Hh by done.
  simpl in Hc |- *. destruct (CreateDefinition new s.(repo)) as [[d0 created0] m] eqn:Em.
  destruct (indexDefinition d0 (with_repo s m)) as [[[]| |] s2] eqn:Ei; simplify_eq.
  assert (CreateDefinition new' m = (d, false, m)) as Hm.
  { clear Ei. unfold CreateDefinition in *. rewrite Hh.
    destruct (s.(repo).(Memory.byHash) !! new.(AlertDefinition.DefinitionHash)) as [id|] eqn:Eh.
    - destruct (isArchived s.(repo) id) eqn:Ea; simplify_eq/=.
      + unfold isArchived. simpl. by rewrite Eh, lookup_delete_eq, lookup_insert_eq.
      + by rewrite Eh, Ea.
    - simplify_eq/=. rewrite lookup_insert_eq. unfold isArchived in *. simpl in *.
      destruct (default false _) eqn:Ea; [|by rewrite lookup_insert_eq].
      specialize (Hcol eq_refl). congruence. }
  unfold indexDefinition in Ei |- *. simpl in Ei.
  destruct (UpsertDefinition d s.(runtime)) as [res e] eqn:Eu. injection Ei as Hres <-.
  destruct res as [[]| |]; [|done|done]. simpl. rewrite Hm. simpl.
  by rewrite (UpsertDefinition_again _ _ _ Eu).
Qed.

(** Where an indexed definition is found. *)
Lemma UpsertDefinition_found (d : AlertDefinition) (e e' : Engine) :
  UpsertDefinition d e = (Ok (), e') ->
  exists c, compiledDefinition.definition c = d /\ c ∈ definitionsFor e' d.(AlertDefinition.Series).
Proof.
  unfold UpsertDefinition. destruct (Compile _) as [c| |]; [|done|done].
  set (key := routeKey _). set (new := compiledDefinition.mk d c). intros Hu.
  exists new. split; [done|]. unfold definitionsFor. apply elem_of_app. left. fold key.
  destruct (replaceFirst _ new _) as [l|] eqn:E; injection Hu as <-; unfold routeList at 1; simpl;
    rewrite lookup_insert_eq; simpl.
  - apply replaceFirst_Some in E as (l1 & c0 & l2 & _ & _ & ->). set_solver.
  - rewrite sortByID_perm. set_solver.
Qed.

Lemma SetEnabled_Ok (env : Env) (clock : Clock) (id : string) (enabled : bool) (s s' : Service Memory)
  (d : AlertDefinition) :
  SetEnabled env clock id enabled s = (Some (d, None), s') ->
  d.(AlertDefinition.Enabled) = enabled /\ d.(AlertDefinition.EffectiveAt) = boundary clock s /\
  s'.(activationDelay) = s.(activationDelay) /\ UpsertDefinition d s.(runtime) = (Ok (), s'.(runtime)).
Proof.
  unfold SetEnabled, boundary. simpl. unfold Memory.SetEnabled.
  destruct (_ !! id) as [d0|]; [|done]. destruct (isArchived _ _); [done|].
  unfold indexDefinition. simpl.
  destruct (UpsertDefinition _ _) as [[[]| |] e] eqn:Eu; [|done|done]. intros [= <- <-]. done.
Qed.

(** Disabling a disabled definition enables it again for a while. A
    disable takes effect at a boundary, now plus the activation delay: a
    disabled definition counts as enabled for every event before it. Each
    further disable moves the boundary: between the two boundaries the first
    disable had switched the definition off, and the second switches it back
    on, in the index of the engine. *)
Theorem disable_twice_reactivates (env env' : Env) (clock clock' : Clock) (id : string)
  (s s1 s2 : Service Memory) (d1 d2 : AlertDefinition) (t : Time) :
  SetEnabled env clock id false s = (Some (d1, None), s1) ->
  SetEnabled env' clock' id false s1 = (Some (d2, None), s2) ->
  (0 < boundary clock s <= t)%Z -> (t < boundary clock' s1)%Z ->
  definitionEnabledAt d1 t = false /\ definitionEnabledAt d2 t = true /\
  exists c, compiledDefinition.definition c = d2 /\
            c ∈ definitionsFor s2.(runtime) d2.(AlertDefinition.Series).
Proof.
  intros (He1 & Ht1 & _)%SetEnabled_Ok (He2 & Ht2 & _ & Hu)%SetEnabled_Ok Hb Ht.
  unfold definitionEnabledAt, effectiveAt, IsZero, Before. rewrite He1, He2, Ht1, Ht2.
  replace (boundary clock s =? 0)%Z with false by lia.
  replace (boundary clock' s1 =? 0)%Z with false by lia. simpl.
  split; [lia|]. split; [lia|]. by eapply UpsertDefinition_found.
Qed.

(** C25: on the in-memory repository, a publisher that accepts everything
    empties the outbox, in order. Whatever is pending when [RunPublisher]
    wakes, in however many pages, the loop ends, nothing is pending, the
    publisher was given each pending alert exactly once, oldest first, and the
    engine was not touched. One unit of fuel per pending alert is more than
    enough. This is not so on PostgreSQL, where rows that back off stay
    pending and a claim returns its rows in no particular order. *)
Theorem drain_empties {W} (publish : Publisher W) (env : Env) (woken : bool) (fuel : nat)
  (s : Service Memory) (w : W) :
  idsDistinct s.(repo).(Memory.alerts) ->
  (forall a w, (publish a w).1 = None) ->
  length (pending s.(repo)) < fuel ->
  exists s', publisherTick publish env woken fuel s w
             = Some (s', foldl (fun w a => (publish a w).2) w (pending s.(repo))) /\
    pending s'.(repo) = [] /\ s'.(runtime) = s.(runtime).
Proof.
  intros Hids Hok Hfuel. unfold publisherTick. destruct woken; [|by apply drain_all].
  by apply (drain_all publish env fuel (with_wake s false) w).
Qed.

(** With a hundred refused alerts the publisher never rests. The
    in-memory repository does not defer what failed, so as long as the broker
    refuses everything and a page is full, [RunPublisher] claims the same
    page again at once: its inner loop never returns to the ticker or to the
    cancellation of its context, whatever the fuel. *)
Theorem drain_spins {W} (publish : Publisher W) (env : Env) (woken : bool) (fuel : nat)
  (s : Service Memory) (w : W) :
  idsDistinct s.(repo).(Memory.alerts) ->
  (forall a w, (publish a w).1 <> None) ->
  100 <= length (pending s.(repo)) ->
  publisherTick publish env woken fuel s w = None.
Proof.
  intros Hids Hbad Hlen. unfold publisherTick. destruct woken; [|by apply drain_none].
  by apply (drain_none publish env fuel (with_wake s false) w).
Qed.

(** ** Witnesses *)

Definition clockAt (n : Z) : Clock := Clock.mk (minutes n) (60 * 10 ^ 9 * n + 1) Millisecond.
Definition envAt (n : Z) : Env := Env.mk (minutes n) [].

(** A service with one definition, two seconds of activation delay. *)
Definition delayed : Options := Options.mk (2 * Second) Minute 0 1.
Definition created (clock : Clock) (name : string) (s : Service Memory)
  : option (AlertDefinition * bool * option ServiceError) * Service Memory :=
  Create clock name btc redColor "" "every_match" 0 s.
Definition oneDefinition : AlertDefinition * Service Memory :=
  match created (clockAt 0) "red" (NewWithOptions NewMemory delayed) with
  | (Some (d, _, None), s) => (d, s)
  | (_, s) => (AlertDefinition.zero, s)
  end.

Lemma oneDefinition_created :
  created (clockAt 0) "red" (NewWithOptions NewMemory delayed) = (Some (oneDefinition.1, true, None), oneDefinition.2).
Proof.
  assert (match (created (clockAt 0) "red" (NewWithOptions NewMemory delayed)).1 with
          | Some (_, b, None) => b | _ => false end = true) as H by (vm_compute; reflexivity).
  unfold oneDefinition. destruct (created _ _ _) as [[[[d b] [e|]]|] s]; simpl in H |- *; [done|by subst b|done].
Qed.

Lemma Create_idempotent_witness :
  created (clockAt 9) "crimson" oneDefinition.2 = (Some (oneDefinition.1, false, None), oneDefinition.2) /\
  oneDefinition.1.(AlertDefinition.Name) = "red".
Proof.
  split; [|vm_compute; reflexivity].
  apply (Create_idempotent (clockAt 0) (clockAt 9) "red" "crimson" btc redColor "" "every_match" 0
           (NewWithOptions NewMemory delayed) oneDefinition.2 oneDefinition.1 true oneDefinition_created).
  - intros H. discriminate H.
  - vm_compute. intros H. discriminate H.
Defined.

Definition colorService : Service Memory :=
  with_runtime (NewWithOptions NewMemory delayed) colorEngine.

Lemma IngestBatch_guarded_witness :
  let '(res, s') := IngestBatch (clockAt 0) 142 [redBar] colorService in
  (exists alerts, res = Ok alerts /\ length alerts = 1) /\ s'.(wake) = true.
Proof.
  destruct colorEngine_represents as (cs & _ & Hcs).
  pose proof (IngestBatch_guarded (clockAt 0) 142 [redBar] colorService cs Hcs) as H. cbv zeta in H.
  assert (match (IngestBatch (clockAt 0) 142 [redBar] colorService).1 with
          | Ok alerts => length alerts =? 1 | _ => false end = true)%nat as E by (vm_compute; reflexivity).
  destruct (IngestBatch _ _ _ _) as [[alerts| |] s']; [|discriminate E|discriminate E].
  apply Nat.eqb_eq in E. destruct H as (_ & _ & _ & H).
  destruct (H alerts eq_refl) as (_ & _ & _ & Hw). split; [by exists alerts|].
  rewrite Hw. simpl in E. rewrite E. reflexivity.
Defined.

Definition unnamedBar : Observation := confirmedBar "" btc start 101 100.

Lemma Ingest_errors_witness :
  validateObservation unnamedBar = Some ErrEnvelope /\
  sameRuntime colorService (Ingest (clockAt 0) unnamedBar colorService).2.
Proof.
  split; [vm_compute; reflexivity|].
  destruct colorEngine_represents as (cs & _ & Hcs).
  apply (Ingest_errors (clockAt 0) unnamedBar colorService
           (Ingest (clockAt 0) unnamedBar colorService).2 cs ErrEnvelope Hcs).
  - split; vm_compute; [intros H; discriminate H|reflexivity].
  - vm_compute. reflexivity.
  - reflexivity.
Defined.

(** The definition disabled at minute [n]. *)
Definition disabledAt (n : Z) (s : Service Memory) : option (AlertDefinition * option ServiceError) * Service Memory :=
  SetEnabled (envAt n) (clockAt n) oneDefinition.1.(AlertDefinition.ID) false s.

Lemma disable_twice_reactivates_witness :
  let s1 := (disabledAt 10 oneDefinition.2).2 in
  exists d1 d2, disabledAt 10 oneDefinition.2 = (Some (d1, None), s1) /\ disabledAt 20 s1 = (Some (d2, None), (disabledAt 20 s1).2) /\
    definitionEnabledAt d1 (minutes 20) = false /\ definitionEnabledAt d2 (minutes 20) = true.
Proof.
  intros s1.
  assert (match (disabledAt 10 oneDefinition.2).1, (disabledAt 20 s1).1 with
          | Some (_, None), Some (_, None) => true | _, _ => false end = true) as H by (vm_compute; reflexivity).
  destruct (disabledAt 10 oneDefinition.2) as [[[d1 [e|]]|] s1'] eqn:E1; [discriminate H| |discriminate H].
  destruct (disabledAt 20 s1) as [[[d2 [e|]]|] s2] eqn:E2; [discriminate H| |discriminate H].
  exists d1, d2. split; [reflexivity|]. split; [reflexivity|].
  destruct (disable_twice_reactivates (envAt 10) (envAt 20) (clockAt 10) (clockAt 20)
              oneDefinition.1.(AlertDefinition.ID) oneDefinition.2 s1 s2 d1 d2 (minutes 20) E1 E2)
    as (Hd1 & Hd2 & _).
  - split; vm_compute; [reflexivity|intros Hc; discriminate Hc].
  - destruct (SetEnabled_Ok _ _ _ _ _ _ _ E1) as (_ & _ & Hdelay & _).
    unfold boundary. replace (activationDelay s1) with (activationDelay oneDefinition.2) by (symmetry; exact Hdelay).
    vm_compute. reflexivity.
  - split; [exact Hd1|exact Hd2].
Defined.

Definition withOutbox (n : nat) : Service Memory :=
  NewService (commitRuntimeBatch (someBatch ((fun i => someAlert (pretty i) "pending") <$> seqZ 1 (Z.of_nat n))) NewMemory).2.

Lemma LogPublisher_all (l log : list Alert) : foldl (fun w a => (LogPublisher a w).2) log l = log ++ l.
Proof.
  revert log. induction l as [|a l IH]; intros log; simpl; [by rewrite app_nil_r|].
  by rewrite IH, <- app_assoc.
Qed.

Lemma drain_empties_witness :
  exists s', publisherTick LogPublisher (envAt 0) true 251 (withOutbox 250) [] = Some (s', pending (withOutbox 250).(repo))
    /\ pending s'.(repo) = [].
Proof.
  destruct (drain_empties LogPublisher (envAt 0) true 251 (withOutbox 250) []) as (s' & Hd & Hp & _).
  - apply (bool_decide_unpack _). vm_compute. exact I.
  - intros a w. reflexivity.
  - apply Nat.ltb_lt. vm_compute. reflexivity.
  - exists s'. split; [|exact Hp]. rewrite Hd, LogPublisher_all. reflexivity.
Defined.

Lemma drain_spins_witness :
  publisherTick (fun _ w => (Some "broker unavailable", w)) (envAt 0) false 1000 (withOutbox 100) () = None.
Proof.
  apply (drain_spins (fun _ w => (Some "broker unavailable", w)) (envAt 0) false 1000 (withOutbox 100) ()).
  - apply (bool_decide_unpack _). vm_compute. exact I.
  - intros a w H. discriminate H.
  - apply Nat.leb_le. vm_compute. reflexivity.
Defined.
