(* ===== verification/Signals.v ===== *)
(** * internal/signals/adapter.go: upstream events become observations

    An event is decoded JSON; its outputs are raw JSON values that the adapter
    decodes itself. A raw value is modelled by its syntax tree ([None] when
    the field was absent), and [json.Unmarshal] into the adapter's types is
    written out: [null] leaves a value as it is, unknown fields are skipped,
    field names match exactly or else up to case, the last of several equal
    fields wins, and a value of the wrong type is an error. *)

From stdpp Require Import base gmap strings list numbers sorting pretty.
From Stdlib Require Import Ascii.
From S2P Require Import Prelude GoFloat GoBase GoTime Model.

Definition AnalysisEventType : string := "io.ytstack.signals.analysis.updated.v1".

(** ** JSON values *)

(** A number is the binary64 it parses to, [None] when it is out of range. *)
Inductive Json :=
| JNull
| JBool (b : bool)
| JNumber (v : option float64)
| JString (s : string)
| JArray (l : list Json)
| JObject (fields : list (string * Json)).

(** Decoding into [any] fails only on a number out of range. *)
Fixpoint anyOk (j : Json) : bool :=
  match j with
  | JNumber None => false
  | JArray l => forallb anyOk l
  | JObject fields => forallb (fun kv => anyOk kv.2) fields
  | _ => true
  end.

(** [foldName], on the names that can equal an ASCII field name: lower-case
    letters, the Kelvin sign and the long s fold to capitals. *)
Fixpoint foldName (l : list Z) : list Z :=
  match l with
  | [] => []
  | c :: rest =>
      if ((97 <=? c) && (c <=? 122))%Z then (c - 32)%Z :: foldName rest else
      match rest with
      | d :: rest1 =>
          if ((c =? 197) && (d =? 191))%Z then 83%Z :: foldName rest1 else
          match rest1 with
          | e :: rest2 => if ((c =? 226) && (d =? 132) && (e =? 170))%Z then 75%Z :: foldName rest2
                          else c :: foldName rest
          | [] => c :: foldName rest
          end
      | [] => [c]
      end
  end.

(** The field a key sets. *)
Definition matchField (names : list string) (key : string) : option string :=
  if bool_decide (key ∈ names) then Some key
  else head (filter (fun name => foldName (bytesOf name) = foldName (bytesOf key)) names).

Definition setString (current : string) (j : Json) : option string :=
  match j with JString s => Some s | JNull => Some current | _ => None end.
Definition setFloat (current : float64) (j : Json) : option float64 :=
  match j with JNumber (Some v) => Some v | JNull => Some current | _ => None end.
(** A map field is added to when the key occurs again. *)
Definition setMap (current : gmap string Json) (j : Json) : option (gmap string Json) :=
  match j with
  | JObject fields =>
      if forallb (fun kv => anyOk kv.2) fields
      then Some (foldl (fun m kv => <[kv.1 := kv.2]> m) current fields) else None
  | JNull => Some ∅
  | _ => None
  end.

Definition decodeStruct {A} (setField : A -> string * Json -> option A) (zero : A) (j : Json) : option A :=
  match j with
  | JObject fields => loopM setField zero fields
  | JNull => Some zero
  | _ => None
  end.

Definition decodeSlice {A} (decode : Json -> option A) (j : Json) : option (list A) :=
  match j with
  | JArray l => mapM decode l
  | JNull => Some []
  | _ => None
  end.

(** ** Events *)

Module Bar.
Record Bar := mk {
  OpenTime : Time; Revision : Z; Status : string; SourceID : string;
  Open : float64; High : float64; Low : float64; Close : float64; Volume : float64; Trades : Z }.
End Bar.
Abbreviation Bar := Bar.Bar.

Module Implementation.
Record Implementation := mk {
  Engine : string; EngineVersion : string; AlgorithmVersion : string; ConfigHash : string }.
End Implementation.
Abbreviation Implementation := Implementation.Implementation.

Module Output.
Record Output := mk { Name : string; Value : option Json }.
End Output.
Abbreviation Output := Output.Output.

(** The fields of [Data] are listed with the others; the elements of [History]
    have the fields of a candle. *)
Module Event.
Record Event := mk {
  ID : string;
  Type_ : string;
  Time_ : Time;
  CorrelationID : string;
  Series : Model.Series;
  Bar : Bar;
  AnalysisName : string;
  AnalysisRevision : Z;
  IsReset : bool;
  History : list Candle;
  Implementation : Implementation;
  Outputs : list Output }.
End Event.
Abbreviation Event := Event.Event.

Module zone.
Record zone := mk {
  ID : string; Upper : float64; Lower : float64; Label : string; Direction : string; State : string;
  Attributes : gmap string Json }.
Definition zero : zone := mk "" (float_of_Z 0) (float_of_Z 0) "" "" "" ∅.
Definition names : list string := ["id"; "upper"; "lower"; "label"; "direction"; "state"; "attributes"].
Definition setZoneField (z : zone) (kv : string * Json) : option zone :=
  let '(key, v) := kv in
  match matchField names key with
  | None => Some z
  | Some name =>
      if name == "id" then
        (fun x => mk x z.(Upper) z.(Lower) z.(Label) z.(Direction) z.(State) z.(Attributes)) <$> setString z.(ID) v
      else if name == "upper" then
        (fun x => mk z.(ID) x z.(Lower) z.(Label) z.(Direction) z.(State) z.(Attributes)) <$> setFloat z.(Upper) v
      else if name == "lower" then
        (fun x => mk z.(ID) z.(Upper) x z.(Label) z.(Direction) z.(State) z.(Attributes)) <$> setFloat z.(Lower) v
      else if name == "label" then
        (fun x => mk z.(ID) z.(Upper) z.(Lower) x z.(Direction) z.(State) z.(Attributes)) <$> setString z.(Label) v
      else if name == "direction" then
        (fun x => mk z.(ID) z.(Upper) z.(Lower) z.(Label) x z.(State) z.(Attributes)) <$> setString z.(Direction) v
      else if name == "state" then
        (fun x => mk z.(ID) z.(Upper) z.(Lower) z.(Label) z.(Direction) x z.(Attributes)) <$> setString z.(State) v
      else
        (fun x => mk z.(ID) z.(Upper) z.(Lower) z.(Label) z.(Direction) z.(State) x) <$> setMap z.(Attributes) v
  end.
End zone.
Abbreviation zone := zone.zone.

Module point.
Record point := mk { Label : string; Direction : string; Attributes : gmap string Json }.
Definition zero : point := mk "" "" ∅.
Definition names : list string := ["label"; "direction"; "attributes"].
Definition setPointField (p : point) (kv : string * Json) : option point :=
  let '(key, v) := kv in
  match matchField names key with
  | None => Some p
  | Some name =>
      if name == "label" then (fun x => mk x p.(Direction) p.(Attributes)) <$> setString p.(Label) v
      else if name == "direction" then (fun x => mk p.(Label) x p.(Attributes)) <$> setString p.(Direction) v
      else (fun x => mk p.(Label) p.(Direction) x) <$> setMap p.(Attributes) v
  end.
End point.
Abbreviation point := point.point.

(** ** The adapter *)

(** The type switches of [value.(string)] and [value.(float64)]. *)
Definition text (value : option Json) : string :=
  match value with Some (JString s) => s | _ => "" end.
Definition number (value : option Json) : float64 :=
  match value with Some (JNumber (Some v)) => v | _ => float_of_Z 0 end.

Definition sourceSide (direction : string) (attributes : gmap string Json) : string :=
  let side := text (attributes !! "source_direction") in
  if side != "" then side
  else if direction == "bullish" then "up"
  else if direction == "bearish" then "down"
  else "".

Definition zoneOf (v : zone) : Zone :=
  Zone.mk v.(zone.ID) v.(zone.Label) (sourceSide v.(zone.Direction) v.(zone.Attributes)) v.(zone.State)
    v.(zone.Upper) v.(zone.Lower).

Definition transitionOf (v : point) : ZoneTransition :=
  let a := v.(point.Attributes) in
  ZoneTransition.mk (text (a !! "zone_id")) (text (a !! "kind")) (sourceSide v.(point.Direction) a)
    (text (a !! "transition")) (number (a !! "upper")) (number (a !! "lower")).

Definition patternOf (v : point) : Pattern :=
  Pattern.mk v.(point.Label) (sourceSide v.(point.Direction) v.(point.Attributes)).

Inductive SignalsError :=
| ErrEventEnvelope
| ErrAnalysis
| ErrCorrelation
| ErrOutput (name : string).

(** [append]s to the slices of an observation. *)
Definition extend (o : Observation) (indicators : list Indicator) (zones : list Zone)
  (transitions : list ZoneTransition) (patterns : list Pattern) : Observation :=
  Observation.mk o.(Observation.Schema) o.(Observation.SourceEventID) o.(Observation.CorrelationID)
    o.(Observation.OccurredAt) o.(Observation.Status) o.(Observation.Revision) o.(Observation.IsReset)
    o.(Observation.History) o.(Observation.Series) o.(Observation.Candle)
    (o.(Observation.Indicators) ++ indicators) (o.(Observation.ActiveZones) ++ zones)
    (o.(Observation.ZoneTransitions) ++ transitions) (o.(Observation.Patterns) ++ patterns)
    o.(Observation.FeatureAlgorithm).

(** The switch on an output's name; [None] is its error. An absent value is
    no JSON text, which [json.Unmarshal] refuses. *)
Definition addOutput (o : Observation) (output : Output) : option Observation :=
  let name := output.(Output.Name) in
  if hasPrefix name "ema_" then
    period ← atoi (trimPrefix name "ema_");
    value ← output.(Output.Value) ≫= setFloat (float_of_Z 0);
    Some (extend o [Indicator.mk "ema" period value true] [] [] [])
  else if (name == "fvgs") || (name == "order_blocks") then
    values ← output.(Output.Value) ≫= decodeSlice (decodeStruct zone.setZoneField zone.zero);
    Some (extend o [] (zoneOf <$> values) [] [])
  else if name == "zone_transitions" then
    values ← output.(Output.Value) ≫= decodeSlice (decodeStruct point.setPointField point.zero);
    Some (extend o [] [] (transitionOf <$> values) [])
  else if name == "pattern_occurrences" then
    values ← output.(Output.Value) ≫= decodeSlice (decodeStruct point.setPointField point.zero);
    Some (extend o [] [] [] (patternOf <$> values))
  else Some o.

Fixpoint addOutputs (o : Observation) (outputs : list Output) : SignalsError + Observation :=
  match outputs with
  | [] => inr o
  | output :: rest =>
      match addOutput o output with
      | Some o' => addOutputs o' rest
      | None => inl (ErrOutput output.(Output.Name))
      end
  end.

(** A bar with its time in UTC. *)
Definition utcCandle (c : Candle) : Candle :=
  Candle.mk (UTC c.(Candle.OpenTime)) c.(Candle.Open) c.(Candle.High) c.(Candle.Low) c.(Candle.Close)
    c.(Candle.Volume) c.(Candle.Trades).

Definition candleOfBar (b : Bar) : Candle :=
  utcCandle (Candle.mk b.(Bar.OpenTime) b.(Bar.Open) b.(Bar.High) b.(Bar.Low) b.(Bar.Close)
               b.(Bar.Volume) b.(Bar.Trades)).

(** The observation before the outputs are added. *)
Definition baseObservation (event : Event) : Observation :=
  Observation.mk "alerts.observation.v1" event.(Event.ID) event.(Event.CorrelationID)
    (UTC event.(Event.Time_)) event.(Event.Bar).(Bar.Status) event.(Event.AnalysisRevision)
    event.(Event.IsReset) (utcCandle <$> event.(Event.History)) event.(Event.Series)
    (candleOfBar event.(Event.Bar)) [] [] [] []
    (AlgorithmRef.mk event.(Event.AnalysisName)
       event.(Event.Implementation).(Implementation.AlgorithmVersion)
       event.(Event.Implementation).(Implementation.ConfigHash)).

(** The function [Observation] of the package. *)
Definition observationOf (event : Event) : SignalsError + Observation :=
  if (event.(Event.Type_) != AnalysisEventType) || (event.(Event.ID) == "") || (event.(Event.CorrelationID) == "")
  then inl ErrEventEnvelope
  else if event.(Event.AnalysisName) != "smc.market_state" then inl ErrAnalysis
  else if (event.(Event.Bar).(Bar.SourceID) == "")
          || (event.(Event.Bar).(Bar.SourceID) != event.(Event.CorrelationID)) then inl ErrCorrelation
  else addOutputs (baseObservation event) event.(Event.Outputs).
