(* ===== verification/SignalsProps.v ===== *)
(** * What the adapter makes of an event

    A reading of an event by its parts: which fields of a JSON object count,
    which side a fact has, what each output states, which error comes first.
    The adapter's loops and decoders give exactly that. *)

From stdpp Require Import base gmap strings list numbers sorting pretty.
From S2P Require Import Prelude GoFloat GoBase GoTime Model Fixtures Signals.

(** ** What an event states *)

(** The values of one field of an object, in their order. *)
Definition values (names : list string) (name : string) (fields : list (string * Json)) : list Json :=
  snd <$> filter (fun kv => matchField names kv.1 = Some name) fields.

Definition asText (j : Json) : option string := match j with JString s => Some s | _ => None end.
Definition asNumber (j : Json) : option float64 := match j with JNumber v => v | _ => None end.

(** The last of them that is of the type wanted. *)
Definition lastOf {A} (read : Json -> option A) (otherwise : A) (vs : list Json) : A := default otherwise (last (omap read vs)).

(** The attributes: a null forgets those before it, an object adds its own;
    of equal keys the last counts. *)
Definition addEntries (entries : list (string * Json)) (v : Json) : list (string * Json) :=
  match v with JNull => [] | JObject more => entries ++ more | _ => entries end.
Definition entry (key : string) (vs : list Json) : option Json :=
  snd <$> last (filter (fun kv => kv.1 = key) (foldl addEntries [] vs)).

(** The types of the fields; a null fits each. *)
Definition fits (name : string) (v : Json) : bool :=
  match v with
  | JNull => true
  | JString _ => negb (bool_decide (name ∈ ["upper"; "lower"; "attributes"]))
  | JNumber (Some _) => bool_decide (name ∈ ["upper"; "lower"])
  | JObject entries => (name == "attributes") && forallb (fun kv => anyOk kv.2) entries
  | _ => false
  end.
Definition fieldsFit (names : list string) (fields : list (string * Json)) : bool :=
  forallb (fun kv => match matchField names kv.1 with Some name => fits name kv.2 | None => true end) fields.

(** The elements of a list, and the fields of one. *)
Definition elementsOf (value : option Json) : option (list Json) :=
  match value with Some (JArray l) => Some l | Some JNull => Some [] | _ => None end.
Definition fieldsOf (j : Json) : option (list (string * Json)) :=
  match j with JObject fields => Some fields | JNull => Some [] | _ => None end.

(** The side of a fact: its attribute, or else what its direction says. *)
Definition unsided (source : option Json) : Prop := forall s, source = Some (JString s) -> s = "".
Inductive side : string -> option Json -> string -> Prop :=
| side_source direction s : s <> "" -> side direction (Some (JString s)) s
| side_bullish source : unsided source -> side "bullish" source "up"
| side_bearish source : unsided source -> side "bearish" source "down"
| side_none direction source :
    unsided source -> direction <> "bullish" -> direction <> "bearish" -> side direction source "".

Definition zoneStated (j : Json) (z : Zone) : Prop :=
  exists fields, fieldsOf j = Some fields /\ fieldsFit zone.names fields = true /\
    let texts name := lastOf asText "" (values zone.names name fields) in
    let numbers name := lastOf asNumber (float_of_Z 0) (values zone.names name fields) in
    z.(Zone.ID) = texts "id" /\ z.(Zone.Kind) = texts "label" /\ z.(Zone.State) = texts "state" /\
    z.(Zone.Upper) = numbers "upper" /\ z.(Zone.Lower) = numbers "lower" /\
    side (texts "direction") (entry "source_direction" (values zone.names "attributes" fields)) z.(Zone.Side).

Definition transitionStated (j : Json) (t : ZoneTransition) : Prop :=
  exists fields, fieldsOf j = Some fields /\ fieldsFit point.names fields = true /\
    let attribute key := entry key (values point.names "attributes" fields) in
    t.(ZoneTransition.ID) = default "" (attribute "zone_id" ≫= asText) /\
    t.(ZoneTransition.Kind) = default "" (attribute "kind" ≫= asText) /\
    t.(ZoneTransition.Transition) = default "" (attribute "transition" ≫= asText) /\
    t.(ZoneTransition.Upper) = default (float_of_Z 0) (attribute "upper" ≫= asNumber) /\
    t.(ZoneTransition.Lower) = default (float_of_Z 0) (attribute "lower" ≫= asNumber) /\
    side (lastOf asText "" (values point.names "direction" fields)) (attribute "source_direction") t.(ZoneTransition.Side).

Definition patternStated (j : Json) (p : Pattern) : Prop :=
  exists fields, fieldsOf j = Some fields /\ fieldsFit point.names fields = true /\
    p.(Pattern.Kind) = lastOf asText "" (values point.names "label" fields) /\
    side (lastOf asText "" (values point.names "direction" fields))
      (entry "source_direction" (values point.names "attributes" fields)) p.(Pattern.Side).

(** The facts of an output; without any, it is malformed. *)
Module Facts.
Record Facts := mk {
  Indicators : list Indicator; Zones : list Zone; Transitions : list ZoneTransition; Patterns : list Pattern }.
End Facts.
Abbreviation Facts := Facts.Facts.

Inductive states (output : Output) : Facts -> Prop :=
| states_average digits period v x :
    output.(Output.Name) = "ema_" +:+ digits -> atoi digits = Some period ->
    output.(Output.Value) = Some v -> v = JNumber (Some x) \/ v = JNull /\ x = float_of_Z 0 ->
    states output (Facts.mk [Indicator.mk "ema" period x true] [] [] [])
| states_zones l zones :
    output.(Output.Name) = "fvgs" \/ output.(Output.Name) = "order_blocks" ->
    elementsOf output.(Output.Value) = Some l -> Forall2 zoneStated l zones ->
    states output (Facts.mk [] zones [] [])
| states_transitions l transitions :
    output.(Output.Name) = "zone_transitions" ->
    elementsOf output.(Output.Value) = Some l -> Forall2 transitionStated l transitions ->
    states output (Facts.mk [] [] transitions [])
| states_patterns l patterns :
    output.(Output.Name) = "pattern_occurrences" ->
    elementsOf output.(Output.Value) = Some l -> Forall2 patternStated l patterns ->
    states output (Facts.mk [] [] [] patterns)
| states_other :
    (forall digits, output.(Output.Name) <> "ema_" +:+ digits) ->
    output.(Output.Name) ∉ ["fvgs"; "order_blocks"; "zone_transitions"; "pattern_occurrences"] ->
    states output (Facts.mk [] [] [] []).

(** The parts of an observation that are no facts. *)
Record envelopeOf (event : Event) (o : Observation) : Prop := {
  of_schema : o.(Observation.Schema) = "alerts.observation.v1";
  of_ids : o.(Observation.SourceEventID) = event.(Event.ID) /\ o.(Observation.CorrelationID) = event.(Event.CorrelationID);
  of_time : o.(Observation.OccurredAt) = event.(Event.Time_);
  of_status : o.(Observation.Status) = event.(Event.Bar).(Bar.Status);
  of_revision : o.(Observation.Revision) = event.(Event.AnalysisRevision);
  of_reset : o.(Observation.IsReset) = event.(Event.IsReset) /\ o.(Observation.History) = event.(Event.History);
  of_series : o.(Observation.Series) = event.(Event.Series);
  of_candle : let b := event.(Event.Bar) in o.(Observation.Candle) =
    Candle.mk b.(Bar.OpenTime) b.(Bar.Open) b.(Bar.High) b.(Bar.Low) b.(Bar.Close) b.(Bar.Volume) b.(Bar.Trades);
  of_algorithm : let i := event.(Event.Implementation) in o.(Observation.FeatureAlgorithm) =
    AlgorithmRef.mk event.(Event.AnalysisName) i.(Implementation.AlgorithmVersion) i.(Implementation.ConfigHash) }.

Definition enveloped (event : Event) : Prop :=
  event.(Event.Type_) = AnalysisEventType /\ event.(Event.ID) <> "" /\ event.(Event.CorrelationID) <> "".
Definition correlated (event : Event) : Prop :=
  event.(Event.Bar).(Bar.SourceID) <> "" /\ event.(Event.Bar).(Bar.SourceID) = event.(Event.CorrelationID).

(** What an event says: the first thing that is wrong with it, or all its
    facts, in the order of its outputs. *)
Inductive says (event : Event) : SignalsError + Observation -> Prop :=
| says_no_envelope : ~ enveloped event -> says event (inl ErrEventEnvelope)
| says_no_analysis :
    enveloped event -> event.(Event.AnalysisName) <> "smc.market_state" -> says event (inl ErrAnalysis)
| says_no_correlation :
    enveloped event -> event.(Event.AnalysisName) = "smc.market_state" -> ~ correlated event ->
    says event (inl ErrCorrelation)
| says_malformed before output after :
    enveloped event -> event.(Event.AnalysisName) = "smc.market_state" -> correlated event ->
    event.(Event.Outputs) = before ++ output :: after ->
    Forall (fun output => exists facts, states output facts) before -> (forall facts, ~ states output facts) ->
    says event (inl (ErrOutput output.(Output.Name)))
| says_all facts o :
    enveloped event -> event.(Event.AnalysisName) = "smc.market_state" -> correlated event ->
    Forall2 states event.(Event.Outputs) facts -> envelopeOf event o ->
    o.(Observation.Indicators) = facts ≫= Facts.Indicators ->
    o.(Observation.ActiveZones) = facts ≫= Facts.Zones ->
    o.(Observation.ZoneTransitions) = facts ≫= Facts.Transitions ->
    o.(Observation.Patterns) = facts ≫= Facts.Patterns ->
    says event (inr o).

(** ** Lemmas on the adapter *)

Lemma trimPrefix_ema (s : string) :
  hasPrefix ("ema_" +:+ s) "ema_" = true /\ trimPrefix ("ema_" +:+ s) "ema_" = s.
Proof.
  assert (hasPrefix ("ema_" +:+ s) "ema_" = true) as Hp by (simpl; by destruct s).
  split; [done|]. unfold trimPrefix. rewrite Hp. simpl.
  assert (forall n t, String.length t <= n -> String.substring 0 n t = t) as Hsub.
  { induction n as [|n IH]; intros [|c t] Hl; simpl in *; try done; [lia|]. by rewrite IH by lia. }
  apply Hsub. change ("" +:+ s) with s. lia.
Qed.

Lemma extend_nil (o : Observation) : extend o [] [] [] [] = o.
Proof. unfold extend. destruct o. simpl. by rewrite !app_nil_r. Qed.

Lemma extend_extend (o : Observation) is1 zs1 ts1 ps1 is2 zs2 ts2 ps2 :
  extend (extend o is1 zs1 ts1 ps1) is2 zs2 ts2 ps2 = extend o (is1 ++ is2) (zs1 ++ zs2) (ts1 ++ ts2) (ps1 ++ ps2).
Proof. unfold extend. simpl. by rewrite <- !app_assoc. Qed.

(** *** Decoding structs *)

Lemma lastOf_app {A} (read : Json -> option A) d l l' : lastOf read d (l ++ l') = lastOf read (lastOf read d l) l'.
Proof.
  unfold lastOf. rewrite omap_app, last_app. by destruct (last (omap read l')).
Qed.

Lemma values_cons names name kv fields :
  values names name (kv :: fields) = values names name [kv] ++ values names name fields.
Proof. unfold values. by rewrite <- fmap_app, <- filter_app. Qed.

(** The map a decoder builds of the attributes. *)
Definition attributesFrom (m : gmap string Json) (vs : list Json) : gmap string Json :=
  foldl (fun m v => match v with
                    | JNull => ∅
                    | JObject entries => foldl (fun m kv => <[kv.1 := kv.2]> m) m entries
                    | _ => m
                    end) m vs.

Lemma attributesFrom_entry key vs : attributesFrom ∅ vs !! key = entry key vs.
Proof.
  unfold entry. assert (forall entries (m : gmap string Json) start,
    m !! key = snd <$> last (filter (fun kv : string * Json => kv.1 = key) start) ->
    foldl (fun m (kv : string * Json) => <[kv.1 := kv.2]> m) m entries !! key
    = snd <$> last (filter (fun kv => kv.1 = key) (start ++ entries))) as Hadd.
  { induction entries as [|[k v] entries IH]; intros m start Hm; simpl; [by rewrite app_nil_r|].
    change ((k, v) :: entries) with ([(k, v)] ++ entries). rewrite app_assoc. apply IH. rewrite filter_app, last_app.
    destruct (decide (k = key)) as [->|Hne].
    - rewrite lookup_insert_eq, filter_cons_True by done. done.
    - rewrite lookup_insert_ne, filter_cons_False by done. done. }
  assert (forall vs (m : gmap string Json) start,
    m !! key = snd <$> last (filter (fun kv : string * Json => kv.1 = key) start) ->
    attributesFrom m vs !! key = snd <$> last (filter (fun kv => kv.1 = key) (foldl addEntries start vs))) as Hall.
  { clear vs. induction vs as [|v vs IH]; intros m start Hm; [done|]. apply IH. destruct v; try done. by apply Hadd. }
  by apply Hall.
Qed.

Definition zoneFrom (z : zone) (fields : list (string * Json)) : zone :=
  let vs name := values zone.names name fields in
  zone.mk (lastOf asText z.(zone.ID) (vs "id")) (lastOf asNumber z.(zone.Upper) (vs "upper"))
    (lastOf asNumber z.(zone.Lower) (vs "lower")) (lastOf asText z.(zone.Label) (vs "label"))
    (lastOf asText z.(zone.Direction) (vs "direction")) (lastOf asText z.(zone.State) (vs "state"))
    (attributesFrom z.(zone.Attributes) (vs "attributes")).
Definition pointFrom (p : point) (fields : list (string * Json)) : point :=
  let vs name := values point.names name fields in
  point.mk (lastOf asText p.(point.Label) (vs "label")) (lastOf asText p.(point.Direction) (vs "direction"))
    (attributesFrom p.(point.Attributes) (vs "attributes")).

Lemma matchField_elem names key name : matchField names key = Some name -> name ∈ names.
Proof.
  unfold matchField. case_bool_decide; [by intros [= <-]|]. intros Hh%head_Some_elem_of.
  by apply list_elem_of_filter in Hh as [_ ?].
Qed.

Lemma values_one names name name' key v :
  matchField names key = Some name' -> values names name [(key, v)] = if name' == name then [v] else [].
Proof.
  intros Hm. unfold values. destruct (String.eqb_spec name' name) as [->|Hne].
  - by rewrite filter_cons_True.
  - rewrite filter_cons_False; [done|]. simpl. congruence.
Qed.
Lemma values_skip names name key v : matchField names key = None -> values names name [(key, v)] = [].
Proof. intros Hm. unfold values. rewrite filter_cons_False; [done|]. simpl. congruence. Qed.

Lemma setZoneField_from z kv :
  zone.setZoneField z kv = if fieldsFit zone.names [kv] then Some (zoneFrom z [kv]) else None.
Proof.
  destruct kv as [key v]. unfold zone.setZoneField, fieldsFit, zoneFrom. simpl.
  destruct (matchField zone.names key) as [name|] eqn:Hm.
  - rewrite !(values_one _ _ _ _ v Hm). apply matchField_elem in Hm.
    repeat (apply elem_of_cons in Hm as [->|Hm]); [..|by apply elem_of_nil in Hm]; cbn [String.eqb Ascii.eqb Bool.eqb];
      destruct v as [| |[x|]| | |]; try reflexivity; simpl; by destruct (forallb _ _), z.
  - rewrite !(values_skip _ _ _ v Hm). by destruct z.
Qed.

Lemma setPointField_from p kv :
  point.setPointField p kv = if fieldsFit point.names [kv] then Some (pointFrom p [kv]) else None.
Proof.
  destruct kv as [key v]. unfold point.setPointField, fieldsFit, pointFrom. simpl.
  destruct (matchField point.names key) as [name|] eqn:Hm.
  - rewrite !(values_one _ _ _ _ v Hm). apply matchField_elem in Hm.
    repeat (apply elem_of_cons in Hm as [->|Hm]); [..|by apply elem_of_nil in Hm]; cbn [String.eqb Ascii.eqb Bool.eqb];
      destruct v as [| |[x|]| | |]; try reflexivity; simpl; by destruct (forallb _ _), p.
  - rewrite !(values_skip _ _ _ v Hm). by destruct p.
Qed.

(** A loop over the fields, each of which is set on its own. *)
Lemma decodeStruct_from {A} (setField : A -> string * Json -> option A) (from : A -> list (string * Json) -> A)
  (names : list string) (zero : A) :
  (forall x, from x [] = x) -> (forall x kv fields, from x (kv :: fields) = from (from x [kv]) fields) ->
  (forall x kv, setField x kv = if fieldsFit names [kv] then Some (from x [kv]) else None) ->
  forall j, decodeStruct setField zero j =
    match fieldsOf j with
    | Some fields => if fieldsFit names fields then Some (from zero fields) else None
    | None => None
    end.
Proof.
  intros Hnil Hcons Hset.
  assert (forall fields x, loopM setField x fields = if fieldsFit names fields then Some (from x fields) else None) as Hloop.
  { induction fields as [|kv fields IH]; intros x; [simpl; by rewrite Hnil|]. cbn [loopM]. rewrite Hset.
    assert (fieldsFit names (kv :: fields) = fieldsFit names [kv] && fieldsFit names fields) as ->
      by (unfold fieldsFit; simpl; by rewrite andb_true_r).
    destruct (fieldsFit names [kv]); [|done]. cbn. by rewrite IH, (Hcons x kv fields). }
  intros []; simpl; rewrite ?Hloop, ?Hnil; done.
Qed.

Lemma attributesFrom_app m vs vs' : attributesFrom m (vs ++ vs') = attributesFrom (attributesFrom m vs) vs'.
Proof. apply foldl_app. Qed.

Definition decodeZone : Json -> option zone := decodeStruct zone.setZoneField zone.zero.
Definition decodePoint : Json -> option point := decodeStruct point.setPointField point.zero.

Lemma decodeZone_from j : decodeZone j =
  match fieldsOf j with
  | Some fields => if fieldsFit zone.names fields then Some (zoneFrom zone.zero fields) else None
  | None => None
  end.
Proof.
  apply decodeStruct_from; [by intros []| |apply setZoneField_from].
  intros z kv fields. unfold zoneFrom. rewrite !(values_cons _ _ kv fields), !lastOf_app, attributesFrom_app. done.
Qed.
Lemma decodePoint_from j : decodePoint j =
  match fieldsOf j with
  | Some fields => if fieldsFit point.names fields then Some (pointFrom point.zero fields) else None
  | None => None
  end.
Proof.
  apply decodeStruct_from; [by intros []| |apply setPointField_from].
  intros p kv fields. unfold pointFrom. rewrite !(values_cons _ _ kv fields), !lastOf_app, attributesFrom_app. done.
Qed.

(** *** Facts *)

Lemma text_entry (e : option Json) : text e = default "" (e ≫= asText).
Proof. by destruct e as [[]|]. Qed.
Lemma number_entry (e : option Json) : number e = default (float_of_Z 0) (e ≫= asNumber).
Proof. by destruct e as [[| |[]| | |]|]. Qed.

Lemma sourceSide_side direction attributes s :
  sourceSide direction attributes = s <-> side direction (attributes !! "source_direction") s.
Proof.
  unfold sourceSide. set (source := attributes !! "source_direction"). clearbody source.
  destruct (String.eqb_spec (text source) "") as [He|Hne]; simpl.
  - assert (unsided source) as Hu by (intros x ->; exact He). split.
    + intros <-. destruct (String.eqb_spec direction "bullish") as [->|]; [by constructor|].
      destruct (String.eqb_spec direction "bearish") as [->|]; by constructor.
    + destruct 1 as [d x Hx| | |d y _ H1 H2]; [done|done|done|].
      apply String.eqb_neq in H1, H2. by rewrite H1, H2.
  - destruct source as [[| | |x| |]|]; try done. simpl in *. split; [intros <-; by constructor|].
    intros Hs. inversion Hs as [d y Hy E|y Hu|y Hu|d y Hu]; subst; [done|by destruct Hne; apply Hu..].
Qed.

Lemma zoneStated_iff j z : (exists v, decodeZone j = Some v /\ zoneOf v = z) <-> zoneStated j z.
Proof.
  rewrite decodeZone_from. unfold zoneStated. destruct (fieldsOf j) as [fields|]; [|split; [by intros (? & ? & _)|by intros (? & ? & _)]].
  split.
  - intros (v & Hv & <-). exists fields. destruct (fieldsFit zone.names fields); [|done]. injection Hv as <-.
    repeat split. rewrite <- attributesFrom_entry. by apply sourceSide_side.
  - intros (fields' & [= <-] & -> & H1 & H2 & H3 & H4 & H5 & H6). eexists. split; [done|].
    rewrite <- attributesFrom_entry in H6. apply sourceSide_side in H6. destruct z. simpl in *. unfold zoneOf. simpl. by subst.
Qed.

Lemma transitionStated_iff j t : (exists v, decodePoint j = Some v /\ transitionOf v = t) <-> transitionStated j t.
Proof.
  rewrite decodePoint_from. unfold transitionStated.
  destruct (fieldsOf j) as [fields|]; [|split; [by intros (? & ? & _)|by intros (? & ? & _)]]. split.
  - intros (v & Hv & <-). exists fields. destruct (fieldsFit point.names fields); [|done]. injection Hv as <-.
    unfold transitionOf. simpl. rewrite !text_entry, !number_entry, !attributesFrom_entry. repeat split.
    rewrite <- attributesFrom_entry. by apply sourceSide_side.
  - intros (fields' & [= <-] & -> & H1 & H2 & H3 & H4 & H5 & H6). eexists. split; [done|].
    rewrite <- attributesFrom_entry in H6. apply sourceSide_side in H6. destruct t. simpl in *. unfold transitionOf. simpl.
    rewrite !text_entry, !number_entry, !attributesFrom_entry. by subst.
Qed.

Lemma patternStated_iff j p : (exists v, decodePoint j = Some v /\ patternOf v = p) <-> patternStated j p.
Proof.
  rewrite decodePoint_from. unfold patternStated.
  destruct (fieldsOf j) as [fields|]; [|split; [by intros (? & ? & _)|by intros (? & ? & _)]]. split.
  - intros (v & Hv & <-). exists fields. destruct (fieldsFit point.names fields); [|done]. injection Hv as <-.
    repeat split. rewrite <- attributesFrom_entry. by apply sourceSide_side.
  - intros (fields' & [= <-] & -> & H1 & H2). eexists. split; [done|].
    rewrite <- attributesFrom_entry in H2. apply sourceSide_side in H2. destruct p. simpl in *. unfold patternOf. simpl. by subst.
Qed.

Lemma decodeSlice_stated {A B} (decode : Json -> option A) (toFact : A -> B) (stated : Json -> B -> Prop) value xs :
  (forall j x, (exists v, decode j = Some v /\ toFact v = x) <-> stated j x) ->
  (exists vs, value ≫= decodeSlice decode = Some vs /\ toFact <$> vs = xs) <->
  (exists l, elementsOf value = Some l /\ Forall2 stated l xs).
Proof.
  intros Hs.
  assert (forall l ys, (exists vs, mapM decode l = Some vs /\ toFact <$> vs = ys) <-> Forall2 stated l ys) as Hl.
  { intros l ys. split.
    - intros (vs & Hvs%mapM_Some & <-). induction Hvs; simpl; constructor; [|done]. apply Hs. eauto.
    - induction 1 as [|j x l ys Hj _ (vs & Hvs & <-)]; [by exists []|]. apply Hs in Hj as (v & Hv & <-).
      exists (v :: vs). split; [|done]. simpl. by rewrite Hv, Hvs. }
  destruct value as [[| | | |l|]|]; simpl; try (by split; intros (? & ? & _)).
  - split; [intros (vs & [= <-] & <-); by exists []|]. intros (l & [= <-] & H%Forall2_nil_inv_l). subst. by exists [].
  - rewrite Hl. split; [eauto|]. by intros (l' & [= <-] & H).
Qed.

Lemma hasPrefix_ema name : hasPrefix name "ema_" = true -> exists digits, name = "ema_" +:+ digits.
Proof.
  intros H. exists (String.substring 4 (String.length name) name).
  assert (forall n s, String.length s <= n -> String.substring 0 n s = s) as Hsub.
  { induction n as [|n IH]; intros [|c s] Hl; simpl in *; try done; [lia|]. by rewrite IH by lia. }
  unfold hasPrefix in H. simpl in H.
  do 4 (destruct name as [|? name]; [done|]; simpl in H; match type of H with context [if ?b then _ else _] => destruct b; [subst|done] end).
  simpl. f_equal. f_equal. f_equal. f_equal. rewrite Hsub; [done|lia].
Qed.

(** *** Outputs *)

Definition extendWith (o : Observation) (f : Facts) : Observation :=
  extend o f.(Facts.Indicators) f.(Facts.Zones) f.(Facts.Transitions) f.(Facts.Patterns).

Lemma setFloat_average v x :
  setFloat (float_of_Z 0) v = Some x <-> v = JNumber (Some x) \/ v = JNull /\ x = float_of_Z 0.
Proof.
  destruct v as [| |[y|]| | |]; simpl; (split; [try done|intros [[=]|[[=] E]]; subst; done]).
  - intros [= <-]. by right.
  - intros [= <-]. by left.
Qed.

(** The outputs of a name are read by one decoder. *)
Lemma addOutput_list {A B} (decode : Json -> option A) (toFact : A -> B) (stated : Json -> B -> Prop)
  (facts : list B -> Facts) (o o' : Observation) (output : Output) :
  (forall j x, (exists v, decode j = Some v /\ toFact v = x) <-> stated j x) ->
  (forall fs, states output fs <-> exists l xs, elementsOf output.(Output.Value) = Some l /\ Forall2 stated l xs /\ fs = facts xs) ->
  (values ← output.(Output.Value) ≫= decodeSlice decode; Some (extendWith o (facts (toFact <$> values)))) = Some o' <->
  exists fs, states output fs /\ o' = extendWith o fs.
Proof.
  intros Hd Hs. split.
  - destruct (Output.Value output ≫= decodeSlice decode) as [vs|] eqn:E; simpl; [|done]. intros [= <-].
    destruct (proj1 (decodeSlice_stated decode toFact stated output.(Output.Value) (toFact <$> vs) Hd)) as (l & Hl & Hall); [by exists vs|].
    eexists. split; [apply Hs; eauto|done].
  - intros (fs & (l & xs & Hl & Hall & ->)%Hs & ->).
    destruct (proj2 (decodeSlice_stated decode toFact stated output.(Output.Value) xs Hd)) as (vs & -> & <-); [by exists l|done].
Qed.

Lemma addOutput_states (o o' : Observation) (output : Output) :
  addOutput o output = Some o' <-> exists facts, states output facts /\ o' = extendWith o facts.
Proof.
  unfold addOutput. destruct (hasPrefix output.(Output.Name) "ema_") eqn:Hp.
  { apply hasPrefix_ema in Hp as [digits Hname]. rewrite Hname. destruct (trimPrefix_ema digits) as [_ ->]. split.
    - destruct (atoi digits) as [period|] eqn:Ha; simpl; [|done].
      destruct (Output.Value output) as [v|] eqn:Hv; simpl; [|done].
      destruct (setFloat _ v) as [x|] eqn:Hx; simpl; [|done]. intros [= <-]. apply setFloat_average in Hx.
      eexists. split; [by econstructor|done].
    - intros (facts & Hs & ->). destruct Hs as [ds period v x Hn Ha Hv Hw|l zs [Hn|Hn]|l ts Hn|l ps Hn|Hn Hn'];
        [|rewrite Hname in Hn; discriminate Hn..|by destruct (Hn digits)].
      apply setFloat_average in Hw. rewrite Hname in Hn. injection Hn as Hn. assert (ds = digits) as -> by exact (eq_sym Hn).
      rewrite Ha, Hv. cbn [mbind option_bind]. by rewrite Hw. }
  assert (forall digits, output.(Output.Name) <> "ema_" +:+ digits) as Hno.
  { intros digits E. destruct (trimPrefix_ema digits) as [E' _]. rewrite <- E in E'. congruence. }
  destruct ((output.(Output.Name) == "fvgs") || (output.(Output.Name) == "order_blocks")) eqn:Hz.
  { apply orb_true_iff in Hz. rewrite !String.eqb_eq in Hz.
    apply (addOutput_list decodeZone zoneOf zoneStated (fun xs => Facts.mk [] xs [] [])); [apply zoneStated_iff|].
    intros fs. split.
    - intros [ds period v x Hn|l zs _ Hl Hall|l ts Hn|l ps Hn|Hn Hn'];
        [by destruct (Hno ds)|eauto|destruct Hz; congruence|destruct Hz; congruence|destruct Hz; set_solver].
    - intros (l & xs & Hl & Hall & ->). by econstructor. }
  apply orb_false_iff in Hz as [H1 H2]. apply String.eqb_neq in H1, H2.
  destruct (String.eqb_spec (Output.Name output) "zone_transitions") as [H3|H3].
  { apply (addOutput_list decodePoint transitionOf transitionStated (fun xs => Facts.mk [] [] xs [])); [apply transitionStated_iff|].
    intros fs. split.
    - intros [ds period v x Hn|l zs [Hn|Hn]|l ts Hn Hl Hall|l ps Hn|Hn Hn'];
        [by destruct (Hno ds)|congruence|congruence|eauto|congruence|set_solver].
    - intros (l & xs & Hl & Hall & ->). by econstructor. }
  destruct (String.eqb_spec (Output.Name output) "pattern_occurrences") as [H4|H4].
  { apply (addOutput_list decodePoint patternOf patternStated (fun xs => Facts.mk [] [] [] xs)); [apply patternStated_iff|].
    intros fs. split.
    - intros [ds period v x Hn|l zs [Hn|Hn]|l ts Hn Hl Hall|l ps Hn Hl Hall|Hn Hn'];
        [by destruct (Hno ds)|congruence|congruence|congruence|eauto|set_solver].
    - intros (l & xs & Hl & Hall & ->). by econstructor. }
  split.
  - intros [= <-]. exists (Facts.mk [] [] [] []). split; [|by rewrite <- (extend_nil o) at 1]. constructor; [done|set_solver].
  - intros (fs & [ds period v x Hn|l zs [Hn|Hn]|l ts Hn Hl Hall|l ps Hn|Hn Hn'] & ->);
      [by destruct (Hno ds)|congruence|congruence|congruence|congruence|]. f_equal. symmetry. apply extend_nil.
Qed.

(** The loop: up to the first malformed output, or all the facts. *)
Lemma addOutputs_states (outputs : list Output) : forall o,
  match addOutputs o outputs with
  | inr o' => exists facts, Forall2 states outputs facts /\
      o' = extend o (facts ≫= Facts.Indicators) (facts ≫= Facts.Zones) (facts ≫= Facts.Transitions) (facts ≫= Facts.Patterns)
  | inl err => exists before output after, err = ErrOutput output.(Output.Name) /\ outputs = before ++ output :: after /\
      Forall (fun output => exists facts, states output facts) before /\ (forall facts, ~ states output facts)
  end.
Proof.
  induction outputs as [|output outputs IH]; intros o; simpl; [exists []; by rewrite extend_nil|].
  destruct (addOutput o output) as [o1|] eqn:E.
  - apply addOutput_states in E as (f & Hf & ->). specialize (IH (extendWith o f)).
    destruct (addOutputs _ outputs) as [err|o'].
    + destruct IH as (before & bad & after & -> & -> & Hb & Hbad). exists (output :: before), bad, after.
      split; [done|]. split; [done|]. split; [|done]. constructor; eauto.
    + destruct IH as (facts & Hall & ->). exists (f :: facts). split; [by constructor|]. unfold extendWith.
      by rewrite extend_extend.
  - exists [], output, outputs. split; [done|]. split; [done|]. split; [constructor|]. intros f Hf.
    assert (addOutput o output = Some (extendWith o f)) by (apply addOutput_states; eauto). congruence.
Qed.

Lemma addOutputs_all (outputs : list Output) (facts : list Facts) : Forall2 states outputs facts -> forall o,
  addOutputs o outputs =
    inr (extend o (facts ≫= Facts.Indicators) (facts ≫= Facts.Zones) (facts ≫= Facts.Transitions) (facts ≫= Facts.Patterns)).
Proof.
  induction 1 as [|output f outputs facts Hf _ IH]; intros o; simpl; [by rewrite extend_nil|].
  assert (addOutput o output = Some (extendWith o f)) as -> by (apply addOutput_states; eauto).
  rewrite IH. unfold extendWith. by rewrite extend_extend.
Qed.

Lemma addOutputs_malformed before output after : 
  Forall (fun output => exists facts, states output facts) before -> (forall facts, ~ states output facts) ->
  forall o, addOutputs o (before ++ output :: after) = inl (ErrOutput output.(Output.Name)).
Proof.
  intros Hb Hbad. induction Hb as [|good before (f & Hf) _ IH]; intros o; simpl.
  - destruct (addOutput o output) as [o'|] eqn:E; [|done]. apply addOutput_states in E as (f & Hf & _). by destruct (Hbad f).
  - assert (addOutput o good = Some (extendWith o f)) as -> by (apply addOutput_states; eauto). apply IH.
Qed.

(** *** Events *)

Lemma enveloped_spec event :
  BoolSpec (~ enveloped event) (enveloped event)
    ((event.(Event.Type_) != AnalysisEventType) || (event.(Event.ID) == "") || (event.(Event.CorrelationID) == "")).
Proof.
  unfold enveloped. destruct (String.eqb_spec event.(Event.Type_) AnalysisEventType),
    (String.eqb_spec event.(Event.ID) ""), (String.eqb_spec event.(Event.CorrelationID) ""); constructor; tauto.
Qed.
Lemma correlated_spec event :
  BoolSpec (~ correlated event) (correlated event)
    ((event.(Event.Bar).(Bar.SourceID) == "") || (event.(Event.Bar).(Bar.SourceID) != event.(Event.CorrelationID))).
Proof.
  unfold correlated. destruct (String.eqb_spec event.(Event.Bar).(Bar.SourceID) ""),
    (String.eqb_spec event.(Event.Bar).(Bar.SourceID) event.(Event.CorrelationID)); constructor; tauto.
Qed.

Lemma utcCandles (l : list Candle) : utcCandle <$> l = l.
Proof. rewrite <- (list_fmap_id l) at 2. apply list_fmap_ext. by intros _ [] _. Qed.

Lemma envelopeOf_base event averages zs ts ps :
  envelopeOf event (extend (baseObservation event) averages zs ts ps).
Proof. split; try done; simpl; by rewrite utcCandles. Qed.

Lemma envelopeOf_unique event o :
  envelopeOf event o ->
  o = extend (baseObservation event) o.(Observation.Indicators) o.(Observation.ActiveZones)
        o.(Observation.ZoneTransitions) o.(Observation.Patterns).
Proof.
  intros [H1 [H2 H3] H4 H5 H6 [H7 H8] H9 H10 H11]. destruct o. simpl in *. unfold extend, baseObservation. simpl.
  rewrite utcCandles. by subst.
Qed.

(** C31: the adapter does what its events say. The observation, or the error,
    that [Observation] returns is exactly what a reading of the event by
    parts gives ([says]): an event with no proper envelope, of another
    analysis or without correlation is refused, in this order, and so is one
    with a malformed output, named by the first of them; otherwise the
    observation has the identifiers, times, status, revision, series, candle,
    reset mark and history of the event, and, in the order of its outputs,
    its averages ([ema_N]), its zones ([fvgs] and [order_blocks]), its zone
    transitions and its patterns, each with its side: the source direction
    among its attributes, or else up for bullish and down for bearish.
    Outputs of other names are passed over. A null stands for a missing
    value, also of an average. *)
Theorem observationOf_says (event : Event) (result : SignalsError + Observation) :
  observationOf event = result <-> says event result.
Proof.
  assert (says event (observationOf event)) as Hsound.
  { unfold observationOf. destruct (enveloped_spec event) as [He|He]; [by constructor|].
    destruct (String.eqb_spec event.(Event.AnalysisName) "smc.market_state") as [Ha|Ha]; simpl; [|by constructor].
    destruct (correlated_spec event) as [Hc|Hc]; [by constructor|].
    pose proof (addOutputs_states event.(Event.Outputs) (baseObservation event)) as H.
    destruct (addOutputs _ _) as [err|o].
    - destruct H as (before & output & after & -> & Ho & Hb & Hbad). by eapply says_malformed.
    - destruct H as (facts & Hall & ->). eapply says_all; try done. apply envelopeOf_base. }
  split; [by intros <-|]. intros Hs. unfold observationOf in *.
  destruct Hs as [He|He Ha|He Ha Hc|before output after He Ha Hc Ho Hb Hbad|facts o He Ha Hc Hall Henv H1 H2 H3 H4];
    (destruct (enveloped_spec event) as [He'|He']; [done|]); [done|..];
    (destruct (String.eqb_spec event.(Event.AnalysisName) "smc.market_state") as [Ha'|Ha']; [|done]); [done|..];
    cbn [negb]; (destruct (correlated_spec event) as [Hc'|Hc']; [done|]); [done|..].
  - rewrite Ho. by apply addOutputs_malformed.
  - rewrite (addOutputs_all _ _ Hall), <- H1, <- H2, <- H3, <- H4. by rewrite <- (envelopeOf_unique event o Henv).
Qed.

(** ** Events for the witnesses *)

(** The event of a bar, without outputs. *)
Definition barEvent (barRevision : Z) (o : Observation) (outputs : list Output) : Event :=
  let c := o.(Observation.Candle) in
  let a := o.(Observation.FeatureAlgorithm) in
  Event.mk o.(Observation.SourceEventID) AnalysisEventType o.(Observation.OccurredAt) o.(Observation.CorrelationID)
    o.(Observation.Series)
    (Bar.mk c.(Candle.OpenTime) barRevision o.(Observation.Status) o.(Observation.CorrelationID)
       c.(Candle.Open) c.(Candle.High) c.(Candle.Low) c.(Candle.Close) c.(Candle.Volume) c.(Candle.Trades))
    a.(AlgorithmRef.Name) o.(Observation.Revision) o.(Observation.IsReset) o.(Observation.History)
    (Implementation.mk "ytstack-native" "1" a.(AlgorithmRef.Version) a.(AlgorithmRef.ConfigHash))
    outputs.

(** The outputs of the market event in [adapter_test.go], with zones besides,
    and an output the adapter does not know. *)
Definition jsonNumber (n : Z) : Json := JNumber (Some (fl n)).
Definition testOutputs : list Output :=
  [Output.mk "ema_200" (Some (jsonNumber 100));
   Output.mk "fvgs" (Some (JArray [JObject [("id", JString "fvg-1"); ("upper", jsonNumber 102); ("lower", jsonNumber 100);
     ("label", JString "fvg"); ("direction", JString "bullish"); ("state", JString "active")]]));
   Output.mk "order_blocks" (Some (JArray [JObject [("id", JString "ob-1"); ("upper", jsonNumber 97); ("lower", jsonNumber 96);
     ("label", JString "order_block"); ("direction", JString "bearish"); ("state", JString "active"); ("attributes", JNull)]]));
   Output.mk "zone_transitions" (Some (JArray [JObject [("label", JString "touched"); ("direction", JString "bullish");
     ("attributes", JObject [("zone_id", JString "fvg-1"); ("kind", JString "fvg"); ("transition", JString "touched");
        ("upper", jsonNumber 102); ("lower", jsonNumber 100); ("source_direction", JString "up")])]]));
   Output.mk "structure" None;
   Output.mk "pattern_occurrences" (Some (JArray [JObject [("label", JString "three_crows"); ("direction", JString "bearish");
     ("attributes", JObject [("source_direction", JString "down")])]]))].
Definition testEvent : Event := barEvent 8 redBar testOutputs.

Definition testZones : list Zone :=
  [Zone.mk "fvg-1" "fvg" "up" "active" (fl 102) (fl 100); Zone.mk "ob-1" "order_block" "down" "active" (fl 97) (fl 96)].

Lemma testEvent_facts :
  match observationOf testEvent with
  | inr o => (length o.(Observation.Indicators), o.(Observation.ActiveZones), o.(Observation.Patterns))
             = (1, testZones, [Pattern.mk "three_crows" "down"])
  | inl _ => False
  end.
Proof. vm_compute. reflexivity. Qed.

Lemma observationOf_says_witness :
  (exists o, says testEvent (inr o) /\ o.(Observation.ActiveZones) = testZones) /\
  says (barEvent 8 redBar [Output.mk "ema_x" (Some (jsonNumber 100))]) (inl (ErrOutput "ema_x")).
Proof.
  split; [|apply observationOf_says; vm_compute; reflexivity].
  pose proof testEvent_facts as H. destruct (observationOf testEvent) as [err|o] eqn:E; [destruct H|].
  exists o. split; [apply observationOf_says; exact E|congruence].
Defined.

(** A null output counts as a ready average of zero: [json.Unmarshal] leaves
    the zero value in place and reports no error. *)
Lemma null_average_is_zero (o : Observation) :
  addOutput o (Output.mk "ema_20" (Some JNull)) = Some (extend o [Indicator.mk "ema" 20 (fl 0) true] [] [] []).
Proof. reflexivity. Qed.
