(* ===== verification/Broker.v ===== *)
(** * internal/broker/jetstream.go: the JetStream consumer and publisher

    The NATS client is the class [Client]: what its calls return and do to the
    outside world [N] is left open. The sink, the service's [IngestBatch], is
    the class [Sink]. The bytes of a message are represented by what
    [json.Unmarshal] makes of them, an event or the text of an error.

    [Consume] runs one goroutine per shard; a shard's loop, [consumeShard], is
    modelled with a bound on its turns, and all of them as turns in the order
    of a schedule. *)

From stdpp Require Import base gmap strings list numbers pretty sorting.
From Stdlib Require Import Ascii.
From S2P Require Import Prelude GoFloat GoBase GoHash GoTime Model Json Store Tables Signals.

Definition EvaluationStream : string := "MARKET_EVALUATION".
Definition EvaluationSubjects : string := "signals.evaluation.>".
Definition EvaluationPartitions : Z := 256%Z.
Definition AlertStream : string := "ALERT_EVENTS".
Definition AlertSubjects : string := "alerts.events.>".
Definition DeadLetterStream : string := "ALERTS_DLQ".
Definition DeadLetterSubject : string := "alerts.dlq.signals".

(** ** Messages *)

(** A message delivered to a consumer: its header [Nats-Msg-Id], [""] when
    there is none, and the count of deliveries in its metadata, if they can be
    read. *)
Module Delivery.
Record Delivery := mk {
  Subject : string; Data : string + Event; MsgId : string; NumDelivered : option Z }.
End Delivery.
Abbreviation Delivery := Delivery.Delivery.

(** Why a message is given up: the reason header, before it is formatted. *)
Inductive Reason :=
| DecodeEvent (err : string)
| InvalidEvent (err : SignalsError)
| EvaluationFailed (err : string).

(** The messages the program publishes, with the headers it sets. *)
Inductive Msg :=
| DeadLetter (subject : string) (data : string + Event) (reason : Reason) (originalSubject : string)
             (msgId : option string)
| AlertEvent (subject : string) (data : Alert) (msgId : string).

Inductive NatsError :=
| ErrStreamNotFound | ErrStreamNameAlreadyInUse | ErrConsumerNotFound | ErrTimeout | ErrNats (text : string).

(** ** The client *)

(** Policies are given by their names in JSON. *)
Module StreamConfig.
Record StreamConfig := mk {
  Name : string; Subjects : list string; Retention : string; Storage : string; Replicas : Z;
  MaxAge : Duration; MaxMsgsPerSubject : Z; MaxMsgSize : Z; Duplicates : Duration; AllowRollup : bool }.
End StreamConfig.
Abbreviation StreamConfig := StreamConfig.StreamConfig.

Inductive AckPolicy := AckNone | AckAll | AckExplicit.
#[export] Instance AckPolicy_eq_dec : EqDecision AckPolicy.
Proof. solve_decision. Defined.

Module ConsumerConfig.
Record ConsumerConfig := mk {
  Durable : string; FilterSubject : string; AckPolicy : AckPolicy; AckWait : Duration; MaxDeliver : Z;
  MaxAckPending : Z }.
End ConsumerConfig.
Abbreviation ConsumerConfig := ConsumerConfig.ConsumerConfig.

(** [PullSubscribe] with the options that create a consumer, or bound to one. *)
Inductive Subscribe := Create (stream : string) (config : ConsumerConfig) | Bind (stream subject durable : string).

(** The calls that publish a message or settle a delivery. *)
Inductive Op :=
| OpPublish (m : Msg)
| OpTerm (m : Delivery)
| OpNak (m : Delivery) (delay : Duration)
| OpAck (m : Delivery).

(** [CloseConnection] is [Close] of the connection. *)
Class Client (N Subscription : Type) := {
  Connect : string -> string -> N -> option NatsError * N;
  JetStreamContext : N -> option NatsError * N;
  Drain : N -> option NatsError * N;
  CloseConnection : N -> N;
  IsConnected : N -> bool;
  StreamInfo : string -> N -> (NatsError + StreamConfig) * N;
  UpdateStream : StreamConfig -> N -> option NatsError * N;
  AddStream : StreamConfig -> N -> option NatsError * N;
  ConsumerInfo : string -> string -> N -> (NatsError + ConsumerConfig) * N;
  UpdateConsumer : string -> ConsumerConfig -> N -> option NatsError * N;
  PullSubscribe : Subscribe -> N -> (NatsError + Subscription) * N;
  Fetch : Subscription -> Z -> N -> list Delivery * option NatsError * N;
  Canceled : N -> bool;
  settle : Op -> N -> option NatsError * N }.

(** [Sink]: the error is its text. *)
Class Sink (S : Type) := {
  SinkIngestBatch : Z -> list Observation -> S -> Res string (list Alert) * S }.

Inductive BrokerError :=
| ErrWorkerIndex
| ErrConnect (err : NatsError)
| ErrOpenJetStream (err : NatsError)
| ErrReconcile (stream : string) (err : NatsError)
| ErrInspect (stream : string) (err : NatsError)
| ErrCreate (stream : string) (err : NatsError)
| ErrPublish (err : NatsError)
| ErrEncode
| ErrConsumer (durable : string) (err : BrokerError)
| ErrIncompatible
| ErrPolicy (err : NatsError)
| ErrClient (err : NatsError)
| ErrFetch (err : NatsError)
| ErrPublishDeadLetter (err : NatsError)
| ErrTerminate (err : NatsError)
| ErrNak (evaluation : string) (err : NatsError)
| ErrEvaluation (err : string).

(** How a loop ended: [inl] when it panicked, otherwise what it returned. *)
Abbreviation LoopEnd := (unit + option BrokerError)%type.

(** ** Opening *)

Module Options.
Record Options := mk {
  URL : string; Token : string; Durable : string; Replicas : Z; MaxDeliveries : Z; AckWait : Duration;
  WorkerIndex : Z; WorkerCount : Z; BatchSize : Z }.
End Options.
Abbreviation Options := Options.Options.

Module JetStream.
Record JetStream := mk {
  durable : string; ackWait : Duration; maxDeliveries : Z; workerIndex : Z; workerCount : Z; batchSize : Z }.
End JetStream.
Abbreviation JetStream := JetStream.JetStream.

(** The defaults [Open] puts in, and its check. *)
Definition withDefaults (options : Options) : option Options :=
  let workerCount := if (options.(Options.WorkerCount) <? 1)%Z then 1%Z else options.(Options.WorkerCount) in
  if ((options.(Options.WorkerIndex) <? 0) || (options.(Options.WorkerIndex) >=? workerCount))%Z then None else
  Some (Options.mk options.(Options.URL) options.(Options.Token)
    (if options.(Options.Durable) == "" then "ALERTS_EVALUATOR_V3" else options.(Options.Durable))
    (if (options.(Options.Replicas) <? 1)%Z then 1%Z else options.(Options.Replicas))
    (if (options.(Options.MaxDeliveries) <? 1)%Z then 20%Z else options.(Options.MaxDeliveries))
    (if (options.(Options.AckWait) <=? 0)%Z then (30 * Second)%Z else options.(Options.AckWait))
    options.(Options.WorkerIndex) workerCount
    (if (options.(Options.BatchSize) <? 1)%Z then 32%Z else options.(Options.BatchSize))).

Definition streamConfigs (replicas : Z) : list StreamConfig :=
  [StreamConfig.mk EvaluationStream [EvaluationSubjects] "limits" "file" replicas (7 * 24 * Hour) 0
     (Z.shiftl 2 20) (10 * Minute) true;
   StreamConfig.mk AlertStream [AlertSubjects] "limits" "file" replicas (30 * 24 * Hour) 0
     (Z.shiftl 2 20) (10 * Minute) false;
   StreamConfig.mk DeadLetterStream [DeadLetterSubject] "limits" "file" replicas (30 * 24 * Hour) 0
     (Z.shiftl 2 20) (10 * Minute) false].

Definition sameStreamConfig (got want : StreamConfig) : bool :=
  (got.(StreamConfig.Name) == want.(StreamConfig.Name))
  && match got.(StreamConfig.Subjects), want.(StreamConfig.Subjects) with
     | [a], [b] => a == b
     | _, _ => false
     end
  && (got.(StreamConfig.Retention) == want.(StreamConfig.Retention))
  && (got.(StreamConfig.Storage) == want.(StreamConfig.Storage))
  && (got.(StreamConfig.Replicas) =? want.(StreamConfig.Replicas))%Z
  && (got.(StreamConfig.MaxAge) =? want.(StreamConfig.MaxAge))%Z
  && (got.(StreamConfig.MaxMsgsPerSubject) =? want.(StreamConfig.MaxMsgsPerSubject))%Z
  && (got.(StreamConfig.MaxMsgSize) =? want.(StreamConfig.MaxMsgSize))%Z
  && (got.(StreamConfig.Duplicates) =? want.(StreamConfig.Duplicates))%Z
  && Bool.eqb got.(StreamConfig.AllowRollup) want.(StreamConfig.AllowRollup).

Section Broker.
Context {N Subscription : Type} `{Client N Subscription}.
Implicit Types (n : N) (message : Delivery) (j : JetStream).

Definition ensureStream (config : StreamConfig) n : option BrokerError * N :=
  match StreamInfo config.(StreamConfig.Name) n with
  | (inr info, n1) =>
      if sameStreamConfig info config then (None, n1) else
      match UpdateStream config n1 with
      | (Some err, n2) => (Some (ErrReconcile config.(StreamConfig.Name) err), n2)
      | (None, n2) => (None, n2)
      end
  | (inl ErrStreamNotFound, n1) =>
      match AddStream config n1 with
      | (None, n2) | (Some ErrStreamNameAlreadyInUse, n2) => (None, n2)
      | (Some err, n2) => (Some (ErrCreate config.(StreamConfig.Name) err), n2)
      end
  | (inl err, n1) => (Some (ErrInspect config.(StreamConfig.Name) err), n1)
  end.

Fixpoint ensureStreams (configs : list StreamConfig) n : option BrokerError * N :=
  match configs with
  | [] => (None, n)
  | config :: rest =>
      match ensureStream config n with
      | (Some err, n1) => (Some err, CloseConnection n1)
      | (None, n1) => ensureStreams rest n1
      end
  end.

Definition Open (options : Options) n : (BrokerError + JetStream) * N :=
  match withDefaults options with
  | None => (inl ErrWorkerIndex, n)
  | Some options =>
      match Connect options.(Options.URL) options.(Options.Token) n with
      | (Some err, n1) => (inl (ErrConnect err), n1)
      | (None, n1) =>
          match JetStreamContext n1 with
          | (Some err, n2) => (inl (ErrOpenJetStream err), CloseConnection n2)
          | (None, n2) =>
              match ensureStreams (streamConfigs options.(Options.Replicas)) n2 with
              | (Some err, n3) => (inl err, n3)
              | (None, n3) =>
                  (inr (JetStream.mk options.(Options.Durable) options.(Options.AckWait)
                          options.(Options.MaxDeliveries) options.(Options.WorkerIndex)
                          options.(Options.WorkerCount) options.(Options.BatchSize)), n3)
              end
          end
      end
  end.

(** ** Publishing alerts *)

(** [%03d] of a number that is not negative. *)
Definition pad3 (k : Z) : string :=
  let s := pretty k in
  if (k <? 10)%Z then "00" +:+ s else if (k <? 100)%Z then "0" +:+ s else s.

Definition alertSubject (alert : Alert) : string :=
  "alerts.events." +:+ pad3 (fnv32a (Series.Key alert.(Alert.Series)) mod EvaluationPartitions).

Definition Publish (alert : Alert) n : option BrokerError * N :=
  match toJsonAlert (Alert.with_PublishStatus alert "") with
  | None => (Some ErrEncode, n)
  | Some payload =>
      match settle (OpPublish (AlertEvent (alertSubject alert) payload alert.(Alert.ID))) n with
      | (Some err, n1) => (Some (ErrPublish err), n1)
      | (None, n1) => (None, n1)
      end
  end.

(** [Close] and [Ready] of the worker. *)
Definition Close n : N := CloseConnection (Drain n).2.
Definition BrokerReady n : bool := IsConnected n.

(** ** Subscriptions *)

(** The shards [Consume] starts, with their subjects and durable names. *)
Definition shardsOf j : list Z :=
  filter (fun shard => Z.rem shard j.(JetStream.workerCount) = j.(JetStream.workerIndex))
    (Z.of_nat <$> seq 0 (Z.to_nat EvaluationPartitions)).
Definition shardSubject (shard : Z) : string := "signals.evaluation." +:+ pad3 shard +:+ ".>".
Definition shardDurable j (shard : Z) : string := j.(JetStream.durable) +:+ "_" +:+ pad3 shard.

Definition consumerOf j (subject durable : string) : ConsumerConfig :=
  ConsumerConfig.mk durable subject AckAll j.(JetStream.ackWait) j.(JetStream.maxDeliveries) j.(JetStream.batchSize).

Definition subscribed (result : (NatsError + Subscription) * N) : (BrokerError + Subscription) * N :=
  match result with
  | (inl err, n) => (inl (ErrClient err), n)
  | (inr subscription, n) => (inr subscription, n)
  end.

Definition shardSubscription j (stream subject durable : string) n : (BrokerError + Subscription) * N :=
  match ConsumerInfo stream durable n with
  | (inl ErrConsumerNotFound, n1) => subscribed (PullSubscribe (Create stream (consumerOf j subject durable)) n1)
  | (inl err, n1) => (inl (ErrClient err), n1)
  | (inr info, n1) =>
      if (info.(ConsumerConfig.FilterSubject) != subject)
         || negb (bool_decide (info.(ConsumerConfig.AckPolicy) = AckAll))
      then (inl ErrIncompatible, n1)
      else if negb (info.(ConsumerConfig.AckWait) =? j.(JetStream.ackWait))%Z
              || negb (info.(ConsumerConfig.MaxDeliver) =? j.(JetStream.maxDeliveries))%Z
              || negb (info.(ConsumerConfig.MaxAckPending) =? j.(JetStream.batchSize))%Z
      then
        let config := ConsumerConfig.mk info.(ConsumerConfig.Durable) info.(ConsumerConfig.FilterSubject)
          info.(ConsumerConfig.AckPolicy) j.(JetStream.ackWait) j.(JetStream.maxDeliveries) j.(JetStream.batchSize) in
        match UpdateConsumer stream config n1 with
        | (Some err, n2) => (inl (ErrPolicy err), n2)
        | (None, n2) => subscribed (PullSubscribe (Bind stream subject durable) n2)
        end
      else subscribed (PullSubscribe (Bind stream subject durable) n1)
  end.

(** ** A batch *)

(** [delivery] is a uint64; the shift is at most nine. *)
Definition retryDelay (delivery : Z) : Duration :=
  let delivery := if (delivery =? 0)%Z then 1%Z else delivery in
  let exponent := Z.min (delivery - 1) 9 in
  let delay := mulDur Second (Z.shiftl 1 exponent) in
  if (delay >? 5 * Minute)%Z then (5 * Minute)%Z else delay.

Definition deadLetterOf (source : Delivery) (reason : Reason) : Msg :=
  DeadLetter DeadLetterSubject source.(Delivery.Data) reason source.(Delivery.Subject)
    (if source.(Delivery.MsgId) == "" then None else Some ("dlq-" +:+ source.(Delivery.MsgId))).

(** On a failure to publish, the error of [NakWithDelay] is dropped. *)
Definition deadLetter (source : Delivery) (reason : Reason) n : option BrokerError * N :=
  match settle (OpPublish (deadLetterOf source reason)) n with
  | (Some err, n1) => (Some (ErrPublishDeadLetter err), (settle (OpNak source (5 * Second)) n1).2)
  | (None, n1) =>
      match settle (OpTerm source) n1 with
      | (Some err, n2) => (Some (ErrTerminate err), n2)
      | (None, n2) => (None, n2)
      end
  end.

(** What the first loop makes of a message. *)
Definition decodeMessage message : Reason + Observation :=
  match message.(Delivery.Data) with
  | inl err => inl (DecodeEvent err)
  | inr event =>
      match observationOf event with
      | inl err => inl (InvalidEvent err)
      | inr observation => inr observation
      end
  end.

Fixpoint decodeMessages (messages : list Delivery) (valid : list (Observation * Delivery)) n
  : (BrokerError + list (Observation * Delivery)) * N :=
  match messages with
  | [] => (inr valid, n)
  | message :: rest =>
      match decodeMessage message with
      | inl reason =>
          match deadLetter message reason n with
          | (Some err, n1) => (inl err, n1)
          | (None, n1) => decodeMessages rest valid n1
          end
      | inr observation => decodeMessages rest (valid ++ [(observation, message)]) n
      end
  end.

(** [metadataErr == nil && int(metadata.NumDelivered) >= j.maxDeliveries]. *)
Definition exhausted j message : bool :=
  match message.(Delivery.NumDelivered) with
  | Some delivered => (int64 delivered >=? j.(JetStream.maxDeliveries))%Z
  | None => false
  end.

(** The loop after a failed evaluation. *)
Fixpoint retryMessages j (text : string) (messages : list Delivery) n : option BrokerError * N :=
  match messages with
  | [] => (None, n)
  | message :: rest =>
      if exhausted j message then
        match deadLetter message (EvaluationFailed text) n with
        | (Some err, n1) => (Some err, n1)
        | (None, n1) => retryMessages j text rest n1
        end
      else
        match settle (OpNak message (retryDelay (default 1%Z message.(Delivery.NumDelivered)))) n with
        | (Some err, n1) => (Some (ErrNak text err), n1)
        | (None, n1) => retryMessages j text rest n1
        end
  end.

(** The outer [None] is a panic of the sink. *)
Definition consumeBatch {S} `{Sink S} j (partition : Z) (messages : list Delivery) (s : S) n
  : option (option BrokerError * S * N) :=
  match decodeMessages messages [] n with
  | (inl err, n1) => Some (Some err, s, n1)
  | (inr valid, n1) =>
      match last valid with
      | None => Some (None, s, n1)
      | Some (_, message) =>
          match SinkIngestBatch partition valid.*1 s with
          | (Panic, _) => None
          | (Err text, s1) =>
              match retryMessages j text valid.*2 n1 with
              | (Some err, n2) => Some (Some err, s1, n2)
              | (None, n2) => Some (Some (ErrEvaluation text), s1, n2)
              end
          | (Ok _, s1) =>
              match settle (OpAck message) n1 with
              | (Some err, n2) => Some (Some (ErrClient err), s1, n2)
              | (None, n2) => Some (None, s1, n2)
              end
          end
      end
  end.

(** ** The loop of a shard *)

(** One turn; [None] when the loop goes on. The error of a batch is logged. *)
Definition shardTurn {S} `{Sink S} j (partition : Z) (subscription : Subscription) (s : S) n : option LoopEnd * S * N :=
  if Canceled n then (Some (inr None), s, n) else
  match Fetch subscription j.(JetStream.batchSize) n with
  | (messages, Some ErrTimeout, n1) | (messages, None, n1) =>
      if (length messages =? 0)%nat then (None, s, n1) else
      match consumeBatch j partition messages s n1 with
      | None => (Some (inl ()), s, n1)
      | Some (_, s2, n2) => (None, s2, n2)
      end
  | (_, Some err, n1) => (Some (inr (Some (ErrFetch err))), s, n1)
  end.

(** [None] when [fuel] turns were not the end of it. *)
Fixpoint shardLoop {S} `{Sink S} (fuel : nat) j (partition : Z) (subscription : Subscription) (s : S) n
  : option LoopEnd * S * N :=
  match fuel with
  | 0 => (None, s, n)
  | Datatypes.S fuel =>
      match shardTurn j partition subscription s n with
      | (Some ending, s1, n1) => (Some ending, s1, n1)
      | (None, s1, n1) => shardLoop fuel j partition subscription s1 n1
      end
  end.

Definition consumeShard {S} `{Sink S} (fuel : nat) j (partition : Z) (stream subject durable : string) (s : S) n
  : option LoopEnd * S * N :=
  match shardSubscription j stream subject durable n with
  | (inl err, n1) => (Some (inr (Some (ErrConsumer durable err))), s, n1)
  | (inr subscription, n1) => shardLoop fuel j partition subscription s n1
  end.

(** ** All shards *)

(** The goroutines of [Consume], scheduled: each number of [schedule] gives a
    turn to the loop of that shard, the first of which subscribes. What the
    first loop to end returns is the result. [None] when the schedule was not
    the end of it. *)
Fixpoint consumeScheduled {S} `{Sink S} (schedule : list Z) j (subscriptions : gmap Z Subscription) (s : S) n
  : option LoopEnd * S * N :=
  match schedule with
  | [] => (if Canceled n then Some (inr None) else None, s, n)
  | shard :: schedule =>
      match subscriptions !! shard with
      | None =>
          let durable := shardDurable j shard in
          match shardSubscription j EvaluationStream (shardSubject shard) durable n with
          | (inl err, n1) => (Some (inr (Some (ErrConsumer durable err))), s, n1)
          | (inr subscription, n1) => consumeScheduled schedule j (<[shard := subscription]> subscriptions) s n1
          end
      | Some subscription =>
          match shardTurn j shard subscription s n with
          | (Some ending, s1, n1) => (Some ending, s1, n1)
          | (None, s1, n1) => consumeScheduled schedule j subscriptions s1 n1
          end
      end
  end.

(** There is a goroutine for each shard of the worker. *)
Definition Consume {S} `{Sink S} (schedule : list Z) j (s : S) n : option LoopEnd * S * N :=
  consumeScheduled (filter (fun shard => shard ∈ shardsOf j) schedule) j ∅ s n.
End Broker.
