(* ===== verification/BrokerProps.v ===== *)
(** * The consumer settles every message

    What a batch does to the broker, as a plan of calls that is followed until
    one fails; what an acknowledgement means, down to the repository, by a
    client that records its calls; redelivery; the shards of the workers; retry
    delays and streams. *)

From stdpp Require Import base gmap strings list numbers pretty sorting.
From Stdlib Require Import Ascii.
From S2P Require Import Prelude GoFloat GoBase GoHash GoTime Model Rules Store Memory MemoryProps Tables Fixtures.
From S2P Require Import Engine EngineIndex EngineBatch EngineRecovery Service ServiceProps Signals SignalsProps.
From S2P Require Import Broker.
Import Engine Service Service.Service ServiceMetrics.

(** ** The plan of a batch *)

Section Plan.
Context {N Subscription : Type} `{Client N Subscription}.
Implicit Types (n : N) (message : Delivery) (j : JetStream).

(** What each message calls for before the evaluation, and after one that
    failed. *)
Definition giveUp message (reason : Reason) : list Op :=
  [OpPublish (deadLetterOf message reason); OpTerm message].
Definition poison message : list Op :=
  match decodeMessage message with inl reason => giveUp message reason | inr _ => [] end.
Definition retry j (text : string) message : list Op :=
  if exhausted j message then giveUp message (EvaluationFailed text)
  else [OpNak message (retryDelay (default 1%Z message.(Delivery.NumDelivered)))].

(** The messages that carry an observation. *)
Definition carries message : option (Observation * Delivery) :=
  match decodeMessage message with inl _ => None | inr o => Some (o, message) end.

Definition settlement j (valid : list Delivery) (outcome : Res string (list Alert)) : list Op :=
  match last valid, outcome with
  | Some message, Ok _ => [OpAck message]
  | Some _, Err text => valid ≫= retry j text
  | _, _ => []
  end.

(** A plan followed up to the first call that fails; a message whose dead
    letter could not be published is put back. *)
Inductive follows : N -> list Op -> option (Op * NatsError) -> N -> Prop :=
| follows_end n : follows n [] None n
| follows_call n n1 op ops stop n' :
    settle op n = (None, n1) -> follows n1 ops stop n' -> follows n (op :: ops) stop n'
| follows_back n n1 m source ops err :
    settle (OpPublish m) n = (Some err, n1) ->
    follows n (OpPublish m :: OpTerm source :: ops) (Some (OpPublish m, err)) (settle (OpNak source (5 * Second)) n1).2
| follows_stop n n1 op ops err :
    settle op n = (Some err, n1) -> (forall m, op <> OpPublish m) -> follows n (op :: ops) (Some (op, err)) n1.

Definition textOf (outcome : Res string (list Alert)) : string :=
  match outcome with Err text => text | _ => "" end.

(** The error of a call. *)
Definition errorOfCall (text : string) (stop : Op * NatsError) : BrokerError :=
  match stop with
  | (OpPublish _, err) => ErrPublishDeadLetter err
  | (OpTerm _, err) => ErrTerminate err
  | (OpNak _ _, err) => ErrNak text err
  | (OpAck _, err) => ErrClient err
  end.

Hint Constructors follows : alerts.

Lemma follows_app n ops ops' n1 stop n' :
  follows n ops None n1 -> follows n1 ops' stop n' -> follows n (ops ++ ops') stop n'.
Proof. intros H1. remember None as none. induction H1; simpl; subst; try done; eauto with alerts. Qed.

Lemma follows_stopped n ops ops' op err n' :
  follows n ops (Some (op, err)) n' -> follows n (ops ++ ops') (Some (op, err)) n'.
Proof. remember (Some (op, err)) as stop. induction 1; simpl; simplify_eq; eauto with alerts. Qed.

Lemma deadLetter_follows message reason n text :
  match deadLetter message reason n with
  | (None, n') => follows n (giveUp message reason) None n'
  | (Some err, n') => exists stop, follows n (giveUp message reason) (Some stop) n' /\ err = errorOfCall text stop
  end.
Proof.
  unfold deadLetter, giveUp. destruct (settle (OpPublish _) n) as [[err|] n1] eqn:E; [by eauto with alerts|].
  destruct (settle (OpTerm message) n1) as [[err|] n2] eqn:E2; [|by eauto with alerts].
  exists (OpTerm message, err). split; [|done]. eapply follows_call; [exact E|]. by apply follows_stop.
Qed.

Lemma decodeMessages_follows text messages : forall valid n,
  match decodeMessages messages valid n with
  | (inr valid', n') => follows n (messages ≫= poison) None n' /\ valid' = valid ++ omap carries messages
  | (inl err, n') => exists stop, follows n (messages ≫= poison) (Some stop) n' /\ err = errorOfCall text stop
  end.
Proof.
  induction messages as [|message messages IH]; intros valid n; simpl.
  { rewrite app_nil_r. split; [constructor|done]. }
  unfold poison at 1 3, carries at 1. destruct (decodeMessage message) as [reason|o].
  - pose proof (deadLetter_follows message reason n text) as Hd.
    destruct (deadLetter message reason n) as [[err|] n1].
    + destruct Hd as ([op e] & Hd & ->). exists (op, e). split; [by apply follows_stopped|done].
    + specialize (IH valid n1). destruct (decodeMessages messages valid n1) as [[err|valid'] n'].
      * destruct IH as (stop & Hf & ->). exists stop. split; [by eapply follows_app|done].
      * destruct IH as [Hf ->]. split; [by eapply follows_app|done].
  - specialize (IH (valid ++ [(o, message)]) n).
    destruct (decodeMessages messages _ n) as [[err|valid'] n']; [done|].
    destruct IH as [Hf ->]. split; [done|]. by rewrite <- app_assoc.
Qed.

Lemma retryMessages_follows j text messages : forall n,
  match retryMessages j text messages n with
  | (None, n') => follows n (messages ≫= retry j text) None n'
  | (Some err, n') => exists stop, follows n (messages ≫= retry j text) (Some stop) n' /\ err = errorOfCall text stop
  end.
Proof.
  induction messages as [|message messages IH]; intros n; simpl; [constructor|].
  unfold retry at 1 3. destruct (exhausted j message).
  - pose proof (deadLetter_follows message (EvaluationFailed text) n text) as Hd.
    destruct (deadLetter message (EvaluationFailed text) n) as [[err|] n1].
    + destruct Hd as ([op e] & Hd & ->). exists (op, e). split; [by apply follows_stopped|done].
    + specialize (IH n1). destruct (retryMessages j text messages n1) as [[err|] n'].
      * destruct IH as (stop & Hf & ->). exists stop. split; [by eapply follows_app|done].
      * by eapply follows_app.
  - destruct (settle (OpNak message _) n) as [[err|] n1] eqn:E.
    + exists (OpNak message (retryDelay (default 1%Z message.(Delivery.NumDelivered))), err).
      split; [by apply follows_stop|done].
    + specialize (IH n1). destruct (retryMessages j text messages n1) as [[err|] n'].
      * destruct IH as (stop & Hf & ->). exists stop. split; [by eapply follows_call|done].
      * by eapply follows_call.
Qed.

(** The call that stopped a plan is one of its calls. *)
Lemma follows_in n ops op err n' : follows n ops (Some (op, err)) n' -> op ∈ ops.
Proof. remember (Some (op, err)) as stop. induction 1; simplify_eq; [right; auto|by left..]. Qed.

Lemma poison_no_ack messages message : OpAck message ∉ messages ≫= poison.
Proof.
  intros (m & Hin & _)%list_elem_of_bind. unfold poison in Hin. destruct (decodeMessage m); set_solver.
Qed.
Lemma retry_no_ack j text messages message : OpAck message ∉ messages ≫= retry j text.
Proof.
  intros (m & Hin & _)%list_elem_of_bind. unfold retry in Hin. destruct (exhausted j m); set_solver.
Qed.
End Plan.

(** ** Batches *)

Section Batches.
Context {N Subscription : Type} `{Client N Subscription} {S : Type} `{Sink S}.
Implicit Types (n : N) (j : JetStream) (s : S).

(** C16: a batch is settled by a plan. The messages that cannot be decoded or
    are no events go to the dead letters, each published before it is
    terminated, in their order. Then the observations of all the others are
    given to the sink, once and in order. If the sink accepts them, the last
    of them is acknowledged, and nothing else is; if it fails, none is
    acknowledged: each is put back with a delay, or, when its deliveries are
    used up, dead-lettered. The first call that fails ends the batch with its
    error, so that what was not settled is delivered again. *)
Theorem consumeBatch_settles (j : JetStream) (partition : Z) (messages : list Delivery) (s s' : S) (n n' : N)
  (res : option BrokerError) :
  consumeBatch j partition messages s n = Some (res, s', n') ->
  let valid := omap carries messages in
  let outcome := SinkIngestBatch partition valid.*1 s in
  (exists stop, follows n (messages ≫= poison) (Some stop) n' /\
     res = Some (errorOfCall (textOf outcome.1) stop) /\ s' = s) \/
  (exists n1 stop, follows n (messages ≫= poison) None n1 /\ follows n1 (settlement j valid.*2 outcome.1) stop n' /\
     s' = (if (length valid =? 0)%nat then s else outcome.2) /\
     res = match stop with
           | Some stop => Some (errorOfCall (textOf outcome.1) stop)
           | None => match valid, outcome.1 with _ :: _, Err text => Some (ErrEvaluation text) | _, _ => None end
           end).
Proof.
  intros Hb valid outcome. unfold consumeBatch in Hb.
  pose proof (decodeMessages_follows (textOf outcome.1) messages [] n) as Hdec.
  destruct (decodeMessages messages [] n) as [[err|valid'] n1].
  { left. injection Hb as <- <- <-. destruct Hdec as (stop & Hf & ->). eauto. }
  right. destruct Hdec as [Hf ->]. simpl in Hb. fold valid in Hb. exists n1.
  assert (last valid.*2 = snd <$> last valid) as Hlast by apply fmap_last.
  destruct (last valid) as [[o message]|] eqn:El.
  2:{ apply last_None in El. injection Hb as <- <- <-. exists None. unfold settlement. rewrite Hlast, El.
      split; [done|]. split; [constructor|done]. }
  assert (valid <> []) as Hne by (intros E; by rewrite E in El).
  replace (length valid =? 0)%nat with false by (by destruct valid). unfold settlement. rewrite Hlast. simpl.
  fold outcome in Hb. destruct outcome as [[alerts|text|] s1]; simpl in *; [| |done].
  - destruct (settle (OpAck message) n1) as [[err|] n2] eqn:Ea; injection Hb as <- <- <-.
    + exists (Some (OpAck message, err)). split; [done|]. split; [by apply follows_stop|done].
    + exists None. split; [done|]. split; [eapply follows_call; [done|constructor]|]. by destruct valid.
  - pose proof (retryMessages_follows j text valid.*2 n1) as Hr.
    destruct (retryMessages j text valid.*2 n1) as [[err|] n2]; injection Hb as <- <- <-.
    + destruct Hr as (stop & Hr & ->). by exists (Some stop).
    + exists None. split; [done|]. split; [done|]. by destruct valid.
Qed.

(** The sink has not been called, or what it did is what the batch did. *)
Lemma consumeBatch_sink j partition messages s n :
  (SinkIngestBatch partition (omap carries messages).*1 s).1 <> Panic ->
  exists res s' n', consumeBatch j partition messages s n = Some (res, s', n') /\
    (s' = s \/ s' = (SinkIngestBatch partition (omap carries messages).*1 s).2).
Proof.
  intros Hnp. unfold consumeBatch. pose proof (decodeMessages_follows "" messages [] n) as Hdec.
  destruct (decodeMessages messages [] n) as [[err|valid'] n1]; [by eauto 7|]. destruct Hdec as [_ ->]. simpl.
  destruct (last _) as [[o message]|]; [|by eauto 7].
  destruct (SinkIngestBatch _ _ s) as [[alerts|text|] s1]; simpl in *; [| |done].
  - destruct (settle (OpAck message) n1) as [[err|] n2]; eauto 7.
  - destruct (retryMessages _ _ _ n1) as [[err|] n2]; eauto 7.
Qed.

Lemma consumeBatch_state j partition messages s s' n n' res :
  consumeBatch j partition messages s n = Some (res, s', n') ->
  let outcome := SinkIngestBatch partition (omap carries messages).*1 s in
  s' = s \/ outcome.1 <> Panic /\ s' = outcome.2.
Proof.
  unfold consumeBatch. pose proof (decodeMessages_follows "" messages [] n) as Hdec.
  destruct (decodeMessages messages [] n) as [[err|valid'] n1]; [intros [= _ <- _]; auto|].
  destruct Hdec as [_ ->]. simpl. destruct (last _) as [[o message]|]; [|intros [= _ <- _]; auto].
  destruct (SinkIngestBatch _ _ s) as [[alerts|text|] s1]; [| |done].
  - destruct (settle (OpAck message) n1) as [[err|] n2]; intros [= _ <- _]; auto.
  - destruct (retryMessages _ _ _ n1) as [[err|] n2]; intros [= _ <- _]; auto.
Qed.
End Batches.

(** ** The calls of a batch *)

(** A client that also records the calls that settle messages, each with what
    it returned. *)
Definition recorded {N Subscription} (client : Client N Subscription)
  : Client (N * list (Op * option NatsError)) Subscription := {|
  Connect url token s := let '(err, n) := Connect url token s.1 in (err, (n, s.2));
  JetStreamContext s := let '(err, n) := JetStreamContext s.1 in (err, (n, s.2));
  Drain s := let '(err, n) := Drain s.1 in (err, (n, s.2));
  CloseConnection s := (CloseConnection s.1, s.2);
  IsConnected s := IsConnected s.1;
  StreamInfo name s := let '(res, n) := StreamInfo name s.1 in (res, (n, s.2));
  UpdateStream config s := let '(err, n) := UpdateStream config s.1 in (err, (n, s.2));
  AddStream config s := let '(err, n) := AddStream config s.1 in (err, (n, s.2));
  ConsumerInfo stream durable s := let '(res, n) := ConsumerInfo stream durable s.1 in (res, (n, s.2));
  UpdateConsumer stream config s := let '(err, n) := UpdateConsumer stream config s.1 in (err, (n, s.2));
  PullSubscribe how s := let '(res, n) := PullSubscribe how s.1 in (res, (n, s.2));
  Fetch subscription size s := let '(res, n) := Fetch subscription size s.1 in (res, (n, s.2));
  Canceled s := Canceled s.1;
  settle op s := let '(err, n) := settle op s.1 in (err, (n, s.2 ++ [(op, err)])) |}.

Section Recorded.
Context {N Subscription : Type} (client : Client N Subscription) {S : Type} `{Sink S}.
Notation Log := (list (Op * option NatsError)).
Implicit Types (log : Log) (ops : list Op).

Lemma settle_recorded op n log err t :
  @settle _ _ (recorded client) op (n, log) = (err, t) -> t.2 = log ++ [(op, err)].
Proof. simpl. destruct (settle op n) as [? ?]. by intros [= <- <-]. Qed.

(** A plan that was followed to its end is what was recorded. *)
Lemma follows_recorded ops : forall n log t,
  @follows _ _ (recorded client) (n, log) ops None t -> t.2 = log ++ ((fun op => (op, None)) <$> ops).
Proof.
  induction ops as [|op ops IH]; intros n log t Hf; inversion Hf as [|? [n1 log1] ? ? ? ? Hs Hrest| |]; subst.
  - by rewrite app_nil_r.
  - apply settle_recorded in Hs as Hl. simpl in Hl. subst. apply IH in Hrest as ->. by rewrite <- app_assoc.
Qed.

(** A plan without an acknowledgement records none, however it ends. *)
Lemma follows_recorded_ack ops stop n log t message :
  @follows _ _ (recorded client) (n, log) ops stop t -> OpAck message ∉ ops -> OpAck message ∉ log.*1 ->
  OpAck message ∉ t.2.*1.
Proof.
  remember (n, log) as t0 eqn:E. intros Hf. revert n log E.
  induction Hf as [t0|t0 t1 op ops stop t Hs _ IH|t0 [n1 log1] m source ops err Hs|t0 t1 op ops err Hs Hpub];
    intros n log -> Hops Hlog; [done|..].
  - apply settle_recorded in Hs as Hl. destruct t1 as [n1 log1]. simpl in Hl. subst log1.
    apply (IH n1 (log ++ [(op, None)]) eq_refl); [set_solver|]. rewrite fmap_app. set_solver.
  - apply settle_recorded in Hs as Hl. simpl in Hl. subst log1. simpl. destruct (settle (OpNak _ _) n1) as [? ?]. simpl.
    rewrite !fmap_app. set_solver.
  - apply settle_recorded in Hs as ->. rewrite fmap_app. set_solver.
Qed.

(** When an acknowledgement was issued, the sink had accepted the
    observations of the batch, and the calls were the dead letters and the
    acknowledgement. *)
Lemma consumeBatch_acknowledged (j : JetStream) partition messages (s s' : S) n t res message :
  @consumeBatch _ _ (recorded client) S _ j partition messages s (n, []) = Some (res, s', t) ->
  OpAck message ∈ t.2.*1 ->
  let valid := omap carries messages in
  last valid.*2 = Some message /\
  (exists alerts, SinkIngestBatch partition valid.*1 s = (Ok alerts, s')) /\
  exists answer, t.2 = ((fun op => (op, None)) <$> (messages ≫= poison)) ++ [(OpAck message, answer)] /\
    res = ErrClient <$> answer.
Proof.
  intros Hb Hack valid. unfold consumeBatch in Hb.
  pose proof (@decodeMessages_follows _ _ (recorded client) "" messages [] (n, [])) as Hdec.
  destruct (decodeMessages messages [] _) as [[err|valid'] t1].
  { injection Hb as _ _ <-. destruct Hdec as (stop & Hf & _). exfalso. revert Hack.
    eapply follows_recorded_ack; [exact Hf|apply poison_no_ack|apply not_elem_of_nil]. }
  destruct Hdec as [Hf ->]. rewrite app_nil_l in Hb. fold valid in Hb.
  pose proof (fun H => follows_recorded_ack _ _ _ _ _ message Hf (poison_no_ack _ _) H) as Hno1.
  specialize (Hno1 (not_elem_of_nil _)). apply follows_recorded in Hf as Hl. simpl in Hl.
  assert (last valid.*2 = snd <$> last valid) as Hlast by apply fmap_last.
  destruct (last valid) as [[o final]|] eqn:El; [|by injection Hb as _ _ <-].
  destruct t1 as [n1 log1]. simpl in Hl, Hno1.
  destruct (SinkIngestBatch _ _ s) as [[alerts|text|] s1]; [| |done].
  - destruct (@settle _ _ (recorded client) (OpAck final) (n1, log1)) as [answer t2] eqn:Es.
    apply settle_recorded in Es. assert (t2 = t /\ s1 = s' /\ res = ErrClient <$> answer) as (-> & -> & ->).
    { destruct answer; by injection Hb as <- <- <-. }
    rewrite Es, fmap_app in Hack. apply elem_of_app in Hack as [?|[= ->]%list_elem_of_singleton]; [done|].
    split; [done|]. split; [by eexists|]. exists answer. by rewrite Es, Hl.
  - exfalso. pose proof (@retryMessages_follows _ _ (recorded client) j text valid.*2 (n1, log1)) as Hr.
    assert (exists stop, @follows _ _ (recorded client) (n1, log1) (valid.*2 ≫= retry j text) stop t) as [stop Hf'].
    { destruct (retryMessages j text _ _) as [[e|] t2]; injection Hb as _ _ <-; [|by eexists].
      destruct Hr as (stop & ? & _). by eexists. }
    revert Hack. eapply follows_recorded_ack; [exact Hf'|apply retry_no_ack|exact Hno1].
Qed.
(** Recording changes nothing else. *)
Definition plain {A} (x : A * (N * Log)) : A * N := (x.1, x.2.1).

Lemma settle_plain op t : plain (@settle _ _ (recorded client) op t) = settle op t.1.
Proof. destruct t as [n log]. simpl. by destruct (settle op n). Qed.

Lemma deadLetter_plain message reason t :
  plain (@deadLetter _ _ (recorded client) message reason t) = deadLetter message reason t.1.
Proof.
  unfold deadLetter. rewrite <- settle_plain. destruct (settle (OpPublish _) t) as [[err|] t1]; simpl.
  - unfold plain. simpl. rewrite <- (settle_plain _ t1). done.
  - rewrite <- (settle_plain _ t1). by destruct (settle (OpTerm _) t1) as [[err|] t2].
Qed.

Lemma decodeMessages_plain messages : forall valid t,
  plain (@decodeMessages _ _ (recorded client) messages valid t) = decodeMessages messages valid t.1.
Proof.
  induction messages as [|message messages IH]; intros valid t; simpl; [done|].
  destruct (decodeMessage message); [|apply IH]. rewrite <- deadLetter_plain.
  destruct (deadLetter message _ t) as [[err|] t1]; [done|apply IH].
Qed.

Lemma retryMessages_plain j text messages : forall t,
  plain (@retryMessages _ _ (recorded client) j text messages t) = retryMessages j text messages t.1.
Proof.
  induction messages as [|message messages IH]; intros t; simpl; [done|]. case_goal.
  - rewrite <- deadLetter_plain. destruct (deadLetter message _ t) as [[err|] t1]; [done|apply IH].
  - destruct t as [n log]. simpl. destruct (settle (OpNak message _) n) as [[err|] n1]; [done|]. by rewrite IH.
Qed.

Lemma consumeBatch_recorded (j : JetStream) partition messages (s : S) t :
  plain <$> @consumeBatch _ _ (recorded client) S _ j partition messages s t = consumeBatch j partition messages s t.1.
Proof.
  unfold consumeBatch. rewrite <- decodeMessages_plain.
  destruct (decodeMessages messages [] t) as [[err|valid] t1]; simpl; [done|].
  destruct (last valid) as [[o message]|]; [|done]. destruct (SinkIngestBatch _ _ s) as [[alerts|text|] s1]; [| |done].
  - destruct t1 as [n1 log1]. simpl. by destruct (settle (OpAck message) n1) as [[err|] n2].
  - rewrite <- retryMessages_plain. by destruct (retryMessages j text _ t1) as [[err|] t2].
Qed.
End Recorded.

(** ** The service as the sink *)

Section ServiceSink.
Context {N Subscription : Type} `{Client N Subscription}.
Context {R : Type} `{RepositoryLaws R} `{!ControlRepository R}.
Context (errorText : ServiceError -> string).

Definition serviceSink (clock : Clock) : Sink (Service R) :=
  {| SinkIngestBatch partition observations s :=
       match IngestBatch clock partition observations s with
       | (Ok alerts, s') => (Ok alerts, s')
       | (Err err, s') => (Err (errorText err), s')
       | (Panic, s') => (Panic, s')
       end |}.

Definition consume (clock : Clock) := @consumeBatch N Subscription _ (Service R) (serviceSink clock).
End ServiceSink.

Section Deployed.
Context {N Subscription : Type} (client : Client N Subscription).
Context {R : Type} `{RepositoryLaws R} `{!ControlRepository R}.
Context (errorText : ServiceError -> string).

Lemma serviceSink_Ok clock partition obs (s s' : Service R) alerts :
  @SinkIngestBatch _ (serviceSink errorText clock) partition obs s = (Ok alerts, s') ->
  IngestBatch clock partition obs s = (Ok alerts, s').
Proof. simpl. by destruct (IngestBatch _ _ _ _) as [[| |] ?]; intros [= -> ->]. Qed.

Lemma IngestBatch_Ok clock partition obs (s s' : Service R) alerts :
  IngestBatch clock partition obs s = (Ok alerts, s') ->
  validateAll obs = None /\
  EvaluateBatch clock.(Clock.now) partition obs s.(runtime) s.(repo) = (Ok alerts, s'.(runtime), s'.(repo)).
Proof.
  unfold IngestBatch. case_goal; [done|]. destruct (validateAll obs); [done|].
  destruct (EvaluateBatch _ _ _ _ _) as [[res e] r] eqn:E. intros [= Hres <-].
  destruct (afterEvaluation_fields clock obs res (with_runtime (with_repo s r) e)) as (-> & -> & _).
  destruct res; simplify_eq/=. done.
Qed.

(** C4: what is acknowledged is stored. If a batch ever issues an
    acknowledgement, whatever the broker answers to it, then the message
    acknowledged is the last that carries an observation; every message of the
    batch that carries none has been dead-lettered; every observation had been
    validated, and evaluated or recognised as stale; the repository holds the
    checkpoint of the abstract commit of those evaluated, and the memory of
    the worker is the committed one. This is so for every repository that
    keeps the contract, also one whose commits fail: no acknowledgement goes
    out before the commit has succeeded, so that an acknowledged observation
    is never lost. *)
Theorem acknowledged_durable (j : JetStream) (clock : Clock) (pid : Z) (messages : list Delivery) (message : Delivery)
  (s s' : Service R) (n n' : N) (log : list (Op * option NatsError)) (res : option BrokerError) :
  @consume _ Subscription (recorded client) R _ errorText clock j pid messages s (n, []) = Some (res, s', (n', log)) ->
  OpAck message ∈ log.*1 ->
  let observations := (omap carries messages).*1 in
  last (omap carries messages).*2 = Some message /\
  (exists answer, log = ((fun op => (op, None)) <$> (messages ≫= poison)) ++ [(OpAck message, answer)] /\
     res = ErrClient <$> answer) /\
  Forall (fun o => validateObservation o = None) observations /\
  exists partition b,
    s.(runtime).(partitions) !! Z.to_nat pid = Some partition /\
    evaluateAll s.(runtime) pid partition clock.(Clock.now) (Batch.start s.(runtime)) observations = Some (Continue b) /\
    runtimeOf s'.(repo) ≡ (if (length b.(Batch.accepted) =? 0)%nat then runtimeOf s.(repo)
                           else commitRuntime (batchOf pid b) (runtimeOf s.(repo))) /\
    s'.(runtime).(partitions) !! Z.to_nat pid = Some (afterBatch pid partition b).
Proof.
  intros Hc Hack observations.
  apply (consumeBatch_acknowledged client) with (message := message) in Hc as (Hlast & [alerts Hs] & Hlog); [|exact Hack].
  split; [done|]. split; [exact Hlog|]. apply serviceSink_Ok, IngestBatch_Ok in Hs as [Hv Hev].
  fold observations in Hv, Hev. split; [by apply validateAll_None|].
  apply EvaluateBatch_Ok in Hev as (partition & b & Hr & Ho & Hp & Ha & He & Hcommit).
  exists partition, b. split; [done|]. split; [done|]. split.
  - destruct (_ =? 0)%nat; [by destruct Hcommit as [_ ->]|]. by eapply commit_ok.
  - rewrite He. simpl. apply list_lookup_insert_eq. by eapply lookup_lt_Some.
Qed.

(** *** Redelivery *)

(** The same message, delivered once more: only the count of its deliveries
    is another. *)
Definition redeliveryOf (message again : Delivery) : Prop :=
  again.(Delivery.Subject) = message.(Delivery.Subject) /\ again.(Delivery.Data) = message.(Delivery.Data) /\
  again.(Delivery.MsgId) = message.(Delivery.MsgId).

(** Batches handled one after the other, each at its time and with the broker
    in a state of its own. *)
Fixpoint consumeAll (j : JetStream) (pid : Z) (batches : list (Clock * list Delivery * N)) (s : Service R)
  : option (Service R) :=
  match batches with
  | [] => Some s
  | (clock, messages, n) :: rest =>
      match consume errorText clock j pid messages s n with
      | Some (_, s1, _) => consumeAll j pid rest s1
      | None => None
      end
  end.

Lemma redelivered_carries messages messages' :
  Forall (fun again => exists message, message ∈ messages /\ redeliveryOf message again) messages' ->
  Forall (fun o => o ∈ (omap carries messages).*1) (omap carries messages').*1.
Proof.
  intros Hagain. apply Forall_forall. intros o (om & -> & (again & Hm & Hcar)%list_elem_of_omap)%list_elem_of_fmap.
  rewrite Forall_forall in Hagain. destruct (Hagain again Hm) as (message & Hin & _ & Hdata & _).
  unfold carries, decodeMessage in Hcar. rewrite Hdata in Hcar. apply list_elem_of_fmap. exists (om.1, message).
  split; [done|]. apply list_elem_of_omap. exists message. split; [done|]. unfold carries, decodeMessage.
  repeat case_hyp Hcar; simplify_eq; done.
Qed.

Lemma IngestBatch_ahead clock pid obs obs' (s : Service R) :
  ahead s.(runtime) pid obs -> Forall (fun o => o ∈ obs) obs' ->
  let outcome := @SinkIngestBatch _ (serviceSink errorText clock) pid obs' s in
  outcome.1 <> Panic /\ ahead outcome.2.(runtime) pid obs /\ outcome.2.(repo) = s.(repo) /\
  outcome.2.(runtime).(partitions) = s.(runtime).(partitions) /\ outcome.2.(wake) = s.(wake).
Proof.
  intros Ha Hin. simpl. unfold IngestBatch. case_goal; [done|]. destruct (validateAll obs'); [done|].
  destruct (ahead_ignores clock.(Clock.now) pid obs obs' s.(runtime) s.(repo) Ha Hin) as [-> Ha']. done.
Qed.

Lemma consumeAll_ahead j pid messages batches : forall s,
  ahead s.(runtime) pid (omap carries messages).*1 ->
  Forall (fun batch => Forall (fun again => exists message, message ∈ messages /\ redeliveryOf message again) batch.1.2)
    batches ->
  exists s', consumeAll j pid batches s = Some s' /\
    s'.(repo) = s.(repo) /\ s'.(runtime).(partitions) = s.(runtime).(partitions) /\ s'.(wake) = s.(wake).
Proof.
  induction batches as [|[[clock messages'] n] batches IH]; intros s Ha Hb; [by exists s|].
  apply Forall_cons in Hb as [Hm%redelivered_carries Hb]. simpl in *.
  destruct (IngestBatch_ahead clock pid _ _ s Ha Hm) as (Hnp & Ha' & Hr & Hp & Hw).
  destruct (@consumeBatch_sink N Subscription _ (Service R) (serviceSink errorText clock) j pid messages' s n Hnp)
    as (res & s1 & n1 & Hc & Hs1). unfold consume. rewrite Hc.
  destruct Hs1 as [->| ->]; [by apply IH|]. destruct (IH _ Ha' Hb) as (s' & Hs' & Hr' & Hp' & Hw').
  exists s'. rewrite Hr', Hp', Hw'. done.
Qed.

(** C17: a redelivery is harmless. Once a batch of ordinary observations has
    issued its acknowledgement, which may have failed or got lost, the broker
    may deliver its messages again, with higher counts of deliveries; whatever
    it delivers of them, in however many batches and in whatever order, at
    any time and however the broker answers, no batch panics, the repository
    and the memory of the worker stay as the first delivery left them, and no
    publisher is woken: no alert is raised twice. *)
Theorem redelivery_harmless (j : JetStream) (clock : Clock) (pid : Z) (messages : list Delivery) (message : Delivery)
  (s s' : Service R) (n n' : N) (log : list (Op * option NatsError)) (res : option BrokerError)
  (batches : list (Clock * list Delivery * N)) :
  @consume _ Subscription (recorded client) R _ errorText clock j pid messages s (n, []) = Some (res, s', (n', log)) ->
  OpAck message ∈ log.*1 ->
  Forall (fun o => o.(Observation.IsReset) = false) (omap carries messages).*1 ->
  Forall (fun batch => Forall (fun again => exists message, message ∈ messages /\ redeliveryOf message again) batch.1.2)
    batches ->
  exists s'', consumeAll j pid batches s' = Some s'' /\
    s''.(repo) = s'.(repo) /\ s''.(runtime).(partitions) = s'.(runtime).(partitions) /\ s''.(wake) = s'.(wake).
Proof.
  intros Hc Hack Hord Hb.
  apply (consumeBatch_acknowledged client) with (message := message) in Hc as (_ & [alerts Hs] & _); [|exact Hack].
  apply serviceSink_Ok, IngestBatch_Ok in Hs as [Hv Hev]. apply (consumeAll_ahead j pid messages); [|done].
  eapply EvaluateBatch_ahead; [exact Hev|]. apply validateAll_None in Hv. rewrite Forall_forall in Hv, Hord |- *.
  intros o Ho. split; [by apply Hord|]. specialize (Hv o Ho). unfold validateObservation in Hv. case_hyp Hv; [done|].
  apply orb_false_iff in Heqb as [Heqb _]. apply orb_false_iff in Heqb as [_ Hz]. unfold IsZero in Hz. lia.
Qed.
End Deployed.

(** ** Delays *)

Lemma min_pow2 a b : (0 <= a)%Z -> (0 <= b)%Z -> Z.min (2 ^ a) (2 ^ b) = (2 ^ Z.min a b)%Z.
Proof.
  intros Ha Hb. destruct (Z.le_ge_cases a b) as [Hle|Hle].
  - rewrite !Z.min_l; [done|done|by apply Z.pow_le_mono_r; lia].
  - rewrite !Z.min_r; [done|done|by apply Z.pow_le_mono_r; lia].
Qed.

(** The delay before a message is delivered again doubles with every
    delivery, from one second, and stops at five minutes, for every count of
    deliveries: nothing overflows on the way. *)
Theorem retryDelay_exact (delivery : Z) :
  (0 <= delivery < 2 ^ 64)%Z ->
  retryDelay delivery = (Z.min (2 ^ (Z.max delivery 1 - 1)) 300 * Second)%Z.
Proof.
  intros Hd. unfold retryDelay.
  replace (if (delivery =? 0)%Z then 1%Z else delivery) with (Z.max delivery 1) by (case_goal; lia).
  set (k := (Z.max delivery 1 - 1)%Z). assert (0 <= k)%Z as Hk by lia.
  rewrite Z.shiftl_1_l. unfold mulDur.
  assert (1 <= 2 ^ Z.min k 9 <= 2 ^ 9)%Z as Hp.
  { split; [change 1%Z with (2 ^ 0)%Z|]; apply Z.pow_le_mono_r; lia. }
  rewrite int64_id by (unfold minInt64, maxInt64, Second; lia).
  assert (Z.min (2 ^ k) 300 = Z.min (2 ^ Z.min k 9) 300)%Z as ->.
  { rewrite <- min_pow2 by lia. lia. }
  unfold Minute, Second. case_goal; lia.
Qed.

Lemma retryDelay_exact_witness : retryDelay 4 = (8 * Second)%Z /\ retryDelay 40 = (5 * Minute)%Z.
Proof.
  split.
  - rewrite (retryDelay_exact 4) by lia. reflexivity.
  - rewrite (retryDelay_exact 40) by lia. reflexivity.
Defined.

(** ** Shards *)

Definition shards : list Z := Z.of_nat <$> seq 0 256.

Lemma elem_shards shard : shard ∈ shards <-> (0 <= shard < EvaluationPartitions)%Z.
Proof.
  unfold shards, EvaluationPartitions. rewrite list_elem_of_fmap. split.
  - intros (k & -> & Hk%elem_of_seq). lia.
  - intros Hs. exists (Z.to_nat shard). rewrite elem_of_seq. lia.
Qed.

Lemma pad3_inj a b :
  (0 <= a < EvaluationPartitions)%Z -> (0 <= b < EvaluationPartitions)%Z -> pad3 a = pad3 b -> a = b.
Proof.
  intros Ha%elem_shards Hb%elem_shards Heq.
  assert (forallb (fun a => forallb (fun b => (a =? b)%Z || negb (String.eqb (pad3 a) (pad3 b))) shards) shards = true)
    as H by (vm_compute; reflexivity).
  rewrite forallb_forall in H. apply list_elem_of_In in Ha, Hb. specialize (H a Ha).
  rewrite forallb_forall in H. specialize (H b Hb). rewrite Heq, String.eqb_refl in H. simpl in H. lia.
Qed.

Lemma app_right_inj a b c d t : String.length a = String.length b -> a +:+ c +:+ t = b +:+ d +:+ t ->
  String.length c = String.length d -> c = d.
Proof.
  revert b. induction a as [|x a IH]; intros [|y b]; simpl; try done; [|intros [= Hl] [= _ H]; by eapply IH].
  intros _ H. revert d H. induction c as [|x c IH]; intros [|y d]; simpl; try done.
  intros [= -> H] [= Hl]. f_equal. by apply IH.
Qed.

Lemma pad3_length k : (0 <= k < EvaluationPartitions)%Z -> String.length (pad3 k) = 3.
Proof.
  intros Hk%elem_shards%list_elem_of_In.
  assert (forallb (fun k => String.length (pad3 k) =? 3)%nat shards = true) as H by (vm_compute; reflexivity).
  rewrite forallb_forall in H. by apply Nat.eqb_eq, H.
Qed.

(** C39: the shards divide the work. Every one of the 256 shards is consumed by
    exactly one of the workers, namely the one whose engine owns the partition
    of that number, so that what a worker fetches its engine never refuses
    as not owned; no two shards share a subject or a durable consumer; and the
    alerts of a series go to one of the 256 subjects of alerts. *)
Theorem shards_divide (count shard shard' : Z) (j : Z -> JetStream) :
  (0 < count)%Z -> (0 <= shard < EvaluationPartitions)%Z -> (0 <= shard' < EvaluationPartitions)%Z ->
  (forall index, (j index).(JetStream.workerIndex) = index /\ (j index).(JetStream.workerCount) = count) ->
  (forall index, shard ∈ shardsOf (j index) <-> index = (shard mod count)%Z) /\
  (forall index, shard ∈ shardsOf (j index) <-> shard ∈ ownedPartitions (NewWithOwnership EvaluationPartitions index count)) /\
  (shardSubject shard = shardSubject shard' -> shard = shard') /\
  (forall index, shardDurable (j index) shard = shardDurable (j index) shard' -> shard = shard') /\
  (forall alert, exists k, (0 <= k < EvaluationPartitions)%Z /\ alertSubject alert = "alerts.events." +:+ pad3 k).
Proof.
  intros Hc Hs Hs' Hj.
  assert (forall index, shard ∈ shardsOf (j index) <-> index = (shard mod count)%Z) as H1.
  { intros index. destruct (Hj index) as [Hi Hn]. unfold shardsOf. rewrite list_elem_of_filter, Hi, Hn.
    fold shards. change (Z.of_nat <$> seq 0 (Z.to_nat EvaluationPartitions)) with shards. rewrite elem_shards.
    rewrite Z.rem_mod_nonneg by lia. intuition congruence. }
  split; [done|]. split; [|split; [|split]].
  - intros index. rewrite H1, elem_ownedPartitions. unfold inRange.
    assert (partitionCountOf (NewWithOwnership EvaluationPartitions index count) = EvaluationPartitions) as ->
      by (vm_compute; reflexivity).
    unfold owns, NewWithOwnership. cbn [workerCount workerIndex]. replace (count <? 1)%Z with false by lia.
    rewrite Z.eqb_eq, Z.rem_mod_nonneg by lia. intuition lia.
  - unfold shardSubject. intros H. apply pad3_inj; [done|done|].
    eapply app_right_inj; [|exact H|by rewrite !pad3_length]. done.
  - unfold shardDurable. intros index H. apply (String.app_inj _) in H. apply (String.app_inj _) in H.
    by apply pad3_inj.
  - intros alert. eexists. split; [|reflexivity]. apply Z.mod_pos_bound. unfold EvaluationPartitions. lia.
Qed.

Definition workerOf (index : Z) : JetStream := JetStream.mk "ALERTS_EVALUATOR_V3" (30 * Second) 20 index 4 32.

Lemma shards_divide_witness : 142%Z ∈ shardsOf (workerOf 2) /\ (7%Z ∈ shardsOf (workerOf 2) -> False).
Proof.
  assert (forall k, (0 <= k < 256)%Z -> (0 <= k < EvaluationPartitions)%Z) as Hr by (intros k Hk; exact Hk).
  split.
  - destruct (shards_divide 4 142 142 workerOf) as [H _]; [lia|apply Hr; lia|apply Hr; lia|done|].
    apply H. reflexivity.
  - destruct (shards_divide 4 7 7 workerOf) as [H _]; [lia|apply Hr; lia|apply Hr; lia|done|].
    intros Hin. apply H in Hin. discriminate Hin.
Defined.

(** ** Streams *)

Section Streams.
Context {N Subscription : Type} `{Client N Subscription}.

(** A stream has the settings asked for; the server may say -1 where no limit
    on the messages of a subject was given. *)
Definition configured (info config : StreamConfig) : Prop :=
  info.(StreamConfig.Name) = config.(StreamConfig.Name) /\
  info.(StreamConfig.Subjects) = config.(StreamConfig.Subjects) /\
  info.(StreamConfig.Retention) = config.(StreamConfig.Retention) /\
  info.(StreamConfig.Storage) = config.(StreamConfig.Storage) /\
  info.(StreamConfig.Replicas) = config.(StreamConfig.Replicas) /\
  info.(StreamConfig.MaxAge) = config.(StreamConfig.MaxAge) /\
  (info.(StreamConfig.MaxMsgsPerSubject) = config.(StreamConfig.MaxMsgsPerSubject) \/
   (config.(StreamConfig.MaxMsgsPerSubject) <= 0)%Z /\ info.(StreamConfig.MaxMsgsPerSubject) = (-1)%Z) /\
  info.(StreamConfig.MaxMsgSize) = config.(StreamConfig.MaxMsgSize) /\
  info.(StreamConfig.Duplicates) = config.(StreamConfig.Duplicates) /\
  info.(StreamConfig.AllowRollup) = config.(StreamConfig.AllowRollup).

Lemma sameStreamConfig_configured info config : sameStreamConfig info config = true -> configured info config.
Proof.
  unfold sameStreamConfig, configured. rewrite !andb_true_iff, !String.eqb_eq, !Z.eqb_eq, Bool.eqb_true_iff.
  destruct (StreamConfig.Subjects info) as [|a [|]], (StreamConfig.Subjects config) as [|b [|]];
    rewrite ?String.eqb_eq; intuition (congruence || auto).
Qed.

(** What JetStream documents of its streams: asking about one changes
    nothing, and one that was created or updated has the settings it was
    given. *)
Class StreamLaws := {
  info_pure (name name' : string) (n : N) : (StreamInfo name' (StreamInfo name n).2).1 = (StreamInfo name' n).1;
  update_info (config : StreamConfig) (n n' : N) : UpdateStream config n = (None, n') ->
    exists info, (StreamInfo config.(StreamConfig.Name) n').1 = inr info /\ configured info config;
  add_info (config : StreamConfig) (n n' : N) : AddStream config n = (None, n') ->
    exists info, (StreamInfo config.(StreamConfig.Name) n').1 = inr info /\ configured info config }.

(** A stream is reconciled. When [ensureStream] succeeds the stream has
    the settings asked for, whether it had it, had another one or did not
    exist; the one exception is a stream that another process created
    meanwhile, which is taken as it is. A stream that has the configuration is
    not written to; and if it cannot be told whether it exists, the call fails
    without writing. *)
Theorem ensureStream_reconciles `{!StreamLaws} (config : StreamConfig) (n n' : N) (res : option BrokerError) :
  ensureStream config n = (res, n') ->
  let name := config.(StreamConfig.Name) in
  (res = None -> (exists info, (StreamInfo name n').1 = inr info /\ configured info config) \/
     ((StreamInfo name n).1 = inl ErrStreamNotFound /\
      (AddStream config (StreamInfo name n).2).1 = Some ErrStreamNameAlreadyInUse)) /\
  (forall info, (StreamInfo name n).1 = inr info -> sameStreamConfig info config = true ->
     res = None /\ n' = (StreamInfo name n).2) /\
  (forall err, (StreamInfo name n).1 = inl err -> err <> ErrStreamNotFound ->
     res = Some (ErrInspect name err) /\ n' = (StreamInfo name n).2).
Proof.
  intros He name. unfold ensureStream in He. fold name in He. pose proof (info_pure name name n) as Hpure.
  destruct (StreamInfo name n) as [[err|info] n1]; simpl in *.
  - split; [|split; [done|]].
    + intros ->. destruct err; try done.
      destruct (AddStream config n1) as [[[]|] n2] eqn:Ea; simplify_eq; [by right|]. left. by eapply add_info.
    + intros err' [= ->] Hne. by destruct err'; simplify_eq.
  - split; [|split; [|done]].
    + intros ->. left. destruct (sameStreamConfig info config) eqn:Es.
      { injection He as <-. exists info. by rewrite Hpure; eauto using sameStreamConfig_configured. }
      destruct (UpdateStream config n1) as [[err|] n2] eqn:Eu; [done|]. injection He as <-. by eapply update_info.
    + intros info' [= <-] Hs. rewrite Hs in He. by injection He as <- <-.
Qed.
End Streams.

(** ** A concrete client *)

(** A broker that has streams and consumers, fails the calls it is told to,
    and keeps the calls it was given. *)
Module Lab.
Record Lab := mk {
  streams : gmap string StreamConfig; fail : nat -> option NatsError; calls : list Op }.
End Lab.
Abbreviation Lab := Lab.Lab.

(** Streams as the server keeps them. *)
Definition unlimited (config : StreamConfig) : StreamConfig :=
  StreamConfig.mk config.(StreamConfig.Name) config.(StreamConfig.Subjects) config.(StreamConfig.Retention)
    config.(StreamConfig.Storage) config.(StreamConfig.Replicas) config.(StreamConfig.MaxAge)
    (if (config.(StreamConfig.MaxMsgsPerSubject) <=? 0)%Z then (-1)%Z else config.(StreamConfig.MaxMsgsPerSubject))
    config.(StreamConfig.MaxMsgSize) config.(StreamConfig.Duplicates) config.(StreamConfig.AllowRollup).

#[export] Instance lab_client : Client Lab unit := {
  Connect _ _ n := (None, n);
  JetStreamContext n := (None, n);
  Drain n := (None, n);
  CloseConnection n := n;
  IsConnected _ := true;
  StreamInfo name n :=
    (match n.(Lab.streams) !! name with Some config => inr config | None => inl ErrStreamNotFound end, n);
  UpdateStream config n :=
    (None, Lab.mk (<[config.(StreamConfig.Name) := unlimited config]> n.(Lab.streams)) n.(Lab.fail) n.(Lab.calls));
  AddStream config n :=
    (None, Lab.mk (<[config.(StreamConfig.Name) := unlimited config]> n.(Lab.streams)) n.(Lab.fail) n.(Lab.calls));
  ConsumerInfo _ _ n := (inl ErrConsumerNotFound, n);
  UpdateConsumer _ _ n := (None, n);
  PullSubscribe _ n := (inr (), n);
  Fetch _ _ n := ([], Some ErrTimeout, n);
  Canceled _ := true;
  settle op n := (n.(Lab.fail) (length n.(Lab.calls)), Lab.mk n.(Lab.streams) n.(Lab.fail) (n.(Lab.calls) ++ [op])) }.

#[export] Instance lab_streams : @StreamLaws Lab unit lab_client.
Proof.
  assert (forall config n, exists info,
    (<[config.(StreamConfig.Name) := unlimited config]> n.(Lab.streams) !! config.(StreamConfig.Name)) = Some info /\
    configured info config) as H.
  { intros config n. exists (unlimited config). rewrite lookup_insert_eq. split; [done|].
    unfold configured, unlimited. simpl. repeat split. destruct (Z.leb_spec (StreamConfig.MaxMsgsPerSubject config) 0); auto. }
  split; simpl; [done| |]; intros config n n' [= <-]; simpl; destruct (H config n) as (info & -> & Hc); eauto.
Qed.

Definition newLab : Lab := Lab.mk ∅ (fun _ => None) [].
Definition evaluationStream : StreamConfig :=
  default (StreamConfig.mk "" [] "" "" 0 0 0 0 0 false) (head (streamConfigs 3)).

Lemma ensureStream_reconciles_witness :
  exists info, (StreamInfo EvaluationStream (ensureStream evaluationStream newLab).2).1 = inr info /\
    configured info evaluationStream.
Proof.
  destruct (ensureStream_reconciles evaluationStream newLab _ _
              (surjective_pairing (ensureStream evaluationStream newLab))) as [H _].
  destruct (H eq_refl) as [Hi|[_ Hr]]; [exact Hi|discriminate Hr].
Defined.

(** A bar, something that is no JSON, and another bar. *)
Definition delivery (id : string) (data : string + Event) (delivered : Z) : Delivery :=
  Delivery.mk "signals.evaluation.142.confirmed.x" data id (Some delivered).
Definition oneDelivery : Delivery := delivery "one" (inr (barEvent 1 redBar [])) 1.
Definition twoDelivery : Delivery := delivery "two" (inr (barEvent 1 (confirmedBar "two" btc (minutes 1) 101 99) [])) 20.
Definition threeDeliveries : list Delivery :=
  [oneDelivery; delivery "bad" (inl "unexpected end of JSON input") 1; twoDelivery].
Definition anyText (err : ServiceError) : string := "refused".
Definition labWorker : JetStream := JetStream.mk "ALERTS_EVALUATOR_V3" (30 * Second) 20 0 1 32.

(** On a worker that owns nothing of the sort, and on one that does. *)
Definition refused : option (option BrokerError * Service Memory * Lab) :=
  consume anyText (clockAt 0) labWorker 3 threeDeliveries colorService newLab.
Definition accepted : option (option BrokerError * Service Memory * Lab) :=
  consume anyText (clockAt 0) labWorker 142 threeDeliveries colorService newLab.

Example refused_calls : match refused with Some (_, _, n) => length n.(Lab.calls) | None => 0 end = 5.
Proof. vm_compute. reflexivity. Qed.
Example accepted_calls : match accepted with Some (_, _, n) => length n.(Lab.calls) | None => 0 end = 3.
Proof. vm_compute. reflexivity. Qed.

Lemma consumeBatch_settles_witness :
  exists s n, refused = Some (Some (ErrEvaluation "refused"), s, n) /\ s.(runtime).(partitions) = colorEngine.(partitions) /\
  exists n1, follows newLab (threeDeliveries ≫= poison) None n1 /\
    follows n1 (settlement labWorker (omap carries threeDeliveries).*2 (Err "refused")) None n.
Proof.
  destruct refused as [[[res s] n]|] eqn:E; [|vm_compute in E; discriminate E].
  assert (res = Some (ErrEvaluation "refused") /\ s.(runtime).(partitions) = colorEngine.(partitions)) as [-> Hs]
    by (vm_compute in E; injection E as <- <- _; split; vm_compute; reflexivity).
  exists s, n. split; [reflexivity|]. split; [exact Hs|].
  destruct (@consumeBatch_settles Lab unit lab_client (Service Memory) (serviceSink anyText (clockAt 0))
    labWorker 3 threeDeliveries colorService s newLab n _ E) as [([[] err] & _ & H & _)|(n1 & stop & H1 & H2 & _ & H)];
    [discriminate H..|].
  exists n1. split; [exact H1|].
  assert ((@SinkIngestBatch _ (serviceSink anyText (clockAt 0)) 3 (omap carries threeDeliveries).*1 colorService).1
          = Err "refused") as Ho by (vm_compute; reflexivity).
  rewrite Ho in H2, H. destruct stop as [[[] err]|]; [discriminate H..|exact H2].
Defined.

(** The same messages on the worker's own partition, over a broker that loses
    the acknowledgement; then the first of them again, and all of them in
    another order. *)
Definition losingLab : Lab :=
  Lab.mk ∅ (fun k => if (k =? 2)%nat then Some (ErrNats "timeout") else None) [].
Abbreviation firstDelivery :=
  (@consume _ unit (recorded lab_client) Memory _ anyText (clockAt 0) labWorker 142 threeDeliveries colorService
     (losingLab, [])).
Definition redelivered (count : Z) (message : Delivery) : Delivery :=
  Delivery.mk message.(Delivery.Subject) message.(Delivery.Data) message.(Delivery.MsgId) (Some count).
Definition laterDeliveries : list (Clock * list Delivery * Lab) :=
  [(clockAt 1, [redelivered 2 oneDelivery], newLab); (clockAt 2, redelivered 3 <$> reverse threeDeliveries, losingLab)].

Lemma firstDelivery_outcome :
  (fun x => (x.1.1, length x.1.2.(repo).(Memory.alerts), x.2.2.*1 !! 2)) <$> firstDelivery
  = Some (Some (ErrClient (ErrNats "timeout")), 2, Some (OpAck twoDelivery)).
Proof. vm_compute. reflexivity. Qed.

Lemma acknowledged_durable_witness :
  exists res s n log, firstDelivery = Some (res, s, (n, log)) /\ OpAck twoDelivery ∈ log.*1 /\
    Forall (fun o => validateObservation o = None) (omap carries threeDeliveries).*1.
Proof.
  pose proof firstDelivery_outcome as Hres. destruct firstDelivery as [[[res s] [n log]]|] eqn:E; [|discriminate Hres].
  assert (OpAck twoDelivery ∈ log.*1) as Hack
    by (injection Hres as _ _ Hl; apply list_elem_of_lookup; exists 2; exact Hl).
  exists res, s, n, log. split; [reflexivity|]. split; [exact Hack|].
  apply (acknowledged_durable lab_client anyText labWorker (clockAt 0) 142 threeDeliveries twoDelivery colorService s
           losingLab n log res E Hack).
Defined.

Lemma redelivery_harmless_witness :
  exists res s n log, firstDelivery = Some (res, s, (n, log)) /\ length s.(repo).(Memory.alerts) = 2 /\
    exists s', consumeAll lab_client anyText labWorker 142 laterDeliveries s = Some s' /\ s'.(repo) = s.(repo).
Proof.
  pose proof firstDelivery_outcome as Hres. destruct firstDelivery as [[[res s] [n log]]|] eqn:E; [|discriminate Hres].
  assert (OpAck twoDelivery ∈ log.*1 /\ length s.(repo).(Memory.alerts) = 2) as [Hack Hl]
    by (injection Hres as _ Hl Ha; split; [apply list_elem_of_lookup; exists 2; exact Ha|exact Hl]).
  exists res, s, n, log. split; [reflexivity|]. split; [exact Hl|].
  destruct (redelivery_harmless lab_client anyText labWorker (clockAt 0) 142 threeDeliveries twoDelivery
    colorService s losingLab n log res laterDeliveries E Hack) as (s' & H & Hr & _).
  - vm_compute. repeat constructor.
  - assert (forall k m, m ∈ threeDeliveries -> exists message, message ∈ threeDeliveries /\
        redeliveryOf message (redelivered k m)) as Hk
      by (intros k m Hm; exists m; repeat split; exact Hm).
    repeat constructor; apply Hk; repeat constructor.
  - exists s'. split; [exact H|exact Hr].
Defined.
