(* ===== verification/Consume.v ===== *)
(** * The consumer over the service, from start to crash

    All shards of a worker at once: the loops of [Consume] take turns in any
    order, the broker behaves in any way, and the clock reads what it reads at
    each batch. What the turns preserve is shown once, for any sink; then for
    the service, whose engine stays in step with its repository, so that the
    worker can be replaced at any moment. *)

From stdpp Require Import base gmap strings list numbers pretty sorting.
From S2P Require Import Prelude GoFloat GoBase GoTime Model Rules Store Memory MemoryProps Tables Fixtures.
From S2P Require Import Engine EngineIndex EngineBatch EngineTrack EngineTrace EngineRecovery Service ServiceProps Signals SignalsProps.
From S2P Require Import Broker BrokerProps.
Import Engine Service Service.Service ServiceMetrics.

(** ** What the turns preserve *)

Section Turns.
Context {N Subscription : Type} `{Client N Subscription} {S : Type} `{Sink S}.
Context (j : JetStream) (P : S -> Prop) (fine : list Delivery -> Prop).
Hypothesis fetched : forall subscription k (n : N), fine (Fetch subscription k n).1.1.
Hypothesis kept : forall pid messages s,
  pid ∈ shardsOf j -> fine messages -> P s ->
  (SinkIngestBatch pid (omap carries messages).*1 s).1 <> Panic ->
  P (SinkIngestBatch pid (omap carries messages).*1 s).2.

Lemma shardTurn_keeps pid subscription s n ending s' n' :
  pid ∈ shardsOf j -> P s -> shardTurn j pid subscription s n = (ending, s', n') -> P s'.
Proof.
  intros Hpid Hs. unfold shardTurn. case_goal; [by intros [= _ <- _]|].
  pose proof (fetched subscription j.(JetStream.batchSize) n) as Hm.
  destruct (Fetch _ _ n) as [[messages err] n1]. simpl in Hm.
  destruct err as [[]|]; try (by intros [= _ <- _]); (case_goal; [by intros [= _ <- _]|]);
    (destruct (consumeBatch j pid messages s n1) as [[[res s2] n2]|] eqn:Ec; [|by intros [= _ <- _]]);
    intros [= _ <- _]; (apply consumeBatch_state in Ec as [->|[Hnp ->]]; [done|by apply kept]).
Qed.

Lemma Consume_keeps schedule s n ending s' n' : P s -> Consume schedule j s n = (ending, s', n') -> P s'.
Proof.
  intros Hs. unfold Consume. generalize (∅ : gmap Z Subscription) as subscriptions. revert s n Hs.
  induction schedule as [|shard schedule IH]; intros s n Hs subscriptions; [by intros [= _ <- _]|].
  rewrite filter_cons. destruct (decide _) as [Hshard|_]; [|by apply IH]. cbn [consumeScheduled].
  destruct (subscriptions !! shard) as [subscription|].
  - destruct (shardTurn j shard subscription s n) as [[ending1 s1] n1] eqn:Et.
    apply shardTurn_keeps in Et; [|done|done]. destruct ending1; [by intros [= _ <- _]|by apply IH].
  - destruct (shardSubscription _ _ _ _ n) as [[err|subscription] n1]; [by intros [= _ <- _]|by apply IH].
Qed.
End Turns.

(** ** The service *)

Section Worker.
Context {N Subscription : Type} `{Client N Subscription}.
Context {R : Type} `{RepositoryLaws R} `{!ControlRepository R}.
Context (errorText : ServiceError -> string) (clocks : nat -> Clock).

(** The service as the sink, with the clock of each batch. *)
Definition clockedSink : Sink (nat * Service R) :=
  {| SinkIngestBatch partition observations ks :=
       let '(outcome, s') := @SinkIngestBatch _ (serviceSink errorText (clocks ks.1)) partition observations ks.2 in
       (outcome, (S ks.1, s')) |}.

Definition runConsumer := @Consume N Subscription _ _ clockedSink.

(** A worker in step with its repository, in the place of [e0]. *)
Record worker (e0 : Engine) (s : Service R) : Prop := {
  worker_index : indexOk s.(runtime);
  worker_synced : synced s.(runtime) s.(repo);
  worker_length : length s.(runtime).(partitions) = length e0.(partitions);
  worker_number : s.(runtime).(workerIndex) = e0.(workerIndex);
  worker_count : s.(runtime).(workerCount) = e0.(workerCount) }.

Lemma IngestBatch_worker e0 clock pid obs (s : Service R) :
  Forall (fun o => seriesKeyOk o.(Observation.Series)) obs -> (IngestBatch clock pid obs s).1 <> Panic ->
  worker e0 s -> worker e0 (IngestBatch clock pid obs s).2.
Proof.
  intros Hobs Hnp [Hi Hs Hl Hwi Hwc]. unfold IngestBatch in *. case_goal; [done|].
  destruct (validateAll obs); [done|].
  destruct (EvaluateBatch clock.(Clock.now) pid obs s.(runtime) s.(repo)) as [[res e] r] eqn:Ev.
  pose proof (afterEvaluation_fields clock obs res (with_runtime (with_repo s r) e)) as (Hr & He & _).
  simpl in *. assert (res <> Panic) as Hres by (by destruct res).
  pose proof (EvaluateBatch_synced _ _ _ _ _ _ _ _ Hi Hobs Ev Hres Hs) as Hs'.
  apply EvaluateBatch_index in Ev as (Hb & Hl' & Hwi' & Hwc').
  split; rewrite ?Hr, ?He; [by eapply indexOk_byRoute|done|congruence..].
Qed.

(** The series of a delivery have names without "/". *)
Definition wellKeyed (messages : list Delivery) : Prop :=
  Forall (fun o => seriesKeyOk o.(Observation.Series)) (omap carries messages).*1.

(** C6: a consuming worker can crash at any moment, as long as no delivered
    event has a slash in its data set or symbol. Start a worker on a
    repository, let the loops of its shards consume in any order, from a broker
    that delivers any messages but such events, in any order and number, and
    fails and loses calls in any way, and stop between any two turns, on an
    error or not, but for a panic: a worker started on what the repository
    holds then, with the same number, has in memory the partitions the first
    one had. No turn of any shard, completed or failed, is lost or half
    applied. The condition is needed: a delivered event of BTC/USDT is
    evaluated, but its state is lost at the restart
    ([slashed_symbol_loses_state]). *)
Theorem consumer_recovers (options : Service.Options) (j : JetStream) (schedule : list Z)
  (env0 env1 : Env) (t0 t1 : Z) (r0 : R) (s0 s s1 : Service R) (n n' : N) (k : nat) (ending : option LoopEnd) :
  let new r := NewWithOptions r options in
  (forall subscription size (n : N), wellKeyed (Fetch subscription size n).1.1) ->
  loadable (new r0).(runtime) r0 ->
  InitializeService env0 t0 (new r0) = (Ok (), s0) -> indexOk s0.(runtime) ->
  runConsumer schedule j (0, s0) n = (ending, (k, s), n') -> ending <> Some (inl ()) ->
  InitializeService env1 t1 (new s.(repo)) = (Ok (), s1) ->
  s1.(runtime).(partitions) ≡ s.(runtime).(partitions).
Proof.
  intros new Hfetch Hload Hi0 Hidx Hrun _ Hi1. set (e0 := (new r0).(runtime)).
  assert (fresh e0) as Hf by apply new_fresh.
  apply InitializeService_Ok in Hi0 as (e & Hi0 & ->). apply InitializeService_Ok in Hi1 as (e' & Hi1 & ->).
  pose proof (Initialize_synced _ _ _ _ _ Hf Hload Hi0) as Hs0.
  apply Initialize_Ok in Hi0 as (snap & _ & Hp & Hwi & Hwc).
  assert (worker e0 s) as [_ Hs Hl Hwi' Hwc'].
  { eapply (@Consume_keeps _ _ _ _ clockedSink j (fun ks => worker e0 ks.2) wellKeyed Hfetch) in Hrun; [exact Hrun| |].
    - intros pid messages [k' s'] _ Hm Hw. cbn. destruct (IngestBatch _ _ _ _) as [res s2] eqn:Ei.
      pose proof (IngestBatch_worker e0 (clocks k') pid (omap carries messages).*1 s' Hm) as Hk. rewrite Ei in Hk.
      destruct res; simpl; auto.
    - split; [done|done| |done|done]. simpl. by rewrite Hp, length_imap. }
  by eapply (recovered env1 t1 e0).
Qed.
End Worker.

(** ** A worker of all partitions *)

(** A broker that delivers [script k] at fetch [k], loses the third call that
    settles a message, and cancels after three fetches. *)
Definition feed (script : nat -> list Delivery) : Client (nat * nat) unit := {|
  Connect _ _ n := (None, n);
  JetStreamContext n := (None, n);
  Drain n := (None, n);
  CloseConnection n := n;
  IsConnected _ := true;
  StreamInfo _ n := (inl ErrStreamNotFound, n);
  UpdateStream _ n := (None, n);
  AddStream _ n := (None, n);
  ConsumerInfo _ _ n := (inl ErrConsumerNotFound, n);
  UpdateConsumer _ _ n := (None, n);
  PullSubscribe _ n := (inr (), n);
  Fetch _ _ n := (script n.1, None, (S n.1, n.2));
  Canceled n := (3 <=? n.1)%nat;
  settle _ n := (if (n.2 =? 2)%nat then Some (ErrNats "timeout") else None, (n.1, S n.2)) |}.

(** The messages of partition 142, again and again, to whoever asks. *)
Definition script (k : nat) : list Delivery := threeDeliveries.
Definition restart (t : Z) (r : Memory) := InitializeService oneEnv t (NewWithOptions r delayed).
Definition started : Service Memory := (restart 1 oneStore).2.
Definition turns : list Z := [142; 7; 142; 7; 142; 142; 142]%Z.
Definition consumed :=
  runConsumer (N := nat * nat) (H := feed script) anyText (fun k => clockAt 0) turns labWorker (0, started) (0, 0).

Lemma script_fine subscription size (n : nat * nat) :
  wellKeyed (@Fetch _ _ (feed script) subscription size n).1.1.
Proof. vm_compute. repeat constructor; intros H; discriminate H. Qed.

Lemma restart_eq t r : (restart t r).1 = Ok () -> restart t r = (Ok (), (restart t r).2).
Proof. destruct (restart t r) as [res s]. by intros [= ->]. Qed.

Lemma consumer_recovers_witness :
  consumed.1.1 = Some (inr None) /\ size consumed.1.2.2.(repo).(Memory.seriesRuntime) = 1 /\
  (restart 2 consumed.1.2.2.(repo)).2.(runtime).(partitions) ≡ consumed.1.2.2.(runtime).(partitions).
Proof.
  split; [vm_compute; reflexivity|]. split; [vm_compute; reflexivity|].
  apply (consumer_recovers (H := feed script) anyText (fun k => clockAt 0) delayed labWorker turns oneEnv oneEnv 1 2 oneStore
           started consumed.1.2.2 (restart 2 consumed.1.2.2.(repo)).2 (0, 0) consumed.2 consumed.1.2.1 consumed.1.1).
  - exact script_fine.
  - split; intros; exact I.
  - apply restart_eq. vm_compute. reflexivity.
  - apply (indexOk_byRoute (engineWith [thirdRed])); [vm_compute; reflexivity|apply engineWith_one; reflexivity].
  - unfold consumed. destruct (runConsumer _ _ _ _ _ _) as [[ending [k s]] n]. reflexivity.
  - intros H. apply (f_equal (fun x => match x with Some (inl _) => true | _ => false end)) in H. vm_compute in H. discriminate H.
  - apply (restart_eq 2 consumed.1.2.2.(repo)). vm_compute. reflexivity.
Defined.
