(* ===== verification/Config.v ===== *)
(** * internal/config/config.go: the configuration of the server

    The environment is the function [getenv], [""] where a variable is not
    set; the host name and the process number are parameters. A fallback is
    written out and read back, as the code does, so [time.Duration]'s
    [String] is here too. *)

From stdpp Require Import base strings list numbers pretty.
From Stdlib Require Import Ascii.
From S2P Require Import Prelude GoFloat GoBase GoTime.

(** ** [Duration.String] *)

(** [fmtFrac]: the last [prec] digits of [u] after a point, without trailing
    zeros, and what is left of [u]. [print] is set once a digit was printed. *)
Fixpoint fmtFrac (prec : nat) (u : Z) (print : bool) (printed : string) : string * Z :=
  match prec with
  | 0 => (if print then String "." printed else printed, u)
  | S prec =>
      let digit := (u mod 10)%Z in
      let print := print || negb (digit =? 0)%Z in
      fmtFrac prec (u / 10) print (if print then pretty digit +:+ printed else printed)
  end.

(** [uint64(-d)] of the least duration is its magnitude. *)
Definition durationString (d : Duration) : string :=
  let u := Z.abs d in
  let body :=
    if (u <? Second)%Z then
      if (u =? 0)%Z then "0s"
      else if (u <? 1000)%Z then pretty u +:+ "ns"
      else if (u <? Millisecond)%Z then
        let '(frac, u) := fmtFrac 3 u false "" in
        pretty u +:+ frac +:+ String (ascii_of_nat 194) (String (ascii_of_nat 181) "s")
      else let '(frac, u) := fmtFrac 6 u false "" in pretty u +:+ frac +:+ "ms"
    else
      let '(frac, u) := fmtFrac 9 u false "" in
      let seconds := pretty (u mod 60)%Z +:+ frac +:+ "s" in
      let u := (u / 60)%Z in
      if (u =? 0)%Z then seconds else
      let minutes := pretty (u mod 60)%Z +:+ "m" +:+ seconds in
      let u := (u / 60)%Z in
      if (u =? 0)%Z then minutes else pretty u +:+ "h" +:+ minutes in
  if (d <? 0)%Z then String "-" body else body.

(** ** The configuration *)

Module Config.
Record Config := mk {
  Addr : string; APIToken : string; IngestToken : string; DatabaseURL : string;
  NATSURL : string; NATSToken : string; NATSDurable : string;
  NATSReplicas : Z; NATSMaxDeliveries : Z;
  WorkerIndex : Z; WorkerCount : Z; EvaluationBatchSize : Z;
  NATSAckWait : Duration;
  DefinitionRefreshInterval : Duration; DefinitionActivationDelay : Duration; DefinitionMaxStaleness : Duration;
  MaintenanceInterval : Duration; ProvisionalInboxRetention : Duration; ConfirmedInboxRetention : Duration;
  AlertEventRetention : Duration;
  PartitionLeaseTTL : Duration; PartitionLeaseRenewInterval : Duration;
  MaintenanceBatchSize : Z; InstanceID : string; Insecure : bool; AllowMemory : bool }.
End Config.
Abbreviation Config := Config.Config.

Inductive ConfigError :=
| ErrInteger (key : string) (minimum maximum : Z)
| ErrDuration (key : string)
| ErrActivationDelay
| ErrRenewInterval
| ErrMemoryWorkers
| ErrTokens
| ErrDatabaseURL
| ErrNATSToken.

Section Load.
Context (getenv : string -> string) (hostname : string) (pid : Z).

Definition env (key fallback : string) : string :=
  let value := getenv key in if value != "" then value else fallback.

Definition integer (key : string) (fallback minimum maximum : Z) : ConfigError + Z :=
  match atoi (env key (pretty fallback)) with
  | Some value =>
      if ((value <? minimum) || (value >? maximum))%Z then inl (ErrInteger key minimum maximum) else inr value
  | None => inl (ErrInteger key minimum maximum)
  end.

Definition duration (key : string) (fallback : Duration) : ConfigError + Duration :=
  match ParseDuration (env key (durationString fallback)) with
  | Some value => if (value <=? 0)%Z then inl (ErrDuration key) else inr value
  | None => inl (ErrDuration key)
  end.

Definition instanceID (prefix : string) : string :=
  prefix +:+ "/" +:+ hostname +:+ "/" +:+ pretty pid.

(** [strings.EqualFold(s, "true")]: no letter of it folds to one outside
    ASCII. *)
Definition lowerByte (c : Z) : Z := if ((65 <=? c) && (c <=? 90))%Z then (c + 32)%Z else c.
Definition isTrue (s : string) : bool := bool_decide (lowerByte <$> bytesOf s = bytesOf "true").

Local Notation "'let*' x := c 'in' f" := (match c with inl err => inl err | inr x => f end)
  (at level 10, x name, f at level 200).
Local Notation "'require' b 'or' err 'in' f" := (if b : bool then f else inl err)
  (at level 10, f at level 200).

Definition Load : ConfigError + Config :=
  let* replicas := integer "ALERTS_NATS_REPLICAS" 1 1 5 in
  let* maxDeliveries := integer "ALERTS_NATS_MAX_DELIVERIES" 20 1 100 in
  let* workerCount := integer "ALERTS_WORKER_COUNT" 1 1 256 in
  let* workerIndex := integer "ALERTS_WORKER_INDEX" 0 0 (workerCount - 1) in
  let* batchSize := integer "ALERTS_EVALUATION_BATCH_SIZE" 32 1 1000 in
  let* ackWait := duration "ALERTS_NATS_ACK_WAIT" (30 * Second) in
  let* refresh := duration "ALERTS_DEFINITION_REFRESH_INTERVAL" (250 * Millisecond) in
  let* activation := duration "ALERTS_DEFINITION_ACTIVATION_DELAY" (2 * Second) in
  let* staleness := duration "ALERTS_DEFINITION_MAX_STALENESS" Second in
  require negb ((activation <? mulDur 2 refresh) || (staleness >=? activation))%Z or ErrActivationDelay in
  let* maintenance := duration "ALERTS_MAINTENANCE_INTERVAL" Hour in
  let* provisional := duration "ALERTS_PROVISIONAL_INBOX_RETENTION" (48 * Hour) in
  let* confirmed := duration "ALERTS_CONFIRMED_INBOX_RETENTION" (30 * 24 * Hour) in
  let* events := duration "ALERTS_EVENT_RETENTION" (365 * 24 * Hour) in
  let* maintenanceBatch := integer "ALERTS_MAINTENANCE_BATCH_SIZE" 5000 1 100000 in
  let* ttl := duration "ALERTS_PARTITION_LEASE_TTL" (15 * Second) in
  let* renew := duration "ALERTS_PARTITION_LEASE_RENEW_INTERVAL" (5 * Second) in
  require negb (mulDur renew 2 >=? ttl)%Z or ErrRenewInterval in
  let c := Config.mk (env "ALERTS_HTTP_ADDR" ":8100") (getenv "ALERTS_API_TOKEN") (getenv "ALERTS_INGEST_TOKEN")
    (getenv "ALERTS_DATABASE_URL") (getenv "ALERTS_NATS_URL") (getenv "ALERTS_NATS_TOKEN")
    (env "ALERTS_NATS_DURABLE" "ALERTS_EVALUATOR_V3") replicas maxDeliveries workerIndex workerCount batchSize ackWait
    refresh activation staleness maintenance provisional confirmed events ttl renew maintenanceBatch
    (instanceID (env "ALERTS_INSTANCE_ID" "alertsd")) (isTrue (getenv "ALERTS_INSECURE_NO_AUTH"))
    (isTrue (getenv "ALERTS_ALLOW_MEMORY_STORE")) in
  require negb (c.(Config.AllowMemory) && (c.(Config.WorkerCount) >? 1)%Z) or ErrMemoryWorkers in
  require negb (negb c.(Config.Insecure) && ((String.length c.(Config.APIToken) <? 32)%nat
                                             || (String.length c.(Config.IngestToken) <? 32)%nat)) or ErrTokens in
  require negb ((c.(Config.DatabaseURL) == "") && negb c.(Config.AllowMemory)) or ErrDatabaseURL in
  require negb ((c.(Config.NATSURL) != "") && (String.length c.(Config.NATSToken) <? 32)%nat) or ErrNATSToken in
  inr c.
End Load.

Example duration_500us : durationString 500000 = String.append "500" (String (ascii_of_nat 194) (String (ascii_of_nat 181) "s")).
Proof. vm_compute. reflexivity. Qed.
Example duration_mixed : durationString (-4530918000000) = "-1h15m30.918s".
Proof. vm_compute. reflexivity. Qed.
Example duration_day : durationString (30 * 24 * Hour) = "720h0m0s".
Proof. vm_compute. reflexivity. Qed.

(** ** What a loaded configuration guarantees *)

(** The doubled intervals are 64-bit products. *)
Record wellformed (c : Config) : Prop := {
  wf_addr : c.(Config.Addr) <> "";
  wf_durable : c.(Config.NATSDurable) <> "";
  wf_replicas : (1 <= c.(Config.NATSReplicas) <= 5)%Z;
  wf_deliveries : (1 <= c.(Config.NATSMaxDeliveries) <= 100)%Z;
  wf_workers : (0 <= c.(Config.WorkerIndex) < c.(Config.WorkerCount))%Z /\ (c.(Config.WorkerCount) <= 256)%Z;
  wf_batch : (1 <= c.(Config.EvaluationBatchSize) <= 1000)%Z;
  wf_maintenance_batch : (1 <= c.(Config.MaintenanceBatchSize) <= 100000)%Z;
  wf_durations : Forall (fun d => (0 < d <= maxInt64)%Z)
    [c.(Config.NATSAckWait); c.(Config.DefinitionRefreshInterval); c.(Config.DefinitionActivationDelay);
     c.(Config.DefinitionMaxStaleness); c.(Config.MaintenanceInterval); c.(Config.ProvisionalInboxRetention);
     c.(Config.ConfirmedInboxRetention); c.(Config.AlertEventRetention); c.(Config.PartitionLeaseTTL);
     c.(Config.PartitionLeaseRenewInterval)];
  wf_staleness : (c.(Config.DefinitionMaxStaleness) < c.(Config.DefinitionActivationDelay))%Z;
  wf_activation : (mulDur 2 c.(Config.DefinitionRefreshInterval) <= c.(Config.DefinitionActivationDelay))%Z;
  wf_renewal : (mulDur c.(Config.PartitionLeaseRenewInterval) 2 < c.(Config.PartitionLeaseTTL))%Z;
  wf_tokens : c.(Config.Insecure) = true \/
    (32 <= String.length c.(Config.APIToken) /\ 32 <= String.length c.(Config.IngestToken));
  wf_store : (c.(Config.DatabaseURL) <> "" \/ c.(Config.AllowMemory) = true) /\
    (c.(Config.AllowMemory) = true -> c.(Config.WorkerCount) = 1%Z);
  wf_nats : c.(Config.NATSURL) <> "" -> 32 <= String.length c.(Config.NATSToken) }.

Section Loaded.
Context (getenv : string -> string) (hostname : string) (pid : Z).

Lemma env_nonempty key fallback : fallback <> "" -> env getenv key fallback <> "".
Proof. unfold env. intros H. case_goal; [|done]. bool_norm. done. Qed.

Lemma integer_range key fallback lo hi v :
  integer getenv key fallback lo hi = inr v -> (lo <= v <= hi)%Z.
Proof. unfold integer. destruct (atoi _); [|done]. case_goal; [done|]. intros [= <-]. bool_norm. lia. Qed.

Lemma ParseDuration_le str d : ParseDuration str = Some d -> (d <= maxInt64)%Z.
Proof.
  unfold ParseDuration. destruct (splitSign _) as [neg s]. case_decide; [by intros [= <-]|].
  destruct s as [|c s]; [done|]. destruct (durationTerms _ _ _) as [v|]; cbn [mbind option_bind]; [|done].
  destruct neg; [intros [= <-]; apply int64_range|]. case_goal; [done|]. intros [= <-]. bool_norm. lia.
Qed.

Lemma duration_range key fallback v : duration getenv key fallback = inr v -> (0 < v <= maxInt64)%Z.
Proof.
  unfold duration. destruct (ParseDuration _) eqn:E; [|done]. case_goal; [done|]. intros [= <-].
  apply ParseDuration_le in E. bool_norm. lia.
Qed.

Ltac step H :=
  match type of H with
  | context [match integer ?g ?k ?f ?lo ?hi with _ => _ end] =>
      let E := fresh "E" in destruct (integer g k f lo hi) as [?|?] eqn:E; [discriminate H|]; apply integer_range in E
  | context [match duration ?g ?k ?f with _ => _ end] =>
      let E := fresh "E" in destruct (duration g k f) as [?|?] eqn:E; [discriminate H|]; apply duration_range in E
  | (if ?b then _ else _) = _ => let E := fresh "E" in destruct b eqn:E; [|discriminate H]
  end.

(** C36: a configuration that was loaded is well formed, whatever the
    environment: counts are within their bounds, the index is one of the
    workers, durations are positive, the definition cache is refreshed and
    given up before a change becomes active, leases are renewed in time (both
    as far as the 64-bit products tell), there are tokens unless
    authentication is off, there is a store, and the volatile one only for a
    single worker. *)
Theorem Load_wellformed (c : Config) : Load getenv hostname pid = inr c -> wellformed c.
Proof.
  unfold Load. intros H. do 9 step H. step H. do 7 step H. cbv zeta in H. do 5 step H.
  injection H as <-. cbn in E17, E18, E19, E20.
  apply negb_true_iff in E8, E16, E17, E18, E19, E20. apply orb_false_iff in E8 as [Ea Es].
  split; cbn.
  - by apply env_nonempty.
  - by apply env_nonempty.
  - exact E.
  - exact E0.
  - clear - E1 E2. lia.
  - exact E3.
  - exact E13.
  - repeat (constructor; [done|]). constructor.
  - clear - Es. lia.
  - clear - Ea. lia.
  - clear - E16. lia.
  - destruct (isTrue (getenv "ALERTS_INSECURE_NO_AUTH")); [by left|right]. cbn in E18. clear - E18. bool_norm. lia.
  - destruct (isTrue (getenv "ALERTS_ALLOW_MEMORY_STORE")); cbn in E17, E19.
    + split; [by right|]. intros _. clear - E1 E17. lia.
    + split; [left|done]. rewrite andb_true_r in E19. by apply String.eqb_neq.
  - intros Hn. apply String.eqb_neq in Hn. rewrite Hn in E20. cbn in E20. clear - E20. bool_norm. lia.
Qed.
End Loaded.

(** With intervals below 146 years the products do not wrap. *)
Lemma wellformed_intervals c :
  wellformed c ->
  ((c.(Config.DefinitionRefreshInterval) < 2 ^ 62)%Z ->
     (2 * c.(Config.DefinitionRefreshInterval) <= c.(Config.DefinitionActivationDelay))%Z) /\
  ((c.(Config.PartitionLeaseRenewInterval) < 2 ^ 62)%Z ->
     (2 * c.(Config.PartitionLeaseRenewInterval) < c.(Config.PartitionLeaseTTL))%Z).
Proof.
  intros [_ _ _ _ _ _ _ Hd _ Ha Hr _ _ _]. rewrite !Forall_cons in Hd. unfold mulDur in *. split; intros H.
  - rewrite int64_id in Ha by (unfold minInt64, maxInt64 in *; lia). lia.
  - rewrite int64_id in Hr by (unfold minInt64, maxInt64 in *; lia). lia.
Qed.

(** The README's development server: no authentication, the volatile store. *)
Definition developmentEnv (key : string) : string :=
  if key == "ALERTS_INSECURE_NO_AUTH" then "True"
  else if key == "ALERTS_ALLOW_MEMORY_STORE" then "true" else "".
Definition development : Config :=
  match Load developmentEnv "host" 7 with
  | inr c => c
  | inl _ => Config.mk "" "" "" "" "" "" "" 0 0 0 0 0 0 0 0 0 0 0 0 0 0 0 0 "" false false
  end.

Lemma Load_wellformed_witness :
  wellformed development /\ development.(Config.PartitionLeaseTTL) = (15 * Second)%Z /\
  development.(Config.InstanceID) = "alertsd/host/7".
Proof.
  split; [|split; vm_compute; reflexivity].
  apply (Load_wellformed developmentEnv "host" 7). vm_compute. reflexivity.
Defined.

(** The checks on intervals can wrap. Twice an interval above 146 years is
    a negative duration, so a lease of fifteen seconds that is renewed every
    2000000 hours is accepted, although the renewal interval must be less than
    half of the lease, and so is a cache refreshed at that pace for changes
    that become active after two seconds. *)
Theorem interval_checks_wrap :
  exists c, Load (fun key => if key == "ALERTS_PARTITION_LEASE_RENEW_INTERVAL" then "2000000h"
                             else if key == "ALERTS_DEFINITION_REFRESH_INTERVAL" then "2000000h"
                             else developmentEnv key) "host" 7 = inr c /\
    (c.(Config.PartitionLeaseTTL) < c.(Config.PartitionLeaseRenewInterval))%Z /\
    (c.(Config.DefinitionActivationDelay) < c.(Config.DefinitionRefreshInterval))%Z.
Proof. eexists. split; [vm_compute; reflexivity|]. split; vm_compute; reflexivity. Qed.
