(* ===== verification/Api.v ===== *)
(** * internal/api/server.go: the HTTP API

    A request is its route, as the patterns of the mux select it, and its
    header [Authorization]; a JSON body is represented by what decoding it
    gives, a value or the text of an error. A response is its status and what
    the body encodes. Timeouts, the listener and the text of the metrics are
    not modelled. *)

From stdpp Require Import base gmap strings list numbers pretty sorting.
From Stdlib Require Import Ascii.
From S2P Require Import Prelude GoFloat GoBase GoTime Model Rules Store Engine Service Signals.
Import Engine Service Service.Service.

Module Options.
Record Options := mk { Addr : string; APIToken : string; IngestToken : string; Insecure : bool }.
End Options.
Abbreviation Options := Options.Options.

(** The checks of [New]. *)
Definition newRefused (options : Options) : bool :=
  (options.(Options.Addr) == "")
  || negb options.(Options.Insecure) && ((options.(Options.APIToken) == "") || (options.(Options.IngestToken) == "")).

(** ** Requests and responses *)

Module createRequest.
Record createRequest := mk {
  Name : string; Series : Model.Series; Rule : Model.Rule; EvaluationMode : string; TriggerMode : string;
  CooldownSeconds : Z }.
End createRequest.
Abbreviation createRequest := createRequest.createRequest.

Inductive Route :=
| GetHealth
| GetReady
| GetMetrics
| GetRuleTypes
| PostDefinition (body : string + createRequest)
| GetDefinitions
| PatchDefinition (id : string) (body : string + option bool)
| DeleteDefinition (id : string)
| GetEvents (after limit : string)
| PostObservation (body : string + Observation)
| PostSignalEvent (body : string + Event).

Module Request.
Record Request := mk { Authorization : string; Route : Route }.
End Request.
Abbreviation Request := Request.Request.

(** A kind of rule in the catalog: its type, kinds, transitions, directions and
    its other entries. *)
Module CatalogEntry.
Record CatalogEntry := mk {
  type_ : string; kinds : list string; transitions : list string; directions : list string;
  others : list (string * string) }.
End CatalogEntry.
Abbreviation CatalogEntry := CatalogEntry.CatalogEntry.

Inductive Body :=
| NoBody
| StatusBody (status : string)
| ProblemBody (code message : string)
| CatalogBody (schema : string) (types : list CatalogEntry)
| DefinitionBody (definition : AlertDefinition)
| DefinitionsBody (definitions : list AlertDefinition)
| AlertsBody (alerts : list Alert)
| AcceptedBody (alerts : list Alert)
| MetricsBody (snapshot : MetricSnapshot.MetricSnapshot).

Module Response.
Record Response := mk { status : Z; body : Body }.
End Response.
Abbreviation Response := Response.Response.

Definition write (status : Z) (body : Body) : Response := Response.mk status body.
Definition problem (status : Z) (code message : string) : Response := write status (ProblemBody code message).

(** ** Tokens *)

Definition bearerOK (authorization expected : string) : bool :=
  let got := trimPrefix authorization "Bearer " in
  (String.length got =? String.length expected)%nat && (got == expected).

(** [control] and [ingest]: the handler behind them, or the refusal. *)
Definition guarded {A} (options : Options) (authorization expected message : string) (next : A)
  (refuse : Response -> A) : A :=
  if negb options.(Options.Insecure) && negb (bearerOK authorization expected)
  then refuse (problem 401 "unauthorized" message) else next.

(** ** The catalog *)

Definition catalog : list CatalogEntry :=
  [CatalogEntry.mk "price_hits_zone" ["fvg"; "order_block"] ["touched"; "mitigated"] [] [];
   CatalogEntry.mk "zone_transition" ["fvg"; "order_block"]
     ["created"; "touched"; "mitigated"; "invalidated"; "expired"] [] [];
   CatalogEntry.mk "price_near_zone" ["fvg"; "order_block"] [] [] [("distance_unit", "basis_points")];
   CatalogEntry.mk "price_crosses_indicator" [] [] ["above"; "below"; "either"] [];
   CatalogEntry.mk "candle_color" [] [] ["red"; "green"] [];
   CatalogEntry.mk "candle_streak" [] [] ["red"; "green"] [];
   CatalogEntry.mk "candle_color_flip" [] [] ["either"; "red_to_green"; "green_to_red"]
     [("threshold", "min_elapsed_percent"); ("evaluation_mode", "intrabar")];
   CatalogEntry.mk "pattern" [] [] [] [];
   CatalogEntry.mk "all" [] [] [] [];
   CatalogEntry.mk "any" [] [] [] [];
   CatalogEntry.mk "not" [] [] [] []].

(** ** Query parameters *)

Definition parseInt64 (value : string) : option Z :=
  if value == "" then Some 0%Z else
  parsed ← atoi value; if (parsed <? 0)%Z then None else Some parsed.

Definition parseInt (value : string) : option Z :=
  if value == "" then Some 100%Z else
  parsed ← atoi value; if (parsed <? 1)%Z then None else Some parsed.

(** ** Handlers *)

Section Handlers.
Context {R : Type} `{Repository R} `{!ControlRepository R}.
Context (errorText : ServiceError -> string) (signalsText : SignalsError -> string).

(** A handler that panics gives no response. *)
Definition Handler : Type := Service R -> option Response * Service R.

Definition createDefinition (clock : Clock) (body : string + createRequest) : Handler := fun s =>
  match body with
  | inl err => (Some (problem 400 "invalid_json" err), s)
  | inr input =>
      match Create clock input.(createRequest.Name) input.(createRequest.Series) input.(createRequest.Rule)
              input.(createRequest.EvaluationMode) input.(createRequest.TriggerMode)
              input.(createRequest.CooldownSeconds) s with
      | (None, s') => (None, s')
      | (Some (_, _, Some err), s') => (Some (problem 422 "invalid_definition" (errorText err)), s')
      | (Some (definition, created, None), s') =>
          (Some (write (if created : bool then 201 else 200) (DefinitionBody definition)), s')
      end
  end.

Definition listDefinitions (env : Env) : Handler := fun s =>
  match ServiceListDefinitions env s with
  | Err _ => (Some (problem 500 "store_error" "could not list alert definitions"), s)
  | Panic => (None, s)
  | Ok definitions => (Some (write 200 (DefinitionsBody definitions)), s)
  end.

Definition updateDefinition (env : Env) (clock : Clock) (id : string) (body : string + option bool) : Handler := fun s =>
  match body with
  | inl err => (Some (problem 400 "invalid_json" err), s)
  | inr None => (Some (problem 422 "invalid_definition" "enabled is required"), s)
  | inr (Some enabled) =>
      match SetEnabled env clock id enabled s with
      | (None, s') => (None, s')
      | (Some (_, Some err), s') =>
          if IsNotFound err then (Some (problem 404 "not_found" "alert definition not found"), s')
          else (Some (problem 500 "store_error" "could not update alert definition"), s')
      | (Some (definition, None), s') => (Some (write 200 (DefinitionBody definition)), s')
      end
  end.

Definition deleteDefinition (env : Env) (clock : Clock) (id : string) : Handler := fun s =>
  match Delete env clock id s with
  | (Err err, s') =>
      if IsNotFound err then (Some (problem 404 "not_found" "alert definition not found"), s')
      else (Some (problem 500 "store_error" "could not archive alert definition"), s')
  | (Panic, s') => (None, s')
  | (Ok _, s') => (Some (write 204 NoBody), s')
  end.

Definition listAlerts (after limit : string) : Handler := fun s =>
  match parseInt64 after with
  | None => (Some (problem 400 "invalid_cursor" "after must be a non-negative integer"), s)
  | Some after =>
      match parseInt limit with
      | None => (Some (problem 400 "invalid_limit" "limit must be an integer"), s)
      | Some limit =>
          match ServiceListAlerts after limit s with
          | Err _ => (Some (problem 500 "store_error" "could not list alert events"), s)
          | Panic => (None, s)
          | Ok alerts => (Some (write 200 (AlertsBody alerts)), s)
          end
      end
  end.

(** The end of the two ingestion handlers. *)
Definition ingested (clock : Clock) (o : Observation) : Handler := fun s =>
  match Ingest clock o s with
  | (Err err, s') => (Some (problem 422 "invalid_observation" (errorText err)), s')
  | (Panic, s') => (None, s')
  | (Ok alerts, s') => (Some (write 202 (AcceptedBody alerts)), s')
  end.

Definition observation (clock : Clock) (body : string + Observation) : Handler := fun s =>
  match body with
  | inl err => (Some (problem 400 "invalid_json" err), s)
  | inr o => ingested clock o s
  end.

Definition signalEvent (clock : Clock) (body : string + Event) : Handler := fun s =>
  match body with
  | inl err => (Some (problem 400 "invalid_json" err), s)
  | inr event =>
      match observationOf event with
      | inl err => (Some (problem 422 "invalid_signal_event" (signalsText err)), s)
      | inr o => ingested clock o s
      end
  end.

Definition ready (clock : Clock) (readiness : list bool) : Handler := fun s =>
  if Ready clock.(Clock.unixNanos) readiness s then (Some (write 200 (StatusBody "ready")), s)
  else (Some (write 503 (StatusBody "not ready")), s).

(** The mux of [New]. *)
Definition handle (options : Options) (env : Env) (clock : Clock) (readiness : list bool) (request : Request) : Handler :=
  fun s =>
  let control (next : Handler) : option Response * Service R :=
    guarded options request.(Request.Authorization) options.(Options.APIToken) "invalid bearer token"
      (next s) (fun response => (Some response, s)) in
  let ingest (next : Handler) : option Response * Service R :=
    guarded options request.(Request.Authorization) options.(Options.IngestToken) "invalid ingest token"
      (next s) (fun response => (Some response, s)) in
  match request.(Request.Route) with
  | GetHealth => (Some (write 200 (StatusBody "ok")), s)
  | GetReady => ready clock readiness s
  | GetMetrics => (Some (write 200 (MetricsBody (ServiceMetricsOf env clock.(Clock.unixNanos) s))), s)
  | GetRuleTypes => control (fun s => (Some (write 200 (CatalogBody "alerts.catalog.v1" catalog)), s))
  | PostDefinition body => control (createDefinition clock body)
  | GetDefinitions => control (listDefinitions env)
  | PatchDefinition id body => control (updateDefinition env clock id body)
  | DeleteDefinition id => control (deleteDefinition env clock id)
  | GetEvents after limit => control (listAlerts after limit)
  | PostObservation body => ingest (observation clock body)
  | PostSignalEvent body => ingest (signalEvent clock body)
  end.
End Handlers.
