(* ===== verification/ApiProps.v ===== *)
(** * The HTTP API: tokens, answers, the catalog *)

From stdpp Require Import base gmap strings list numbers pretty sorting.
From Stdlib Require Import Ascii.
From S2P Require Import Prelude GoFloat GoBase GoTime Model Rules RulesValid Fixtures Store Memory MemoryProps.
From S2P Require Import Tables Postgres PostgresProps PostgresInvariant PostgresCommit.
From S2P Require Import Engine EngineIndex EngineBatch EngineRecovery Service ServiceProps Signals SignalsProps Api.
Import Engine Service Service.Service.

(** ** Tokens *)

(** A header that carries a token: after "Bearer ", or bare. *)
Definition presents (authorization token : string) : Prop :=
  authorization = "Bearer " +:+ token \/ (authorization = token /\ hasPrefix authorization "Bearer " = false).

Lemma substring_all s : String.substring 0 (String.length s) s = s.
Proof. induction s as [|c s IH]; simpl; [done|]. by rewrite IH. Qed.

Lemma substring_more s n : String.length s <= n -> String.substring 0 n s = s.
Proof.
  revert n. induction s as [|c s IH]; intros [|n]; simpl; try done; [lia|]. intros H. by rewrite IH by lia.
Qed.

Lemma hasPrefix_app s pre : hasPrefix s pre = true <-> exists t, s = pre +:+ t.
Proof.
  unfold hasPrefix. revert s. induction pre as [|c pre IH]; intros [|d s]; simpl.
  - split; [by exists ""|done].
  - split; [by exists (String d s)|done].
  - split; [done|by intros [t H]].
  - destruct (Ascii.ascii_dec c d) as [->|Hne].
    + rewrite IH. split; intros [t H]; exists t; [by rewrite H|by injection H].
    + split; [done|]. intros [t H]. by injection H as -> _.
Qed.

Lemma trimPrefix_app pre t : trimPrefix (pre +:+ t) pre = t.
Proof.
  unfold trimPrefix. rewrite (proj2 (hasPrefix_app (pre +:+ t) pre) (ex_intro _ t eq_refl)).
  assert (forall n, String.length t <= n -> String.substring (String.length pre) n (pre +:+ t) = t) as H.
  { intros n Hn. induction pre as [|c pre IH]; simpl; [by apply substring_more|]. exact IH. }
  apply H. clear H. induction pre as [|c pre IH]; [done|]. change (String.length (String c pre +:+ t)) with (S (String.length (pre +:+ t))). lia.
Qed.

Lemma bearerOK_presents authorization expected : bearerOK authorization expected = true <-> presents authorization expected.
Proof.
  assert (bearerOK authorization expected = true <-> trimPrefix authorization "Bearer " = expected) as ->.
  { unfold bearerOK. rewrite andb_true_iff, Nat.eqb_eq, String.eqb_eq. split; [by intros [_ ?]|by intros ->]. }
  unfold presents. destruct (hasPrefix authorization "Bearer ") eqn:Ep.
  - apply hasPrefix_app in Ep as [t ->]. rewrite trimPrefix_app. split; [by intros ->; left|].
    intros [H|[_ ?]]; [by apply (String.app_inj _) in H|done].
  - unfold trimPrefix. rewrite Ep. split; [by right|]. intros [->|[H _]]; [|done].
    by rewrite (proj2 (hasPrefix_app _ "Bearer ") (ex_intro _ expected eq_refl)) in Ep.
Qed.

(** The token a route asks for. *)
Definition tokenOf (options : Options) (route : Route) : option string :=
  match route with
  | GetHealth | GetReady | GetMetrics => None
  | PostObservation _ | PostSignalEvent _ => Some options.(Options.IngestToken)
  | _ => Some options.(Options.APIToken)
  end.
Definition open (options : Options) : Options :=
  Options.mk options.(Options.Addr) options.(Options.APIToken) options.(Options.IngestToken) true.

Section Answers.
Context {R : Type} `{Repository R} `{!ControlRepository R}.
Context (errorText : ServiceError -> string) (signalsText : SignalsError -> string).

(** C37: nothing passes without its token. With authentication on, a request
    to a route that is not about health is answered 401 and does nothing, on
    every store and in every state, unless it presents the token of that
    route: the one for control, or the other for ingestion, which do not
    stand for each other; with it, the request is handled as if
    authentication were off. *)
Theorem guarded_by_token (options : Options) (env : Env) (clock : Clock) (readiness : list bool)
  (request : Request) (s : Service R) (token : string) :
  options.(Options.Insecure) = false -> tokenOf options request.(Request.Route) = Some token ->
  (~ presents request.(Request.Authorization) token ->
     exists message, handle errorText signalsText options env clock readiness request s
       = (Some (problem 401 "unauthorized" message), s)) /\
  (presents request.(Request.Authorization) token ->
     handle errorText signalsText options env clock readiness request s
     = handle errorText signalsText (open options) env clock readiness request s).
Proof.
  intros Hi Ht. destruct request as [authorization route]. simpl in *.
  assert (forall (A : Type) (message : string) (next : A) refuse,
    (~ presents authorization token ->
       guarded options authorization token message next refuse = refuse (problem 401 "unauthorized" message)) /\
    (presents authorization token -> guarded options authorization token message next refuse = next)) as Hg.
  { intros A message next refuse. unfold guarded. rewrite Hi. cbn [negb andb].
    pose proof (bearerOK_presents authorization token) as Hb. destruct (bearerOK authorization token).
    - split; [|done]. intros Hn. destruct Hn. by apply Hb.
    - split; [done|]. intros Hp. by apply Hb in Hp. }
  unfold handle. cbn [Request.Authorization Request.Route].
  destruct route; simpl in Ht; try done; injection Ht as <-;
    (split; [intros Hn; eexists; exact (proj1 (Hg _ _ _ _) Hn)|intros Hp; exact (proj2 (Hg _ _ _ _) Hp)]).
Qed.
End Answers.

(** ** Ingestion over HTTP *)

Definition ingestion (route : Route) : option (string + Observation) :=
  match route with
  | PostObservation body => Some body
  | PostSignalEvent (inl err) => Some (inl err)
  | PostSignalEvent (inr event) =>
      Some (match observationOf event with inl _ => inl "" | inr o => inr o end)
  | _ => None
  end.

Section Ingestion.
Context {R : Type} `{RepositoryLaws R} `{!ControlRepository R}.
Context (errorText : ServiceError -> string) (signalsText : SignalsError -> string).

Lemma Ingest_outcome clock o (s : Service R) cs :
  represents s.(runtime).(byRoute) cs ->
  let '(res, s') := Ingest clock o s in
  res <> Panic /\ (forall err, res = Err err -> sameRuntime s s') /\
  (forall alerts, res = Ok alerts -> validateObservation o = None).
Proof.
  intros Hrep. unfold Ingest. destruct (validateObservation o) as [e|]; [done|].
  pose proof (IngestBatch_failed clock (Partition (runtime s) (Observation.Series o)) [o] s cs Hrep) as Hf.
  destruct (IngestBatch _ _ _ _) as [res s']. by destruct Hf.
Qed.

(** A request that ingests is accepted or harmless. On a worker whose
    index is in order it is always answered, with 202, 400, 401 or 422; 202
    means that the body was an observation, or an event that is one, which is
    admissible and was evaluated, with its alerts committed, and is the answer
    with these alerts; any other answer leaves the engine's states, the index
    and the checkpoint as they were, and wakes no publisher. *)
Theorem ingestion_answered (options : Options) (env : Env) (clock : Clock) (readiness : list bool)
  (request : Request) (body : string + Observation) (s s' : Service R) (response : option Response)
  (cs : list compiledDefinition) :
  represents s.(runtime).(byRoute) cs -> ingestion request.(Request.Route) = Some body ->
  handle errorText signalsText options env clock readiness request s = (response, s') ->
  exists status b, response = Some (Response.mk status b) /\ status ∈ [202; 400; 401; 422]%Z /\
    (status = 202%Z -> exists o alerts, body = inr o /\ validateObservation o = None /\
       Ingest clock o s = (Ok alerts, s') /\ b = AcceptedBody alerts) /\
    (status <> 202%Z -> sameRuntime s s').
Proof.
  intros Hrep Hb. destruct request as [authorization route]. simpl in Hb.
  assert (forall o, match ingested errorText clock o s with
    | (Some (Response.mk status b), s'') => status ∈ [202; 400; 401; 422]%Z /\
        (status = 202%Z -> exists alerts, validateObservation o = None /\ Ingest clock o s = (Ok alerts, s'') /\
           b = AcceptedBody alerts) /\ (status <> 202%Z -> sameRuntime s s'')
    | (None, _) => False end) as Hing.
  { intros o. unfold ingested. pose proof (Ingest_outcome clock o s cs Hrep) as Ho.
    destruct (Ingest clock o s) as [[alerts|err|] s'']; destruct Ho as (Hnp & Herr & Hok); [| |done].
    - split; [set_solver|]. split; [|done]. intros _. exists alerts. split; [by eapply Hok|done].
    - split; [set_solver|]. split; [done|]. intros _. by eapply Herr. }
  assert (forall status b, status ∈ [400; 401; 422]%Z -> (Some (Response.mk status b), s) = (response, s') ->
    exists status b, response = Some (Response.mk status b) /\ status ∈ [202; 400; 401; 422]%Z /\
    (status = 202%Z -> exists o alerts, body = inr o /\ validateObservation o = None /\
       Ingest clock o s = (Ok alerts, s') /\ b = AcceptedBody alerts) /\
    (status <> 202%Z -> sameRuntime s s')) as Hrefused.
  { intros status b Hs [= <- <-]. exists status, b. split; [done|]. split; [set_solver|]. split; [|done].
    intros ->. set_solver. }
  unfold handle, guarded. cbn [Request.Authorization Request.Route].
  destruct route; try done; simpl in Hb; (case_goal; [apply Hrefused; set_solver|]).
  - injection Hb as <-. unfold observation. destruct body0 as [err|o]; [apply Hrefused; set_solver|].
    specialize (Hing o). destruct (ingested errorText clock o s) as [[[status b]|] s'']; [|done].
    intros [= <- <-]. exists status, b. destruct Hing as (H1 & H2 & H3). split; [done|]. split; [done|]. split; [|done].
    intros E. destruct (H2 E) as (alerts & ? & ? & ?). by exists o, alerts.
  - unfold signalEvent. destruct body0 as [err|event]; [apply Hrefused; set_solver|].
    destruct (observationOf event) as [err|o]; [apply Hrefused; set_solver|]. injection Hb as <-.
    specialize (Hing o). destruct (ingested errorText clock o s) as [[[status b]|] s'']; [|done].
    intros [= <- <-]. exists status, b. destruct Hing as (H1 & H2 & H3). split; [done|]. split; [done|]. split; [|done].
    intros E. destruct (H2 E) as (alerts & ? & ? & ?). by exists o, alerts.
Qed.
End Ingestion.

(** ** Unknown definitions *)

(** No definition of this identifier, or an archived one. *)
Definition absentDefinition (id : string) (d : Database) : Prop :=
  isUUID id = true /\ forall row, Database.alert_definitions d !! id = Some row -> row.(DefinitionRow.archived_at) <> None.

Lemma unarchived_absent id d : absentDefinition id d -> unarchived id d = inr None.
Proof.
  intros [Hu Ha]. unfold unarchived. rewrite Hu. simpl. destruct (_ !! id) as [row|] eqn:E; simpl; [|done].
  by rewrite bool_decide_eq_false_2 by (by apply Ha).
Qed.

Section Unknown.
Context (errorText : ServiceError -> string) (signalsText : SignalsError -> string).

(** On PostgreSQL an unknown definition is an internal error. To enable or
    disable one that does not exist, or was archived, is answered 500 "could
    not update alert definition" instead of 404, because [SetEnabled] returns
    the driver's "no rows in result set", which is not [ErrNotFound]; to
    delete it is answered 404, as both are on the memory store. *)
Theorem unknown_definition_answers (options : Options) (env : Env) (clock : Clock) (readiness : list bool)
  (id authorization : string) (enabled : bool) (s : Service Deployment) :
  options.(Options.Insecure) = true -> sane s.(repo).(pg).(Postgres.server) ->
  absentDefinition id s.(repo).(pg).(Postgres.db) ->
  (exists s', handle errorText signalsText options env clock readiness
      (Request.mk authorization (PatchDefinition id (inr (Some enabled)))) s
    = (Some (problem 500 "store_error" "could not update alert definition"), s') /\
    s'.(repo).(pg).(Postgres.db) = s.(repo).(pg).(Postgres.db)) /\
  (exists s', handle errorText signalsText options env clock readiness
      (Request.mk authorization (DeleteDefinition id)) s
    = (Some (problem 404 "not_found" "alert definition not found"), s') /\
    s'.(repo).(pg).(Postgres.db) = s.(repo).(pg).(Postgres.db)).
Proof.
  intros Hi Hs Ha. apply unarchived_absent in Ha.
  unfold handle, guarded. rewrite Hi. cbn [negb andb Request.Route Request.Authorization].
  split.
  - unfold updateDefinition, SetEnabled.
    destruct (StoreSetEnabled env id enabled (boundary clock s) (repo s)) as [res r] eqn:E.
    apply call_inv in E as [n E]. unfold Postgres.SetEnabled, exec in E. rewrite Hs, Ha in E.
    injection E as <- _ Hd. eexists. split; [reflexivity|]. simpl. by rewrite <- Hd.
  - unfold deleteDefinition, Delete.
    destruct (StoreArchiveDefinition env id (boundary clock s) (repo s)) as [res r] eqn:E.
    unfold StoreArchiveDefinition, postgres_control in E.
    destruct (call _ _ (repo s)) as [res0 r0] eqn:E0. injection E as <- <-.
    apply call_inv in E0 as [n E0]. unfold Postgres.ArchiveDefinition, bind, exec in E0. rewrite Hs, Ha in E0.
    injection E0 as <- _ Hd. eexists. split; [reflexivity|]. simpl. by rewrite <- Hd.
Qed.
End Unknown.

(** ** The catalog *)

Definition listed (values : list string) (value : string) : Prop := values = [] \/ value ∈ values.

(** The catalog's entry for a type describes a rule's names. *)
Definition describes (entry : CatalogEntry) (r : Rule) : Prop :=
  entry.(CatalogEntry.type_) = r.(Rule.Type_) /\ listed entry.(CatalogEntry.kinds) r.(Rule.Kind) /\
  listed entry.(CatalogEntry.transitions) r.(Rule.Transition) /\ listed entry.(CatalogEntry.directions) r.(Rule.Direction).

(** A rule that is no composition, with its numbers within their bounds. *)
Definition withinBounds (r : Rule) : Prop :=
  match typeOf r with
  | TAll | TAny | TNot | TOther => False
  | TPriceHitsZone | TZoneTransition | TCandleColor => True
  | TPriceNearZone => (r.(Rule.DistanceBps) <=f float_of_Z 0) = false /\ (r.(Rule.DistanceBps) >f float_of_Z 10000) = false
  | TPriceCrossesIndicator => r.(Rule.Name) <> "" /\ (1 <= r.(Rule.Period))%Z
  | TCandleStreak => (2 <= r.(Rule.Count) <= 100)%Z
  | TCandleColorFlip =>
      (r.(Rule.MinElapsedPercent) <=f float_of_Z 0) = false /\ (r.(Rule.MinElapsedPercent) >f float_of_Z 100) = false
  | TPattern => isBlank r.(Rule.Kind) = false
  end.

Lemma Validate_leaf r :
  typeOf r <> TAll -> typeOf r <> TAny -> typeOf r <> TNot -> Validate r = None <-> leaf_wf r.
Proof.
  intros H1 H2 H3. unfold Validate. rewrite validate_wf. split.
  - intros Hw. inversion Hw as [? ? _ [Hj|Hj] _ _|? ? ? _ Hj _ _|? ? _ Hl]; subst; done.
  - intros Hl. by apply wf_leaf.
Qed.

(** What the catalog says of a type. *)
Definition catalogSays (r : Rule) : Prop :=
  match typeOf r with
  | TPriceHitsZone => r.(Rule.Kind) ∈ zoneKinds /\ r.(Rule.Transition) ∈ ["touched"; "mitigated"]
  | TZoneTransition => r.(Rule.Kind) ∈ zoneKinds /\ r.(Rule.Transition) ∈ RulesValid.transitions
  | TPriceNearZone => r.(Rule.Kind) ∈ zoneKinds
  | TPriceCrossesIndicator => r.(Rule.Direction) ∈ ["above"; "below"; "either"]
  | TCandleColor | TCandleStreak => r.(Rule.Direction) ∈ ["red"; "green"]
  | TCandleColorFlip => r.(Rule.Direction) ∈ ["either"; "red_to_green"; "green_to_red"]
  | TPattern | TAll | TAny | TNot => True
  | TOther => False
  end.

Lemma listed_cons x l v : listed (x :: l) v <-> v ∈ x :: l.
Proof. unfold listed. split; [by intros [?|?]|by right]. Qed.

Lemma describes_says entry r : entry ∈ catalog -> describes entry r -> catalogSays r.
Proof.
  intros Hin (Ht & Hk & Htr & Hd). unfold catalogSays, typeOf. rewrite <- Ht. clear Ht. unfold catalog in Hin.
  repeat (apply elem_of_cons in Hin as [->|Hin]; [simpl in *; rewrite ?listed_cons in *; by try split|]).
  by apply elem_of_nil in Hin.
Qed.

Lemma describes_at i entry r :
  catalog !! i = Some entry -> describes entry r -> exists entry, entry ∈ catalog /\ describes entry r.
Proof. intros Hi Hd. exists entry. split; [by eapply list_elem_of_lookup_2|done]. Qed.

Lemma says_describes r : catalogSays r -> exists entry, entry ∈ catalog /\ describes entry r.
Proof.
  destruct r as [t rs neg kind zt tr name period dir count bps elapsed]. unfold catalogSays, typeOf, ruleType. simpl.
  destruct (String.eqb_spec t "all") as [->|_]; [intros _; eapply (describes_at 8); [reflexivity|]; by repeat split; left|].
  destruct (String.eqb_spec t "any") as [->|_]; [intros _; eapply (describes_at 9); [reflexivity|]; by repeat split; left|].
  destruct (String.eqb_spec t "not") as [->|_]; [intros _; eapply (describes_at 10); [reflexivity|]; by repeat split; left|].
  destruct (String.eqb_spec t "price_hits_zone") as [->|_];
    [intros [? ?]; eapply (describes_at 0); [reflexivity|]; split_and!; [done|by right|by right|by left]|].
  destruct (String.eqb_spec t "zone_transition") as [->|_];
    [intros [? ?]; eapply (describes_at 1); [reflexivity|]; split_and!; [done|by right|by right|by left]|].
  destruct (String.eqb_spec t "price_near_zone") as [->|_];
    [intros ?; eapply (describes_at 2); [reflexivity|]; split_and!; [done|by right|by left|by left]|].
  destruct (String.eqb_spec t "price_crosses_indicator") as [->|_];
    [intros ?; eapply (describes_at 3); [reflexivity|]; split_and!; [done|by left|by left|by right]|].
  destruct (String.eqb_spec t "candle_color") as [->|_];
    [intros ?; eapply (describes_at 4); [reflexivity|]; split_and!; [done|by left|by left|by right]|].
  destruct (String.eqb_spec t "candle_streak") as [->|_];
    [intros ?; eapply (describes_at 5); [reflexivity|]; split_and!; [done|by left|by left|by right]|].
  destruct (String.eqb_spec t "candle_color_flip") as [->|_];
    [intros ?; eapply (describes_at 6); [reflexivity|]; split_and!; [done|by left|by left|by right]|].
  destruct (String.eqb_spec t "pattern") as [->|_];
    [intros _; eapply (describes_at 7); [reflexivity|]; by repeat split; left|done].
Qed.

(** The catalog agrees with validation, but for one kind of rule. A rule
    that is no composition and has its numbers within bounds is accepted if
    and only if the catalog lists its type with its kind, its transition and
    its direction, or it is a "price_hits_zone" rule with no transition or one
    of "created", "invalidated" and "expired", which are accepted although
    they are not listed. *)
Theorem catalog_agrees (r : Rule) :
  withinBounds r ->
  Validate r = None <->
  (exists entry, entry ∈ catalog /\ describes entry r) \/
  (typeOf r = TPriceHitsZone /\ r.(Rule.Kind) ∈ zoneKinds /\ r.(Rule.Transition) ∈ [""; "created"; "invalidated"; "expired"]).
Proof.
  intros Hb. rewrite Validate_leaf by (intros E; unfold withinBounds in Hb; by rewrite E in Hb).
  assert ((exists entry, entry ∈ catalog /\ describes entry r) <-> catalogSays r) as ->.
  { split; [intros (entry & Hin & Hd); by eapply describes_says|apply says_describes]. }
  unfold leaf_wf, withinBounds, catalogSays in *. destruct (typeOf r); try done; try (by intuition); set_solver.
Qed.

(** ** Concrete requests *)

Definition secured : Options := Options.mk ":8100" "control-token" "ingest-token" false.
Definition noText (err : ServiceError) : string := "refused".
Definition noSignals (err : SignalsError) : string := "no event".
Definition ask (request : Request) (s : Service Memory) : option Response * Service Memory :=
  handle noText noSignals secured (envAt 0) (clockAt 0) [] request s.

Lemma guarded_by_token_witness :
  (exists message, ask (Request.mk "Bearer control-token" (PostObservation (inr redBar))) colorService
     = (Some (problem 401 "unauthorized" message), colorService)) /\
  ask (Request.mk "Bearer ingest-token" (PostObservation (inr redBar))) colorService
    = handle noText noSignals (open secured) (envAt 0) (clockAt 0) []
        (Request.mk "Bearer ingest-token" (PostObservation (inr redBar))) colorService.
Proof.
  split.
  - apply (guarded_by_token noText noSignals secured (envAt 0) (clockAt 0) []
      (Request.mk "Bearer control-token" (PostObservation (inr redBar))) colorService "ingest-token"); [reflexivity..|].
    intros [H|[H _]]; discriminate H.
  - apply (guarded_by_token noText noSignals secured (envAt 0) (clockAt 0) []
      (Request.mk "Bearer ingest-token" (PostObservation (inr redBar))) colorService "ingest-token"); [reflexivity..|].
    left. reflexivity.
Defined.

Definition posted : option Response * Service Memory :=
  ask (Request.mk "Bearer ingest-token" (PostSignalEvent (inr (barEvent 1 redBar [])))) colorService.

Lemma ingestion_answered_witness :
  exists b, posted.1 = Some (Response.mk 202 b) /\
    exists alerts, b = AcceptedBody alerts /\ Ingest (clockAt 0) redBar colorService = (Ok alerts, posted.2).
Proof.
  destruct colorEngine_represents as (cs & _ & Hcs).
  destruct (ingestion_answered noText noSignals secured (envAt 0) (clockAt 0) []
    (Request.mk "Bearer ingest-token" (PostSignalEvent (inr (barEvent 1 redBar [])))) (inr redBar) colorService
    posted.2 posted.1 cs Hcs) as (status & b & Hr & _ & Hok & _).
  - vm_compute. reflexivity.
  - apply surjective_pairing.
  - assert (match posted.1 with Some r => r.(Response.status) | None => 0%Z end = 202%Z) as Hs by (vm_compute; reflexivity).
    rewrite Hr in Hs. simpl in Hs. subst status. exists b. split; [exact Hr|].
    destruct (Hok eq_refl) as (o & alerts & Ho & _ & Hi & Hb). injection Ho as ->. exists alerts. split; [exact Hb|exact Hi].
Defined.

Definition emptyService : Service Deployment :=
  NewWithOptions {| pg := Postgres.mk Database.empty working; pg_reliable := working_reliable; pg_kept := emptyKept |} delayed.

Lemma unknown_definition_answers_witness :
  exists s', handle noText noSignals (open secured) (envAt 0) (clockAt 0) []
      (Request.mk "" (PatchDefinition pgID (inr (Some true)))) emptyService
    = (Some (problem 500 "store_error" "could not update alert definition"), s').
Proof.
  destruct (unknown_definition_answers noText noSignals (open secured) (envAt 0) (clockAt 0) [] pgID "" true emptyService)
    as [(s' & H & _) _].
  - reflexivity.
  - intros n. reflexivity.
  - split; [vm_compute; reflexivity|]. intros row H. discriminate H.
  - exists s'. exact H.
Defined.

Lemma catalog_agrees_witness :
  Validate (Rule.mk "price_hits_zone" [] None "fvg" "" "expired" "" 0 "" 0 (fl 0) (fl 0)) = None.
Proof.
  apply (catalog_agrees (Rule.mk "price_hits_zone" [] None "fvg" "" "expired" "" 0 "" 0 (fl 0) (fl 0))); [exact I|].
  right. split; [reflexivity|]. split; [left|]. right. right. right. left.
Defined.
