(* ===== verification/Alertsd.v ===== *)
(** * cmd/alertsd/main.go: how the server is put together

    The start-up of [run], with what it undoes when it fails, the lease
    renewal and what ends the process. The store is opened by the parameter
    [openStore]; listening for HTTP and the goroutines are not modelled. *)

From stdpp Require Import base gmap strings list numbers sorting.
From Stdlib Require Import Ascii.
From S2P Require Import Prelude GoFloat GoBase GoTime Model Rules Api Store Memory MemoryProps Tables Postgres PostgresProps.
From S2P Require Import PostgresInvariant PostgresCommit PostgresOps Fixtures.
From S2P Require Import Engine EngineIndex EngineBatch EngineRecovery Service ServiceProps Broker BrokerProps Config.
Import Engine Service Service.Service.

(** The part of a repository that [run] uses besides the service. *)
Class LeaseRepository (R : Type) := {
  StoreAcquirePartitions : string -> list Z -> Duration -> R -> Res StoreError bool * R;
  StoreRenewPartitions : string -> list Z -> Duration -> R -> Res StoreError bool * R;
  StoreReleasePartitions : string -> R -> Res StoreError unit * R }.

#[export] Instance memory_leases : LeaseRepository Memory := {
  StoreAcquirePartitions owner ps ttl m := let '(b, m') := Memory.AcquirePartitions owner ps ttl m in (Ok b, m');
  StoreRenewPartitions owner ps ttl m := let '(b, m') := Memory.RenewPartitions owner ps ttl m in (Ok b, m');
  StoreReleasePartitions owner m := (Ok (), Memory.ReleasePartitions owner m) }.

Lemma keeps_AcquirePartitions owner ps ttl : keeps kept (Postgres.AcquirePartitions owner ps ttl).
Proof.
  unfold Postgres.AcquirePartitions. case_goal; [auto with alerts|]. apply keeps_transaction.
  { intros d d' Hd _. exact Hd. }
  apply keeps_bind; [apply keeps_exec; unfold acquireLeases; frame|]. intros k. case_goal; auto with alerts.
Qed.
Lemma keeps_RenewPartitions owner ps ttl : keeps kept (Postgres.RenewPartitions owner ps ttl).
Proof. apply keeps_bind; [apply keeps_exec; unfold renewLeases; frame|auto with alerts]. Qed.
Lemma keeps_ReleasePartitions owner : keeps kept (Postgres.ReleasePartitions owner).
Proof. apply keeps_exec. frame. Qed.

#[export] Instance postgres_leases : LeaseRepository Deployment := {
  StoreAcquirePartitions owner ps ttl := call _ (keeps_AcquirePartitions owner ps ttl);
  StoreRenewPartitions owner ps ttl := call _ (keeps_RenewPartitions owner ps ttl);
  StoreReleasePartitions owner := call _ (keeps_ReleasePartitions owner) }.

(** ** What the configuration becomes *)

Definition ownedOf (cfg : Config) : list Z :=
  filter (fun partition => Z.rem partition cfg.(Config.WorkerCount) = cfg.(Config.WorkerIndex))
    (Z.of_nat <$> seq 0 256).

Definition brokerOptions (cfg : Config) : Broker.Options :=
  Broker.Options.mk cfg.(Config.NATSURL) cfg.(Config.NATSToken) cfg.(Config.NATSDurable) cfg.(Config.NATSReplicas)
    cfg.(Config.NATSMaxDeliveries) cfg.(Config.NATSAckWait) cfg.(Config.WorkerIndex) cfg.(Config.WorkerCount)
    cfg.(Config.EvaluationBatchSize).

Definition serviceOptions (cfg : Config) : Service.Options :=
  Service.Options.mk cfg.(Config.DefinitionActivationDelay) cfg.(Config.DefinitionMaxStaleness)
    cfg.(Config.WorkerIndex) cfg.(Config.WorkerCount).

Definition retentionPolicy (cfg : Config) : RetentionPolicy.RetentionPolicy :=
  RetentionPolicy.mk cfg.(Config.ProvisionalInboxRetention) cfg.(Config.ConfirmedInboxRetention)
    cfg.(Config.AlertEventRetention) cfg.(Config.MaintenanceBatchSize).

Definition serverOptions (cfg : Config) : Api.Options :=
  Api.Options.mk cfg.(Config.Addr) cfg.(Config.APIToken) cfg.(Config.IngestToken) cfg.(Config.Insecure).

(** ** Start-up *)

Inductive RunError :=
| ErrStart (err : ConfigError)
| ErrOpenStore (err : StoreError)
| ErrAcquire (err : StoreError)
| ErrAlreadyOwned
| ErrJetStream (err : BrokerError)
| ErrInitialize (err : ServiceError)
| ErrServer
| ErrServerStopped (text : string)
| ErrConsumerStopped (err : BrokerError)
| ErrLeaseLost (err : option StoreError).

Module Running.
Record Running {R : Type} := mk { service : Service R; jetstream : option JetStream }.
Arguments Running : clear implicits.
Arguments mk {R} _ _.
End Running.
Abbreviation Running := Running.Running.

Section Run.
Context {R : Type} `{Repository R} `{!ControlRepository R} `{!LeaseRepository R}.
Context {N Subscription : Type} `{Client N Subscription}.

(** The deferred [ReleasePartitions]. *)
Definition release (cfg : Config) (r : R) : R := (StoreReleasePartitions cfg.(Config.InstanceID) r).2.

(** From the leases to the loops. The outer [None] is a panic; on an error,
    the repository as the deferred calls leave it. *)
Definition startWith (cfg : Config) (env : Env) (nowNanos : Z) (store : R) (n : N)
  : option (RunError + Running R) * R * N :=
  match StoreAcquirePartitions cfg.(Config.InstanceID) (ownedOf cfg) cfg.(Config.PartitionLeaseTTL) store with
  | (Panic, r) => (None, r, n)
  | (Err err, r) => (Some (inl (ErrAcquire err)), r, n)
  | (Ok false, r) => (Some (inl ErrAlreadyOwned), r, n)
  | (Ok true, r) =>
      let '(opened, n1) :=
        (if cfg.(Config.NATSURL) != ""
         then match Open (brokerOptions cfg) n with (inl err, n1) => (inl err, n1) | (inr j, n1) => (inr (Some j), n1) end
         else (inr None, n)) in
      match opened with
      | inl err => (Some (inl (ErrJetStream err)), release cfg r, n1)
      | inr jetstream =>
          let n2 := match jetstream with Some _ => Close n1 | None => n1 end in
          match InitializeService env nowNanos (NewWithOptions r (serviceOptions cfg)) with
          | (Panic, s) => (None, release cfg s.(repo), n2)
          | (Err err, s) => (Some (inl (ErrInitialize err)), release cfg s.(repo), n2)
          | (Ok _, s) =>
              if newRefused (serverOptions cfg) then (Some (inl ErrServer), release cfg s.(repo), n2)
              else (Some (inr (Running.mk s jetstream)), s.(repo), n1)
          end
      end
  end.

(** [openStore]: [OpenPostgres] on a URL, [NewMemory] without one. *)
Definition start (getenv : string -> string) (hostname : string) (pid : Z)
  (openStore : option string -> StoreError + R) (env : Env) (nowNanos : Z) (n : N)
  : option (RunError + Running R) * option R * N :=
  match Load getenv hostname pid with
  | inl err => (Some (inl (ErrStart err)), None, n)
  | inr cfg =>
      match openStore (if cfg.(Config.DatabaseURL) != "" then Some cfg.(Config.DatabaseURL) else None) with
      | inl err => (Some (inl (ErrOpenStore err)), None, n)
      | inr store => let '(res, r, n') := startWith cfg env nowNanos store n in (res, Some r, n')
      end
  end.

(** ** While it runs *)

(** The ticks of [renewLeases], up to the first that fails: with an error, or
    because the leases are no longer owned. *)
Fixpoint renewLeases (owner : string) (partitions : list Z) (ttl : Duration) (ticks : nat) (r : R)
  : Res (option StoreError) unit * R :=
  match ticks with
  | 0 => (Ok (), r)
  | S ticks =>
      match StoreRenewPartitions owner partitions ttl r with
      | (Ok true, r') => renewLeases owner partitions ttl ticks r'
      | (Ok false, r') => (Err None, r')
      | (Err err, r') => (Err (Some err), r')
      | (Panic, r') => (Panic, r')
      end
  end.
End Run.

(** What ends the process, and its result. *)
Inductive Ending :=
| Signalled
| ServerDone (err : option string)          (* [None]: [http.ErrServerClosed] *)
| ConsumerDone (err : option BrokerError)
| LeaseDone (err : option StoreError).

Definition runResult (ending : Ending) : option RunError :=
  match ending with
  | Signalled => None
  | ServerDone None => None
  | ServerDone (Some text) => Some (ErrServerStopped text)
  | ConsumerDone None => None
  | ConsumerDone (Some err) => Some (ErrConsumerStopped err)
  | LeaseDone err => Some (ErrLeaseLost err)
  end.

(** What [run] returns and leaves behind: the deferred calls close the
    connection to the broker and release the leases. *)
Definition stop {R N Subscription} `{Repository R} `{!ControlRepository R} `{!LeaseRepository R} `{Client N Subscription}
  (cfg : Config) (running : Running R) (ending : Ending) (n : N) : option RunError * R * N :=
  (runResult ending, release cfg running.(Running.service).(repo),
   match running.(Running.jetstream) with Some _ => Close n | None => n end).

(** ** Properties *)

Lemma wellformed_defaults cfg : wellformed cfg -> withDefaults (brokerOptions cfg) = Some (brokerOptions cfg).
Proof.
  intros [_ Hdur Hrep Hdel [Hi Hc] Hb _ Hd _ _ _ _ _ _]. apply Forall_cons in Hd as [Hack _].
  unfold withDefaults, brokerOptions. simpl. replace (Config.WorkerCount cfg <? 1)%Z with false by lia.
  replace ((Config.WorkerIndex cfg <? 0) || (Config.WorkerIndex cfg >=? Config.WorkerCount cfg))%Z with false by lia.
  apply String.eqb_neq in Hdur. rewrite Hdur.
  replace (Config.NATSReplicas cfg <? 1)%Z with false by lia.
  replace (Config.NATSMaxDeliveries cfg <? 1)%Z with false by lia.
  replace (Config.NATSAckWait cfg <=? 0)%Z with false by lia.
  by replace (Config.EvaluationBatchSize cfg <? 1)%Z with false by lia.
Qed.

Lemma wellformed_server cfg : wellformed cfg -> newRefused (serverOptions cfg) = false.
Proof.
  intros [Ha _ _ _ _ _ _ _ _ _ _ Ht _ _]. unfold newRefused, serverOptions. cbn [Api.Options.Addr Api.Options.Insecure Api.Options.APIToken Api.Options.IngestToken]. apply String.eqb_neq in Ha. rewrite Ha. simpl.
  destruct Ht as [->|[H1 H2]]; [done|]. apply andb_false_iff. right. apply orb_false_iff.
  split; apply String.eqb_neq; intros E; rewrite E in *; simpl in *; lia.
Qed.

Section Started.
Context {R : Type} `{RepositoryLaws R} `{!ControlRepository R} `{!LeaseRepository R}.
Context {N Subscription : Type} `{Client N Subscription}.

Lemma Open_Ok (options : Broker.Options) (n n' : N) j :
  withDefaults options = Some options -> Open options n = (inr j, n') ->
  j = JetStream.mk options.(Broker.Options.Durable) options.(Broker.Options.AckWait)
        options.(Broker.Options.MaxDeliveries) options.(Broker.Options.WorkerIndex)
        options.(Broker.Options.WorkerCount) options.(Broker.Options.BatchSize).
Proof.
  intros Hd. unfold Open. rewrite Hd. destruct (Connect _ _ n) as [[err|] n1]; [done|].
  destruct (JetStreamContext n1) as [[err|] n2]; [done|].
  destruct (ensureStreams _ n2) as [[err|] n3]; [done|]. by intros [= <- _].
Qed.

(** A worker is put together consistently. A well-formed configuration is
    never refused by the HTTP server, nor changed by the defaults of the
    broker; and a worker that started has acquired exactly the leases of the
    partitions its engine owns, consumes exactly the shards of the same
    numbers, under the policies of its configuration, and uses the broker if
    and only if it has the URL of one. *)
Theorem start_consistent (cfg : Config) (env : Env) (nowNanos : Z) (store store' : R) (n n' : N)
  (res : RunError + Running R) :
  wellformed cfg -> startWith cfg env nowNanos store n = (Some res, store', n') ->
  res <> inl ErrServer /\
  forall running, res = inr running ->
    (exists r, StoreAcquirePartitions cfg.(Config.InstanceID) (ownedOf cfg) cfg.(Config.PartitionLeaseTTL) store
       = (Ok true, r)) /\
    (forall p, p ∈ ownedPartitions running.(Running.service).(runtime) <-> p ∈ ownedOf cfg) /\
    running.(Running.service).(activationDelay) = cfg.(Config.DefinitionActivationDelay) /\
    running.(Running.service).(definitionMaxStaleness) = cfg.(Config.DefinitionMaxStaleness) /\
    match running.(Running.jetstream) with
    | None => cfg.(Config.NATSURL) = ""
    | Some j => cfg.(Config.NATSURL) <> "" /\ shardsOf j = ownedOf cfg /\
        consumerOf j "" "" = ConsumerConfig.mk "" "" AckAll cfg.(Config.NATSAckWait)
                               cfg.(Config.NATSMaxDeliveries) cfg.(Config.EvaluationBatchSize)
    end.
Proof.
  intros Hw. unfold startWith.
  destruct (StoreAcquirePartitions _ _ _ store) as [[[]|err|] r] eqn:Ea; [|by intros [= <- _ _]..|done].
  set (opened := if _ != _ then _ else _).
  assert (forall j, opened.1 = inr j -> match j with
    | None => cfg.(Config.NATSURL) = ""
    | Some j => cfg.(Config.NATSURL) <> "" /\ j = JetStream.mk cfg.(Config.NATSDurable) cfg.(Config.NATSAckWait)
        cfg.(Config.NATSMaxDeliveries) cfg.(Config.WorkerIndex) cfg.(Config.WorkerCount) cfg.(Config.EvaluationBatchSize)
    end) as Hopen.
  { subst opened. intros j. destruct (String.eqb_spec (Config.NATSURL cfg) "") as [E|E]; cbn [negb]; [by intros [= <-]|].
    destruct (Open (brokerOptions cfg) n) as [[err|j'] n1] eqn:Eo; [done|]. intros [= <-]. split; [done|].
    by apply Open_Ok in Eo; [|by apply wellformed_defaults]. }
  destruct opened as [[err|j] n1]; [by intros [= <- _ _]|]. specialize (Hopen j eq_refl).
  unfold InitializeService.
  destruct (Initialize env nowNanos _ _) as [[[]|err|] e] eqn:Ei; simpl; [|by intros [= <- _ _]|done].
  rewrite wellformed_server by done. intros [= <- _ _]. split; [done|]. intros running [= <-].
  split; [by exists r|]. simpl. apply Initialize_Ok in Ei as (snap & _ & Hp & Hwi & Hwc).
  split; [|split; [done|split; [done|]]].
  - intros p. rewrite elem_ownedPartitions. unfold inRange, partitionCountOf, owns, ownedOf.
    rewrite Hwi, Hwc, list_elem_of_filter. unfold NewWithOptions, serviceOptions. cbn [Service.runtime Options.WorkerIndex Options.WorkerCount].
    pose proof (wf_workers _ Hw) as [[Hlo Hhi] _].
    assert (length (partitions e) = 256) as ->.
    { rewrite Hp, length_imap. vm_compute. reflexivity. }
    simpl. replace (Config.WorkerCount cfg <? 1)%Z with false by lia.
    fold shards. rewrite elem_shards. unfold EvaluationPartitions. rewrite Z.eqb_eq. tauto.
  - destruct j as [j|]; [|done]. destruct Hopen as [Hu ->]. done.
Qed.
End Started.

Section Leased.
Context {N Subscription : Type} `{Client N Subscription}.

Lemma ownedOf_range cfg p : p ∈ ownedOf cfg -> (0 <= p < 256)%Z.
Proof. unfold ownedOf. rewrite list_elem_of_filter. fold shards. rewrite elem_shards. by intros [_ ?]. Qed.

(** C19: a second worker does not start. While another process holds the lease
    of one of the partitions a worker is configured to own, and the lease has
    not expired, the worker ends with an error before it connects to the
    broker or loads any state, and the lease stays with its holder: no two
    running workers evaluate the same partition. *)
Theorem held_lease_refuses_start (cfg : Config) (env : Env) (nowNanos : Z) (store : Deployment) (n : N)
  (p : Z) (row : LeaseRow) :
  p ∈ ownedOf cfg -> Database.alert_partition_leases store.(pg).(Postgres.db) !! p = Some row ->
  row.(LeaseRow.owner_id) <> cfg.(Config.InstanceID) ->
  (sqlNow store.(pg).(Postgres.server) < row.(LeaseRow.expires_at))%Z ->
  exists err store', startWith cfg env nowNanos store n = (Some (inl err), store', n) /\
    (err = ErrAlreadyOwned \/ exists e, err = ErrAcquire e) /\
    Database.alert_partition_leases store'.(pg).(Postgres.db) !! p = Some row.
Proof.
  intros Hp Hrow Ho He. unfold startWith.
  destruct (StoreAcquirePartitions _ _ _ store) as [res store'] eqn:Ea.
  apply call_inv in Ea as [k Ea].
  assert (Database.alert_partition_leases store'.(pg).(Postgres.db) !! p = Some row) as Hrow'.
  { pose proof (leaves_AcquirePartitions (sqlNow store.(pg).(Postgres.server)) p row cfg.(Config.InstanceID)
      (ownedOf cfg) cfg.(Config.PartitionLeaseTTL) (not_eq_sym Ho) store.(pg).(Postgres.server) 0
      store.(pg).(Postgres.db) eq_refl (conj Hrow He)) as Hl.
    rewrite Ea in Hl. by destruct Hl. }
  destruct res as [[]|err|]; [|by eauto 8..|].
  - exfalso. apply AcquirePartitions_Ok in Ea as (ttl' & _ & Ha). specialize (Ha p Hp).
    rewrite int16_id in Ha by (apply ownedOf_range in Hp; unfold isInt2; lia).
    rewrite Hrow' in Ha. injection Ha as ->. by apply Ho.
  - pose proof (noPanic_AcquirePartitions cfg.(Config.InstanceID) (ownedOf cfg) cfg.(Config.PartitionLeaseTTL)
      store.(pg).(Postgres.server) (0, store.(pg).(Postgres.db))) as Hnp. by rewrite Ea in Hnp.
Qed.
End Leased.

(** Two workers of one, on one database, at the same moment. *)
Definition workerConfig (instance : string) : Config :=
  Config.mk ":8100" "" "" "postgres://x" "" "" "ALERTS_EVALUATOR_V3" 1 20 0 1 32 (30 * Second) (250 * Millisecond)
    (2 * Second) Second Hour (48 * Hour) (720 * Hour) (8760 * Hour) (15 * Second) (5 * Second) 5000 instance true false.

Lemma workerConfig_wellformed instance : wellformed (workerConfig instance).
Proof.
  split; cbn [workerConfig Config.Addr Config.NATSDurable Config.NATSReplicas Config.NATSMaxDeliveries Config.WorkerIndex
    Config.WorkerCount Config.EvaluationBatchSize Config.MaintenanceBatchSize Config.Insecure Config.DatabaseURL
    Config.AllowMemory Config.NATSURL]; [done|done|lia|lia|lia|lia|lia| | | | |by left|split; [by left|done]|done].
  - repeat (constructor; [split; [reflexivity|vm_compute; intros H; discriminate H]|]). constructor.
  - reflexivity.
  - vm_compute. intros H. discriminate H.
  - reflexivity.
Qed.

Definition emptyStore : Deployment :=
  {| pg := Postgres.mk Database.empty working; pg_reliable := working_reliable; pg_kept := emptyKept |}.
Definition firstStart := startWith (workerConfig "first") (Env.mk Fixtures.start []) 1 emptyStore newLab.
Definition takenStore : Deployment := firstStart.1.2.

Lemma start_consistent_witness :
  exists running, firstStart.1.1 = Some (inr running) /\
    142%Z ∈ ownedPartitions running.(Running.service).(runtime) /\ running.(Running.jetstream) = None.
Proof.
  destruct firstStart as [[[[err|running]|] store'] n'] eqn:E;
    [apply (f_equal (fun x => match x.1.1 with Some (inl _) => true | _ => false end)) in E; vm_compute in E; discriminate E| |
     apply (f_equal (fun x => match x.1.1 with None => true | _ => false end)) in E; vm_compute in E; discriminate E].
  exists running. split; [reflexivity|].
  destruct (start_consistent (workerConfig "first") (Env.mk Fixtures.start []) 1 emptyStore store' newLab n' (inr running)
              (workerConfig_wellformed "first") E) as [_ H].
  destruct (H running eq_refl) as (_ & Hp & _ & _ & Hj). split.
  - apply Hp, list_elem_of_In. vm_compute. tauto.
  - destruct (Running.jetstream running) as [j|]; [|reflexivity]. destruct Hj as [Hj _]. destruct (Hj eq_refl).
Defined.

Lemma held_lease_refuses_start_witness :
  exists err store', startWith (workerConfig "second") (Env.mk Fixtures.start []) 2 takenStore newLab = (Some (inl err), store', newLab).
Proof.
  destruct (held_lease_refuses_start (workerConfig "second") (Env.mk Fixtures.start []) 2 takenStore newLab 142
    (LeaseRow.mk "first" (sqlNow working + 15 * Second))) as (err & store' & H & _).
  - apply list_elem_of_In. vm_compute. tauto.
  - vm_compute. reflexivity.
  - intros H. discriminate H.
  - vm_compute. reflexivity.
  - exists err, store'. exact H.
Defined.
