(* ===== verification/Leases.v ===== *)
(** * Leases that are renewed in time

    The renewal loop of a worker beside the calls of the others. The
    configuration makes the renewal interval less than half of the lease, so a
    tick may be one interval late: the lease is still there, whatever the
    others do, and the worker never ends for a lease it lost. And what becomes
    of the leases when a worker ends. *)

From stdpp Require Import base gmap strings list numbers sorting.
From S2P Require Import Prelude GoFloat GoBase GoTime Model Rules Store Memory MemoryProps Tables Postgres PostgresProps.
From S2P Require Import PostgresInvariant PostgresCommit PostgresOps Fixtures.
From S2P Require Import Engine Service ServiceProps Broker BrokerProps Config Alertsd.
Import Database Postgres.

(** What happens to the database, with the server's clock: a tick of the
    worker's loop, or a call of another worker or component. *)
Inductive LeaseEvent :=
| Tick (srv : Server)
| Other (srv : Server) (c : Call).

Definition clock (ev : LeaseEvent) : Time := match ev with Tick srv | Other srv _ => sqlNow srv end.

(** The answers to the ticks, and the database. *)
Fixpoint timeline (cfg : Config) (events : list LeaseEvent) (d : Database) : list (Res StoreError bool) * Database :=
  match events with
  | [] => ([], d)
  | Tick srv :: events =>
      let '(res, (_, d1)) := RenewPartitions cfg.(Config.InstanceID) (ownedOf cfg) cfg.(Config.PartitionLeaseTTL) srv (0, d) in
      let '(answers, d2) := timeline cfg events d1 in (res :: answers, d2)
  | Other srv c :: events => timeline cfg events (perform c srv (0, d)).2.2
  end.

(** [last]: when the leases were acquired or last renewed. Nothing happens
    later than two intervals after it, so a tick comes at most one interval
    late, and ticks do not fail. The others have names of their own. *)
Fixpoint punctual (cfg : Config) (last : Time) (events : list LeaseEvent) : Prop :=
  match events with
  | [] => True
  | ev :: events =>
      (last <= clock ev < last + 2 * cfg.(Config.PartitionLeaseRenewInterval))%Z /\
      match ev with
      | Tick srv => srv.(Server.fault) 0 = None /\ punctual cfg (sqlNow srv) events
      | Other _ c => callOwner c <> Some cfg.(Config.InstanceID) /\ punctual cfg last events
      end
  end.

(** The rows of the worker's partitions. *)
Definition held (cfg : Config) (until : Time) (d : Database) : Prop :=
  forall p, p ∈ ownedOf cfg -> alert_partition_leases d !! p = Some (LeaseRow.mk cfg.(Config.InstanceID) until).

Lemma smallint_range ps : (forall p, p ∈ ps -> (0 <= p < 256)%Z) -> smallintPartitions ps = ps.
Proof.
  intros Hps. unfold smallintPartitions. rewrite <- (list_fmap_id ps) at 2. apply list_fmap_ext.
  intros k p Hp%list_elem_of_lookup_2%Hps. apply int16_id. unfold isInt2, id. lia.
Qed.

Lemma ownedOf_NoDup cfg : NoDup (ownedOf cfg).
Proof. apply NoDup_filter, NoDup_fmap_2; [|apply NoDup_seq]. intros x y H. lia. Qed.

(** The rows a renewal counts are those it is asked to renew. *)
Lemma held_count cfg until (rows : gmap Z LeaseRow) (ps : list Z) (mine : Z * LeaseRow -> bool) :
  NoDup ps -> (forall p, p ∈ ps -> rows !! p = Some (LeaseRow.mk cfg.(Config.InstanceID) until)) ->
  (forall p row, rows !! p = Some row -> mine (p, row) = bool_decide (row.(LeaseRow.owner_id) = cfg.(Config.InstanceID) /\ p ∈ ps)) ->
  length (filter (fun kv => mine kv = true) (map_to_list rows)) = length ps.
Proof.
  intros Hnd Hrows Hmine. rewrite <- (length_fmap fst). apply Permutation_length, NoDup_Permutation; [|done|].
  - eapply sublist_NoDup; [apply (NoDup_fst_map_to_list rows)|]. apply fmap_sublist, sublist_filter.
  - intros p. rewrite list_elem_of_fmap. split.
    + intros ([q row] & -> & [Hm Hq%elem_of_map_to_list]%list_elem_of_filter). rewrite (Hmine _ _ Hq) in Hm.
      by apply bool_decide_eq_true in Hm as [_ ?].
    + intros Hp. exists (p, LeaseRow.mk cfg.(Config.InstanceID) until). split; [done|].
      apply list_elem_of_filter. rewrite (Hmine _ _ (Hrows p Hp)), elem_of_map_to_list.
      split; [by apply bool_decide_eq_true|by apply Hrows].
Qed.

Lemma tick_renews cfg ttl until srv d :
  held cfg until d -> interval cfg.(Config.PartitionLeaseTTL) = Some ttl -> srv.(Server.fault) 0 = None ->
  exists d', RenewPartitions cfg.(Config.InstanceID) (ownedOf cfg) cfg.(Config.PartitionLeaseTTL) srv (0, d) = (Ok true, (1, d')) /\
    held cfg (sqlNow srv + ttl) d'.
Proof.
  intros Hd Ht Hf. unfold RenewPartitions, bind, exec, Postgres.renewLeases. rewrite Hf, Ht, smallint_range by apply ownedOf_range. cbn [ret].
  eexists. split.
  - rewrite (held_count cfg until) with (ps := ownedOf cfg) by (try apply ownedOf_NoDup; done). by rewrite Nat.eqb_refl.
  - intros p Hp. simpl. rewrite map_lookup_imap, (Hd p Hp). simpl. by rewrite bool_decide_eq_true_2.
Qed.

Lemma other_keeps cfg until srv c d :
  held cfg until d -> (sqlNow srv < until)%Z -> callOwner c <> Some cfg.(Config.InstanceID) ->
  held cfg until (perform c srv (0, d)).2.2.
Proof.
  intros Hd Hs Ho p Hp.
  by apply (leaves_perform (sqlNow srv) p (LeaseRow.mk cfg.(Config.InstanceID) until) c Ho srv 0 d), conj; [..|apply Hd|].
Qed.

Lemma timeline_held cfg ttl events : forall last d,
  interval cfg.(Config.PartitionLeaseTTL) = Some ttl -> (2 * cfg.(Config.PartitionLeaseRenewInterval) <= ttl)%Z ->
  punctual cfg last events -> held cfg (last + ttl) d ->
  Forall (fun answer => answer = Ok true) (timeline cfg events d).1 /\
  exists until, held cfg until (timeline cfg events d).2.
Proof.
  induction events as [|[srv|srv c] events IH]; intros last d Ht Hi Hp Hd; cbn [timeline]; [eauto|..];
    destruct Hp as [Hclock [H1 Hp]]; cbn [clock] in Hclock.
  - destruct (tick_renews cfg ttl _ srv d Hd Ht H1) as (d' & -> & Hd'). destruct (IH _ d' Ht Hi Hp Hd') as [HF HU].
    destruct (timeline cfg events d') as [answers d2]. split; [by constructor|done].
  - apply (IH last); [done..|]. apply other_keeps; [done|lia|done].
Qed.

(** C20: a worker that renews in time keeps its partitions. Take a worker that
    was granted its leases, and any calls of other workers and components,
    failing ones included, between the ticks of its renewal loop. If a tick is
    never more than one interval late and does not fail, every renewal is
    answered with yes, so the loop never ends the process, and every row of
    the worker's partitions is still its own: the configuration, which keeps
    the interval below half of the lease, leaves room for one late tick. *)
Theorem renewal_keeps_leases (cfg : Config) (srv : Server) (d0 d : Database) (n0 n : nat) (events : list LeaseEvent) :
  wellformed cfg -> (cfg.(Config.PartitionLeaseRenewInterval) < 2 ^ 62)%Z ->
  (Microsecond | cfg.(Config.PartitionLeaseTTL))%Z ->
  AcquirePartitions cfg.(Config.InstanceID) (ownedOf cfg) cfg.(Config.PartitionLeaseTTL) srv (n0, d0) = (Ok true, (n, d)) ->
  punctual cfg (sqlNow srv) events ->
  Forall (fun answer => answer = Ok true) (timeline cfg events d).1 /\
  forall p, p ∈ ownedOf cfg -> exists until,
    alert_partition_leases (timeline cfg events d).2 !! p = Some (LeaseRow.mk cfg.(Config.InstanceID) until).
Proof.
  intros Hw Hi Hdiv Ha Hp. apply AcquirePartitions_Ok in Ha as (ttl & Ht & Ha).
  apply wellformed_intervals in Hw as [_ Hr]. specialize (Hr Hi).
  assert (ttl = cfg.(Config.PartitionLeaseTTL)) as ->.
  { pose proof Ht as Ht'. unfold interval in Ht'. case_hyp Ht'; [done|]. injection Ht' as <-.
    destruct Hdiv as [q ->]. unfold roundHalfEven. by rewrite Z.mod_mul, Z.div_mul. }
  destruct (timeline_held cfg _ events (sqlNow srv) d Ht) as [HF [until HU]]; [lia|done| |].
  - intros p Hp'. rewrite <- (Ha p Hp'), int16_id; [done|]. apply ownedOf_range in Hp'. unfold isInt2. lia.
  - split; [done|]. intros p Hp'. exists until. by apply HU.
Qed.

Definition first : Config := workerConfig "first".
Definition after (seconds : Z) : Server := Server.mk (Fixtures.start + Hour + seconds * Second) (fun _ => None) [] [].
Definition granted : Database :=
  (AcquirePartitions "first" (ownedOf first) (15 * Second) working (0, Database.empty)).2.2.
(** Another worker tries all along, and even stops; the second tick would be
    too late for the lease as it was acquired. *)
Definition contended : list LeaseEvent :=
  [Other (after 4) (CallAcquire "second" [142%Z] Hour); Tick (after 9); Other (after 16) (CallAcquire "second" [142%Z] Hour);
   Other (after 17) (CallRelease "second"); Tick (after 18); Other (after 27) (CallAcquire "second" [142%Z] Hour)].

Lemma renewal_keeps_leases_witness :
  142%Z ∈ ownedOf first /\ length (timeline first contended granted).1 = 2 /\
  Forall (fun answer => answer = Ok true) (timeline first contended granted).1 /\
  exists until, alert_partition_leases (timeline first contended granted).2 !! 142%Z = Some (LeaseRow.mk "first" until).
Proof.
  assert (142%Z ∈ ownedOf first) as Hp by (apply list_elem_of_In; vm_compute; tauto).
  destruct (renewal_keeps_leases first working Database.empty granted 0 3 contended) as [HF H].
  - apply workerConfig_wellformed.
  - vm_compute. reflexivity.
  - exists 15000000%Z. vm_compute. reflexivity.
  - vm_compute. reflexivity.
  - vm_compute. repeat split; intros E; discriminate E.
  - split; [exact Hp|]. split; [vm_compute; reflexivity|]. split; [exact HF|]. apply (H 142%Z Hp).
Defined.

(** ** After the end *)

Lemma interval_some d : (Millisecond <= d)%Z -> exists d', interval d = Some d'.
Proof. intros Hd. unfold interval. replace (_ && _) with false by (unfold Millisecond in *; lia). eauto. Qed.

(** A partition that [owner] can have. *)
Definition free (owner : string) (now : Time) (rows : gmap Z LeaseRow) (p : Z) : Prop :=
  forall row, rows !! p = Some row -> row.(LeaseRow.owner_id) = owner \/ (row.(LeaseRow.expires_at) <= now)%Z.

Lemma leaseRow_free owner now ttl l : forall rows out,
  NoDup l -> (forall p, p ∈ l -> p ∉ out /\ (0 <= p < 256)%Z /\ free owner now rows p) ->
  exists rows', foldl (leaseRow owner now ttl) (inl (rows, out)) l = inl (rows', out ++ l).
Proof.
  induction l as [|p l IH]; intros rows out Hnd Hl; [rewrite app_nil_r; by exists rows|].
  apply NoDup_cons in Hnd as [Hp Hnd]. destruct (Hl p) as (Hout & Hr & Hfree); [by left|].
  assert (leaseRow owner now ttl (inl (rows, out)) p = inl (<[p := LeaseRow.mk owner (now + ttl)%Z]> rows, out ++ [p])) as E.
  { unfold leaseRow. replace (_ && _) with true by lia. rewrite bool_decide_eq_false_2 by done. cbn [negb].
    destruct (rows !! p) as [held|] eqn:Erow; [|done]. destruct (Hfree held Erow) as [<-|Hexp].
    - by rewrite String.eqb_refl.
    - replace (_ <=? now)%Z with true by lia. by rewrite orb_true_r. }
  cbn [foldl]. rewrite E. destruct (IH (<[p := LeaseRow.mk owner (now + ttl)%Z]> rows) (out ++ [p]) Hnd) as [rows' ->].
  - intros q Hq. destruct (Hl q) as (Hqo & Hqr & Hqf); [by right|]. assert (q <> p) as Hne by (by intros ->).
    split; [set_solver|]. split; [done|]. intros row. rewrite lookup_insert_ne by done. apply Hqf.
  - exists rows'. by rewrite <- app_assoc.
Qed.

Lemma AcquirePartitions_free owner ps ttl srv n d ttl' :
  (forall k, srv.(Server.fault) k = None) -> interval ttl = Some ttl' -> ps <> [] -> NoDup ps ->
  (forall p, p ∈ ps -> (0 <= p < 256)%Z /\ free owner (sqlNow srv) (alert_partition_leases d) p) ->
  (AcquirePartitions owner ps ttl srv (n, d)).1 = Ok true.
Proof.
  intros Hf Ht Hne Hnd Hps. unfold AcquirePartitions.
  assert (smallintPartitions ps = ps) as Hsmall by (apply smallint_range; intros p Hp; by apply Hps).
  destruct (leaseRow_free owner (sqlNow srv) ttl' ps (alert_partition_leases d) []) as [rows Erows].
  { done. } { intros p Hp. split; [set_solver|by apply Hps]. }
  destruct ps as [|p ps]; [done|]. cbn [length Nat.eqb].
  unfold transaction, transactionOn, bind, exec, acquireLeases. rewrite !Hf, Ht, Hsmall, Erows. cbn [app].
  rewrite Nat.eqb_refl. simpl. by rewrite !Hf.
Qed.

Lemma ownedOf_index cfg : wellformed cfg -> cfg.(Config.WorkerIndex) ∈ ownedOf cfg.
Proof.
  intros Hw. pose proof (wf_workers _ Hw) as [[Hlo Hhi] Hmax]. unfold ownedOf. fold shards.
  rewrite list_elem_of_filter, elem_shards. unfold EvaluationPartitions. split; [by apply Z.rem_small|lia].
Qed.

Lemma acquire_answer owner ps ttl (r : Deployment) :
  (StoreAcquirePartitions owner ps ttl r).1 = (AcquirePartitions owner ps ttl r.(pg).(server) (0, r.(pg).(db))).1.
Proof. simpl. unfold run. by destruct (AcquirePartitions _ _ _ _ _) as [res [n d]]. Qed.

Lemma release_pg cfg (r : Deployment) :
  (forall k, r.(pg).(server).(Server.fault) k = None) ->
  (release cfg r).(pg) =
    Postgres.mk (with_leases r.(pg).(db)
      (filter (fun kv => kv.2.(LeaseRow.owner_id) <> cfg.(Config.InstanceID)) (alert_partition_leases r.(pg).(db)))) r.(pg).(server).
Proof. intros Hf. simpl. unfold run, ReleasePartitions, exec. by rewrite Hf. Qed.

(** A release that fails leaves the rows, it never adds or changes one. *)
Lemma release_rows cfg (r : Deployment) p row :
  alert_partition_leases (release cfg r).(pg).(db) !! p = Some row -> alert_partition_leases r.(pg).(db) !! p = Some row.
Proof.
  simpl. unfold run, ReleasePartitions, exec. destruct (Server.fault _ 0) as [[]|]; simpl; [done|..];
    intros [? _]%map_lookup_filter_Some; done.
Qed.

Section Stopped.
Context {N Subscription : Type} `{Client N Subscription}.

(** C21: a worker that ends is replaced. However it ends, by a signal, the
    HTTP server, the consumer or a lost lease, [run] returns that and calls
    the release of its leases. If the database executes that call, another
    worker is granted its own leases right after, as long as what else it asks
    for is free; it does not wait for the leases of the first one to expire.
    If the database fails, as it may when the lease was lost, the rows can
    stay, but none is added or prolonged: the other worker is granted them
    once they have expired, by the clock of a database that works again. *)
Theorem stopped_worker_replaced (cfg cfg' : Config) (running : Running Deployment) (ending : Ending)
  (n n' : N) (result : option RunError) (store later : Deployment) :
  let here := running.(Running.service).(Service.repo) in
  stop cfg running ending n = (result, store, n') ->
  later.(pg).(db) = store.(pg).(db) -> (forall k, later.(pg).(server).(Server.fault) k = None) ->
  wellformed cfg' -> (Millisecond <= cfg'.(Config.PartitionLeaseTTL))%Z ->
  (forall p row, p ∈ ownedOf cfg' -> alert_partition_leases here.(pg).(db) !! p = Some row ->
     row.(LeaseRow.owner_id) = cfg.(Config.InstanceID) /\ (forall k, here.(pg).(server).(Server.fault) k = None) \/
     (row.(LeaseRow.expires_at) <= sqlNow later.(pg).(server))%Z) ->
  result = runResult ending /\
  exists store', StoreAcquirePartitions cfg'.(Config.InstanceID) (ownedOf cfg') cfg'.(Config.PartitionLeaseTTL) later
    = (Ok true, store').
Proof.
  intros here Hstop Hdb Hf Hw Httl Hfree. injection Hstop as <- <- _. split; [done|]. fold here in Hdb.
  destruct (StoreAcquirePartitions _ _ _ later) as [res store'] eqn:E. exists store'. f_equal.
  apply (f_equal fst) in E. rewrite acquire_answer in E. cbn [fst] in E. subst res.
  destruct (interval_some _ Httl) as [ttl' Ht].
  eapply AcquirePartitions_free; [done|done| |apply ownedOf_NoDup|].
  - intros Hnil. pose proof (ownedOf_index _ Hw) as Hin. rewrite Hnil in Hin. by apply elem_of_nil in Hin.
  - intros p Hp. split; [by eapply ownedOf_range|]. rewrite Hdb. intros row Hrow.
    destruct (Hfree p row Hp (release_rows _ _ _ _ Hrow)) as [[Hid Hhere]|He]; [|by right].
    rewrite (release_pg cfg here Hhere) in Hrow. apply map_lookup_filter_Some in Hrow as [_ Ho]. simpl in Ho. congruence.
Qed.
End Stopped.

(** The first worker of all partitions ends for a lost lease; the second one,
    refused before, gets them. *)
Definition ending : Running Deployment := Running.mk (Service.NewWithOptions takenStore (serviceOptions first)) None.

Lemma taken_first p row : alert_partition_leases takenStore.(pg).(db) !! p = Some row -> row.(LeaseRow.owner_id) = "first".
Proof.
  assert (forallb (fun kv => kv.2.(LeaseRow.owner_id) == "first") (map_to_list (alert_partition_leases takenStore.(pg).(db))) = true)
    as Hall by (vm_compute; reflexivity).
  rewrite forallb_forall in Hall. intros Hp%elem_of_map_to_list%list_elem_of_In%Hall. by apply String.eqb_eq in Hp.
Qed.

Lemma stopped_worker_replaced_witness :
  (StoreAcquirePartitions "second" (ownedOf (workerConfig "second")) (15 * Second) takenStore).1 = Ok false /\
  exists store', StoreAcquirePartitions "second" (ownedOf (workerConfig "second")) (15 * Second)
    (stop first ending (LeaseDone None) newLab).1.2 = (Ok true, store').
Proof.
  split; [vm_compute; reflexivity|].
  apply (stopped_worker_replaced first (workerConfig "second") ending (LeaseDone None) newLab newLab
    (Some (ErrLeaseLost None)) (stop first ending (LeaseDone None) newLab).1.2
    (stop first ending (LeaseDone None) newLab).1.2).
  - reflexivity.
  - reflexivity.
  - intros k. reflexivity.
  - apply workerConfig_wellformed.
  - vm_compute. intros E. discriminate E.
  - intros p row _ Hrow. left. split; [exact (taken_first p row Hrow)|intros k; reflexivity].
Defined.
