(* ===== verification/Cluster.v ===== *)
(** * Workers that share a database

    Several workers, each with its engine, on one PostgreSQL database: they
    start, renew their leases, evaluate batches, crash and stop, in any
    interleaving, while definitions change, alerts are published and the
    database is maintained. Each call is one step. What keeps the workers
    apart are the leases: as long as every batch is evaluated by the recorded
    owner of its partition, each owner's memory is the checkpoint; the code
    does not check it when it commits, and without it checkpoints are lost. *)

From stdpp Require Import base gmap strings list numbers sorting.
From Stdlib Require Import Ascii.
From S2P Require Import Prelude GoFloat GoBase GoTime Model Rules Store Memory MemoryProps Fixtures.
From S2P Require Import Tables Postgres PostgresProps PostgresInvariant PostgresCommit PostgresOps.
From S2P Require Import Engine EngineIndex EngineBatch EngineTrack EngineTrace EngineRecovery.
From S2P Require Import Service ServiceProps Broker BrokerProps Config Api Alertsd.
Import Engine Database Postgres.

(** ** What a call leaves alone *)

Section Frames.
Context {X : Type} (view : Database -> X).
Definition frames {A} (c : Session A) : Prop := forall x, keeps (fun d => view d = x) c.

Lemma frames_ret {A} (a : A) : frames (ret a).
Proof. intros x. auto with alerts. Qed.
Lemma frames_throw {A} e : frames (throw e : Session A).
Proof. intros x. auto with alerts. Qed.
Lemma frames_bind {A B} (c : Session A) (f : A -> Session B) :
  frames c -> (forall a, frames (f a)) -> frames (bind c f).
Proof. intros Hc Hf x. apply keeps_bind; [apply Hc|intros a; apply Hf]. Qed.
Lemma frames_exec {A} (st : Statement A) : (forall srv d, view (st srv d).2 = view d) -> frames (exec st).
Proof. intros H x. apply keeps_exec. intros srv d <-. apply H. Qed.
Lemma frames_unlessEmpty {A} k (c : Session A) : frames c -> frames (unlessEmpty k c).
Proof. intros Hc. unfold unlessEmpty. case_goal; [apply frames_ret|]. apply frames_bind; [done|]. intros. apply frames_ret. Qed.
Lemma frames_transaction {A} (body : Session (A * bool)) :
  (forall d d', view (rollback d d') = view d) -> frames body -> frames (transaction body).
Proof. intros Hr Hb x. apply keeps_transaction; [|apply Hb]. intros d d' <- _. apply Hr. Qed.

Lemma frames_call {A} (c : Session A) Hc (r : Deployment) :
  frames c -> view (call c Hc r).2.(pg).(db) = view r.(pg).(db).
Proof.
  intros Hf. destruct (call c Hc r) as [res r'] eqn:E. apply call_inv in E as [n E].
  specialize (Hf _ r.(pg).(server) 0 r.(pg).(db) eq_refl). by rewrite E in Hf.
Qed.
End Frames.
#[export] Hint Resolve frames_ret frames_throw frames_bind frames_unlessEmpty : alerts.

Ltac unseen := apply frames_exec; let v := fresh "srv" in let t := fresh "t" in intros v t; unfold limited; cbv beta;
  repeat match goal with |- context [match ?x with _ => _ end] => destruct x; cbn [snd] end; reflexivity.

(** The two parts of the tables that matter here. *)
Definition states (d : Database) := (alert_series_runtime_state d, alert_definition_runtime_state d).
Notation leases := alert_partition_leases.

Lemma frames_CommitRuntimeBatch b : frames leases (CommitRuntimeBatch b).
Proof.
  apply frames_transaction; [done|]. apply frames_bind; [|intros _; apply frames_bind; [|intros _; apply frames_bind]].
  - apply frames_unlessEmpty. case_goal; [unfold insertInbox; unseen|auto with alerts].
  - apply frames_unlessEmpty. case_goal; [unfold upsertSeries; unseen|auto with alerts].
  - apply frames_bind; [apply frames_unlessEmpty; unfold deleteStates; unseen|]. intros _.
    case_goal; [|auto with alerts]. apply frames_unlessEmpty.
    case_goal; [unfold upsertDefinitionStates; unseen|auto with alerts].
  - intros _. apply frames_bind; [|auto with alerts]. unfold commitAlerts. repeat case_goal; [auto with alerts| |auto with alerts].
    apply frames_bind; [unfold insertAlerts, insertEvents; unseen|]. intros out.
    apply frames_bind; [unfold insertOutbox; unseen|auto with alerts].
Qed.

Lemma frames_AcquirePartitions owner ps ttl : frames states (AcquirePartitions owner ps ttl).
Proof.
  unfold AcquirePartitions. case_goal; [auto with alerts|]. apply frames_transaction; [done|].
  apply frames_bind; [unfold acquireLeases; unseen|]. intros k. case_goal; auto with alerts.
Qed.
Lemma frames_RenewPartitions owner ps ttl : frames states (RenewPartitions owner ps ttl).
Proof. apply frames_bind; [unfold Postgres.renewLeases; unseen|auto with alerts]. Qed.
Lemma frames_ReleasePartitions owner : frames states (ReleasePartitions owner).
Proof. unfold ReleasePartitions. unseen. Qed.

(** Both parts. *)
Definition shared (d : Database) := (states d, leases d).

Lemma frames_updateOutbox id f : frames shared (exec (updateOutbox id f)).
Proof. unfold updateOutbox. unseen. Qed.
Lemma frames_Maintain policy : frames shared (Postgres.Maintain policy).
Proof.
  unfold Postgres.Maintain. apply frames_bind; [case_goal; [unfold deleteEvents; unseen|auto with alerts]|].
  intros k. apply frames_bind; [|auto with alerts]. case_goal; [unfold deleteInbox; unseen|auto with alerts].
Qed.

(** ** Who owns a partition *)

(** The recorded owner, whether the lease has expired or not. *)
Definition ownerOf (d : Database) (p : Z) : option string := LeaseRow.owner_id <$> leases d !! p.

Lemma leaseRow_owners owner now ttl l : forall rows out rows' out' p,
  foldl (leaseRow owner now ttl) (inl (rows, out)) l = inl (rows', out') ->
  LeaseRow.owner_id <$> rows' !! p = Some owner \/ rows' !! p = rows !! p.
Proof.
  induction l as [|q l IH]; intros rows out rows' out' p; cbn [foldl]; [by intros [= <- _]; right|].
  intros H. destruct (leaseRow owner now ttl (inl (rows, out)) q) as [[rows1 out1]|m] eqn:E.
  2:{ by rewrite leaseRow_failed in H. }
  destruct (IH _ _ _ _ p H) as [?|Hp]; [by left|]. rewrite Hp. unfold leaseRow in E.
  destruct (negb _); [done|]. case_bool_decide; [done|].
  destruct (decide (q = p)) as [->|Hne].
  - repeat case_hyp E; injection E as <- _; rewrite ?lookup_insert_eq; auto.
  - right. repeat case_hyp E; injection E as <- _; try done; by rewrite lookup_insert_ne.
Qed.

(** A call for [owner] makes it the owner, or leaves the owner. *)
Definition gains (owner : string) (d d' : Database) : Prop :=
  forall p, ownerOf d' p = Some owner \/ ownerOf d' p = ownerOf d p.

Lemma gains_AcquirePartitions owner ps ttl (r : Deployment) :
  gains owner r.(pg).(db) (StoreAcquirePartitions owner ps ttl r).2.(pg).(db).
Proof.
  destruct (StoreAcquirePartitions owner ps ttl r) as [res r'] eqn:E. apply call_inv in E as [n E]. simpl.
  assert (keeps (gains owner r.(pg).(db)) (AcquirePartitions owner ps ttl)) as Hk.
  { unfold AcquirePartitions. case_goal; [auto with alerts|]. apply keeps_transaction.
    { intros d d' Hd _. exact Hd. }
    apply keeps_bind; [|intros k; case_goal; auto with alerts]. apply keeps_exec.
    intros srv d Hd. unfold acquireLeases. destruct (interval ttl) as [ttl'|]; [|done].
    destruct (foldl _ _ _) as [[rows out]|m] eqn:Ef; [|done]. intros p. unfold ownerOf. simpl.
    destruct (leaseRow_owners _ _ _ _ _ _ _ _ p Ef) as [Hp|Hp]; [by left|]. rewrite Hp. apply Hd. }
  specialize (Hk r.(pg).(server) 0 r.(pg).(db)). rewrite E in Hk. apply Hk. intros p. auto.
Qed.

Lemma RenewPartitions_owners owner ps ttl (r : Deployment) p :
  ownerOf (StoreRenewPartitions owner ps ttl r).2.(pg).(db) p = ownerOf r.(pg).(db) p.
Proof.
  assert (forall d, ownerOf d p = LeaseRow.owner_id <$> leases d !! p) as Ho by done.
  apply (frames_call (fun d => ownerOf d p)). apply frames_bind; [|auto with alerts].
  apply frames_exec. intros srv d. unfold Postgres.renewLeases. destruct (interval ttl); [|done]. unfold ownerOf. simpl.
  rewrite map_lookup_imap. destruct (leases d !! p) as [row|]; [|done]. simpl. case_bool_decide as H; [|done].
  simpl. by destruct H as [-> _].
Qed.

Lemma ReleasePartitions_owners owner (r : Deployment) p :
  let d' := (StoreReleasePartitions owner r).2.(pg).(db) in
  ownerOf d' p = ownerOf r.(pg).(db) p \/ ownerOf d' p = None.
Proof.
  destruct (StoreReleasePartitions owner r) as [res r'] eqn:E. apply call_inv in E as [n E]. simpl.
  assert (keeps (fun d => ownerOf d p = ownerOf r.(pg).(db) p \/ ownerOf d p = None) (ReleasePartitions owner)) as Hk.
  { apply keeps_exec. intros srv d Hd. unfold ownerOf in *. simpl. rewrite map_lookup_filter.
    destruct (leases d !! p) as [row|]; simpl; [|by right]. case_guard; simpl; auto. }
  specialize (Hk r.(pg).(server) 0 r.(pg).(db) (or_introl eq_refl)). by rewrite E in Hk.
Qed.

(** ** The cluster *)

(** The database, and the engine of every running worker by its instance. *)
Module Cluster.
Record Cluster := mk { store : Deployment; engines : gmap string Engine }.
End Cluster.
Abbreviation Cluster := Cluster.Cluster.
Import Cluster.

Definition tables (s : Cluster) : Database := s.(store).(pg).(db).

(** The calls of the services and the publishers. *)
Inductive serviceCall (r : Deployment) : Deployment -> Prop :=
| call_create d : serviceCall r (StoreCreateDefinition d r).2
| call_enable env id b t : serviceCall r (StoreSetEnabled env id b t r).2
| call_archive env id t : serviceCall r (StoreArchiveDefinition env id t r).2
| call_claim env limit : serviceCall r (StoreClaimPending env limit r).2
| call_published env id : serviceCall r (StoreMarkPublished env id r).2
| call_failed env id message : serviceCall r (StoreMarkPublishFailed env id message r).2
| call_maintain env policy : serviceCall r (StoreMaintain env policy r).2.

(** One step of the cluster. [fenced]: a batch is evaluated only while the
    worker is the recorded owner of its partition. A worker loads its engine
    after it acquired its partitions, and while it still owns them; it is new,
    so its instance has no engine. *)
Inductive step (fenced : bool) (s : Cluster) : Cluster -> Prop :=
| step_time r :
    r.(pg).(db) = tables s -> (sqlNow s.(store).(pg).(server) <= sqlNow r.(pg).(server))%Z ->
    step fenced s (mk r s.(engines))
| step_service r : serviceCall s.(store) r -> step fenced s (mk r s.(engines))
| step_acquire id ps ttl :
    s.(engines) !! id = None ->
    step fenced s (mk (StoreAcquirePartitions id ps ttl s.(store)).2 s.(engines))
| step_load id env t index count e :
    s.(engines) !! id = None ->
    Initialize env t (NewWithOwnership DefaultPartitions index count) s.(store) = (Ok (), e) -> indexOk e ->
    (forall p, p ∈ ownedPartitions e -> ownerOf (tables s) p = Some id) ->
    step fenced s (mk s.(store) (<[id := e]> s.(engines)))
| step_renew id ps ttl : step fenced s (mk (StoreRenewPartitions id ps ttl s.(store)).2 s.(engines))
| step_evaluate id e now pid obs res e' r :
    s.(engines) !! id = Some e -> Forall (fun o => seriesKeyOk o.(Observation.Series)) obs ->
    (fenced = true -> ownerOf (tables s) pid = Some id) ->
    EvaluateBatch now pid obs e s.(store) = (res, e', r) -> res <> Panic ->
    step fenced s (mk r (<[id := e']> s.(engines)))
| step_reindex id e e' :
    s.(engines) !! id = Some e -> indexOk e' -> e'.(partitions) = e.(partitions) ->
    e'.(workerIndex) = e.(workerIndex) -> e'.(workerCount) = e.(workerCount) ->
    step fenced s (mk s.(store) (<[id := e']> s.(engines)))
| step_crash id : step fenced s (mk s.(store) (delete id s.(engines)))
| step_release id : step fenced s (mk (StoreReleasePartitions id s.(store)).2 s.(engines)).

(** Every checkpoint is stored under the partition its key hashes to, or
    under none. *)
Definition partitionOfKey (k : string) : Z := PartitionForKey (New DefaultPartitions) k.
Definition homed (r : Deployment) : Prop :=
  (forall k, is_Some ((runtimeOf r).(RuntimeSnapshot.Series) !! k) -> home r (partitionOfKey k) k) /\
  (forall k, is_Some ((runtimeOf r).(RuntimeSnapshot.Definitions) !! k) ->
     homeDefinition r (partitionOfKey (Engine.definitionSeriesKey k)) k).

(** A worker and the checkpoint: each partition it is the owner of is the
    checkpoint, in its memory. *)
Record current (r : Deployment) (id : string) (e : Engine) : Prop := {
  cu_index : indexOk e;
  cu_length : length e.(partitions) = Z.to_nat DefaultPartitions;
  cu_partition p partition :
    owns e (Z.of_nat p) = true -> ownerOf r.(pg).(db) (Z.of_nat p) = Some id ->
    e.(partitions) !! p = Some partition ->
    partition ≡ loadSeries e (runtimeOf r) (Z.of_nat p) (partitionRuntime.mk ∅ ∅) }.

Definition inStep (s : Cluster) : Prop :=
  homed s.(store) /\ forall id e, s.(engines) !! id = Some e -> current s.(store) id e.

(** Nothing that matters to a worker changed, but for owners that are not it. *)
Lemma current_frame r r' id e :
  states r'.(pg).(db) = states r.(pg).(db) ->
  (forall p, ownerOf r'.(pg).(db) p = Some id -> ownerOf r.(pg).(db) p = Some id) ->
  current r id e -> current r' id e.
Proof.
  intros [= Es Ed] Ho [Hi Hl Hp]. split; [done|done|]. intros p part Hown Hid Hpart.
  assert (runtimeOf r' = runtimeOf r) as ->. { simpl. unfold checkpoint. by rewrite Es, Ed. }
  by apply Hp; [|apply Ho|].
Qed.

Lemma homed_frame r r' : states r'.(pg).(db) = states r.(pg).(db) -> homed r -> homed r'.
Proof.
  intros [= Es Ed]. unfold homed. simpl. unfold checkpoint, definitionRow. by rewrite Es, Ed.
Qed.

Lemma inStep_frame s r :
  states r.(pg).(db) = states (tables s) ->
  (forall id p, is_Some (s.(engines) !! id) -> ownerOf r.(pg).(db) p = Some id -> ownerOf (tables s) p = Some id) ->
  inStep s -> inStep (mk r s.(engines)).
Proof.
  intros Hs Ho [Hh Hc]. split; [by eapply homed_frame|]. simpl. intros id e He.
  eapply current_frame; [exact Hs| |by apply Hc]. intros p. apply Ho. by eexists.
Qed.

Lemma answered_state {A} (c : Session A) Hc (r : Deployment) (f : Res StoreError A -> option StoreError) :
  (let '(res, r') := call c Hc r in (f res, r')).2 = (call c Hc r).2.
Proof. done. Qed.

Lemma serviceCall_shared r r' : serviceCall r r' -> shared r'.(pg).(db) = shared r.(pg).(db).
Proof.
  intros [d|? id b t|? id t|? limit|? id|? id message|? policy];
    cbn [StoreCreateDefinition StoreSetEnabled StoreArchiveDefinition StoreClaimPending StoreMarkPublished
         StoreMarkPublishFailed StoreMaintain postgres_control];
    rewrite ?answered_state; eapply (frames_call shared).
  - unfold Postgres.CreateDefinition. case_goal; [unfold upsertDefinition; unseen|auto with alerts].
  - unfold Postgres.SetEnabled. unseen.
  - unfold Postgres.ArchiveDefinition. apply frames_bind; [unseen|]. intros k. case_goal; auto with alerts.
  - unfold Postgres.ClaimPending, claimOutbox. unseen.
  - apply frames_updateOutbox.
  - apply frames_updateOutbox.
  - apply frames_Maintain.
Qed.

(** ** A batch *)

Lemma EvaluateBatch_store {R} `{Repository R} now pid obs (e e' : Engine) (r r' : R) res :
  EvaluateBatch now pid obs e r = (res, e', r') -> r' = r \/ exists b, r' = (Store.CommitRuntimeBatch b r).2.
Proof.
  unfold EvaluateBatch. intros Hev. repeat case_hyp Hev; simplify_eq/=; auto;
    right; match goal with Hc : Store.CommitRuntimeBatch ?b r = _ |- _ => exists b; by rewrite Hc end.
Qed.

Lemma EvaluateBatch_owners now pid obs (e e' : Engine) (r r' : Deployment) res p :
  EvaluateBatch now pid obs e r = (res, e', r') -> ownerOf r'.(pg).(db) p = ownerOf r.(pg).(db) p.
Proof.
  intros [->|[b ->]]%EvaluateBatch_store; [done|].
  unfold ownerOf. f_equal. apply (f_equal (fun m => m !! p)). apply (frames_call leases), frames_CommitRuntimeBatch.
Qed.

Lemma keyHome e k : length e.(partitions) = Z.to_nat DefaultPartitions -> PartitionForKey e k = partitionOfKey k.
Proof. intros H. apply PartitionForKey_length. by rewrite H. Qed.

Lemma batchHome_length e e' pid b :
  length e'.(partitions) = length e.(partitions) -> batchHome e pid b -> batchHome e' pid b.
Proof.
  intros Hl (H1 & H2 & H3). repeat split; intros k; rewrite (PartitionForKey_length e e') by done; auto.
Qed.

(** The checkpoint of another partition, for any worker. *)
Lemma commit_elsewhere e0 (r r' : Deployment) pid b alerts p :
  batchHome e0 pid b -> Store.CommitRuntimeBatch (batchOf pid b) r = (Ok alerts, r') -> p <> pid ->
  loadSeries e0 (runtimeOf r') p (partitionRuntime.mk ∅ ∅) ≡ loadSeries e0 (runtimeOf r) p (partitionRuntime.mk ∅ ∅).
Proof.
  intros Hb Hc Hne. rewrite (loadSeries_equiv _ _ _ _ (commit_ok _ _ _ _ Hc)).
  by rewrite <- (others_synced e0 r pid p b).
Qed.

Lemma homed_commit e (r r' : Deployment) pid b alerts :
  length e.(partitions) = Z.to_nat DefaultPartitions -> batchHome e pid b ->
  Store.CommitRuntimeBatch (batchOf pid b) r = (Ok alerts, r') -> homed r -> homed r'.
Proof.
  intros Hl (H1 & H2 & _) Hc [Hs Hd]. pose proof (commit_ok _ _ _ _ Hc) as Hrt.
  pose proof (commit_home _ _ _ _ Hc) as (C1 & C2 & C3 & C4). split; intros k Hk.
  - rewrite (equiv_is_Some _ _ (proj1 Hrt k)), commit_series in Hk. cbn [RuntimeBatch.SeriesStates batchOf] in Hk.
    destruct (b.(Batch.seriesStates) !! k) as [st|] eqn:E.
    + rewrite <- (keyHome e), (H1 k) by eauto. apply C1. simpl. rewrite E. eauto.
    + apply C2; [by apply Hs|done].
  - rewrite (proj2 Hrt), commit_definitions in Hk. cbn [RuntimeBatch.DefinitionStates batchOf] in Hk.
    destruct (b.(Batch.definitionStates) !! k) as [st|] eqn:E.
    + rewrite <- (keyHome e), (H2 k) by eauto. apply C3. simpl. rewrite E. eauto.
    + apply C4; [|done]. apply Hd. case_decide; [by destruct Hk|done].
Qed.

Lemma owns_same e e' p :
  e'.(workerIndex) = e.(workerIndex) -> e'.(workerCount) = e.(workerCount) -> owns e' p = owns e p.
Proof. unfold owns. by intros -> ->. Qed.

Lemma evaluate_inStep s id e now pid obs res e' r :
  s.(engines) !! id = Some e -> Forall (fun o => seriesKeyOk o.(Observation.Series)) obs ->
  ownerOf (tables s) pid = Some id -> EvaluateBatch now pid obs e s.(store) = (res, e', r) -> res <> Panic ->
  inStep s -> inStep (mk r (<[id := e']> s.(engines))).
Proof.
  intros He Hobs Hown Hev Hnp [Hh Hc]. destruct (Hc id e He) as [Hi Hl Hp].
  pose proof Hev as (Hroute & Hlen & Hwi & Hwc)%EvaluateBatch_index.
  assert (forall p, ownerOf r.(pg).(db) p = ownerOf (tables s) p) as Howner
    by (intros p; by eapply EvaluateBatch_owners).
  destruct (EvaluateBatch_effect _ _ _ _ _ _ _ _ Hi Hobs Hev Hnp)
    as [(Hpp & Hrt & Hh1 & Hh2)|(partition & b & alerts & Hr & Ho & Hpart & Hb & Hpp & Hcommit)].
  - split; simpl.
    + destruct Hh as [Hs Hd]. split; intros k; rewrite Hrt; intros ?; [apply Hh1|apply Hh2]; auto.
    + intros id0 e0. rewrite lookup_insert. case_decide as Hid; [intros [= <-]; subst id0|]; intros.
      * split; [by eapply indexOk_byRoute|congruence|]. intros p part Hown' Hid. rewrite Hpp, Hrt. intros Hlk.
        rewrite (loadSeries_ext e) by congruence. apply Hp; [|by rewrite Howner in Hid|done].
        by rewrite <- (owns_same e e').
      * destruct (Hc id0 e0) as [Hi0 Hl0 Hp0]; [done|]. split; [done|done|]. intros p part. rewrite Howner, Hrt. apply Hp0.
  - unfold inRange in Hr. split; simpl; [by eapply homed_commit|].
    intros id0 e0. rewrite lookup_insert. case_decide as Hid; [intros [= <-]; subst id0|intros He0].
    + split; [by eapply indexOk_byRoute|congruence|]. intros p part Hown' Hid. rewrite Hpp. intros Hlk.
      rewrite (loadSeries_ext e) by congruence.
      destruct (decide (p = Z.to_nat pid)) as [->|Hne].
      * rewrite list_lookup_insert_eq in Hlk by (by eapply lookup_lt_Some). injection Hlk as <-. rewrite Z2Nat.id by lia.
        rewrite (loadSeries_equiv _ _ _ _ (commit_ok _ _ _ _ Hcommit)). apply advance_synced; [done|done|].
        pose proof (Hp (Z.to_nat pid) partition) as Heq. rewrite Z2Nat.id in Heq by lia. by apply Heq.
      * rewrite list_lookup_insert_ne in Hlk by done.
        rewrite (commit_elsewhere e s.(store) r pid b alerts) by (try done; lia).
        apply Hp; [|by rewrite Howner in Hid|done]. by rewrite <- (owns_same e e').
    + destruct (Hc id0 e0 He0) as [Hi0 Hl0 Hp0]. split; [done|done|]. intros p part Hown' Hid'. rewrite Howner in Hid'.
      intros Hlk. rewrite (commit_elsewhere e0 s.(store) r pid b alerts); [by apply Hp0| |done|].
      * eapply batchHome_length; [|exact Hb]. congruence.
      * intros Hpid. subst pid. congruence.
Qed.

Lemma load_current (r : Deployment) id env t index count e :
  homed r -> indexOk e -> Initialize env t (NewWithOwnership DefaultPartitions index count) r = (Ok (), e) ->
  current r id e.
Proof.
  intros [Hs Hd] Hi Hin. set (e0 := NewWithOwnership _ _ _) in Hin.
  assert (length e0.(partitions) = Z.to_nat DefaultPartitions) as Hl0 by (vm_compute; reflexivity).
  assert (fresh e0) as Hf by apply new_fresh.
  assert (loadable e0 r) as Hload.
  { split; [intros k _ Hk; rewrite keyHome by done; by apply Hs|intros k p _ Hk; subst p; rewrite keyHome by done; by apply Hd]. }
  pose proof (Initialize_synced _ _ _ _ _ Hf Hload Hin) as [S1 _ _].
  apply Initialize_Ok in Hin as (snap & _ & Hp & _). split; [done|by rewrite Hp, length_imap|].
  intros p part _ _. apply S1.
Qed.

Lemma step_inStep s s' : step true s s' -> inStep s -> inStep s'.
Proof.
  intros Hstep Hin. pose proof Hin as [Hh Hc]. destruct Hstep as
    [r Hdb _|r Hcall|id ps ttl Hnew|id env t index count e Hnew Hinit Hi Hown|id ps ttl|id e now pid obs res e' r He Hobs Hown Hev Hnp
    |id e e' He Hi Hp Hwi Hwc|id|id].
  - apply inStep_frame; [by rewrite Hdb| |done]. intros id p _. by rewrite Hdb.
  - pose proof (serviceCall_shared _ _ Hcall) as Hs. pose proof (f_equal fst Hs) as Hst. pose proof (f_equal snd Hs) as Hl.
    simpl in Hst, Hl. apply inStep_frame; [done| |done]. intros id p _. unfold ownerOf, tables. by rewrite Hl.
  - apply inStep_frame; [apply (frames_call states), frames_AcquirePartitions| |done]. intros id0 p [e He] H.
    destruct (gains_AcquirePartitions id ps ttl s.(store) p) as [Hg|Hg]; rewrite Hg in H; [|done]. by simplify_eq.
  - split; [done|]. simpl. intros id0 e0. rewrite lookup_insert. case_decide; [intros [= <-]; subst|apply Hc].
    by eapply load_current.
  - apply inStep_frame; [apply (frames_call states), frames_RenewPartitions| |done]. intros id0 p _.
    by rewrite RenewPartitions_owners.
  - eapply evaluate_inStep; eauto.
  - split; [done|]. simpl. intros id0 e0. rewrite lookup_insert. case_decide; [intros [= <-]; subst|apply Hc].
    destruct (Hc _ _ He) as [_ Hl Hcur]. split; [done|congruence|]. intros p part Ho Hid. rewrite Hp. intros Hlk.
    rewrite (loadSeries_ext e) by congruence. apply Hcur; [by rewrite <- (owns_same e e')|done|done].
  - split; [done|]. simpl. intros id0 e0 He. rewrite lookup_delete in He. case_decide; [done|by apply Hc].
  - apply inStep_frame; [apply (frames_call states), frames_ReleasePartitions| |done]. intros id0 p _ H.
    destruct (ReleasePartitions_owners id s.(store) p) as [Hr|Hr]; cbn zeta in Hr; rewrite Hr in H; [done|discriminate].
Qed.

Lemma steps_inStep s s' : rtc (step true) s s' -> inStep s -> inStep s'.
Proof. induction 1; eauto using step_inStep. Qed.

(** C7: workers that respect the leases do not disturb each other. Take any
    number of workers on one database that start, acquire and renew leases,
    evaluate batches, crash and stop in any order and interleaving, while
    definitions change, alerts are published and the tables are maintained; if
    every batch is evaluated by the recorded owner of its partition, then at
    every moment each worker's memory of each partition it owns is the
    checkpoint of it in the database. So whoever takes a partition over, after
    a crash or an expired lease, goes on from where its last owner was. Two
    conditions: no observation has a slash in its data set or symbol, since
    the state of BTC/USDT, which the code accepts, is lost when a worker starts
    ([slashed_symbol_loses_state]); and no answer of the database is lost, that
    is, a call that returns an error has changed nothing, also a commit. *)
Theorem owners_in_step (r : Deployment) (s : Cluster) (id : string) (e : Engine) (p : nat)
  (partition : partitionRuntime) :
  homed r -> rtc (step true) (mk r ∅) s ->
  s.(engines) !! id = Some e -> e.(partitions) !! p = Some partition ->
  owns e (Z.of_nat p) = true -> ownerOf (tables s) (Z.of_nat p) = Some id ->
  partition ≡ loadSeries e (runtimeOf s.(store)) (Z.of_nat p) (partitionRuntime.mk ∅ ∅).
Proof.
  intros Hr Hsteps He Hp Ho Hown. assert (inStep s) as [_ Hc].
  { eapply steps_inStep; [exact Hsteps|].
    split; [done|]. simpl. intros id0 e0 H0. by rewrite lookup_empty in H0. }
  by apply (Hc id e He).
Qed.

(** ** Two workers on one partition *)

Module Takeover.
(** A worker of 256, the one of partition 142, where BTCUSDT is. *)
Definition fresh142 : Engine := NewWithOwnership DefaultPartitions 142 256.
Definition ttl : Duration := 15 * Second.

Definition clockAt (t : Time) : Server := Server.mk t (fun _ => None) [] [].
Lemma clockAt_reliable t : reliable (clockAt t).
Proof. intros n message. discriminate. Qed.
(** The same database at another time. *)
Definition later (t : Time) (r : Deployment) : Deployment :=
  {| pg := Postgres.mk r.(pg).(db) (clockAt t); pg_reliable := clockAt_reliable t; pg_kept := r.(pg_kept) |}.

Definition acquire (id : string) (r : Deployment) : Deployment := (StoreAcquirePartitions id [142%Z] ttl r).2.
Definition load (r : Deployment) : Engine := (Initialize oneEnv 1 fresh142 r).2.
Definition evaluates (n : nat) (e : Engine) (r : Deployment) := EvaluateBatch Fixtures.start 142 (redBars n) e r.

(** The fifth red bar in a row. *)
Definition fifthRed : AlertDefinition :=
  AlertDefinition.mk pgID 1 "sha256:fifth" "fifth red" true btc (redStreak 5) "confirmed_close" "every_match" 0
    (Fixtures.start - Hour) (Fixtures.start - Hour) (Fixtures.start - Hour).

(** The first worker evaluates two bars, and its lease expires. The second
    takes the partition over, and evaluates the bars up to the fourth. *)
Definition defined : Deployment := (StoreCreateDefinition fifthRed emptyStore).2.
Definition claimed : Deployment := acquire "first" defined.
Definition first2 := evaluates 2 (load claimed) claimed.
Definition expired : Deployment := later (Fixtures.start + 2 * Hour) first2.2.
Definition taken : Deployment := acquire "second" expired.
Definition second4 := evaluates 4 (load taken) taken.
(** The first one goes on with the bar it had fetched. *)
Definition stalled := evaluates 3 first2.1.2 second4.2.

Definition running (first second : Engine) (r : Deployment) : Cluster := mk r (<["second" := second]> (<["first" := first]> ∅)).

Lemma index_ok e : e.(byRoute) = (engineWith [fifthRed]).(byRoute) -> indexOk e.
Proof. intros H. apply (indexOk_byRoute (engineWith [fifthRed])); [done|]. apply engineWith_one; reflexivity. Qed.

Lemma own142 e p : e.(workerIndex) = 142%Z -> e.(workerCount) = 256%Z -> length e.(partitions) = 256 ->
  p ∈ ownedPartitions e -> p = 142%Z.
Proof.
  intros Hi Hc Hl. rewrite elem_ownedPartitions. unfold inRange, partitionCountOf, owns. rewrite Hl, Hi, Hc.
  simpl. intros [Hr Ho%Z.eqb_eq]. rewrite Z.rem_small in Ho by lia. done.
Qed.

Lemma load_eq r : (Initialize oneEnv 1 fresh142 r).1 = Ok () -> Initialize oneEnv 1 fresh142 r = (Ok (), load r).
Proof. apply Initialize_eq. Qed.

Lemma evaluate_eq n e r : evaluates n e r = ((evaluates n e r).1.1, (evaluates n e r).1.2, (evaluates n e r).2).
Proof. by destruct (evaluates n e r) as [[]]. Qed.

Lemma bars_ok n : Forall (fun o => seriesKeyOk o.(Observation.Series)) (redBars n).
Proof. eapply Forall_impl; [apply redBars_ok|]. by intros o [Ho _]. Qed.

Lemma defined_step fenced : step fenced (mk emptyStore ∅) (mk defined ∅).
Proof. apply step_service, call_create. Qed.

Lemma time_step fenced t r engines :
  (sqlNow r.(pg).(server) <=? sqlNow (clockAt t))%Z = true -> step fenced (mk r engines) (mk (later t r) engines).
Proof. intros H%Z.leb_le. by apply (step_time fenced (mk r engines)). Qed.

Lemma acquire_step fenced id r engines :
  engines !! id = None -> step fenced (mk r engines) (mk (acquire id r) engines).
Proof. intros. by apply (step_acquire fenced (mk r engines) id [142%Z] ttl). Qed.

Lemma load_step fenced id r engines :
  engines !! id = None -> (Initialize oneEnv 1 fresh142 r).1 = Ok () ->
  (load r).(byRoute) = (engineWith [fifthRed]).(byRoute) -> ownerOf r.(pg).(db) 142 = Some id ->
  step fenced (mk r engines) (mk r (<[id := load r]> engines)).
Proof.
  intros Hid Hok Hr Hown. pose proof (load_eq r Hok) as Hin.
  apply (step_load fenced (mk r engines) id oneEnv 1 142 256 (load r)); [done|done|by apply index_ok|].
  pose proof (Initialize_Ok _ _ _ _ _ Hin) as (snap & _ & Hp & Hi & Hc).
  intros p ->%own142; [done|by rewrite Hi|by rewrite Hc|]. rewrite Hp, length_imap. vm_compute. reflexivity.
Qed.

Lemma evaluate_step fenced id n e r engines :
  engines !! id = Some e -> (fenced = true -> ownerOf r.(pg).(db) 142 = Some id) ->
  (if (evaluates n e r).1.1 is Ok _ then true else false) = true ->
  step fenced (mk r engines) (mk (evaluates n e r).2 (<[id := (evaluates n e r).1.2]> engines)).
Proof.
  intros He Ho Hp. apply (step_evaluate fenced (mk r engines) id e Fixtures.start 142 (redBars n) _ _ _ He
    (bars_ok n) Ho (evaluate_eq n e r)). intros Hres. by rewrite Hres in Hp.
Qed.

(** Up to the second worker's batch, every batch is the owner's. *)
Lemma taken_over fenced :
  rtc (step fenced) (mk emptyStore ∅) (running first2.1.2 second4.1.2 second4.2).
Proof.
  unfold running, second4, taken, expired, first2, claimed. eapply rtc_l; [apply defined_step|].
  eapply rtc_l; [apply (acquire_step fenced "first"), lookup_empty|].
  eapply rtc_l; [apply (load_step fenced "first"); [apply lookup_empty|vm_compute; reflexivity..]|].
  eapply rtc_l.
  { apply (evaluate_step fenced "first" 2); [apply lookup_insert_eq|intros _|]; vm_compute; reflexivity. }
  rewrite insert_insert_eq.
  eapply rtc_l; [apply (time_step fenced (Fixtures.start + 2 * Hour)); vm_compute; reflexivity|].
  eapply rtc_l; [apply (acquire_step fenced "second"); by rewrite lookup_insert_ne|].
  eapply rtc_l; [apply (load_step fenced "second"); [by rewrite lookup_insert_ne|vm_compute; reflexivity..]|].
  eapply rtc_l.
  { apply (evaluate_step fenced "second" 4); [apply lookup_insert_eq|intros _|]; vm_compute; reflexivity. }
  rewrite insert_insert_eq. apply rtc_refl.
Qed.

Lemma empty_homed : homed emptyStore.
Proof. split; intros k [x Hx]; vm_compute in Hx; discriminate Hx. Qed.

(** The open time of the last bar a partition, or a checkpoint, has of BTCUSDT. *)
Definition lastBar (p : partitionRuntime) : option Time :=
  SeriesEvaluationState.LastOpenTime <$> p.(partitionRuntime.series) !! Series.Key btc.

#[export] Instance lastBar_equiv : Proper ((≡) ==> (=)) lastBar.
Proof.
  intros p q [Hs _]. unfold lastBar. specialize (Hs (Series.Key btc)). destruct Hs as [st st' Hst|]; [|done].
  simpl. f_equal. by apply (f_equal SeriesEvaluationState.LastOpenTime) in Hst.
Qed.

Lemma running_first first second first' r :
  mk r (<["first" := first']> (running first second r).(engines)) = running first' second r.
Proof. reflexivity. Qed.

Lemma stalled_step : step false (running first2.1.2 second4.1.2 second4.2) (running stalled.1.2 second4.1.2 stalled.2).
Proof.
  rewrite <- (running_first first2.1.2). unfold stalled.
  apply (evaluate_step false "first" 3 first2.1.2 second4.2 (running first2.1.2 second4.1.2 stalled.2).(engines)).
  - unfold running. cbn [engines]. rewrite lookup_insert_ne by discriminate. apply lookup_insert_eq.
  - discriminate.
  - vm_compute. reflexivity.
Qed.
End Takeover.
Import Takeover.

Lemma owners_in_step_witness :
  let s := running first2.1.2 second4.1.2 second4.2 in
  exists partition, second4.1.2.(partitions) !! 142 = Some partition /\ lastBar partition = Some (minutes 3) /\
    partition ≡ loadSeries second4.1.2 (runtimeOf s.(store)) (Z.of_nat 142) (partitionRuntime.mk ∅ ∅).
Proof.
  intros s. destruct (second4.1.2.(partitions) !! 142) as [partition|] eqn:E.
  2:{ apply (f_equal (fun x => match x with Some _ => true | None => false end)) in E. vm_compute in E. discriminate E. }
  exists partition. split; [reflexivity|split].
  - apply (f_equal (fmap lastBar)) in E. apply (inj Some), (eq_trans (eq_sym E)). vm_compute. reflexivity.
  - apply (owners_in_step emptyStore s "second" second4.1.2 142 partition).
    + exact empty_homed.
    + apply taken_over.
    + unfold s, running. apply lookup_insert_eq.
    + exact E.
    + vm_compute. reflexivity.
    + vm_compute. reflexivity.
Defined.

(** Without that, a batch of a worker whose lease expired is committed all the
    same, and takes the checkpoint back: the owner's memory is ahead of it. *)
Theorem expired_owner_overwrites :
  let s := running stalled.1.2 second4.1.2 stalled.2 in
  rtc (step false) (mk emptyStore ∅) s /\
  s.(engines) !! "second" = Some second4.1.2 /\ owns second4.1.2 142 = true /\ ownerOf (tables s) 142 = Some "second" /\
  forall partition, second4.1.2.(partitions) !! 142 = Some partition ->
    ~ partition ≡ loadSeries second4.1.2 (runtimeOf s.(store)) 142 (partitionRuntime.mk ∅ ∅).
Proof.
  split; [|split; [|split; [|split]]].
  - eapply rtc_r; [apply taken_over|apply stalled_step].
  - apply lookup_insert_eq.
  - vm_compute. reflexivity.
  - vm_compute. reflexivity.
  - intros partition E Heq%lastBar_equiv. apply (f_equal (fmap lastBar)) in E.
    pose proof (eq_trans E (f_equal Some Heq)) as Hbar. vm_compute in Hbar. discriminate Hbar.
Qed.
