(* ===== verification/Flags.v ===== *)
(** * The package flag

    What the commands' command lines go through: the arguments as [FlagSet]
    reads them, and the values of flags of the four kinds the commands use,
    with the parsers of strconv they need. *)

From stdpp Require Import base gmap strings list numbers pretty.
From Stdlib Require Import Ascii.
From S2P Require Import Prelude GoFloat GoBase GoTime.

(** ** [strconv.ParseInt(s, 0, 64)] and [strconv.ParseBool] *)

Definition lowerByte (c : Z) : Z := Z.lor c 32.
Definition digitOf (c : Z) : option Z :=
  if isDigit c then Some (c - 48)%Z
  else if ((97 <=? lowerByte c) && (lowerByte c <=? 122))%Z then Some (lowerByte c - 87)%Z else None.

(** The prefix of a literal, with its base, and the digits that follow. *)
Definition literalBase (l : list Z) : Z * list Z :=
  match l with
  | 48%Z :: c :: d :: rest =>
      if (lowerByte c =? 98)%Z then (2%Z, d :: rest)
      else if (lowerByte c =? 111)%Z then (8%Z, d :: rest)
      else if (lowerByte c =? 120)%Z then (16%Z, d :: rest)
      else (8%Z, c :: d :: rest)
  | 48%Z :: rest => (8%Z, rest)
  | _ => (10%Z, l)
  end.

(** The value of digits between which underscores are skipped. *)
Fixpoint literalValue (base acc : Z) (l : list Z) : option Z :=
  match l with
  | [] => Some acc
  | c :: rest =>
      if (c =? 95)%Z then literalValue base acc rest
      else match digitOf c with
           | Some d => if (d <? base)%Z then literalValue base (acc * base + d)%Z rest else None
           | None => None
           end
  end.

(** [underscoreOK]: what was seen before. *)
Inductive Seen := SeenNothing | SeenDigit | SeenUnderscore | SeenOther.
#[export] Instance Seen_eq_dec : EqDecision Seen.
Proof. solve_decision. Defined.
Fixpoint underscores (hex : bool) (seen : Seen) (l : list Z) : bool :=
  match l with
  | [] => negb (bool_decide (seen = SeenUnderscore))
  | c :: rest =>
      if isDigit c || hex && ((97 <=? lowerByte c) && (lowerByte c <=? 102))%Z then underscores hex SeenDigit rest
      else if (c =? 95)%Z then if decide (seen = SeenDigit) then underscores hex SeenUnderscore rest else false
      else if decide (seen = SeenUnderscore) then false else underscores hex SeenOther rest
  end.
Definition underscoreOK (l : list Z) : bool :=
  match l with
  | 48%Z :: c :: rest =>
      if bool_decide (lowerByte c ∈ [98; 111; 120]%Z) then underscores (lowerByte c =? 120)%Z SeenDigit rest
      else underscores false SeenNothing l
  | _ => underscores false SeenNothing l
  end.

Definition parseInt0 (s : string) : option Z :=
  let '(neg, l) := splitSign (bytesOf s) in
  match l with
  | [] => None
  | _ =>
      let '(base, digits) := literalBase l in
      v ← literalValue base 0 digits;
      if negb (underscoreOK l) then None else
      let v := (if neg : bool then - v else v)%Z in
      if ((minInt64 <=? v) && (v <=? maxInt64))%Z then Some v else None
  end.

Example int_plain : parseInt0 "25" = Some 25%Z.
Proof. reflexivity. Qed.
Example int_hex : parseInt0 "-0x_1F" = Some (-31)%Z.
Proof. reflexivity. Qed.
Example int_octal : (parseInt0 "0_17", parseInt0 "017", parseInt0 "0") = (Some 15, Some 15, Some 0)%Z.
Proof. reflexivity. Qed.
Example int_wrong : (parseInt0 "1__0", parseInt0 "0x", parseInt0 "_1", parseInt0 "9223372036854775808", parseInt0 "08")
  = (None, None, None, None, None).
Proof. vm_compute. reflexivity. Qed.

Definition parseBool (s : string) : option bool :=
  if bool_decide (s ∈ ["1"; "t"; "T"; "TRUE"; "true"; "True"]) then Some true
  else if bool_decide (s ∈ ["0"; "f"; "F"; "FALSE"; "false"; "False"]) then Some false else None.

(** ** Flags *)

Inductive Kind := StringFlag | IntFlag | DurationFlag | BoolFlag.

(** What [Set] of a value of the kind accepts. *)
Definition accepts (kind : Kind) (text : string) : bool :=
  match kind with
  | StringFlag => true
  | IntFlag => bool_decide (is_Some (parseInt0 text))
  | DurationFlag => bool_decide (is_Some (ParseDuration text))
  | BoolFlag => bool_decide (is_Some (parseBool text))
  end.

Inductive FlagError :=
| ErrBadSyntax (arg : string)
| ErrNotDefined (name : string)
| ErrHelp
| ErrNeedsArgument (name : string)
| ErrInvalidValue (name value : string).

(** An argument as [parseOne] reads it. *)
Inductive Argument :=
| Positional
| Terminator
| BadFlag
| Flag (name : string) (value : option string).

Definition readArgument (s : string) : Argument :=
  let flag (name : string) : Argument :=
    match name with
    | "" => BadFlag
    | String first _ =>
        if decide (first = "-"%char \/ first = "="%char) then BadFlag else
        let '(name, value, found) := cut "="%char name in Flag name (if found : bool then Some value else None)
    end in
  match s with
  | String "-" (String "-" "") => Terminator
  | String "-" "" => Positional
  | String "-" (String "-" name) => flag name
  | String "-" name => flag name
  | _ => Positional
  end.

(** The kind of a flag, by its name. *)
Definition kindOf (formal : list (string * Kind)) (name : string) : option Kind :=
  snd <$> head (filter (fun flag => flag.1 = name) formal).

(** [FlagSet.Parse] on the flags [formal]: the texts of the values set, over
    the defaults, and the positional arguments. A boolean flag takes no
    argument of its own. *)
Fixpoint parseFlags (formal : list (string * Kind)) (values : gmap string string) (args : list string)
  : FlagError + (gmap string string * list string) :=
  match args with
  | [] => inr (values, [])
  | s :: rest =>
      let set (kind : Kind) (name value : string) (rest : list string) :=
        if accepts kind value then parseFlags formal (<[name := value]> values) rest
        else inl (ErrInvalidValue name value) in
      match readArgument s with
      | Positional => inr (values, args)
      | Terminator => inr (values, rest)
      | BadFlag => inl (ErrBadSyntax s)
      | Flag name value =>
          match kindOf formal name, value with
          | None, _ => inl (if (name == "help") || (name == "h") then ErrHelp else ErrNotDefined name)
          | Some kind, Some value => set kind name value rest
          | Some BoolFlag, None => set BoolFlag name "true" rest
          | Some kind, None =>
              match rest with
              | value :: rest => set kind name value rest
              | [] => inl (ErrNeedsArgument name)
              end
          end
      end
  end.

Definition strings (names : list string) : list (string * Kind) := (fun name => (name, StringFlag)) <$> names.

Example flags_both :
  parseFlags (strings ["out"; "api-url"]) ∅ ["-out=a=b"; "--api-url"; "-x"; "--"; "-y"]
  = inr (<["api-url" := "-x"]> (<["out" := "a=b"]> ∅), ["-y"]).
Proof. vm_compute. reflexivity. Qed.
Example flags_help : parseFlags (strings ["out"]) ∅ ["-out"; "x"; "-h"] = inl ErrHelp.
Proof. vm_compute. reflexivity. Qed.
Example flags_missing : parseFlags (strings ["out"]) ∅ ["--out"] = inl (ErrNeedsArgument "out").
Proof. vm_compute. reflexivity. Qed.
Example flags_kinds :
  parseFlags [("json", BoolFlag); ("max-events", IntFlag); ("timeout", DurationFlag)] ∅
    ["-json"; "-max-events"; "0x10"; "-timeout=90s"; "x"]
  = inr (<["timeout" := "90s"]> (<["max-events" := "0x10"]> (<["json" := "true"]> ∅)), ["x"]).
Proof. vm_compute. reflexivity. Qed.
Example flags_invalid : parseFlags [("json", BoolFlag)] ∅ ["-json=yes"] = inl (ErrInvalidValue "json" "yes").
Proof. vm_compute. reflexivity. Qed.
