(* ===== verification/DefinitionFile.v ===== *)
(** * internal/definitionfile/definitionfile.go: manifests of definitions

    Manifests, their order and their validation, and the client that exports
    and imports them over the HTTP API. net/http is the class [Transport];
    what a manifest file or a response decodes to is given as a value. *)

From stdpp Require Import base gmap strings list numbers pretty sorting.
From Stdlib Require Import Ascii.
From S2P Require Import Prelude GoFloat GoBase GoTime Model Json Rules RulesValid Store Service Api.

Definition Schema : string := "alerts.definitions.v1".

Module Definition_.
Record Definition_ := mk {
  Name : string; Enabled : option bool; Series : Model.Series; Rule : Model.Rule; EvaluationMode : string;
  TriggerMode : string; CooldownSeconds : Z }.
End Definition_.
Abbreviation Definition_ := Definition_.Definition_.

Definition enabled (d : Definition_) : bool := default true d.(Definition_.Enabled).

Module Manifest.
Record Manifest := mk { Schema : string; Definitions : list Definition_ }.
End Manifest.
Abbreviation Manifest := Manifest.Manifest.

(** ** Order *)

(** The bytes of the key; an error of [json.Marshal] leaves no rule. *)
Definition definitionSortKey (d : Definition_) : list Z :=
  bytesOf (d.(Definition_.Series).(Series.Dataset) +:+ nul +:+ d.(Definition_.Series).(Series.Symbol) +:+ nul
           +:+ d.(Definition_.Series).(Series.Timeframe) +:+ nul +:+ d.(Definition_.Name) +:+ nul)
  ++ default [] (encodeRule d.(Definition_.Rule)).

(** [a < b] on strings. *)
Fixpoint bytesLt (a b : list Z) : bool :=
  match a, b with
  | _, [] => false
  | [], _ :: _ => true
  | x :: a, y :: b => (x <? y)%Z || (x =? y)%Z && bytesLt a b
  end.

(** [sort.SliceStable] by a key: an element goes before the first that is not
    less. *)
Fixpoint insertStable (x : Definition_) (l : list Definition_) : list Definition_ :=
  match l with
  | [] => [x]
  | y :: rest => if bytesLt (definitionSortKey y) (definitionSortKey x) then y :: insertStable x rest else x :: l
  end.
Definition sortStable (l : list Definition_) : list Definition_ := foldr insertStable [] l.

Definition portable (d : AlertDefinition) : Definition_ :=
  Definition_.mk d.(AlertDefinition.Name) (Some d.(AlertDefinition.Enabled)) d.(AlertDefinition.Series)
    d.(AlertDefinition.Rule) d.(AlertDefinition.EvaluationMode) d.(AlertDefinition.TriggerMode)
    d.(AlertDefinition.CooldownSeconds).

Definition New (definitions : list AlertDefinition) : Manifest :=
  Manifest.mk Schema (sortStable (portable <$> definitions)).

(** ** Validation *)

(** The errors of [Client.do]. *)
Inductive ClientError :=
| ErrURL (url : string)
| ErrEncodeRequest
| ErrExchange (text : string)
| ErrStatus (status : Z)
| ErrDecodeResponse (text : string).

Inductive ManifestError :=
| ErrSchema
| ErrNames (index : nat)
| ErrNegativeCooldown (index : nat) (name : string)
| ErrMode (index : nat) (name : string)
| ErrTrigger (index : nat) (name : string)
| ErrManifestRule (index : nat) (name : string) (err : RuleError)
| ErrIntrabar (index : nat) (name : string)
| ErrDecode (text : string)
| ErrMultiple
| ErrEncode
| ErrImport (index : nat) (name : string) (err : ClientError)
| ErrPatch (index : nat) (name : string) (err : ClientError)
| ErrRequest (err : ClientError).

Definition validateDefinition (index : nat) (d : Definition_) : option ManifestError :=
  let name := d.(Definition_.Name) in
  let mode := d.(Definition_.EvaluationMode) in
  let trigger := d.(Definition_.TriggerMode) in
  if (name == "") || (d.(Definition_.Series).(Series.Symbol) == "") || (d.(Definition_.Series).(Series.Timeframe) == "")
  then Some (ErrNames index)
  else if (d.(Definition_.CooldownSeconds) <? 0)%Z then Some (ErrNegativeCooldown index name)
  else if (mode != "") && (mode != "confirmed_close") && (mode != "intrabar") && (mode != "both")
  then Some (ErrMode index name)
  else if (trigger != "") && (trigger != "on_occurrence") && (trigger != "once_per_bar") && (trigger != "every_match")
  then Some (ErrTrigger index name)
  else match Rules.Validate d.(Definition_.Rule) with
  | Some err => Some (ErrManifestRule index name err)
  | None => if RequiresIntrabar d.(Definition_.Rule) && ((mode == "") || (mode == "confirmed_close"))
            then Some (ErrIntrabar index name) else None
  end.

(** The loop, with the index of the next definition counted from one. *)
Fixpoint validateDefinitions (index : nat) (l : list Definition_) : option ManifestError :=
  match l with
  | [] => None
  | d :: rest => match validateDefinition index d with Some err => Some err | None => validateDefinitions (S index) rest end
  end.

Definition Validate (m : Manifest) : option ManifestError :=
  if m.(Manifest.Schema) != Schema then Some ErrSchema else validateDefinitions 1 m.(Manifest.Definitions).

(** [Decode] of a file whose first JSON value decodes to [decoded], and which
    has more after it or not. *)
Definition Decode (decoded : string + Manifest) (more : bool) : ManifestError + Manifest :=
  match decoded with
  | inl text => inl (ErrDecode text)
  | inr m => if more then inl ErrMultiple else match Validate m with Some err => inl err | None => inr m end
  end.

(** [Encode]: what it writes, as the value that is encoded. *)
Definition Encode (m : Manifest) : ManifestError + Manifest :=
  match Validate m with
  | Some err => inl err
  | None => if forallb (fun d => bool_decide (is_Some (encodeRule d.(Definition_.Rule)))) m.(Manifest.Definitions)
            then inr m else inl ErrEncode
  end.

(** ** The client *)

(** A request with its method, path and body, and what the response decodes
    to. *)
Inductive ApiRequest :=
| ExportRequest
| CreateDefinitionRequest (request : createRequest)
| EnableRequest (id : string) (enabled : bool).
Inductive ApiResponse := DefinitionsResponse (l : list AlertDefinition) | DefinitionResponse (d : AlertDefinition).

(** [http.Client.Do] on a request to a base URL, with a header
    [Authorization]: an error, or the status and what decoding the body gives.
    The time limit of thirty seconds is one of the errors. *)
Class Transport (W : Type) := {
  send : string -> string -> ApiRequest -> W -> (string + (Z * (string + ApiResponse))) * W }.

Module Client.
Record Client := mk { BaseURL : string; Token : string }.
End Client.
Abbreviation Client := Client.Client.

(** [strings.TrimRight(s, "/")]. *)
Fixpoint trimSlashes (s : string) : string :=
  match s with
  | "" => ""
  | String c rest =>
      match trimSlashes rest with
      | "" => if decide (c = "/"%char) then "" else String c ""
      | rest => String c rest
      end
  end.

(** json.Marshal on the body: only the numbers of a rule can be refused. *)
Definition encodable (request : ApiRequest) : bool :=
  match request with
  | CreateDefinitionRequest request => bool_decide (is_Some (encodeRule request.(createRequest.Rule)))
  | ExportRequest | EnableRequest _ _ => true
  end.

Module ImportResult.
Record ImportResult := mk {
  Created : Z; Existing : Z; StateUpdated : Z; NameMismatches : list (string * string) }.
Definition zero : ImportResult := mk 0 0 0 [].
End ImportResult.
Abbreviation ImportResult := ImportResult.ImportResult.

(** [validURL]: [url.Parse] accepts the URL, its scheme is http or https and
    its host is not empty. *)
Section Client.
Context {W : Type} `{Transport W} (validURL : string -> bool) (c : Client).

Definition do_ (request : ApiRequest) (w : W) : (ClientError + (Z * ApiResponse)) * W :=
  let base := trimSlashes c.(Client.BaseURL) in
  if negb (validURL base) then (inl (ErrURL c.(Client.BaseURL)), w)
  else if negb (encodable request) then (inl ErrEncodeRequest, w) else
  let authorization := if c.(Client.Token) != "" then "Bearer " +:+ c.(Client.Token) else "" in
  match send base authorization request w with
  | (inl text, w') => (inl (ErrExchange text), w')
  | (inr (status, output), w') =>
      if (status <? 200)%Z || (status >=? 300)%Z then (inl (ErrStatus status), w') else
      match output with
      | inl text => (inl (ErrDecodeResponse text), w')
      | inr response => (inr (status, response), w')
      end
  end.

Definition Export (w : W) : (ManifestError + Manifest) * W :=
  match do_ ExportRequest w with
  | (inr (_, DefinitionsResponse l), w') => (inr (New l), w')
  | (inr (_, DefinitionResponse _), w') => (inr (New []), w')
  | (inl err, w') => (inl (ErrRequest err), w')
  end.

Definition requestOf (d : Definition_) : createRequest :=
  createRequest.mk d.(Definition_.Name) d.(Definition_.Series) d.(Definition_.Rule) d.(Definition_.EvaluationMode)
    d.(Definition_.TriggerMode) d.(Definition_.CooldownSeconds).

(** The output of a request that was asked for a definition. *)
Definition storedOf (response : ApiResponse) : AlertDefinition :=
  match response with DefinitionResponse d => d | DefinitionsResponse _ => AlertDefinition.zero end.

(** The counters after the answer to the creation. *)
Definition countStored (d : Definition_) (status : Z) (stored : AlertDefinition) (result : ImportResult) : ImportResult :=
  ImportResult.mk
    (if (status =? 201)%Z then result.(ImportResult.Created) + 1 else result.(ImportResult.Created))
    (if (status =? 201)%Z then result.(ImportResult.Existing) else result.(ImportResult.Existing) + 1)
    result.(ImportResult.StateUpdated)
    (if stored.(AlertDefinition.Name) != d.(Definition_.Name)
     then result.(ImportResult.NameMismatches) ++ [(d.(Definition_.Name), stored.(AlertDefinition.Name))]
     else result.(ImportResult.NameMismatches)).

Fixpoint importDefinitions (index : nat) (l : list Definition_) (result : ImportResult) (w : W)
  : ImportResult * option ManifestError * W :=
  match l with
  | [] => (result, None, w)
  | d :: rest =>
      match do_ (CreateDefinitionRequest (requestOf d)) w with
      | (inl err, w1) => (result, Some (ErrImport index d.(Definition_.Name) err), w1)
      | (inr (status, response), w1) =>
          let stored := storedOf response in
          let result := countStored d status stored result in
          if Bool.eqb stored.(AlertDefinition.Enabled) (enabled d) then importDefinitions (S index) rest result w1 else
          match do_ (EnableRequest stored.(AlertDefinition.ID) (enabled d)) w1 with
          | (inl err, w2) => (result, Some (ErrPatch index d.(Definition_.Name) err), w2)
          | (inr _, w2) =>
              importDefinitions (S index) rest
                (ImportResult.mk result.(ImportResult.Created) result.(ImportResult.Existing)
                   (result.(ImportResult.StateUpdated) + 1) result.(ImportResult.NameMismatches)) w2
          end
      end
  end.

Definition Import (m : Manifest) (w : W) : ImportResult * option ManifestError * W :=
  match Validate m with
  | Some err => (ImportResult.zero, Some err, w)
  | None => importDefinitions 1 m.(Manifest.Definitions) ImportResult.zero w
  end.
End Client.

(** ** Properties *)

(** The modes that [Create] fills in. *)
Definition defaulted (mode fallback : string) : string := if mode == "" then fallback else mode.

Lemma validateDefinition_checkCreate index (d : Definition_) :
  validateDefinition index d = None <->
  checkCreate d.(Definition_.Name) d.(Definition_.Series) d.(Definition_.Rule) d.(Definition_.EvaluationMode)
    d.(Definition_.TriggerMode) d.(Definition_.CooldownSeconds)
  = Ok (defaulted d.(Definition_.EvaluationMode) "confirmed_close", defaulted d.(Definition_.TriggerMode) "on_occurrence").
Proof.
  destruct d as [name en series rule mode trigger cooldown]. unfold validateDefinition, checkCreate, defaulted. simpl.
  destruct (_ || _ || _); [done|]. destruct (cooldown <? 0)%Z; [done|].
  destruct (String.eqb_spec mode "") as [->|Hm], (String.eqb_spec trigger "") as [->|Ht]; simpl;
    repeat (case_goal; try done); bool_norm; try done; congruence.
Qed.

Lemma validateDefinitions_None l : forall index,
  validateDefinitions index l = None <-> Forall (fun d => validateDefinition 0 d = None) l.
Proof.
  induction l as [|d l IH]; intros index; simpl; [done|]. rewrite Forall_cons, <- (IH (S index)).
  rewrite !validateDefinition_checkCreate, <- (validateDefinition_checkCreate index).
  destruct (validateDefinition index d); naive_solver.
Qed.

(** A manifest is valid exactly when the server would accept all of it:
    [Validate] passes if and only if the schema is right and the checks of
    [Create] pass for every definition, with the defaults for the modes left
    out. Importing a valid manifest is never refused as invalid, and nothing a
    server would accept is kept out of a manifest. *)
Theorem manifest_accepted (m : Manifest) :
  Validate m = None <->
  m.(Manifest.Schema) = Schema /\
  Forall (fun d => checkCreate d.(Definition_.Name) d.(Definition_.Series) d.(Definition_.Rule)
      d.(Definition_.EvaluationMode) d.(Definition_.TriggerMode) d.(Definition_.CooldownSeconds)
    = Ok (defaulted d.(Definition_.EvaluationMode) "confirmed_close",
          defaulted d.(Definition_.TriggerMode) "on_occurrence")) m.(Manifest.Definitions).
Proof.
  unfold Validate. destruct (String.eqb_spec m.(Manifest.Schema) Schema) as [E|E]; cbn [negb]; [|naive_solver].
  rewrite validateDefinitions_None. split.
  - intros H. split; [done|]. eapply Forall_impl; [exact H|]. intros d. apply validateDefinition_checkCreate.
  - intros [_ H]. eapply Forall_impl; [exact H|]. intros d. apply (validateDefinition_checkCreate 0).
Qed.

Lemma bytesLt_irrefl a : bytesLt a a = false.
Proof. induction a as [|x a IH]; simpl; [done|]. rewrite IH. rewrite andb_false_r, orb_false_r. lia. Qed.

Lemma bytesLt_trans a : forall b c, bytesLt a b = true -> bytesLt b c = true -> bytesLt a c = true.
Proof.
  induction a as [|x a IH]; intros [|y b] [|z c]; simpl; try done.
  rewrite !orb_true_iff, !andb_true_iff. intros [H1|[H1 H2]] [H3|[H3 H4]]; [left; lia..|right]. split; [lia|eauto].
Qed.

Lemma bytesLt_total a : forall b, bytesLt a b = false -> bytesLt b a = false -> a = b.
Proof.
  induction a as [|x a IH]; intros [|y b]; simpl; try done.
  rewrite !orb_false_iff, !andb_false_iff. intros [H1 H2] [H3 H4]. assert (x = y) as -> by lia.
  f_equal. apply IH; destruct H2, H4; try done; lia.
Qed.

(** Not after: the order of the sorted definitions. *)
Definition keyLe (x y : Definition_) : Prop := bytesLt (definitionSortKey y) (definitionSortKey x) = false.

Lemma keyLe_trans x y z : keyLe x y -> keyLe y z -> keyLe x z.
Proof.
  unfold keyLe. intros H1 H2. destruct (bytesLt (definitionSortKey z) (definitionSortKey x)) eqn:E; [|done].
  destruct (bytesLt (definitionSortKey x) (definitionSortKey y)) eqn:E2.
  - by rewrite (bytesLt_trans _ _ _ E E2) in H2.
  - pose proof (bytesLt_total _ _ E2 H1) as Hk. rewrite Hk in E. congruence.
Qed.

Lemma insertStable_Permutation x l : insertStable x l ≡ₚ x :: l.
Proof.
  induction l as [|y l IH]; simpl; [done|]. case_goal; [|done]. rewrite IH. constructor.
Qed.

Lemma insertStable_sorted x l : StronglySorted keyLe l -> StronglySorted keyLe (insertStable x l).
Proof.
  induction 1 as [|y l Hs IH Hy]; simpl; [by repeat constructor|].
  destruct (bytesLt (definitionSortKey y) (definitionSortKey x)) eqn:E.
  - constructor; [done|]. rewrite insertStable_Permutation. constructor; [|done].
    unfold keyLe. destruct (bytesLt (definitionSortKey x) (definitionSortKey y)) eqn:E2; [|done].
    pose proof (bytesLt_trans _ _ _ E E2) as H. by rewrite bytesLt_irrefl in H.
  - constructor; [by constructor|]. constructor; [done|]. eapply Forall_impl; [exact Hy|]. intros z. by apply keyLe_trans.
Qed.

(** The elements with a key, in their order. *)
Definition withKey (key : list Z) (l : list Definition_) : list Definition_ :=
  filter (fun d => definitionSortKey d = key) l.

Lemma insertStable_withKey key x l : withKey key (insertStable x l) = withKey key (x :: l).
Proof.
  unfold withKey. induction l as [|y l IH]; [done|]. cbn [insertStable].
  destruct (bytesLt (definitionSortKey y) (definitionSortKey x)) eqn:E; [|done].
  rewrite filter_cons, IH, !filter_cons. repeat case_decide; try done. exfalso.
  assert (definitionSortKey y = definitionSortKey x) as E' by congruence. rewrite E', bytesLt_irrefl in E. done.
Qed.

(** An exported manifest is in order and complete. Its definitions are
    those of the server, each once, without what the server added to them;
    their keys never decrease; those of equal keys keep the order the server
    listed them in; and what is exported from valid definitions is a valid
    manifest. *)
Theorem New_sorted (definitions : list AlertDefinition) :
  let m := New definitions in
  m.(Manifest.Definitions) ≡ₚ portable <$> definitions /\
  StronglySorted keyLe m.(Manifest.Definitions) /\
  (forall key, withKey key m.(Manifest.Definitions) = withKey key (portable <$> definitions)) /\
  (Forall (fun d => validateDefinition 0 (portable d) = None) definitions -> Validate m = None).
Proof.
  assert (forall l, sortStable l ≡ₚ l) as Hperm.
  { induction l as [|x l IH]; simpl; [done|]. by rewrite insertStable_Permutation, IH. }
  intros m. split; [apply Hperm|]. split; [|split].
  - simpl. induction (portable <$> definitions) as [|x l IH]; simpl; [constructor|]. by apply insertStable_sorted.
  - intros key. simpl. induction (portable <$> definitions) as [|x l IH]; simpl; [done|].
    rewrite insertStable_withKey. unfold withKey in *. by rewrite !filter_cons, IH.
  - intros Hv. unfold Validate. simpl. rewrite validateDefinitions_None, (Hperm _). by apply Forall_fmap.
Qed.

Example two_sorted :
  let d name := AlertDefinition.mk "" 1 "" name true (Series.mk "live" "BTCUSDT" "1m")
    (Rule.mk "candle_color" [] None "" "" "" "" 0 "red" 0 (float_of_Z 0) (float_of_Z 0)) "both" "every_match" 0 0 0 0 in
  Definition_.Name <$> (New [d "b"; d "a"; d "b"]).(Manifest.Definitions) = ["a"; "b"; "b"].
Proof. vm_compute. reflexivity. Qed.
