(* ===== verification/ImportExport.v ===== *)
(** * Importing and exporting through a server

    The client of DefinitionFile.v connected to the handlers of Api.v, on the
    memory repository: what an import leaves on an empty server, that a second
    one changes nothing, and that exporting gives back what was imported. *)

From stdpp Require Import base gmap strings list numbers pretty sorting.
From Stdlib Require Import Ascii.
From S2P Require Import Prelude GoFloat GoBase GoHash GoTime Model Json Rules RulesValid Fixtures Store Memory MemoryProps.
From S2P Require Import Engine EngineIndex EngineBatch Service ServiceProps Signals Api ApiProps DefinitionFile.
Import Engine Service Service.Service.

(** An element in the middle has a name that those before it do not have. *)
Lemma NoDup_fmap_middle {A B} (f : A -> B) l x rest : NoDup (f <$> l ++ x :: rest) -> f x ∉ f <$> l.
Proof. rewrite fmap_app. intros (_ & H & _)%NoDup_app Hin. apply (H _ Hin). left. Qed.

(** ** The connection *)

Definition routeOf (request : ApiRequest) : Route :=
  match request with
  | ExportRequest => GetDefinitions
  | CreateDefinitionRequest request => PostDefinition (inr request)
  | EnableRequest id enabled => PatchDefinition id (inr (Some enabled))
  end.

Definition outputOf (body : Body) : string + ApiResponse :=
  match body with
  | DefinitionBody d => inr (DefinitionResponse d)
  | DefinitionsBody l => inr (DefinitionsResponse l)
  | _ => inl "EOF"
  end.

(** A server, and the number of requests it has answered. *)
Definition Wire : Type := Service Memory * nat.

Section Connection.
Context (errorText : ServiceError -> string) (signalsText : SignalsError -> string).
(** What the server finds at its [n]-th request. *)
Context (options : Api.Options) (clock : nat -> Clock) (env : nat -> Memory -> Env).

Definition wire : Transport Wire := {|
  send _ authorization request '(s, n) :=
    let '(response, s') := handle errorText signalsText options (env n s.(repo)) (clock n) []
                             (Request.mk authorization (routeOf request)) s in
    match response with
    | None => (inl "EOF", (s', S n))
    | Some response => (inr (response.(Response.status), outputOf response.(Response.body)), (s', S n))
    end |}.
#[local] Existing Instance wire.

Context (validURL : string -> bool) (c : Client).

(** ** What the server makes of a definition *)

(** The mode and the trigger of a definition, with the defaults. *)
Definition modeOf (d : Definition_) : string := defaulted d.(Definition_.EvaluationMode) "confirmed_close".
Definition triggerOf (d : Definition_) : string := defaulted d.(Definition_.TriggerMode) "on_occurrence".

(** A definition with what may be left out written out. *)
Definition explicit (d : Definition_) : Definition_ :=
  Definition_.mk d.(Definition_.Name) (Some (enabled d)) d.(Definition_.Series) d.(Definition_.Rule)
    (modeOf d) (triggerOf d) d.(Definition_.CooldownSeconds).

(** The hash the server computes of it, and the identifier. *)
Definition sumOf (d : Definition_) : list Z :=
  sha256 (canonical d.(Definition_.Series) d.(Definition_.Rule) (modeOf d) (triggerOf d) d.(Definition_.CooldownSeconds)).
Definition hashOf (d : Definition_) : string := "sha256:" +:+ hexEncode (sumOf d).
Definition idOf (d : Definition_) : string := uuidFrom (take 16 (sumOf d)).

(** The memory after the definitions [l] were imported. *)
Record imported (l : list Definition_) (m : Memory) : Prop := {
  im_archived : m.(Memory.archived) = ∅;
  im_stored : forall d, d ∈ l -> exists stored, m.(Memory.definitions) !! idOf d = Some stored /\
    stored.(AlertDefinition.ID) = idOf d /\ stored.(AlertDefinition.DefinitionHash) = hashOf d /\
    portable stored = explicit d;
  im_hash : forall d, d ∈ l -> m.(Memory.byHash) !! hashOf d = Some (idOf d);
  im_keys : forall id, is_Some (m.(Memory.definitions) !! id) -> id ∈ idOf <$> l;
  im_hashes : forall h, is_Some (m.(Memory.byHash) !! h) -> h ∈ hashOf <$> l }.

Lemma imported_empty : imported [] NewMemory.
Proof. split; simpl; [done|set_solver..| |]; intros ? [? ?]; by simplify_map_eq. Qed.

Lemma imported_new l d m stored :
  imported l m -> idOf d ∉ idOf <$> l -> hashOf d ∉ hashOf <$> l ->
  stored.(AlertDefinition.ID) = idOf d -> stored.(AlertDefinition.DefinitionHash) = hashOf d ->
  portable stored = explicit d ->
  exists m', CreateDefinition stored m = (stored, true, m') /\ imported (l ++ [d]) m'.
Proof.
  intros [Ha Hs Hh Hk Hhs] Hid Hhash Ei Eh Ep. unfold CreateDefinition. rewrite Eh, Ei.
  destruct (m.(Memory.byHash) !! hashOf d) eqn:E; [destruct Hhash; apply Hhs; by eexists|].
  eexists. split; [done|]. split; simpl.
  - done.
  - intros d' [Hd'| ->%list_elem_of_singleton]%elem_of_app; [|exists stored; by rewrite lookup_insert_eq].
    rewrite lookup_insert_ne; [by apply Hs|]. intros E'. rewrite E' in Hid. set_solver.
  - intros d' [Hd'| ->%list_elem_of_singleton]%elem_of_app; [|by rewrite lookup_insert_eq].
    rewrite lookup_insert_ne; [by apply Hh|]. intros E'. rewrite E' in Hhash. set_solver.
  - intros id. rewrite lookup_insert, fmap_app. case_decide; [set_solver|]. intros ?%Hk. set_solver.
  - intros h. rewrite lookup_insert, fmap_app. case_decide; [set_solver|]. intros ?%Hhs. set_solver.
Qed.

(** A change of a definition that keeps its identifier and hash. *)
Lemma imported_replace l d d' m stored :
  imported (l ++ [d]) m -> idOf d' = idOf d -> hashOf d' = hashOf d -> idOf d ∉ idOf <$> l ->
  stored.(AlertDefinition.ID) = idOf d' -> stored.(AlertDefinition.DefinitionHash) = hashOf d' ->
  portable stored = explicit d' ->
  imported (l ++ [d']) (Memory.with_definitions m (<[idOf d := stored]> m.(Memory.definitions))).
Proof.
  intros [Ha Hs Hh Hk Hhs] Hid Hhash Hfresh Ei Eh Ep.
  split; simpl; [done|..]; rewrite ?fmap_app in *; cbn [fmap list_fmap] in *; rewrite ?Hid, ?Hhash.
  - intros x [Hx| ->%list_elem_of_singleton]%elem_of_app;
      [|exists stored; rewrite Hid, lookup_insert_eq; split_and!; congruence].
    rewrite lookup_insert_ne; [apply Hs; set_solver|]. intros E. rewrite E in Hfresh. set_solver.
  - intros x [Hx| ->%list_elem_of_singleton]%elem_of_app; [apply Hh; set_solver|].
    rewrite Hid, Hhash. apply Hh. set_solver.
  - intros id. rewrite lookup_insert. case_decide; [set_solver|apply Hk].
  - done.
Qed.

(** ** The calls of the service *)

Lemma Upsert_Ok d e : Rules.Validate d.(AlertDefinition.Rule) = None -> (UpsertDefinition d e).1 = Ok ().
Proof. intros Hv. unfold UpsertDefinition, Compile. rewrite Hv. by destruct (replaceFirst _ _ _). Qed.

Lemma indexDefinition_Ok d (s : Service Memory) :
  Rules.Validate d.(AlertDefinition.Rule) = None ->
  exists s', indexDefinition d s = (Ok (), s') /\ s'.(repo) = s.(repo).
Proof.
  intros Hv. unfold indexDefinition. pose proof (Upsert_Ok d s.(runtime) Hv) as Hu.
  destruct (UpsertDefinition _ _) as [res e]. simpl in Hu. subst res. by eexists.
Qed.

Lemma valid_rule d : validateDefinition 0 d = None -> Rules.Validate d.(Definition_.Rule) = None.
Proof. unfold validateDefinition. destruct (Rules.Validate _); repeat (case_goal; try done). Qed.

(** The definition as it is created: always enabled. *)
Definition switchedOn (d : Definition_) : Definition_ :=
  Definition_.mk d.(Definition_.Name) (Some true) d.(Definition_.Series) d.(Definition_.Rule)
    d.(Definition_.EvaluationMode) d.(Definition_.TriggerMode) d.(Definition_.CooldownSeconds).

Notation create n d := (Create (clock n) d.(Definition_.Name) d.(Definition_.Series) d.(Definition_.Rule)
  d.(Definition_.EvaluationMode) d.(Definition_.TriggerMode) d.(Definition_.CooldownSeconds)) (only parsing).

Lemma create_new n l d (s : Service Memory) :
  validateDefinition 0 d = None -> imported l s.(repo) -> idOf d ∉ idOf <$> l -> hashOf d ∉ hashOf <$> l ->
  exists stored s', create n d s = (Some (stored, true, None), s') /\
    portable stored = explicit (switchedOn d) /\ stored.(AlertDefinition.ID) = idOf d /\
    imported (l ++ [switchedOn d]) s'.(repo).
Proof.
  intros Hv Hi Hid Hh. pose proof (proj1 (validateDefinition_checkCreate 0 d) Hv) as Hc. apply valid_rule in Hv.
  unfold Create. rewrite Hc. fold (modeOf d) (triggerOf d).
  set (new := newDefinition _ _ _ _ _ _ _ _).
  destruct (imported_new l (switchedOn d) s.(repo) new) as (m' & Em & Him); try done.
  simpl. rewrite Em. destruct (indexDefinition_Ok new (with_repo s m')) as (s' & -> & Hr); [done|].
  exists new, s'. split_and!; try done. by rewrite Hr.
Qed.

Lemma create_again n l d (s : Service Memory) :
  validateDefinition 0 d = None -> imported l s.(repo) -> d ∈ l ->
  exists stored s', create n d s = (Some (stored, false, None), s') /\
    portable stored = explicit d /\ s'.(repo) = s.(repo).
Proof.
  intros Hv [Ha Hs Hh _ _] Hd. pose proof (proj1 (validateDefinition_checkCreate 0 d) Hv) as Hc. apply valid_rule in Hv.
  destruct (Hs d Hd) as (stored & Hst & Hsid & _ & Hp). specialize (Hh d Hd).
  unfold Create. rewrite Hc. fold (modeOf d) (triggerOf d).
  set (new := newDefinition _ _ _ _ _ _ _ _). simpl.
  assert (CreateDefinition new s.(repo) = (stored, false, s.(repo))) as ->.
  { unfold CreateDefinition. change (AlertDefinition.DefinitionHash new) with (hashOf d). rewrite Hh.
    unfold isArchived. rewrite Ha, lookup_empty. simpl. by rewrite Hst. }
  destruct (indexDefinition_Ok stored (with_repo s s.(repo))) as (s' & -> & Hr).
  { apply (f_equal Definition_.Rule) in Hp. simpl in Hp. by rewrite Hp. }
  exists stored, s'. done.
Qed.

Lemma setEnabled_imported n l d (s : Service Memory) :
  validateDefinition 0 d = None -> imported (l ++ [switchedOn d]) s.(repo) -> idOf d ∉ idOf <$> l ->
  exists stored s', SetEnabled (env n s.(repo)) (clock n) (idOf d) (enabled d) s = (Some (stored, None), s') /\
    imported (l ++ [d]) s'.(repo).
Proof.
  intros Hv Hi Hid. apply valid_rule in Hv. pose proof Hi as [Ha Hs _ _ _].
  destruct (Hs (switchedOn d)) as (d0 & Hd0 & Hid0 & Hh0 & Hp); [set_solver|].
  unfold SetEnabled. simpl. unfold Memory.SetEnabled. change (idOf (switchedOn d)) with (idOf d) in Hd0. rewrite Hd0.
  unfold isArchived. rewrite Ha, lookup_empty. simpl. set (d1 := AlertDefinition.mk _ _ _ _ _ _ _ _ _ _ _ _ _).
  unfold portable, explicit in Hp. injection Hp as Hn He Hse Hr Hm Ht Hcd.
  destruct (indexDefinition_Ok d1 (with_repo s (Memory.with_definitions s.(repo) (<[idOf d := d1]> s.(repo).(Memory.definitions)))))
    as (s' & -> & Hrepo).
  { simpl. by rewrite Hr. }
  exists d1, s'. split; [done|]. rewrite Hrepo. simpl.
  apply (imported_replace l (switchedOn d) d); try done.
  unfold portable, explicit. simpl. by rewrite Hn, Hse, Hr, Hm, Ht, Hcd.
Qed.

(** ** The client *)

(** The client reaches the server, and may use it. *)
Record connected : Prop := {
  cn_url : validURL (trimSlashes c.(Client.BaseURL)) = true;
  cn_token : options.(Options.Insecure) = true \/
             (c.(Client.Token) <> "" /\ options.(Options.APIToken) = c.(Client.Token)) }.
Context (Hconnected : connected).

Lemma send_handled base token request (s s' : Service Memory) (n : nat) status body :
  handle errorText signalsText options (env n s.(repo)) (clock n) [] (Request.mk token (routeOf request)) s
    = (Some (Response.mk status body), s') ->
  send base token request (s, n) = (inr (status, outputOf body), (s', S n)).
Proof. intros E. cbn. by rewrite E. Qed.

Lemma do_handled request (s : Service Memory) (n : nat) status output (s' : Service Memory) :
  encodable request = true -> (200 <= status < 300)%Z ->
  (forall token, presents token options.(Options.APIToken) \/ options.(Options.Insecure) = true ->
   exists body, outputOf body = inr output /\
   handle errorText signalsText options (env n s.(repo)) (clock n) [] (Request.mk token (routeOf request)) s
   = (Some (Response.mk status body), s')) ->
  do_ validURL c request (s, n) = (inr (status, output), (s', S n)).
Proof.
  intros He Hstatus Hh. unfold do_. rewrite (cn_url Hconnected), He. cbn [negb].
  match goal with |- context [send _ ?token _ _] => destruct (Hh token) as (body & Hb & Es) end.
  { destruct (cn_token Hconnected) as [?|[Ht ->]]; [by right|]. left. left.
    apply String.eqb_neq in Ht. by rewrite Ht. }
  rewrite (send_handled _ _ _ _ _ _ _ _ Es), Hb.
  replace (status <? 200)%Z with false by lia. by replace (status >=? 300)%Z with false by lia.
Qed.

Lemma guarded_passes {A} token message (next : A) refuse :
  presents token options.(Options.APIToken) \/ options.(Options.Insecure) = true ->
  guarded options token options.(Options.APIToken) message next refuse = next.
Proof.
  unfold guarded. intros [H|H]; [|by rewrite H]. apply bearerOK_presents in H. rewrite H. by rewrite andb_false_r.
Qed.

Lemma handle_create token n d (s : Service Memory) stored created s' :
  presents token options.(Options.APIToken) \/ options.(Options.Insecure) = true ->
  create n d s = (Some (stored, created, None), s') ->
  handle errorText signalsText options (env n s.(repo)) (clock n) []
    (Request.mk token (routeOf (CreateDefinitionRequest (requestOf d)))) s
  = (Some (Response.mk (if created : bool then 201 else 200)%Z (DefinitionBody stored)), s').
Proof.
  intros Ht Hc. unfold handle. simpl. rewrite guarded_passes by done. unfold createDefinition. simpl. by rewrite Hc.
Qed.

Lemma do_create n d (s : Service Memory) stored created s' :
  is_Some (encodeRule d.(Definition_.Rule)) -> create n d s = (Some (stored, created, None), s') ->
  do_ validURL c (CreateDefinitionRequest (requestOf d)) (s, n)
  = (inr (if created : bool then 201 else 200, DefinitionResponse stored)%Z, (s', S n)).
Proof.
  intros He Hc. apply do_handled; [by apply bool_decide_eq_true|by destruct created|].
  intros token Ht. exists (DefinitionBody stored). split; [done|]. by apply handle_create.
Qed.

Lemma do_enable n id b (s : Service Memory) stored s' :
  SetEnabled (env n s.(repo)) (clock n) id b s = (Some (stored, None), s') ->
  do_ validURL c (EnableRequest id b) (s, n) = (inr (200%Z, DefinitionResponse stored), (s', S n)).
Proof.
  intros Hc. apply do_handled; [done|done|]. intros token Ht. exists (DefinitionBody stored). split; [done|].
  unfold handle. simpl. rewrite guarded_passes by done. unfold updateDefinition. by rewrite Hc.
Qed.

Lemma do_export n (s : Service Memory) :
  do_ validURL c ExportRequest (s, n)
  = (inr (200%Z, DefinitionsResponse (Memory.listDefinitions (env n s.(repo)) s.(repo))), (s, S n)).
Proof.
  apply do_handled; [done|done|]. intros token Ht. eexists (DefinitionsBody _). split; [done|].
  unfold handle. simpl. by rewrite guarded_passes.
Qed.

(** The definitions that are disabled in a manifest. *)
Definition disabled (l : list Definition_) : list Definition_ := filter (fun d => enabled d = false) l.

Definition importable (d : Definition_) : Prop :=
  validateDefinition 0 d = None /\ is_Some (encodeRule d.(Definition_.Rule)).

Lemma explicit_enabled_on d : enabled d = true -> explicit (switchedOn d) = explicit d.
Proof. unfold explicit. by intros ->. Qed.

Lemma import_fresh rest : forall index l result s n,
  Forall importable rest -> NoDup (idOf <$> l ++ rest) -> NoDup (hashOf <$> l ++ rest) -> imported l s.(repo) ->
  exists s' n', importDefinitions validURL c index rest result (s, n)
    = (ImportResult.mk (result.(ImportResult.Created) + Z.of_nat (length rest)) result.(ImportResult.Existing)
         (result.(ImportResult.StateUpdated) + Z.of_nat (length (disabled rest))) result.(ImportResult.NameMismatches),
       None, (s', n')) /\ imported (l ++ rest) s'.(repo).
Proof.
  induction rest as [|d rest IH]; intros index l result s n Hv Hids Hhashes Hi.
  { exists s, n. rewrite app_nil_r. split; [|done]. unfold disabled. simpl. rewrite !Z.add_0_r. by destruct result. }
  apply Forall_cons in Hv as [[Hd He] Hv].
  pose proof (NoDup_fmap_middle _ _ _ _ Hids) as Hid. pose proof (NoDup_fmap_middle _ _ _ _ Hhashes) as Hhash.
  rewrite (cons_middle d l rest), app_assoc in Hids, Hhashes |- *.
  destruct (create_new n l d s Hd Hi Hid Hhash) as (stored & s1 & Ec & Hp & Hsid & Hi1).
  pose proof (do_create n d s _ _ _ He Ec) as Hdo. simpl in Hdo.
  cbn [importDefinitions]. rewrite Hdo. cbn [storedOf].
  pose proof (f_equal Definition_.Name Hp) as Hname. pose proof (f_equal Definition_.Enabled Hp) as Hon.
  simpl in Hname, Hon. injection Hon as Hon.
  unfold countStored. rewrite Hname, String.eqb_refl, Hon. cbn [negb Z.eqb Pos.eqb].
  unfold disabled. rewrite filter_cons. fold (disabled rest). destruct (enabled d) eqn:Een; cbn [Bool.eqb decide].
  - rewrite decide_False by done.
    edestruct (IH (S index) (l ++ [d])) as (s' & n' & -> & Hi'); [done..| |].
    + destruct Hi1 as [Ha Hs Hh Hk Hhs]. rewrite fmap_app in Hk, Hhs.
      split; [done| | |by rewrite fmap_app..].
      * intros x [Hx| ->%list_elem_of_singleton]%elem_of_app; [apply Hs; set_solver|].
        destruct (Hs (switchedOn d)) as (st & ? & ? & ? & ?); [set_solver|]. exists st.
        rewrite <- (explicit_enabled_on d Een). done.
      * intros x [Hx| ->%list_elem_of_singleton]%elem_of_app; [apply Hh; set_solver|].
        apply (Hh (switchedOn d)). set_solver.
    + exists s', n'. split; [|done]. simpl. do 3 f_equal. lia.
  - rewrite decide_True by done.
    destruct (setEnabled_imported (S n) l d s1 Hd Hi1 Hid) as (st & s2 & Ee & Hi2). rewrite Een in Ee.
    rewrite Hsid, (do_enable _ _ _ _ _ _ Ee).
    edestruct (fun r => IH (S index) (l ++ [d]) r s2 (S (S n)) Hv Hids Hhashes Hi2) as (s' & n' & -> & Hi').
    exists s', n'. split; [|done]. cbn [length]. do 3 f_equal; cbn; lia.
Qed.

Lemma import_again rest : forall index l result s n,
  Forall importable rest -> rest ⊆ l -> imported l s.(repo) ->
  exists s' n', importDefinitions validURL c index rest result (s, n)
    = (ImportResult.mk result.(ImportResult.Created) (result.(ImportResult.Existing) + Z.of_nat (length rest))
         result.(ImportResult.StateUpdated) result.(ImportResult.NameMismatches), None, (s', n')) /\
    s'.(repo) = s.(repo).
Proof.
  induction rest as [|d rest IH]; intros index l result s n Hv Hl Hi.
  { exists s, n. rewrite Z.add_0_r. by destruct result. }
  apply Forall_cons in Hv as [[Hd He] Hv].
  destruct (create_again n l d s Hd Hi) as (stored & s1 & Ec & Hp & Hr); [set_solver|].
  pose proof (do_create n d s _ _ _ He Ec) as Hdo. simpl in Hdo.
  cbn [importDefinitions]. rewrite Hdo. cbn [storedOf].
  pose proof (f_equal Definition_.Name Hp) as Hname. pose proof (f_equal Definition_.Enabled Hp) as Hon.
  simpl in Hname, Hon. injection Hon as Hon.
  unfold countStored. rewrite Hname, String.eqb_refl, Hon. cbn [negb Z.eqb Pos.eqb]. rewrite Bool.eqb_reflx.
  edestruct (IH (S index) l) as (s' & n' & -> & Hr'); [done|set_solver|by rewrite Hr|].
  exists s', n'. split; [|congruence]. simpl. do 3 f_equal. lia.
Qed.

(** ** What is exported *)

Lemma stored_portable (defs : gmap string AlertDefinition) (l : list Definition_) :
  (forall d, d ∈ l -> exists stored, defs !! idOf d = Some stored /\ portable stored = explicit d) ->
  portable <$> omap (fun id => defs !! id) (idOf <$> l) = explicit <$> l.
Proof.
  induction l as [|d l IH]; intros H; [done|]. destruct (H d) as (st & Hst & Hp); [left|].
  cbn [fmap list_fmap omap list_omap]. rewrite Hst. cbn [fmap list_fmap]. rewrite Hp. f_equal. apply IH.
  intros d' Hd'. apply H. by right.
Qed.

Lemma listDefinitions_imported now l m :
  imported l m -> NoDup (idOf <$> l) -> now.(Env.order) ≡ₚ (map_to_list m.(Memory.definitions)).*1 ->
  portable <$> Memory.listDefinitions now m ≡ₚ explicit <$> l.
Proof.
  intros [Ha Hs _ Hk _] Hn Ho. unfold Memory.listDefinitions. rewrite merge_sort_Permutation, filter_keeps.
  2:{ apply Forall_forall. intros x _. unfold Memory.listed, isArchived. rewrite Ha, lookup_empty. done. }
  rewrite Ho. assert ((map_to_list m.(Memory.definitions)).*1 ≡ₚ idOf <$> l) as ->.
  { apply NoDup_Permutation; [apply NoDup_fst_map_to_list|done|]. intros id. split.
    - intros ([id' st] & -> & Hin)%list_elem_of_fmap. apply elem_of_map_to_list in Hin. apply Hk. by eexists.
    - intros (d & -> & Hd)%list_elem_of_fmap. destruct (Hs d Hd) as (st & Hst & _).
      apply list_elem_of_fmap. exists (idOf d, st). split; [done|]. by apply elem_of_map_to_list. }
  rewrite stored_portable; [done|]. intros d Hd. destruct (Hs d Hd) as (st & ? & _ & _ & ?). by exists st.
Qed.

Lemma explicit_valid index d : validateDefinition 0 d = None -> validateDefinition index (explicit d) = None.
Proof.
  rewrite !validateDefinition_checkCreate. destruct d as [name en series rule mode trigger cooldown].
  unfold explicit, modeOf, triggerOf, checkCreate, defaulted. simpl.
  destruct (_ || _ || _); [done|]. destruct (_ <? 0)%Z; [done|].
  destruct (mode == "") eqn:E, (trigger == "") eqn:E'; simpl; rewrite ?E, ?E'; simpl; auto.
Qed.
End Connection.

(** The orders in which the server ranges over its map are orders of its keys. *)
Definition ranges (env : nat -> Memory -> Env) : Prop :=
  forall n m, (env n m).(Env.order) ≡ₚ (map_to_list m.(Memory.definitions)).*1.

(** C33: what is imported is exported again, on a server with the in-memory
    repository. Importing a valid manifest into an empty server of that sort,
    through its HTTP handlers, succeeds: every definition is
    created under its name and has the state the manifest gives it. Importing
    it again succeeds too and changes nothing: all are found. And an export
    gives back the manifest, up to the order of the definitions and with the
    defaults written out, and it is a valid manifest again. Identifiers,
    hashes, versions and times are not carried over. (No two definitions may
    have the same hash, or they are one definition on the server.) On
    PostgreSQL the second import does change something: a disabled definition
    is enabled and disabled again, at a later boundary
    ([reimport_reactivates]). *)
Theorem import_export (errorText : ServiceError -> string) (signalsText : SignalsError -> string)
  (options : Api.Options) (clock : nat -> Clock) (env : nat -> Memory -> Env) (validURL : string -> bool)
  (c : Client) (o : Service.Options) (m : Manifest) :
  connected options validURL c -> ranges env -> Validate m = None ->
  Forall (fun d => is_Some (encodeRule d.(Definition_.Rule))) m.(Manifest.Definitions) ->
  NoDup (idOf <$> m.(Manifest.Definitions)) -> NoDup (hashOf <$> m.(Manifest.Definitions)) ->
  let server := wire errorText signalsText options clock env in
  let count := Z.of_nat (length m.(Manifest.Definitions)) in
  exists w w' exported,
    Import validURL c m (NewWithOptions NewMemory o, 0)
      = (ImportResult.mk count 0 (Z.of_nat (length (disabled m.(Manifest.Definitions)))) [], None, w) /\
    Import validURL c m w = (ImportResult.mk 0 count 0 [], None, w') /\ w'.1.(repo) = w.1.(repo) /\
    (Export validURL c w).1 = inr exported /\ Validate exported = None /\
    exported.(Manifest.Definitions) ≡ₚ explicit <$> m.(Manifest.Definitions).
Proof.
  intros Hc Hr Hv He Hids Hhashes server count. subst server. unfold Import, Export. rewrite Hv.
  assert (Forall importable m.(Manifest.Definitions)) as Hi.
  { unfold Validate in Hv. destruct (_ != _); [done|]. apply validateDefinitions_None in Hv. by apply Forall_and. }
  destruct (import_fresh errorText signalsText options clock env validURL c Hc m.(Manifest.Definitions) 1 []
              ImportResult.zero (NewWithOptions NewMemory o) 0 Hi Hids Hhashes imported_empty)
    as (s & n & -> & Him).
  destruct (import_again errorText signalsText options clock env validURL c Hc m.(Manifest.Definitions) 1
              m.(Manifest.Definitions) ImportResult.zero s n Hi (reflexivity _) Him) as (s' & n' & Ha & Hrepo).
  simpl app in Him. exists (s, n), (s', n'), (New (Memory.listDefinitions (env n s.(repo)) s.(repo))).
  split; [done|]. split; [by rewrite Ha|]. split; [done|].
  rewrite (do_export errorText signalsText options clock env validURL c Hc n s).
  pose proof (listDefinitions_imported (env n s.(repo)) m.(Manifest.Definitions) s.(repo) Him Hids (Hr _ _)) as Hl.
  destruct (New_sorted (Memory.listDefinitions (env n s.(repo)) s.(repo))) as (Hp & _ & _ & Hvalid).
  split; [done|]. split; [|by rewrite Hp, Hl].
  apply Hvalid. apply (Forall_fmap portable (fun d => validateDefinition 0 d = None)). rewrite Hl. apply Forall_fmap.
  eapply Forall_impl; [exact Hi|]. intros d [Hd _]. by apply explicit_valid.
Qed.

(** Two definitions of one series, the second disabled. *)
Definition twoDefinitions : Manifest := Manifest.mk Schema
  [Definition_.mk "red" None btc redColor "" "" 0;
   Definition_.mk "reds" (Some false) btc threeRed "both" "every_match" 60].
Definition controlled : Api.Options := Api.Options.mk ":8100" "control" "ingest" false.
Definition keyOrder (n : nat) (m : Memory) : Env := Env.mk Fixtures.start (map_to_list m.(Memory.definitions)).*1.
Definition controller : Client := Client.mk "http://127.0.0.1:8100/" "control".
Definition imports (w : Wire) : ImportResult * option ManifestError * Wire :=
  @Import _ (wire noText noSignals controlled (fun n => clockAt (Z.of_nat n)) keyOrder) (fun _ => true) controller
    twoDefinitions w.

Lemma import_export_witness :
  exists w w', imports (NewWithOptions NewMemory delayed, 0) = (ImportResult.mk 2 0 1 [], None, w) /\
    imports w = (ImportResult.mk 0 2 0 [], None, w').
Proof.
  destruct (import_export noText noSignals controlled (fun n => clockAt (Z.of_nat n)) keyOrder (fun _ => true)
    controller delayed twoDefinitions) as (w & w' & ex & H1 & H2 & _).
  - split; [reflexivity|]. right. split; [intros H; discriminate H|reflexivity].
  - intros n m. reflexivity.
  - vm_compute. reflexivity.
  - repeat constructor; vm_compute; eexists; reflexivity.
  - vm_compute. repeat constructor; rewrite ?list_elem_of_singleton; try (intros H; discriminate H); apply not_elem_of_nil.
  - vm_compute. repeat constructor; rewrite ?list_elem_of_singleton; try (intros H; discriminate H); apply not_elem_of_nil.
  - exists w, w'. split; [exact H1|exact H2].
Defined.
