(* ===== verification/Alertdefs.v ===== *)
(** * cmd/alertdefs/main.go: the command that exports and imports manifests

    The command line, the files it reads and writes and the client of
    DefinitionFile.v. A file holds what decoding it gives. The calls on files
    are recorded; each may fail, the [n]-th with [fault n]. What the package
    flag prints is left out. *)

From stdpp Require Import base gmap strings list numbers pretty sorting.
From Stdlib Require Import Ascii.
From S2P Require Import Prelude GoFloat GoBase GoTime Model Json Rules RulesValid Fixtures Store Memory MemoryProps.
From S2P Require Import Engine Service ServiceProps Signals Api ApiProps DefinitionFile ImportExport Flags.

(** ** Files *)

(** What [Decode] reads of a file: its first value, and whether there is more. *)
Module File.
Record File := mk { mode : Z; decoded : string + Manifest; more : bool }.
End File.
Abbreviation File := File.File.

(** The calls on files and on the standard output. *)
Inductive FileCall :=
| CallCreateTemp (name : string)
| CallChmod (name : string)
| CallWrite (name : string)
| CallSync (name : string)
| CallClose (name : string)
| CallRename (name path : string)
| CallRemove (name : string)
| CallOpen (path : string)
| CallRead (path : string)
| CallPrint.

(** The files, and the calls made so far. *)
Module Disk.
Record Disk := mk { files : gmap string File; calls : list FileCall }.
Definition count (disk : Disk) : nat := length disk.(calls).
End Disk.
Abbreviation Disk := Disk.Disk.

Inductive CommandError :=
| ErrExpectedCommand
| ErrUnknownCommand (name : string)
| ErrFlags (err : FlagError)
| ErrPositional
| ErrManifest (err : ManifestError)
| ErrOpen (path : string) (err : string)
| ErrCreateTemp (path : string) (err : string)
| ErrChmod (err : string)
| ErrWrite (err : string)
| ErrSync (err : string)
| ErrClose (err : string)
| ErrRename (path : string) (err : string).

(** What is printed, before it is formatted. *)
Inductive Output :=
| Usage
| Exported (m : Manifest)
| ExportedTo (count : nat) (path : string)
| Loaded (count : nat) (result : ImportResult)
| Warning (mismatch : string * string).

Module Printed.
Record Printed := mk { stdout : list Output; stderr : list Output }.
Definition nothing : Printed := mk [] [].
End Printed.
Abbreviation Printed := Printed.Printed.

Section Files.
(** [temporary files path]: the name [os.CreateTemp] finds beside a path, one
    that is not there; [torn n]: what is in the file after the [n]-th call, a
    failed write. *)
Context (fault : nat -> option string) (temporary : gmap string File -> string -> string) (torn : nat -> File).

(** A call that changes the files unless it fails. *)
Definition call (made : FileCall) (change : gmap string File -> gmap string File) (disk : Disk) : option string * Disk :=
  match fault (Disk.count disk) with
  | Some err => (Some err, Disk.mk disk.(Disk.files) (disk.(Disk.calls) ++ [made]))
  | None => (None, Disk.mk (change disk.(Disk.files)) (disk.(Disk.calls) ++ [made]))
  end.

(** [Encode] to the file [name]: one write, which may leave a part. *)
Definition encodeTo (name : string) (m : Manifest) (disk : Disk) : option CommandError * Disk :=
  match Encode m with
  | inl err => (Some (ErrManifest err), disk)
  | inr m =>
      let n := Disk.count disk in
      let calls := disk.(Disk.calls) ++ [CallWrite name] in
      match fault n with
      | Some err => (Some (ErrWrite err), Disk.mk (<[name := torn n]> disk.(Disk.files)) calls)
      | None =>
          (None, Disk.mk (alter (fun f => File.mk f.(File.mode) (inr m) false) name disk.(Disk.files)) calls)
      end
  end.

(** The deferred function: [Close], whose error is dropped, and after an error
    [Remove], whose error is dropped too. *)
Definition cleanup (name : string) (err : option CommandError) (disk : Disk) : option CommandError * Disk :=
  let disk := (call (CallClose name) (fun files => files) disk).2 in
  match err with
  | Some err => (Some err, (call (CallRemove name) (delete name) disk).2)
  | None => (None, disk)
  end.

Definition writeManifest (path : string) (m : Manifest) (disk : Disk) : option CommandError * Disk :=
  let name := temporary disk.(Disk.files) path in
  match call (CallCreateTemp name) (<[name := File.mk 384 (inl "EOF") false]>) disk with
  | (Some err, disk) => (Some (ErrCreateTemp path err), disk)
  | (None, disk) =>
      match call (CallChmod name) (alter (fun f => File.mk 420 f.(File.decoded) f.(File.more)) name) disk with
      | (Some err, disk) => cleanup name (Some (ErrChmod err)) disk
      | (None, disk) =>
          match encodeTo name m disk with
          | (Some err, disk) => cleanup name (Some err) disk
          | (None, disk) =>
              match call (CallSync name) (fun files => files) disk with
              | (Some err, disk) => cleanup name (Some (ErrSync err)) disk
              | (None, disk) =>
                  match call (CallClose name) (fun files => files) disk with
                  | (Some err, disk) => cleanup name (Some (ErrClose err)) disk
                  | (None, disk) =>
                      match call (CallRename name path)
                              (fun files => match files !! name with
                                            | Some f => <[path := f]> (delete name files)
                                            | None => files end) disk with
                      | (Some err, disk) => cleanup name (Some (ErrRename path err)) disk
                      | (None, disk) => cleanup name None disk
                      end
                  end
              end
          end
      end
  end.

(** [readManifest]; [stdin] is what decoding it gives. *)
Definition readManifest (path : string) (stdin : (string + Manifest) * bool) (disk : Disk)
  : (CommandError + Manifest) * Disk :=
  let decode (decoded : string + Manifest) (more : bool) : CommandError + Manifest :=
    match Decode decoded more with inl err => inl (ErrManifest err) | inr m => inr m end in
  if path == "-" then (decode stdin.1 stdin.2, disk) else
  match call (CallOpen path) (fun files => files) disk with
  | (Some err, disk) => (inl (ErrOpen path err), disk)
  | (None, disk) =>
      match disk.(Disk.files) !! path with
      | None => (inl (ErrOpen path "no such file or directory"), disk)
      | Some f =>
          match call (CallRead path) (fun files => files) disk with
          | (Some err, disk) => (inl (ErrManifest (ErrDecode err)), disk)
          | (None, disk) => (decode f.(File.decoded) f.(File.more), disk)
          end
      end
  end.

(** ** The commands *)

Context {W : Type} `{Transport W} (validURL : string -> bool) (getenv : string -> string).

Definition env (name fallback : string) : string :=
  let value := getenv name in if value != "" then value else fallback.

(** The flags both commands have, with their defaults. *)
Definition apiDefaults : gmap string string :=
  <["api-url" := env "ALERTS_API_URL" "http://127.0.0.1:8100"]>
    (<["api-token" := getenv "ALERTS_API_TOKEN"]> ∅).

(** The flags of a command, [file] being the one for its file; [inl] when they
    are wrong. *)
Definition parseCommand (file : string) (args : list string) : CommandError + (Client * string) :=
  match parseFlags (strings ["api-url"; "api-token"; file]) (<[file := "-"]> apiDefaults) args with
  | inl err => inl (ErrFlags err)
  | inr (values, positional) =>
      if negb (length positional =? 0)%nat then inl ErrPositional else
      let value (name : string) : string := default "" (values !! name) in
      inr (Client.mk (value "api-url") (value "api-token"), value file)
  end.

Definition runExport (args : list string) (w : W) (disk : Disk) : option CommandError * Printed * W * Disk :=
  match parseCommand "out" args with
  | inl err => (Some err, Printed.nothing, w, disk)
  | inr (client, output) =>
      match Export validURL client w with
      | (inl err, w) => (Some (ErrManifest err), Printed.nothing, w, disk)
      | (inr m, w) =>
          if output == "-" then
            match Encode m with
            | inl err => (Some (ErrManifest err), Printed.nothing, w, disk)
            | inr m =>
                match call CallPrint (fun files => files) disk with
                | (Some err, disk) => (Some (ErrWrite err), Printed.nothing, w, disk)
                | (None, disk) => (None, Printed.mk [Exported m] [], w, disk)
                end
            end
          else
            match writeManifest output m disk with
            | (Some err, disk) => (Some err, Printed.nothing, w, disk)
            | (None, disk) => (None, Printed.mk [] [ExportedTo (length m.(Manifest.Definitions)) output], w, disk)
            end
      end
  end.

Definition runImport (args : list string) (stdin : (string + Manifest) * bool) (w : W) (disk : Disk)
  : option CommandError * Printed * W * Disk :=
  match parseCommand "file" args with
  | inl err => (Some err, Printed.nothing, w, disk)
  | inr (client, input) =>
      match readManifest input stdin disk with
      | (inl err, disk) => (Some err, Printed.nothing, w, disk)
      | (inr m, disk) =>
          match Import validURL client m w with
          | (_, Some err, w) => (Some (ErrManifest err), Printed.nothing, w, disk)
          | (result, None, w) =>
              (None, Printed.mk [Loaded (length m.(Manifest.Definitions)) result]
                       (Warning <$> result.(ImportResult.NameMismatches)), w, disk)
          end
      end
  end.

Definition run (args : list string) (stdin : (string + Manifest) * bool) (w : W) (disk : Disk)
  : option CommandError * Printed * W * Disk :=
  match args with
  | [] => (Some ErrExpectedCommand, Printed.mk [] [Usage], w, disk)
  | "export" :: args => runExport args w disk
  | "import" :: args => runImport args stdin w disk
  | name :: _ =>
      if (name == "help") || (name == "-h") || (name == "--help") then (None, Printed.mk [Usage] [], w, disk)
      else (Some (ErrUnknownCommand name), Printed.mk [] [Usage], w, disk)
  end.
End Files.

(** ** Properties *)

Section Atomic.
Context (fault : nat -> option string) (temporary : gmap string File -> string -> string) (torn : nat -> File).
(** [os.CreateTemp] opens a file that did not exist; its name is the pattern
    around the base name of the target, longer than it. *)
Context (Hfresh : forall files path, files !! temporary files path = None /\ temporary files path <> path).

(** An export that failed: the files as they were, but for the temporary file
    if the call that was to remove it failed itself. *)
Definition untouched (path : string) (disk disk' : Disk) : Prop :=
  let name := temporary disk.(Disk.files) path in
  disk'.(Disk.files) = disk.(Disk.files) \/
  delete name disk'.(Disk.files) = disk.(Disk.files) /\
  exists k, Disk.count disk <= k /\ disk'.(Disk.calls) !! k = Some (CallRemove name) /\ is_Some (fault k).

Lemma call_files made change disk : (call fault made change disk).2.(Disk.calls) = disk.(Disk.calls) ++ [made] /\
  (call fault made change disk).2.(Disk.files)
    = match fault (Disk.count disk) with Some _ => disk.(Disk.files) | None => change disk.(Disk.files) end.
Proof. unfold call. by destruct (fault _). Qed.

Lemma count_made disk disk' made : disk'.(Disk.calls) = disk.(Disk.calls) ++ [made] -> Disk.count disk' = S (Disk.count disk).
Proof. unfold Disk.count. intros ->. rewrite length_app. simpl. lia. Qed.

Lemma cleanup_untouched path err disk disk0 res disk' :
  delete (temporary disk0.(Disk.files) path) disk.(Disk.files) = disk0.(Disk.files) ->
  Disk.count disk0 <= Disk.count disk ->
  cleanup fault (temporary disk0.(Disk.files) path) (Some err) disk = (res, disk') ->
  res = Some err /\ untouched path disk0 disk'.
Proof.
  set (name := temporary _ path). intros Hd Hc. unfold cleanup. set (disk1 := (call _ (CallClose name) _ disk).2).
  pose proof (call_files (CallClose name) (fun files => files) disk) as [Hc1 Hf1]. fold disk1 in Hc1, Hf1.
  assert (disk1.(Disk.files) = disk.(Disk.files)) as Hf1' by (rewrite Hf1; by destruct (fault _)). clear Hf1.
  pose proof (call_files (CallRemove name) (delete name) disk1) as [Hc2 Hf]. intros [= <- <-]. split; [done|].
  unfold untouched. fold name. rewrite Hf, Hf1', Hc2. destruct (fault _) eqn:E; [right|by left].
  split; [done|]. exists (Disk.count disk1). apply count_made in Hc1. split; [lia|]. split; [|by eexists].
  by apply list_lookup_middle.
Qed.

Lemma disk_call_inv made change disk res disk' :
  call fault made change disk = (res, disk') ->
  Disk.count disk' = S (Disk.count disk) /\
  disk'.(Disk.files) = (if res then disk.(Disk.files) else change disk.(Disk.files)) /\
  (is_Some res -> is_Some (fault (Disk.count disk))).
Proof.
  unfold call. destruct (fault _); intros [= <- <-];
    (split; [by eapply count_made|]); (split; [done|]); [by eexists|by intros [? ?]].
Qed.

Lemma delete_altered f name (files : gmap string File) : delete name (alter f name files) = delete name files.
Proof. apply map_eq. intros i. rewrite !lookup_delete. case_decide; [done|]. by rewrite lookup_alter_ne. Qed.

Lemma encodeTo_inv name m disk res disk' :
  encodeTo fault torn name m disk = (res, disk') ->
  Disk.count disk <= Disk.count disk' /\ delete name disk'.(Disk.files) = delete name disk.(Disk.files) /\
  (res = None -> Encode m = inr m /\
     disk'.(Disk.files) = alter (fun f => File.mk f.(File.mode) (inr m) false) name disk.(Disk.files)).
Proof.
  unfold encodeTo. destruct (Encode m) as [err|m'] eqn:Ee; [by intros [= <- <-]|].
  assert (m' = m) as ->. { revert Ee. unfold Encode. destruct (Validate m); [done|]. case_goal; by intros [= ->]. }
  destruct (fault _); intros [= <- <-]; unfold Disk.count; simpl; rewrite length_app;
    split_and!; try done; [lia|by rewrite delete_insert_eq|lia|]. apply delete_altered.
Qed.

(** The core of it: the target has its old content or all of the new one. *)
Lemma writeManifest_atomic (path : string) (m : Manifest) (disk disk' : Disk) (res : option CommandError) :
  path <> "-" -> writeManifest fault temporary torn path m disk = (res, disk') ->
  match res with
  | None => disk'.(Disk.files) = <[path := File.mk 420 (inr m) false]> disk.(Disk.files) /\
      forall stdin, (forall n, Disk.count disk' <= n -> fault n = None) ->
        (readManifest fault path stdin disk').1 = inr m
  | Some _ => untouched path disk disk'
  end.
Proof.
  intros Hpath. unfold writeManifest. set (name := temporary _ path).
  destruct (Hfresh disk.(Disk.files) path) as [Hnew Hname]. fold name in Hnew, Hname.
  destruct (call _ _ _ disk) as [[e|] d1] eqn:E1; apply disk_call_inv in E1 as (C1 & F1 & _).
  { intros [= <- <-]. by left. }
  assert (delete name d1.(Disk.files) = disk.(Disk.files)) as D1 by (rewrite F1; by apply delete_insert_id).
  destruct (call _ _ _ d1) as [[e|] d2] eqn:E2; apply disk_call_inv in E2 as (C2 & F2 & _).
  { intros H. apply cleanup_untouched in H as [-> H]; [done|by rewrite F2|lia]. }
  assert (delete name d2.(Disk.files) = disk.(Disk.files)) as D2 by (by rewrite F2, delete_altered).
  destruct (encodeTo _ _ _ _ d2) as [[e|] d3] eqn:E3; apply encodeTo_inv in E3 as (C3 & D3 & F3); rewrite D2 in D3.
  { intros H. apply cleanup_untouched in H as [-> H]; [done|done|lia]. }
  destruct (F3 eq_refl) as [Henc F3']. clear F3.
  destruct (call _ _ _ d3) as [[e|] d4] eqn:E4; apply disk_call_inv in E4 as (C4 & F4 & _).
  { intros H. apply cleanup_untouched in H as [-> H]; [done|by rewrite F4|lia]. }
  destruct (call _ _ _ d4) as [[e|] d5] eqn:E5; apply disk_call_inv in E5 as (C5 & F5 & _).
  { intros H. apply cleanup_untouched in H as [-> H]; [done|by rewrite F5, F4|lia]. }
  destruct (call _ _ _ d5) as [[e|] d6] eqn:E6; apply disk_call_inv in E6 as (C6 & F6 & _).
  { intros H. apply cleanup_untouched in H as [-> H]; [done|by rewrite F6, F5, F4|lia]. }
  unfold cleanup. intros [= <- <-].
  assert (d3.(Disk.files) !! name = Some (File.mk 420 (inr m) false)) as Hfile.
  { by rewrite F3', F2, F1, !lookup_alter_eq, lookup_insert_eq. }
  rewrite F5, F4, Hfile, D3 in F6.
  split.
  - rewrite (proj2 (call_files _ _ _)). by destruct (fault _).
  - intros stdin Hok. pose proof (call_files (CallClose name) (fun files => files) d6) as [_ Hf7].
    set (d7 := (call _ _ _ d6).2) in *. unfold readManifest. apply String.eqb_neq in Hpath. rewrite Hpath.
    unfold call at 1. rewrite (Hok (Disk.count d7)) by done. cbn [Disk.files].
    assert (d7.(Disk.files) !! path = Some (File.mk 420 (inr m) false)) as ->.
    { rewrite Hf7, F6. by destruct (fault _); rewrite lookup_insert_eq. }
    unfold call. rewrite Hok by (unfold Disk.count; simpl; rewrite length_app; lia). simpl.
    revert Henc. unfold Encode. by destruct (Validate m).
Qed.

Context {W : Type} `{Transport W} (validURL : string -> bool) (getenv : string -> string).
Notation run := (run fault temporary torn validURL getenv).

(** The client both commands use when no flag says otherwise. *)
Definition defaultClient : Client :=
  Client.mk (env getenv "ALERTS_API_URL" "http://127.0.0.1:8100") (getenv "ALERTS_API_TOKEN").

Lemma parseCommand_file file path :
  file ∈ ["out"; "file"] -> parseCommand getenv file ["-" +:+ file; path] = inr (defaultClient, path).
Proof.
  intros Hf. unfold parseCommand, apiDefaults.
  apply elem_of_cons in Hf as [->|[->|[]%not_elem_of_nil]%elem_of_cons]; cbn -[insert lookup];
    repeat (rewrite lookup_insert_eq || rewrite lookup_insert_ne by done); done.
Qed.

(** C34: an export to a file replaces it as a whole or not at all. Whatever
    call fails on the way, the file has either its old content or all of the
    manifest that the server was asked for, with the permissions 0644, and no
    other file is touched; a temporary file is left only if the export called
    [Remove] on it and that call failed. After a successful export the command
    to import from the file, if it can read it, imports exactly that manifest,
    and reports what came of it. *)
Theorem export_atomic (path : string) (stdin : (string + Manifest) * bool) (w w' : W) (disk disk' : Disk)
  (res : option CommandError) (printed : Printed) :
  path <> "-" -> run ["export"; "-out"; path] stdin w disk = (res, printed, w', disk') ->
  match res with
  | Some _ => untouched path disk disk'
  | None => exists m, Export validURL defaultClient w = (inr m, w') /\
      disk'.(Disk.files) = <[path := File.mk 420 (inr m) false]> disk.(Disk.files) /\
      forall other, (forall n, Disk.count disk' <= n -> fault n = None) ->
        let '(result, err, other') := Import validURL defaultClient m other in
        let answer := run ["import"; "-file"; path] stdin other disk' in
        answer.1.2 = other' /\ answer.1.1.1 = ErrManifest <$> err /\
        (err = None -> answer.1.1.2 = Printed.mk [Loaded (length m.(Manifest.Definitions)) result]
                                        (Warning <$> result.(ImportResult.NameMismatches)))
  end.
Proof.
  intros Hpath. cbn [Alertdefs.run]. unfold runExport.
  change "-out" with ("-" +:+ "out"). rewrite (parseCommand_file "out" path) by left.
  destruct (Export _ _ w) as [[err|m] w1]; [by intros [= <- _ _ <-]; left|].
  pose proof Hpath as Hp%String.eqb_neq. rewrite Hp.
  destruct (writeManifest _ _ _ path m disk) as [err d] eqn:Ew. apply writeManifest_atomic in Ew; [|done].
  destruct err as [err|]; intros [= <- _ <- <-]; [done|]. destruct Ew as [Hf Hr]. exists m. split_and!; [done|done|].
  intros other Hok. unfold runImport. change "-file" with ("-" +:+ "file"). rewrite (parseCommand_file "file" path) by (right; left).
  specialize (Hr stdin Hok). destruct (readManifest _ _ _ d) as [read d']. simpl in Hr. subst read.
  destruct (Import _ _ m other) as [[result [err|]] other']; simpl; split_and!; done.
Qed.
End Atomic.

(** A disk that is full at its [n]-th call, and one that never fails. *)
Definition fullAt (n k : nat) : option string := if (k =? n)%nat then Some "no space left on device" else None.
Definition sound (k : nat) : option string := None.
Definition beside (files : gmap string File) (path : string) : string := infinite_fresh (path :: (map_to_list files).*1).
Definition tornFile (n : nat) : File := File.mk 384 (inl "unexpected EOF") false.

Lemma beside_fresh files path : files !! beside files path = None /\ beside files path <> path.
Proof.
  pose proof (infinite_is_fresh (path :: (map_to_list files).*1)) as H. fold (beside files path) in H.
  apply not_elem_of_cons in H as [H1 H2]. split; [|done]. apply eq_None_not_Some. intros [f Hf]. apply H2.
  apply list_elem_of_fmap. exists (beside files path, f). split; [done|]. by apply elem_of_map_to_list.
Qed.

(** The server of [import_export_witness] after the import, and a disk with an
    older export. *)
Definition exporting (fault : nat -> option string) : option CommandError * Printed * Wire * Disk :=
  @run fault beside tornFile _ (wire noText noSignals controlled (fun n => clockAt (Z.of_nat n)) keyOrder)
    (fun _ => true) (fun name => if name == "ALERTS_API_TOKEN" then "control" else "")
    ["export"; "-out"; "alerts.json"] (inl "EOF", false) (imports (NewWithOptions NewMemory delayed, 0)).2
    (Disk.mk {["alerts.json" := File.mk 420 (inr (New [])) false]} []).

Lemma export_atomic_witness :
  (exists m, (exporting sound).2.(Disk.files)
     = <["alerts.json" := File.mk 420 (inr m) false]> {["alerts.json" := File.mk 420 (inr (New [])) false]}) /\
  (exporting (fullAt 2)).2.(Disk.files) = {["alerts.json" := File.mk 420 (inr (New [])) false]}.
Proof.
  split.
  - destruct (exporting sound) as [[[res printed] w'] disk'] eqn:E.
    assert (match (exporting sound).1.1.1 with None => true | Some _ => false end = true) as Hres by (vm_compute; reflexivity).
    rewrite E in Hres. simpl in Hres. destruct res as [err|]; [discriminate Hres|].
    destruct (@export_atomic sound beside tornFile beside_fresh _
      (wire noText noSignals controlled (fun n => clockAt (Z.of_nat n)) keyOrder) (fun _ => true)
      (fun name => if name == "ALERTS_API_TOKEN" then "control" else "") "alerts.json" (inl "EOF", false)
      (imports (NewWithOptions NewMemory delayed, 0)).2 w' (Disk.mk {["alerts.json" := File.mk 420 (inr (New [])) false]} [])
      disk' None printed ltac:(intros H; discriminate H) E) as (m & _ & Hf & _).
    exists m. exact Hf.
  - vm_compute. reflexivity.
Defined.
