(* ===== verification/TestClient.v ===== *)
(** * cmd/testclient/main.go: the client that registers definitions and waits

    The manual test client: its options, the five definitions it registers
    over the HTTP API, its durable consumer of the alert stream and the loop
    that prints what arrives. The NATS client is the class [AlertClient], the
    HTTP client the class [Transport] of DefinitionFile.v. What is printed is
    a value; signals and the timeout are in [ContextErr]. *)

From stdpp Require Import base gmap strings list numbers pretty sorting.
From Stdlib Require Import Ascii.
From S2P Require Import Prelude GoFloat GoBase GoTime Model Json Rules RulesValid Fixtures Store Memory MemoryProps.
From S2P Require Import Engine Service ServiceProps Signals Broker Api ApiProps DefinitionFile ImportExport Flags.
Import Service Service.Service.

(** ** Strings *)

(** [strings.TrimSpace]: the longest blank prefix, then the longest blank
    suffix. *)
Definition trimLeft (s : string) : string :=
  let n := String.length s in
  let blank (k : nat) : bool := isBlank (String.substring 0 k s) in
  let k := default 0 (head (filter (fun k => blank k = true) (rev (seq 0 (S n))))) in
  String.substring k (n - k) s.
Definition trimRight (s : string) : string :=
  let n := String.length s in
  let blank (k : nat) : bool := isBlank (String.substring k (n - k) s) in
  String.substring 0 (default n (head (filter (fun k => blank k = true) (seq 0 (S n))))) s.
Definition TrimSpace (s : string) : string := trimRight (trimLeft s).

Example trim_both : TrimSpace (String "009" " a b  ") = "a b".
Proof. vm_compute. reflexivity. Qed.
Example trim_blank : TrimSpace "   " = "".
Proof. vm_compute. reflexivity. Qed.

Definition isASCII (s : string) : bool := forallb (fun c => (c <? 128)%Z) (bytesOf s).
Definition upperASCII (c : ascii) : ascii :=
  if ((97 <=? byteZ c) && (byteZ c <=? 122))%Z then ascii_of_nat (nat_of_ascii c - 32) else c.
Fixpoint mapString (f : ascii -> ascii) (s : string) : string :=
  match s with "" => "" | String c rest => String (f c) (mapString f rest) end.
(** [strings.ToUpper]; [other] is the mapping of Unicode. *)
Definition ToUpper (other : string -> string) (s : string) : string :=
  if isASCII s then mapString upperASCII s else other s.

(** ** Options *)

Module options.
Record options := mk {
  apiURL : string; apiToken : string; natsURL : string; natsToken : string; dataset : string; symbol : string;
  timeframe : string; durable : string; maxEvents : Z; timeout : Duration; jsonOutput : bool }.
End options.
Abbreviation options := options.options.

Section Options.
Context (getenv : string -> string).

Definition env (name fallback : string) : string :=
  let value := TrimSpace (getenv name) in if value != "" then value else fallback.

Definition formalFlags : list (string * Kind) :=
  strings ["api-url"; "api-token"; "nats-url"; "nats-token"; "dataset"; "symbol"; "timeframe"; "durable"]
  ++ [("max-events", IntFlag); ("timeout", DurationFlag); ("json", BoolFlag)].

(** [nats.DefaultURL] is the URL of the client's library. *)
Definition defaultFlags : gmap string string :=
  list_to_map [
    ("api-url", env "ALERTS_API_URL" "http://127.0.0.1:8100"); ("api-token", getenv "ALERTS_API_TOKEN");
    ("nats-url", env "ALERTS_NATS_URL" "nats://127.0.0.1:4222"); ("nats-token", getenv "ALERTS_NATS_TOKEN");
    ("dataset", env "ALERTS_TEST_DATASET" "live"); ("symbol", env "ALERTS_TEST_SYMBOL" "BTCUSDT");
    ("timeframe", env "ALERTS_TEST_TIMEFRAME" "1m"); ("durable", env "ALERTS_TEST_DURABLE" "ALERTS_TEST_CLIENT_V1");
    ("max-events", "0"); ("timeout", "0s"); ("json", "false")].

(** [flag.Parse] ends the process on an error; positional arguments are
    ignored. *)
Definition parseOptions (args : list string) : FlagError + options :=
  match parseFlags formalFlags defaultFlags args with
  | inl err => inl err
  | inr (values, _) =>
      let value (name : string) : string := default "" (values !! name) in
      inr (options.mk (value "api-url") (value "api-token") (value "nats-url") (value "nats-token") (value "dataset")
             (value "symbol") (value "timeframe") (value "durable") (default 0%Z (parseInt0 (value "max-events")))
             (default 0%Z (ParseDuration (value "timeout"))) (default false (parseBool (value "json"))))
  end.
End Options.

(** ** Registration *)

Inductive ClientFailure :=
| ErrRequired
| ErrConnectNATS (err : NatsError)
| ErrJetStreamContext (err : NatsError)
| ErrCreateSubscription (err : NatsError)
| ErrInspectSubscription (err : NatsError)
| ErrIncompatibleDurable
| ErrBindSubscription (err : NatsError)
| ErrRegister (name : string) (err : ClientError)
| ErrStopped (matched : Z) (err : string)
| ErrFetchAlerts (err : NatsError)
| ErrAckAlert (id : string) (err : NatsError).

Definition leaf (type direction : string) (count : Z) (elapsed : float64) : Rule :=
  Rule.mk type [] None "" "" "" "" 0 direction count (float_of_Z 0) elapsed.

(** The requests of [registerDefinitions]. *)
Definition testRequests (series : Series) : list createRequest :=
  let zero := float_of_Z 0 in
  [createRequest.mk "Test: green candle" series (leaf "candle_color" "green" 0 zero) "confirmed_close" "once_per_bar" 0;
   createRequest.mk "Test: red candle" series (leaf "candle_color" "red" 0 zero) "confirmed_close" "once_per_bar" 0;
   createRequest.mk "Test: two consecutive red candles" series (leaf "candle_streak" "red" 2 zero) "confirmed_close" "on_occurrence" 0;
   createRequest.mk "Test: two consecutive green candles" series (leaf "candle_streak" "green" 2 zero) "confirmed_close" "on_occurrence" 0;
   createRequest.mk "Test: candle flips after 50%" series (leaf "candle_color_flip" "either" 0 (float_of_Z 50)) "intrabar" "once_per_bar" 0].

Section Registration.
Context {W : Type} `{Transport W} (parses : string -> bool) (upper : string -> string).

(** [register]: [parses] tells whether [http.NewRequestWithContext] accepts
    the URL. *)
Definition register (baseURL token : string) (definition : createRequest) (w : W) : (ClientError + AlertDefinition) * W :=
  let request := CreateDefinitionRequest definition in
  if negb (encodable request) then (inl ErrEncodeRequest, w) else
  let base := trimSlashes baseURL in
  if negb (parses (base +:+ "/v1/definitions")) then (inl (ErrURL baseURL), w) else
  match send base (if token != "" then "Bearer " +:+ token else "") request w with
  | (inl text, w) => (inl (ErrExchange text), w)
  | (inr (status, output), w) =>
      if negb (status =? 201)%Z && negb (status =? 200)%Z then (inl (ErrStatus status), w) else
      match output with
      | inl text => (inl (ErrDecodeResponse text), w)
      | inr response => (inr (storedOf response), w)
      end
  end.

Fixpoint registerAll (baseURL token : string) (requests : list createRequest) (w : W)
  : (ClientFailure + list AlertDefinition) * W :=
  match requests with
  | [] => (inr [], w)
  | request :: rest =>
      match register baseURL token request w with
      | (inl err, w) => (inl (ErrRegister request.(createRequest.Name) err), w)
      | (inr definition, w) =>
          match registerAll baseURL token rest w with
          | (inl err, w) => (inl err, w)
          | (inr definitions, w) => (inr (definition :: definitions), w)
          end
      end
  end.

Definition registerDefinitions (opts : options) (w : W) : (ClientFailure + list AlertDefinition) * W :=
  let series := Series.mk opts.(options.dataset) (ToUpper upper opts.(options.symbol)) opts.(options.timeframe) in
  registerAll opts.(options.apiURL) opts.(options.apiToken) (testRequests series) w.
End Registration.

(** ** The alert stream *)

(** A message of the stream: its data is no JSON of an alert, or is one. *)
Module AlertMessage.
Record AlertMessage := mk { Sequence : Z; Data : string + Alert }.
End AlertMessage.
Abbreviation AlertMessage := AlertMessage.AlertMessage.

Inductive AlertOp := AlertTerm (m : AlertMessage) | AlertAck (m : AlertMessage).

(** A subscription: created on the stream with explicit acknowledgement, new
    messages only, a wait and a number of deliveries, or bound to a durable. *)
Inductive AlertSubscribe :=
| CreateAlerts (stream subject durable : string) (policy : AckPolicy) (deliverNew : bool) (wait : Duration) (maxDeliver : Z)
| BindAlerts (stream subject durable : string).

(** [SettleAlert (AlertAck m)] is [AckSync]. [ContextErr] is the error of the
    context, once it is done. *)
Class AlertClient (N Subscription : Type) := {
  ConnectAlerts : string -> string -> N -> option NatsError * N;
  AlertStreams : N -> option NatsError * N;
  CloseAlerts : N -> N;
  AlertConsumer : string -> string -> N -> (NatsError + ConsumerConfig) * N;
  SubscribeAlerts : AlertSubscribe -> N -> (NatsError + Subscription) * N;
  FetchAlert : Subscription -> N -> list AlertMessage * option NatsError * N;
  ContextErr : N -> option string;
  SettleAlert : AlertOp -> N -> option NatsError * N }.

(** A line that is printed, before it is formatted. *)
Inductive Line :=
| Registered (definition : AlertDefinition)
| Subscribed (durable subject : string)
| AlertJSON (alert : Alert)
| AlertText (alert : Alert)
| Discarded (text : string).

Section Waiting.
Context {N Subscription : Type} `{AlertClient N Subscription}.

Definition bound (stream subject durable : string) (n : N) : (ClientFailure + Subscription) * N :=
  match SubscribeAlerts (BindAlerts stream subject durable) n with
  | (inl err, n1) => (inl (ErrBindSubscription err), n1)
  | (inr subscription, n1) => (inr subscription, n1)
  end.

Definition subscribe (durable : string) (n : N) : (ClientFailure + Subscription) * N :=
  match AlertConsumer AlertStream durable n with
  | (inl ErrConsumerNotFound, n1) =>
      match SubscribeAlerts (CreateAlerts AlertStream AlertSubjects durable AckExplicit true (30 * Second) 20) n1 with
      | (inl err, n2) => (inl (ErrCreateSubscription err), n2)
      | (inr subscription, n2) => (inr subscription, n2)
      end
  | (inl err, n1) => (inl (ErrInspectSubscription err), n1)
  | (inr info, n1) =>
      if (info.(ConsumerConfig.FilterSubject) != AlertSubjects)
         || negb (bool_decide (info.(ConsumerConfig.AckPolicy) = AckExplicit))
      then (inl ErrIncompatibleDurable, n1)
      else bound AlertStream AlertSubjects durable n1
  end.

Definition printAlert (opts : options) (alert : Alert) : Line :=
  if opts.(options.jsonOutput) then AlertJSON alert else AlertText alert.

(** The messages of a fetch: [inl] when [run] returns, with its result, or
    [inr] the number of alerts so far; and the lines printed. *)
Fixpoint handleMessages (opts : options) (messages : list AlertMessage) (matched : Z) (n : N)
  : (option ClientFailure + Z) * list Line * N :=
  match messages with
  | [] => (inr matched, [], n)
  | message :: rest =>
      match message.(AlertMessage.Data) with
      | inl text =>
          let n1 := (SettleAlert (AlertTerm message) n).2 in
          let '(res, lines, n2) := handleMessages opts rest matched n1 in (res, Discarded text :: lines, n2)
      | inr alert =>
          match SettleAlert (AlertAck message) n with
          | (Some err, n1) => (inl (Some (ErrAckAlert alert.(Alert.ID) err)), [], n1)
          | (None, n1) =>
              let matched := (matched + 1)%Z in
              if ((0 <? opts.(options.maxEvents)) && (opts.(options.maxEvents) <=? matched))%Z
              then (inl None, [printAlert opts alert], n1)
              else let '(res, lines, n2) := handleMessages opts rest matched n1 in (res, printAlert opts alert :: lines, n2)
          end
      end
  end.

(** The loop of [run], up to [fuel] fetches; [None] when that was not the end
    of it. *)
Fixpoint waitLoop (fuel : nat) (opts : options) (subscription : Subscription) (matched : Z) (n : N)
  : option (option ClientFailure) * list Line * N :=
  match fuel with
  | 0 => (None, [], n)
  | S fuel =>
      match ContextErr n with
      | Some err => (Some (Some (ErrStopped matched err)), [], n)
      | None =>
          match FetchAlert subscription n with
          | (messages, Some ErrTimeout, n1) | (messages, None, n1) =>
              match handleMessages opts messages matched n1 with
              | (inl result, lines, n2) => (Some result, lines, n2)
              | (inr matched, lines, n2) =>
                  let '(res, more, n3) := waitLoop fuel opts subscription matched n2 in (res, lines ++ more, n3)
              end
          | (_, Some err, n1) => (Some (Some (ErrFetchAlerts err)), [], n1)
          end
      end
  end.

Context {W : Type} `{Transport W} (parses : string -> bool) (upper : string -> string).

(** After the connection was made; it is closed in any case. *)
Definition runConnected (fuel : nat) (opts : options) (n : N) (w : W)
  : option (option ClientFailure) * list Line * N * W :=
  match AlertStreams n with
  | (Some err, n) => (Some (Some (ErrJetStreamContext err)), [], n, w)
  | (None, n) =>
      match subscribe opts.(options.durable) n with
      | (inl err, n) => (Some (Some err), [], n, w)
      | (inr subscription, n) =>
          match registerDefinitions parses upper opts w with
          | (inl err, w) => (Some (Some err), [], n, w)
          | (inr definitions, w) =>
              let '(res, lines, n) := waitLoop fuel opts subscription 0 n in
              (res, (Registered <$> definitions) ++ Subscribed opts.(options.durable) AlertSubjects :: lines, n, w)
          end
      end
  end.

Definition run (fuel : nat) (opts : options) (n : N) (w : W) : option (option ClientFailure) * list Line * N * W :=
  if (opts.(options.apiURL) == "") || (opts.(options.natsURL) == "") || (opts.(options.symbol) == "")
     || (opts.(options.timeframe) == "") || (opts.(options.durable) == "")
  then (Some (Some ErrRequired), [], n, w)
  else match ConnectAlerts opts.(options.natsURL) opts.(options.natsToken) n with
  | (Some err, n) => (Some (Some (ErrConnectNATS err)), [], n, w)
  | (None, n) =>
      let '(res, lines, n, w) := runConnected fuel opts n w in
      (res, lines, match res with Some _ => CloseAlerts n | None => n end, w)
  end.
End Waiting.

(** ** Properties: what is printed *)

(** A client that also records the messages whose acknowledgement succeeded. *)
Definition logged {N Subscription} (client : AlertClient N Subscription)
  : AlertClient (N * list AlertMessage) Subscription := {|
  ConnectAlerts url token s := let '(err, n) := ConnectAlerts url token s.1 in (err, (n, s.2));
  AlertStreams s := let '(err, n) := AlertStreams s.1 in (err, (n, s.2));
  CloseAlerts s := (CloseAlerts s.1, s.2);
  AlertConsumer stream durable s := let '(res, n) := AlertConsumer stream durable s.1 in (res, (n, s.2));
  SubscribeAlerts how s := let '(res, n) := SubscribeAlerts how s.1 in (res, (n, s.2));
  FetchAlert subscription s := let '(res, n) := FetchAlert subscription s.1 in (res, (n, s.2));
  ContextErr s := ContextErr s.1;
  SettleAlert op s :=
    let '(err, n) := SettleAlert op s.1 in
    (err, (n, match op, err with AlertAck m, None => s.2 ++ [m] | _, _ => s.2 end)) |}.

(** The alerts of the lines, and of the messages. *)
Definition shown (line : Line) : option Alert :=
  match line with AlertJSON alert | AlertText alert => Some alert | _ => None end.
Definition carried (message : AlertMessage) : option Alert :=
  match message.(AlertMessage.Data) with inr alert => Some alert | inl _ => None end.

Lemma shown_print opts alert : shown (printAlert opts alert) = Some alert.
Proof. unfold printAlert. by case_goal. Qed.

Section Printed.
Context {N Subscription : Type} (client : AlertClient N Subscription) (opts : options).
Notation max := (opts.(options.maxEvents)).

(** The lines show the alerts of the acknowledged messages, in order. *)
Definition shows (lines : list Line) (acked : list AlertMessage) : Prop :=
  Some <$> omap shown lines = carried <$> acked.

(** After [total] alerts: the number wanted is reached if the result is
    success, and only then. *)
Definition balanced (total : Z) (result : option (option ClientFailure)) : Prop :=
  match result with
  | Some None => (0 < max)%Z /\ total = max
  | _ => (0 < max -> total < max)%Z
  end.

Lemma handleMessages_shows messages : forall matched n log res lines n' log',
  balanced matched None ->
  @handleMessages _ _ (logged client) opts messages matched (n, log) = (res, lines, (n', log')) ->
  exists acked, log' = log ++ acked /\ shows lines acked /\
    match res with
    | inl result => balanced (matched + Z.of_nat (length acked)) (Some result)
    | inr matched' => matched' = (matched + Z.of_nat (length acked))%Z /\ balanced matched' None
    end.
Proof.
  induction messages as [|message messages IH]; intros matched n log res lines n' log' Hb; cbn [handleMessages].
  { intros [= <- <- _ <-]. exists []. rewrite app_nil_r. simpl. rewrite Z.add_0_r. done. }
  destruct (AlertMessage.Data message) as [text|alert] eqn:Ed.
  - cbn. destruct (SettleAlert (AlertTerm message) n) as [err n1]. cbn.
    destruct (handleMessages opts messages matched (n1, log)) as [[res1 lines1] [n2 log2]] eqn:Eh.
    apply IH in Eh as (acked & -> & Hs & Hr); [|done]. intros [= <- <- _ <-]. by exists acked.
  - cbn. destruct (SettleAlert (AlertAck message) n) as [[err|] n1]; cbn.
    { intros [= <- <- _ <-]. exists []. rewrite app_nil_r. simpl. rewrite Z.add_0_r. done. }
    assert (carried message = Some alert) as Hc by (unfold carried; by rewrite Ed).
    destruct (_ && _) eqn:Em.
    + intros [= <- <- _ <-]. exists [message]. split; [done|]. unfold shows. simpl. rewrite shown_print, Hc.
      split; [done|]. simpl in Hb. lia.
    + destruct (handleMessages opts messages (matched + 1) (n1, log ++ [message])) as [[res1 lines1] [n2 log2]] eqn:Eh.
      apply IH in Eh as (acked & -> & Hs & Hr); [|simpl in *; lia]. intros [= <- <- _ <-]. exists (message :: acked).
      rewrite <- app_assoc. split; [done|]. split.
      * unfold shows in *. simpl. rewrite shown_print, Hc. cbn. by f_equal.
      * cbn [length]. replace (matched + Z.of_nat (S (length acked)))%Z with (matched + 1 + Z.of_nat (length acked))%Z by lia. done.
Qed.

Lemma shows_app lines lines' acked acked' : shows lines acked -> shows lines' acked' -> shows (lines ++ lines') (acked ++ acked').
Proof. unfold shows. intros H H'. rewrite omap_app, !fmap_app. by f_equal. Qed.

Lemma waitLoop_shows fuel subscription : forall matched n log res lines n' log',
  balanced matched None ->
  @waitLoop _ _ (logged client) fuel opts subscription matched (n, log) = (res, lines, (n', log')) ->
  exists acked, log' = log ++ acked /\ shows lines acked /\ balanced (matched + Z.of_nat (length acked)) res.
Proof.
  assert (forall matched (log : list AlertMessage), balanced matched None ->
    exists acked, log = log ++ acked /\ shows [] acked /\ balanced (matched + Z.of_nat (length acked)) None) as Hnone.
  { intros matched log Hb. exists []. rewrite app_nil_r. simpl. by rewrite Z.add_0_r. }
  induction fuel as [|fuel IH]; intros matched n log res lines n' log' Hb; cbn [waitLoop].
  { intros [= <- <- _ <-]. by apply Hnone. }
  cbn. destruct (ContextErr n) as [err|]; [intros [= <- <- _ <-]; by apply Hnone|].
  destruct (FetchAlert subscription n) as [[messages err] n1]. cbn.
  destruct err as [[]|]; try (intros [= <- <- _ <-]; by apply Hnone);
    destruct (handleMessages opts messages matched (n1, log)) as [[[result|matched1] lines1] [n2 log2]] eqn:Eh;
    apply handleMessages_shows in Eh as (acked & -> & Hs & Hr); try done;
    try (intros [= <- <- _ <-]; by exists acked);
    (destruct Hr as [-> Hb1];
     destruct (waitLoop fuel opts subscription _ (n2, log ++ acked)) as [[res2 lines2] [n3 log3]] eqn:Ew;
     apply IH in Ew as (acked2 & -> & Hs2 & Hr2); [|done]; intros [= <- <- _ <-]; exists (acked ++ acked2);
     rewrite app_assoc, length_app, Nat2Z.inj_add, Z.add_assoc; split; [done|]; split; [by apply shows_app|done]).
Qed.
Lemma waiting_balanced : balanced 0 None.
Proof. simpl. lia. Qed.

Lemma subscribe_logged durable n log : (@subscribe _ _ (logged client) durable (n, log)).2.2 = log.
Proof.
  unfold subscribe, bound. cbn. destruct (AlertConsumer _ _ n) as [[[]|info] n1]; cbn; try done.
  - by destruct (SubscribeAlerts _ n1) as [[err|subscription] n2].
  - case_goal; [done|]. by destruct (SubscribeAlerts _ n1) as [[err|subscription] n2].
Qed.

Lemma shows_nothing : shows [] [].
Proof. done. Qed.

Lemma shows_registered definitions line lines acked :
  shown line = None -> shows lines acked -> shows ((Registered <$> definitions) ++ line :: lines) acked.
Proof.
  intros Hl Hs. unfold shows in *. rewrite omap_app. assert (omap shown (Registered <$> definitions) = []) as ->
    by (induction definitions; done). cbn. by rewrite Hl.
Qed.

(** C35: what the client prints it has acknowledged. Whatever the broker
    delivers and whatever calls fail, the alerts it prints are those of the
    messages whose acknowledgement succeeded, once each and in that order,
    and messages that are no alerts are never acknowledged. It never takes
    more alerts than it was asked for, and it ends with success exactly when a
    number was asked for and reached. *)
Theorem printed_acknowledged {W : Type} `{Transport W} (parses : string -> bool) (upper : string -> string)
  (fuel : nat) (n n' : N) (w w' : W) (result : option ClientFailure) (lines : list Line) (acked : list AlertMessage) :
  @run _ _ (logged client) _ _ parses upper fuel opts (n, []) w = (Some result, lines, (n', acked), w') ->
  Some <$> omap shown lines = carried <$> acked /\
  ((0 < max)%Z -> (Z.of_nat (length acked) <= max)%Z) /\
  (result = None <-> (0 < max)%Z /\ Z.of_nat (length acked) = max).
Proof.
  intros Hrun. cut (shows lines acked /\ balanced (Z.of_nat (length acked)) (Some result)).
  { intros [Hs Hb]. split; [exact Hs|]. destruct result; simpl in Hb; split; try lia; split; [done|lia|lia|done]. }
  pose proof shows_nothing as Hn. pose proof waiting_balanced as Hw0.
  unfold run in Hrun. case_hyp Hrun; [by injection Hrun as <- <- _ <- _|].
  cbn -[registerDefinitions waitLoop subscribe] in Hrun. destruct (ConnectAlerts _ _ n) as [[err|] n1]; cbn -[registerDefinitions waitLoop subscribe] in Hrun; [by injection Hrun as <- <- _ <- _|].
  unfold runConnected in Hrun. cbn -[registerDefinitions waitLoop subscribe] in Hrun.
  destruct (AlertStreams n1) as [[err|] n2]; cbn -[registerDefinitions waitLoop subscribe] in Hrun; [by injection Hrun as <- <- _ <- _|].
  pose proof (subscribe_logged opts.(options.durable) n2 []) as Hlog.
  destruct (subscribe _ (n2, [])) as [[err|subscription] [n3 log3]]; simpl in Hlog; subst log3; [by injection Hrun as <- <- _ <- _|].
  destruct (registerDefinitions parses upper opts w) as [[err|definitions] w1]; [by injection Hrun as <- <- _ <- _|].
  destruct (waitLoop fuel opts subscription 0 (n3, [])) as [[res lines1] [n4 log4]] eqn:Ew.
  apply waitLoop_shows in Ew as (acked1 & -> & Hs & Hb); [|done].
  destruct res as [res|]; [|done]. injection Hrun as <- <- _ <- _. rewrite Z.add_0_l in Hb. split; [|done].
  by apply shows_registered.
Qed.
End Printed.

(** ** Properties: what is registered *)

Section Registering.
Context (errorText : ServiceError -> string) (signalsText : SignalsError -> string)
  (server : Api.Options) (clock : nat -> Clock) (env : nat -> Memory -> Env).
Context (parses : string -> bool) (upper : string -> string).
#[local] Existing Instance wire.
Notation wired := (wire errorText signalsText server clock env).

(** The client may use the server: no token is asked for, or it has it. *)
Definition admitted (url token : string) : Prop :=
  parses (trimSlashes url +:+ "/v1/definitions") = true /\
  (server.(Options.Insecure) = true \/ (token <> "" /\ server.(Options.APIToken) = token)).

Lemma register_create url token n d (s : Service Memory) stored created s' :
  admitted url token -> is_Some (encodeRule d.(Definition_.Rule)) ->
  Service.Create (clock n) d.(Definition_.Name) d.(Definition_.Series) d.(Definition_.Rule)
    d.(Definition_.EvaluationMode) d.(Definition_.TriggerMode) d.(Definition_.CooldownSeconds) s
    = (Some (stored, created, None), s') ->
  @register _ wired parses url token (requestOf d) (s, n) = (inr stored, (s', S n)).
Proof.
  intros [Hp Ht] He Hc. unfold register. assert (encodable (CreateDefinitionRequest (requestOf d)) = true) as ->
    by (by apply bool_decide_eq_true). rewrite Hp. cbn [negb].
  erewrite send_handled.
  2:{ apply handle_create; [|exact Hc]. destruct Ht as [?|[Ht ->]]; [by right|]. left. left.
      apply String.eqb_neq in Ht. by rewrite Ht. }
  by destruct created.
Qed.

(** What is asked for: enabled, and valid. *)
Definition requested (d : Definition_) : Prop := importable d /\ switchedOn d = d.

Lemma registerAll_new url token rest : forall l (s : Service Memory) n,
  admitted url token -> Forall requested rest -> NoDup (idOf <$> l ++ rest) -> NoDup (hashOf <$> l ++ rest) ->
  imported l s.(repo) ->
  exists definitions s', @registerAll _ wired parses url token (requestOf <$> rest) (s, n) = (inr definitions, (s', n + length rest)) /\
    portable <$> definitions = explicit <$> rest /\ imported (l ++ rest) s'.(repo).
Proof.
  induction rest as [|d rest IH]; intros l s n Had Hv Hids Hhashes Hi.
  { exists [], s. by rewrite Nat.add_0_r, app_nil_r. }
  apply Forall_cons in Hv as [[[Hd He] Hon] Hv].
  destruct (create_new clock parses n l d s Hd Hi (NoDup_fmap_middle _ _ _ _ Hids) (NoDup_fmap_middle _ _ _ _ Hhashes))
    as (stored & s1 & Ec & Hp & _ & Hi1).
  cbn [fmap list_fmap registerAll]. rewrite (register_create _ _ _ _ _ _ _ _ Had He Ec). rewrite Hon in Hp, Hi1.
  rewrite (cons_middle d l rest), app_assoc in Hids, Hhashes |- *.
  destruct (IH (l ++ [d]) s1 (S n)) as (definitions & s' & -> & Hps & Hi'); [done..|].
  exists (stored :: definitions), s'. split; [do 2 f_equal; cbn; lia|]. split; [|done]. cbn. by rewrite Hp, <- Hps.
Qed.

Lemma registerAll_again url token rest : forall l (s : Service Memory) n,
  admitted url token -> Forall requested rest -> rest ⊆ l -> imported l s.(repo) ->
  exists definitions s', @registerAll _ wired parses url token (requestOf <$> rest) (s, n) = (inr definitions, (s', n + length rest)) /\
    portable <$> definitions = explicit <$> rest /\ s'.(repo) = s.(repo).
Proof.
  induction rest as [|d rest IH]; intros l s n Had Hv Hl Hi.
  { exists [], s. by rewrite Nat.add_0_r. }
  apply Forall_cons in Hv as [[[Hd He] Hon] Hv].
  destruct (create_again clock n l d s Hd Hi) as (stored & s1 & Ec & Hp & Hr); [set_solver|].
  cbn [fmap list_fmap registerAll]. rewrite (register_create _ _ _ _ _ _ _ _ Had He Ec).
  destruct (IH l s1 (S n)) as (definitions & s' & -> & Hps & Hr'); [done|done|set_solver|by rewrite Hr|].
  exists (stored :: definitions), s'. split; [do 2 f_equal; cbn; lia|]. split; [|congruence]. cbn. by rewrite Hp, <- Hps.
Qed.

(** The definitions of the test client, as definitions of a manifest. *)
Definition testDefinitions (series : Series) : list Definition_ :=
  (fun r => Definition_.mk r.(createRequest.Name) (Some true) r.(createRequest.Series) r.(createRequest.Rule)
              r.(createRequest.EvaluationMode) r.(createRequest.TriggerMode) r.(createRequest.CooldownSeconds))
  <$> testRequests series.

Lemma testDefinitions_requested series :
  series.(Series.Symbol) <> "" -> series.(Series.Timeframe) <> "" -> Forall requested (testDefinitions series).
Proof.
  intros Hs%String.eqb_neq Ht%String.eqb_neq.
  unfold testDefinitions, testRequests. cbn [fmap list_fmap].
  repeat (apply List.Forall_cons; [split; [split|reflexivity]|]); [..|apply List.Forall_nil];
    first [eexists; vm_compute; reflexivity
          |unfold validateDefinition; cbn [Definition_.Series createRequest.Series]; rewrite Hs, Ht; vm_compute; reflexivity].
Qed.
End Registering.

(** Starting the client is repeatable. On an empty server that admits it,
    a client with a symbol and a timeframe registers its five definitions as
    they are listed in the program, all enabled; a client that is started
    again, with the same options, gets the same five back and changes nothing
    on the server. (No two of them may have the same hash.) *)
Theorem client_restart_registers (errorText : ServiceError -> string) (signalsText : SignalsError -> string)
  (server : Api.Options) (clock : nat -> Clock) (env : nat -> Memory -> Env) (parses : string -> bool)
  (upper : string -> string) (o : Service.Options) (opts : options) :
  let series := Series.mk opts.(options.dataset) (ToUpper upper opts.(options.symbol)) opts.(options.timeframe) in
  let registered := @registerDefinitions _ (wire errorText signalsText server clock env) parses upper opts in
  admitted server parses opts.(options.apiURL) opts.(options.apiToken) ->
  ToUpper upper opts.(options.symbol) <> "" -> opts.(options.timeframe) <> "" ->
  NoDup (idOf <$> testDefinitions series) -> NoDup (hashOf <$> testDefinitions series) ->
  exists first s again s',
    registered (NewWithOptions NewMemory o, 0) = (inr first, (s, 5)) /\
    portable <$> first = testDefinitions series /\
    registered (s, 5) = (inr again, (s', 10)) /\
    portable <$> again = testDefinitions series /\ s'.(repo) = s.(repo).
Proof.
  intros series registered Had Hs Ht Hids Hhashes.
  pose proof (testDefinitions_requested series Hs Ht) as Hreq.
  destruct (registerAll_new errorText signalsText server clock env parses _ _ _ [] (NewWithOptions NewMemory o) 0
              Had Hreq Hids Hhashes imported_empty) as (first & s & E & Hp & Hi).
  destruct (registerAll_again errorText signalsText server clock env parses upper _ _ (testDefinitions series) (testDefinitions series) s 5
              Had Hreq (reflexivity _) Hi) as (again & s' & E' & Hp' & Hr).
  exists first, s, again, s'. done.
Qed.

Definition testOptions : options :=
  match parseOptions (fun key => if key == "ALERTS_API_TOKEN" then "control" else "") ["-max-events=2"; "-json"] with
  | inr opts => opts
  | inl _ => options.mk "" "" "" "" "" "" "" "" 0 0 false
  end.
Example options_parsed :
  testOptions = options.mk "http://127.0.0.1:8100" "control" "nats://127.0.0.1:4222" "" "live" "BTCUSDT" "1m"
    "ALERTS_TEST_CLIENT_V1" 2 0 true.
Proof. vm_compute. reflexivity. Qed.

Definition unchanged (s : string) : string := s.
(** A stream that delivers an alert, something else, and alerts on and on, and
    whose time outs are the fetches with an odd number. *)
Definition streamAlert (id : string) : Alert :=
  Alert.mk "io.ytstack.alert.triggered.v1" id "red" 1 "red" "red" "one" "one" btc Fixtures.start Fixtures.start [] []
    noAlgorithm 1 "confirmed" None "" 1.
Definition streamed (k : nat) : list AlertMessage :=
  match k with
  | 0 => [AlertMessage.mk 1 (inr (streamAlert "a")); AlertMessage.mk 2 (inl "unexpected end of JSON input")]
  | _ => [AlertMessage.mk (3 + Z.of_nat k) (inr (streamAlert "b"))]
  end.
Definition station : AlertClient nat unit := {|
  ConnectAlerts _ _ n := (None, n);
  AlertStreams n := (None, n);
  CloseAlerts n := n;
  AlertConsumer _ _ n := (inl ErrConsumerNotFound, n);
  SubscribeAlerts _ n := (inr (), n);
  FetchAlert _ n := (if Nat.odd n then [] else streamed (n / 2), if Nat.odd n then Some ErrTimeout else None, S n);
  ContextErr _ := None;
  SettleAlert _ n := (None, n) |}.
(** A server that creates whatever it is sent. *)
Definition willing : Transport nat := {|
  send _ _ _ k := (inr (201%Z, inr (DefinitionResponse AlertDefinition.zero)), S k) |}.
Definition waited :=
  @run _ _ (logged station) _ willing (fun _ => true) unchanged 9 testOptions (0, []) 0.

Lemma printed_acknowledged_witness :
  waited.1.1.1 = Some None /\ length waited.1.1.2 = 9 /\
  Some <$> omap shown waited.1.1.2 = carried <$> waited.1.2.2 /\ length waited.1.2.2 = 2.
Proof.
  split; [vm_compute; reflexivity|]. split; [vm_compute; reflexivity|].
  destruct (@printed_acknowledged _ _ station testOptions _ willing (fun _ => true) unchanged 9 0 waited.1.2.1
    0 waited.2 None waited.1.1.2 waited.1.2.2) as (H & _ & Hr).
  - vm_compute. reflexivity.
  - split; [exact H|]. destruct (proj1 Hr eq_refl) as [_ Hl]. change (options.maxEvents testOptions) with 2%Z in Hl.
    apply Nat2Z.inj. exact Hl.
Defined.
